(** * The message store server of the AI-detect plugin (src/index.ts)
      and the plugin itself (src/unnamed/part_000)

    A shallow embedding of the Express/SQLite server: the relational
    schema as lists of typed rows, the request handlers as computations
    in a small reader/state monad, and the properties of ingestion,
    context assembly, transcript rendering and the read endpoints.  The
    BetterDiscord plugin that feeds the server is embedded as the
    transitions of its instance in the event loop of the browser.

    Modelling conventions.
    - A TEXT column is an [option string] and an INTEGER column an
      [option Z]; [None] is SQL NULL.  Strings are sequences of bytes;
      SQLite compares TEXT bytewise.
    - Payload fields carry the types the schema stores them at, as in the
      interfaces [Author] and [Message] of the source; an absent
      ([undefined]) or [null] property is [None].  An element of a child
      array is an object or [null]; reading a property of a [null]
      element throws.
    - The statements a handler issues are applied in the order it issues
      them and a request is served to completion before the next one.
      SQLite may complete the statements a handler sends in one tick in
      another order: what is stated of the rows and console lines they
      leave is stated up to their order.
    - What the server cannot control is in the environment [Env] of a
      request: the outcome of every statement (success or the error
      message SQLite reports), the clock, and the replies of the two
      external services.  Every theorem quantifies over it.
    - [JSON.stringify], the parsing of dates and [toISOString] belong to
      the JavaScript runtime: they are Variables of the section of the
      server.
    - Of the console only the lines written with [console.error] are
      kept.
    - SQLite leaves open the order of rows that tie in an ORDER BY, and
      a JavaScript engine the result of a sort whose comparator returns
      NaN; the model keeps such rows in the order it meets them.  No
      theorem depends on that order. *)

From Stdlib Require Import String Ascii List ZArith Bool Arith Lia.
From Stdlib Require Import Sorted Permutation DecimalString OrderedTypeEx.
Import ListNotations.

Local Open Scope string_scope.
Local Open Scope list_scope.

(** ** Stable sorting

    Both ORDER BY and [Array.prototype.sort] are modelled by insertion:
    [x] goes before the first element it may precede, so elements that
    compare equal keep their order. *)
Fixpoint insert_by {A} (le : A -> A -> bool) (x : A) (l : list A) : list A :=
  match l with
  | [] => [x]
  | y :: rest => if le x y then x :: l else y :: insert_by le x rest
  end.

Fixpoint sort_by {A} (le : A -> A -> bool) (l : list A) : list A :=
  match l with
  | [] => []
  | x :: rest => insert_by le x (sort_by le rest)
  end.

(** ** JavaScript values and operators the handlers use *)
Module JS.

(** A JSON value, for the properties stored through [JSON.stringify]
    and for the bodies exchanged with the external services. *)
#[local] Unset Elimination Schemes.
Inductive json : Type :=
| JNull
| JBool (b : bool)
| JNum (n : Z)
| JStr (s : string)
| JArr (items : list json)
| JObj (fields : list (string * json)).
#[local] Set Elimination Schemes.

(** Truthiness ([x ? a : b], [x || y], [!x]) at each property type. *)
Definition truthy_str (v : option string) : bool :=
  match v with
  | Some s => negb (String.eqb s "")
  | None => false
  end.

Definition truthy_num (v : option Z) : bool :=
  match v with
  | Some n => negb (Z.eqb n 0)
  | None => false
  end.

Definition truthy_bool (v : option bool) : bool :=
  match v with
  | Some b => b
  | None => false
  end.

Definition truthy_json (v : option json) : bool :=
  match v with
  | Some JNull => false
  | Some (JBool b) => b
  | Some (JNum n) => negb (Z.eqb n 0)
  | Some (JStr s) => negb (String.eqb s "")
  | Some (JArr _) => true
  | Some (JObj _) => true
  | None => false
  end.

(** [x || null] *)
Definition or_null_str (v : option string) : option string :=
  if truthy_str v then v else None.

Definition or_null_num (v : option Z) : option Z :=
  if truthy_num v then v else None.

(** [x ? 1 : 0] *)
Definition one_or_zero (b : bool) : option Z :=
  Some (if b then 1%Z else 0%Z).

(** [a || b] on two nullable strings *)
Definition or_else_str (a b : option string) : option string :=
  if truthy_str a then a else b.

(** A nullable string inside a template literal. *)
Definition template_str (v : option string) : string :=
  match v with
  | Some s => s
  | None => "null"
  end.

(** [Array.prototype.join]: the separator goes before every element
    but the first. *)
Fixpoint join_from (sep : string) (first : bool) (l : list string) : string :=
  match l with
  | [] => ""
  | x :: rest =>
      (if first then "" else sep) ++ x ++ join_from sep false rest
  end.

Definition Array_join (l : list string) (sep : string) : string :=
  join_from sep true l.

(** The line feed of ["\n"]. *)
Definition LF : string := String (ascii_of_nat 10) EmptyString.

(** [array.sort(compareFn)]: [a] stays before [b] unless the comparator
    is positive; a NaN comparator ([None]) counts as zero.  Where the
    comparator gives NaN for some pairs the engine may leave another
    rearrangement of the array. *)
Definition Array_sort {A} (compareFn : A -> A -> option Z) : list A -> list A :=
  sort_by (fun a b =>
    match compareFn a b with
    | Some v => (v <=? 0)%Z
    | None => true
    end).

(** [s.slice(b, e)] and [s.substr(start, len)] for indices within
    range or beyond the end of [s]. *)
Definition slice (s : string) (b e : nat) : string := substring b (e - b) s.
Definition substr (s : string) (start len : nat) : string := substring start len s.

(** [n.toString()] for a length. *)
Definition nat_toString (n : nat) : string :=
  NilZero.string_of_uint (Nat.to_uint n).

(** [new Date(t)] keeps a time value only within the range of ECMAScript
    dates; outside it the date is invalid ([None]). *)
Definition max_time : Z := 8640000000000000.

Definition TimeClip (t : option Z) : option Z :=
  match t with
  | Some ms => if (Z.abs ms <=? max_time)%Z then Some ms else None
  | None => None
  end.

(** The outcome of an awaited promise or of a block that may throw. *)
Inductive Result (A : Type) : Type :=
| Resolved (a : A)
| Rejected (message : string).
Arguments Resolved {A} a.
Arguments Rejected {A} message.

(** [array.map(f)] where [f] may throw: the first exception ends it. *)
Fixpoint Array_map {A B} (f : A -> Result B) (l : list A) : Result (list B) :=
  match l with
  | [] => Resolved []
  | x :: rest =>
      match f x with
      | Rejected e => Rejected e
      | Resolved y =>
          match Array_map f rest with
          | Rejected e => Rejected e
          | Resolved ys => Resolved (y :: ys)
          end
      end
  end.

End JS.
Import JS.

(** ** The fragment of SQL the queries use *)
Module Sql.

(** [a = b]: NULL on either side makes the comparison NULL, which a
    WHERE or ON clause treats as false. *)
Definition eq (a b : option string) : bool :=
  match a, b with
  | Some x, Some y => String.eqb x y
  | _, _ => false
  end.

(** [a != b] *)
Definition neq (a b : option string) : bool :=
  match a, b with
  | Some x, Some y => negb (String.eqb x y)
  | _, _ => false
  end.

(** The order of ORDER BY on a TEXT column: NULL first, then bytewise. *)
Definition le (a b : option string) : bool :=
  match a, b with
  | None, _ => true
  | Some _, None => false
  | Some x, Some y => String.leb x y
  end.

(** [v BETWEEN lo AND hi] *)
Definition between (v lo hi : option string) : bool :=
  match v, lo, hi with
  | Some x, Some l, Some h => String.leb l x && String.leb x h
  | _, _, _ => false
  end.

(** [ORDER BY c] and [ORDER BY c DESC] on a TEXT column [c]. *)
Definition order_by {A} (c : A -> option string) : list A -> list A :=
  sort_by (fun a b => le (c a) (c b)).

Definition order_by_desc {A} (c : A -> option string) : list A -> list A :=
  sort_by (fun a b => le (c b) (c a)).

(** [LIMIT n] *)
Definition limit {A} (n : nat) (l : list A) : list A := firstn n l.

(** [INSERT OR REPLACE] on a table whose primary key is the TEXT column
    [key]: the rows holding the new key go, the new row is added.  A
    NULL key conflicts with no row. *)
Definition insert_or_replace {A} (key : A -> option string) (r : A) (t : list A) : list A :=
  filter (fun old => negb (eq (key old) (key r))) t ++ [r].

(** The rowid an AUTOINCREMENT table gives its next row: one more than
    the largest rowid the table has ever held. *)
Definition next_rowid (seq : Z) (ids : list Z) : Z :=
  (Z.max seq (fold_right Z.max 0%Z ids) + 1)%Z.

End Sql.

(** ** The schema: one record per table row *)

Record message_row := {
  messages_id : option string;
  messages_event_type : option string;
  messages_guildId : option string;
  messages_channelId : option string;
  messages_message_guild_id : option string;
  messages_author_id : option string;
  messages_content : option string;
  messages_edited_timestamp : option string;
  messages_flags : option Z;
  messages_nonce : option string;
  messages_pinned : option Z;
  messages_message_timestamp : option string;
  messages_tts : option Z;
  messages_message_type : option Z;
  messages_optimistic : option Z;
  messages_isPushNotification : option Z;
  messages_created_at : option string
}.

Record author_row := {
  authors_id : option string;
  authors_avatar : option string;
  authors_clan : option string;
  authors_discriminator : option string;
  authors_primary_guild : option string;
  authors_username : option string;
  authors_publicFlags : option Z;
  authors_avatarDecorationData : option string;
  authors_globalName : option string
}.

Record attachment_row := {
  attachments_id : Z;
  attachments_message_id : option string;
  attachments_attachment_id : option string;
  attachments_filename : option string;
  attachments_size : option Z;
  attachments_url : option string;
  attachments_proxy_url : option string;
  attachments_height : option Z;
  attachments_width : option Z
}.

Record embed_row := {
  embeds_id : Z;
  embeds_message_id : option string;
  embeds_title : option string;
  embeds_embed_type : option string;
  embeds_description : option string;
  embeds_url : option string;
  embeds_timestamp : option string;
  embeds_color : option Z;
  embeds_footer : option string;
  embeds_image : option string;
  embeds_thumbnail : option string;
  embeds_video : option string;
  embeds_provider : option string;
  embeds_fields : option string
}.

Record component_row := {
  components_id : Z;
  components_message_id : option string;
  components_comp_type : option Z;
  components_label : option string;
  components_style : option Z;
  components_custom_id : option string;
  components_url : option string;
  components_disabled : option Z;
  components_emoji : option string
}.

Record member_row := {
  members_message_id : option string;
  members_avatar : option string;
  members_banner : option string;
  members_communication_disabled_until : option string;
  members_deaf : option Z;
  members_flags : option Z;
  members_joined_at : option string;
  members_mute : option Z;
  members_nick : option string;
  members_pending : option Z;
  members_premium_since : option string;
  members_roles : option string
}.

Record mention_row := {
  mentions_id : Z;
  mentions_message_id : option string;
  mentions_user_id : option string;
  mentions_username : option string;
  mentions_discriminator : option string;
  mentions_avatar : option string;
  mentions_globalName : option string
}.

Record message_reference_row := {
  message_references_message_id : option string;
  message_references_ref_channel_id : option string;
  message_references_ref_guild_id : option string;
  message_references_ref_message_id : option string;
  message_references_ref_type : option Z
}.

Record referenced_message_row := {
  referenced_messages_id : option string;
  referenced_messages_parent_message_id : option string;
  referenced_messages_channel_id : option string;
  referenced_messages_content : option string;
  referenced_messages_edited_timestamp : option string;
  referenced_messages_flags : option Z;
  referenced_messages_mention_everyone : option Z;
  referenced_messages_pinned : option Z;
  referenced_messages_timestamp : option string;
  referenced_messages_tts : option Z;
  referenced_messages_ref_message_type : option Z
}.

Record user_insight_row := {
  user_insights_id : Z;
  user_insights_user_id : option string;
  user_insights_insight_name : option string;
  user_insights_insight_value : option string
}.

(** The database: the ten tables in insertion order, and the rowid
    counters of the AUTOINCREMENT tables. *)
Record DB := {
  messages : list message_row;
  authors : list author_row;
  attachments : list attachment_row;
  embeds : list embed_row;
  components : list component_row;
  members : list member_row;
  mentions : list mention_row;
  message_references : list message_reference_row;
  referenced_messages : list referenced_message_row;
  user_insights : list user_insight_row;
  seq_attachments : Z;
  seq_embeds : Z;
  seq_components : Z;
  seq_mentions : Z
}.

(** The database after the CREATE TABLE IF NOT EXISTS statements ran on
    a fresh file. *)
Definition empty_db : DB := {|
  messages := []; authors := []; attachments := []; embeds := [];
  components := []; members := []; mentions := [];
  message_references := []; referenced_messages := []; user_insights := [];
  seq_attachments := 0; seq_embeds := 0; seq_components := 0; seq_mentions := 0
|}.

(** ** The payload of POST /messages *)

Record AuthorJson := {
  author_id : option string;
  author_avatar : option string;
  author_clan : option string;
  author_discriminator : option string;
  author_primary_guild : option string;
  author_username : option string;
  author_publicFlags : option Z;
  author_avatarDecorationData : option string;
  author_globalName : option string
}.

Record AttachmentJson := {
  att_id : option string;
  att_filename : option string;
  att_size : option Z;
  att_url : option string;
  att_proxy_url : option string;
  att_height : option Z;
  att_width : option Z
}.

Record EmbedJson := {
  embed_title : option string;
  embed_type : option string;
  embed_description : option string;
  embed_url : option string;
  embed_timestamp : option string;
  embed_color : option Z;
  embed_footer : option json;
  embed_image : option json;
  embed_thumbnail : option json;
  embed_video : option json;
  embed_provider : option json;
  embed_fields : option json
}.

Record ComponentJson := {
  comp_type : option Z;
  comp_label : option string;
  comp_style : option Z;
  comp_custom_id : option string;
  comp_url : option string;
  comp_disabled : option bool;
  comp_emoji : option json
}.

Record MemberJson := {
  mem_avatar : option string;
  mem_banner : option string;
  mem_communication_disabled_until : option string;
  mem_deaf : option bool;
  mem_flags : option Z;
  mem_joined_at : option string;
  mem_mute : option bool;
  mem_nick : option string;
  mem_pending : option bool;
  mem_premium_since : option string;
  mem_roles : option json
}.

Record MentionJson := {
  mention_id : option string;
  mention_username : option string;
  mention_discriminator : option string;
  mention_avatar : option string;
  mention_globalName : option string
}.

Record MessageReferenceJson := {
  ref_channel_id : option string;
  ref_guild_id : option string;
  ref_message_id : option string;
  ref_type : option Z
}.

Record ReferencedMessageJson := {
  refMsg_id : option string;
  refMsg_channel_id : option string;
  refMsg_content : option string;
  refMsg_edited_timestamp : option string;
  refMsg_flags : option Z;
  refMsg_mention_everyone : option bool;
  refMsg_pinned : option bool;
  refMsg_timestamp : option string;
  refMsg_tts : option bool;
  refMsg_type : option Z
}.

(** [message]: the arrays are [None] when the property is not an array,
    the objects when the property is falsy.  An element of an array is
    the object the handler reads, or [None] for a JSON [null], of which
    no property can be read. *)
Record MessageJson := {
  message_id : option string;
  message_guild_id : option string;
  message_content : option string;
  message_edited_timestamp : option string;
  message_flags : option Z;
  message_nonce : option string;
  message_pinned : option bool;
  message_timestamp : option string;
  message_tts : option bool;
  message_type : option Z;
  message_author : option AuthorJson;
  message_attachments : option (list (option AttachmentJson));
  message_embeds : option (list (option EmbedJson));
  message_components : option (list (option ComponentJson));
  message_member : option MemberJson;
  message_mentions : option (list (option MentionJson));
  message_message_reference : option MessageReferenceJson;
  message_referenced_message : option ReferencedMessageJson
}.

(** [req.body] of POST /messages *)
Record Envelope := {
  body_type : option string;
  body_guildId : option string;
  body_channelId : option string;
  body_message : option MessageJson;
  body_optimistic : option bool;
  body_isPushNotification : option bool
}.

(** ** Rows of the joined queries and response bodies *)

(** A row of [SELECT m.*, a.username, a.avatar, a.globalName FROM
    messages m LEFT JOIN authors a ON m.author_id = a.id]: the interface
    [Message] of the source. *)
Record Message := {
  m : message_row;
  username : option string;
  avatar : option string;
  globalName : option string
}.

(** A row of the same join without [a.avatar]. *)
Record RelatedMessage := {
  related_m : message_row;
  related_username : option string;
  related_globalName : option string
}.

Record MessageContext := {
  message : Message;
  channel_id : option string;
  context_messages : list Message;
  context_message_count : nat
}.

(** One slot of the combined answer of GET /messages/:id: the rows, or
    the error of that query. *)
Definition Slot (A : Type) : Type := (string + list A)%type.

Record MessageDetail := {
  detail_message : Message;
  detail_attachments : Slot attachment_row;
  detail_embeds : Slot embed_row;
  detail_components : Slot component_row;
  detail_member : Slot member_row;
  detail_mentions : Slot mention_row;
  detail_message_reference : Slot message_reference_row;
  detail_referenced_message : Slot referenced_message_row
}.

Record Insight := {
  insight_name : string;
  insight_value : string
}.

Record MessageWithContext := {
  with_message : message_row;
  related_messages : list RelatedMessage
}.

(** The JSON bodies the handlers send, one constructor per shape. *)
Inductive Body : Type :=
| SuccessFalse (error : string)          (* {success: false, error} *)
| SuccessTrue                            (* {success: true} *)
| ErrorBody (error : string)             (* {error} *)
| MessagesBody (rows : list Message)     (* {messages: rows} *)
| MessageDetailBody (detail : MessageDetail)
| LogBody (log : list string)            (* {messages: log} *)
| AuthorsBody (rows : list author_row)   (* {authors: rows} *)
| AuthorBody (row : author_row)          (* {author: row} *)
| AttachmentsBody (rows : list attachment_row)
| EmbedsBody (rows : list embed_row)
| ComponentsBody (rows : list component_row)
| MemberBody (row : option member_row)   (* {member: row}, row may be undefined *)
| MentionsBody (rows : list mention_row)
| MessageReferenceBody (row : option message_reference_row)
| ReferencedMessageBody (row : option referenced_message_row)
| ContextBody (context : MessageContext)
| UpstreamBody (data : json)             (* response.data of the classifier *)
| ToneBody (tone : option json)          (* {tone}, tone may be undefined *)
| NoMessagesBody (user_id : string)      (* {user_id, message_count: 0, message} *)
| GeneratedBody (user_id : string) (message_count : nat)
    (insights : list Insight) (with_context : list MessageWithContext)
| NoInsightsBody (user_id : string)      (* {user_id, insights: [], message} *)
| InsightsBody (user_id : string) (insights : list user_insight_row).

Record Response := {
  status : Z;
  body : Body
}.

(** [res.json(b)] and [res.status(n).json(b)] *)
Definition json_response (b : Body) : Response := {| status := 200; body := b |}.
Definition status_response (n : Z) (b : Body) : Response := {| status := n; body := b |}.

(** ** Environment, state and the handler monad *)

(** What a request meets outside the server. *)
Record Env := {
  (** CURRENT_TIMESTAMP while the request is served *)
  now : string;
  (** [db_fault n]: the error message of the n-th statement the request
      sends to SQLite, [None] when it succeeds *)
  db_fault : nat -> option string;
  (** [axios.post(url, data)]: [response.data], or the exception *)
  axios_post : string -> json -> Result json;
  (** [ollama.chat] on the content of the user message, followed by
      [JSON.parse(response.message.content).tone]: the tone, absent when
      the reply has none, or the exception *)
  ollama_chat_tone : string -> Result (option json)
}.

(** A call to an external service. *)
Inductive Outbound : Type :=
| AxiosPost (url : string) (data : json)
| OllamaChat (model : string) (content : string).

(** A line written with [console.error]. *)
Record ConsoleError := {
  console_label : string;
  console_detail : string
}.

Record St := {
  st_db : DB;
  (** statements sent to SQLite so far by this request *)
  st_clock : nat;
  st_console : list ConsoleError;
  (** calls made so far to the external services *)
  st_http : list Outbound
}.

Definition M (A : Type) : Type := Env -> St -> A * St.

Definition ret {A} (a : A) : M A := fun _ s => (a, s).

Definition bind {A B} (c : M A) (k : A -> M B) : M B :=
  fun e s => let (a, s') := c e s in k a e s'.

Declare Scope handler_scope.
Delimit Scope handler_scope with handler.
Notation "x <- c ;; k" := (bind c (fun x => k))
  (at level 61, c at next level, right associativity) : handler_scope.
Notation "c ;; k" := (bind c (fun _ => k))
  (at level 61, right associativity) : handler_scope.
Local Open Scope handler_scope.

Definition ask : M Env := fun e s => (e, s).

Definition console_error (label detail : string) : M unit :=
  fun _ s =>
    (tt, {| st_db := st_db s; st_clock := st_clock s;
            st_console := st_console s ++ [{| console_label := label; console_detail := detail |}];
            st_http := st_http s |}).

(** Sending one statement: the environment decides whether it fails. *)
Definition statement : M (option string) :=
  fun e s =>
    (db_fault e (st_clock s),
     {| st_db := st_db s; st_clock := S (st_clock s);
        st_console := st_console s; st_http := st_http s |}).

Definition write (f : DB -> DB) : M unit :=
  fun _ s =>
    (tt, {| st_db := f (st_db s); st_clock := st_clock s;
            st_console := st_console s; st_http := st_http s |}).

Definition read {A} (q : DB -> A) : M A := fun _ s => (q (st_db s), s).

(** [db.run(sql, params, callback)]: the callback receives the error;
    a failed statement changes nothing. *)
Definition db_run (f : DB -> DB) : M (option string) :=
  err <- statement ;;
  match err with
  | Some e => ret (Some e)
  | None => write f ;; ret None
  end.

(** [db.all(sql, params, callback)]: the error or all rows. *)
Definition db_all {A} (q : DB -> list A) : M (string + list A) :=
  err <- statement ;;
  match err with
  | Some e => ret (inl e)
  | None => rows <- read q ;; ret (inr rows)
  end.

(** [db.get(sql, params, callback)]: the error, or the first row, or
    [undefined]. *)
Definition db_get {A} (q : DB -> list A) : M (string + option A) :=
  err <- statement ;;
  match err with
  | Some e => ret (inl e)
  | None => rows <- read q ;; ret (inr (hd_error rows))
  end.

(** The TypeError of reading a property of [null]. *)
Definition TypeError_null (property : string) : string :=
  "Cannot read properties of null (reading '" ++ property ++ "')".

(** [list.forEach(f)] for a callback [f] that starts by reading
    [property] of its element: on a [null] element this throws, the
    callback sends nothing and the loop ends there.  The statements of the
    elements before it were sent.

    The statements are applied here in the order they are sent.  SQLite
    may complete statements sent in one tick in another order, so that
    the rows they add to a table stand in another order and under other
    rowids. *)
Fixpoint forEach {A} (l : list (option A)) (property : string) (f : A -> M unit)
  : M (Result unit) :=
  match l with
  | [] => ret (Resolved tt)
  | Some x :: rest => f x ;; forEach rest property f
  | None :: _ => ret (Rejected (TypeError_null property))
  end.

(** [if (Array.isArray(list)) list.forEach(f)] *)
Definition forEach_if_array {A} (l : option (list (option A))) (property : string)
  (f : A -> M unit) : M (Result unit) :=
  match l with
  | Some elements => forEach elements property f
  | None => ret (Resolved tt)
  end.

(** [a; b] inside one callback: when [a] throws, [b] is not run. *)
Definition and_then (a b : M (Result unit)) : M (Result unit) :=
  thrown <- a ;;
  match thrown with
  | Resolved _ => b
  | Rejected e => ret (Rejected e)
  end.

Notation "a ;;; b" := (and_then a b)
  (at level 61, right associativity) : handler_scope.

(** [if (err) console.error(label, err.message)] *)
Definition log_if_error (label : string) (err : option string) : M unit :=
  match err with
  | Some e => console_error label e
  | None => ret tt
  end.

(** [db.run(sql, params, function(err) { if (err) console.error(label,
    err.message); })]: a statement whose callback only logs the error. *)
Definition logged (label : string) (f : DB -> DB) : M unit :=
  err <- db_run f ;; log_if_error label err.

(** ** Writing the tables *)

Definition upsert_author (r : author_row) (d : DB) : DB := {|
  messages := messages d;
  authors := Sql.insert_or_replace authors_id r (authors d);
  attachments := attachments d; embeds := embeds d; components := components d;
  members := members d; mentions := mentions d;
  message_references := message_references d;
  referenced_messages := referenced_messages d; user_insights := user_insights d;
  seq_attachments := seq_attachments d; seq_embeds := seq_embeds d;
  seq_components := seq_components d; seq_mentions := seq_mentions d
|}.

Definition upsert_message (r : message_row) (d : DB) : DB := {|
  messages := Sql.insert_or_replace messages_id r (messages d);
  authors := authors d;
  attachments := attachments d; embeds := embeds d; components := components d;
  members := members d; mentions := mentions d;
  message_references := message_references d;
  referenced_messages := referenced_messages d; user_insights := user_insights d;
  seq_attachments := seq_attachments d; seq_embeds := seq_embeds d;
  seq_components := seq_components d; seq_mentions := seq_mentions d
|}.

(** The four AUTOINCREMENT tables: the row is built from its rowid. *)
Definition insert_attachment (r : Z -> attachment_row) (d : DB) : DB :=
  let id := Sql.next_rowid (seq_attachments d) (map attachments_id (attachments d)) in {|
  messages := messages d; authors := authors d;
  attachments := attachments d ++ [r id];
  embeds := embeds d; components := components d;
  members := members d; mentions := mentions d;
  message_references := message_references d;
  referenced_messages := referenced_messages d; user_insights := user_insights d;
  seq_attachments := id; seq_embeds := seq_embeds d;
  seq_components := seq_components d; seq_mentions := seq_mentions d
|}.

Definition insert_embed (r : Z -> embed_row) (d : DB) : DB :=
  let id := Sql.next_rowid (seq_embeds d) (map embeds_id (embeds d)) in {|
  messages := messages d; authors := authors d;
  attachments := attachments d;
  embeds := embeds d ++ [r id];
  components := components d;
  members := members d; mentions := mentions d;
  message_references := message_references d;
  referenced_messages := referenced_messages d; user_insights := user_insights d;
  seq_attachments := seq_attachments d; seq_embeds := id;
  seq_components := seq_components d; seq_mentions := seq_mentions d
|}.

Definition insert_component (r : Z -> component_row) (d : DB) : DB :=
  let id := Sql.next_rowid (seq_components d) (map components_id (components d)) in {|
  messages := messages d; authors := authors d;
  attachments := attachments d; embeds := embeds d;
  components := components d ++ [r id];
  members := members d; mentions := mentions d;
  message_references := message_references d;
  referenced_messages := referenced_messages d; user_insights := user_insights d;
  seq_attachments := seq_attachments d; seq_embeds := seq_embeds d;
  seq_components := id; seq_mentions := seq_mentions d
|}.

Definition insert_mention (r : Z -> mention_row) (d : DB) : DB :=
  let id := Sql.next_rowid (seq_mentions d) (map mentions_id (mentions d)) in {|
  messages := messages d; authors := authors d;
  attachments := attachments d; embeds := embeds d; components := components d;
  members := members d;
  mentions := mentions d ++ [r id];
  message_references := message_references d;
  referenced_messages := referenced_messages d; user_insights := user_insights d;
  seq_attachments := seq_attachments d; seq_embeds := seq_embeds d;
  seq_components := seq_components d; seq_mentions := id
|}.

Definition upsert_member (r : member_row) (d : DB) : DB := {|
  messages := messages d; authors := authors d;
  attachments := attachments d; embeds := embeds d; components := components d;
  members := Sql.insert_or_replace members_message_id r (members d);
  mentions := mentions d;
  message_references := message_references d;
  referenced_messages := referenced_messages d; user_insights := user_insights d;
  seq_attachments := seq_attachments d; seq_embeds := seq_embeds d;
  seq_components := seq_components d; seq_mentions := seq_mentions d
|}.

Definition upsert_message_reference (r : message_reference_row) (d : DB) : DB := {|
  messages := messages d; authors := authors d;
  attachments := attachments d; embeds := embeds d; components := components d;
  members := members d; mentions := mentions d;
  message_references :=
    Sql.insert_or_replace message_references_message_id r (message_references d);
  referenced_messages := referenced_messages d; user_insights := user_insights d;
  seq_attachments := seq_attachments d; seq_embeds := seq_embeds d;
  seq_components := seq_components d; seq_mentions := seq_mentions d
|}.

Definition upsert_referenced_message (r : referenced_message_row) (d : DB) : DB := {|
  messages := messages d; authors := authors d;
  attachments := attachments d; embeds := embeds d; components := components d;
  members := members d; mentions := mentions d;
  message_references := message_references d;
  referenced_messages :=
    Sql.insert_or_replace referenced_messages_id r (referenced_messages d);
  user_insights := user_insights d;
  seq_attachments := seq_attachments d; seq_embeds := seq_embeds d;
  seq_components := seq_components d; seq_mentions := seq_mentions d
|}.

(** ** The plugin (src/unnamed/part_000)

    The class [ToneIndicator] of the BetterDiscord plugin: its three
    collections, the handler of MESSAGE_CREATE and the processing of the
    messages already on screen.  An [async] method runs up to its next
    [await]; what follows the [await] is a task that resumes when the
    awaited [fetch] settles, in whatever order the replies arrive.  The
    document is outside the model: what a method reads in it is an
    argument, and what it writes to it, or to [localStorage], is left
    out. *)
Module ToneIndicator.

(** A key of a [Set] or a [Map]: a string, or [undefined]. *)
Definition key : Type := option string.

Definition same_key (a b : key) : bool :=
  match a, b with
  | Some x, Some y => String.eqb x y
  | None, None => true
  | _, _ => false
  end.

(** [set.has(k)] and [set.add(k)], the set in insertion order. *)
Definition Set_has (k : key) (s : list key) : bool := existsb (same_key k) s.

Definition Set_add (k : key) (s : list key) : list key :=
  if Set_has k s then s else s ++ [k].

(** [map.get(k)], [map.has(k)] and [map.set(k, v)], the map in insertion
    order: a key that is set again keeps its place. *)
Fixpoint Map_get {V} (k : key) (m : list (key * V)) : option V :=
  match m with
  | [] => None
  | (k', v) :: rest => if same_key k k' then Some v else Map_get k rest
  end.

Definition Map_has {V} (k : key) (m : list (key * V)) : bool :=
  match Map_get k m with
  | Some _ => true
  | None => false
  end.

Fixpoint Map_set {V} (k : key) (v : V) (m : list (key * V)) : list (key * V) :=
  match m with
  | [] => [(k, v)]
  | (k', v') :: rest =>
      if same_key k k' then (k, v) :: rest else (k', v') :: Map_set k v rest
  end.

(** [array.slice(b, e)] *)
Definition Array_slice {A} (l : list A) (b e : nat) : list A := firstn (e - b) (skipn b l).

(** A value of [messageTones]. *)
Record Tone := {
  tone_type : option string;
  tone_score : string;
  tone_display : string
}.

(** The fields of the instance the methods below use. *)
Record State := {
  processedMessages : list key;
  messageTones : list (key * Tone);
  userMessages : list (key * list string)
}.

Definition maxUserMessages : nat := 10.

Definition messagesToProcessPerBatch : nat := 5.

(** The instance once [start] has loaded the classifications [saved]
    in [localStorage]. *)
Definition started (saved : list (key * Tone)) : State := {|
  processedMessages := [];
  messageTones := saved;
  userMessages := []
|}.

(** *** The recent messages of a user *)

Definition addUserMessage (userId : key) (content : string) (this : State) : State :=
  if negb (truthy_str userId) || negb (truthy_str (Some content)) then this
  else
    let userMsgs :=
      match Map_get userId (userMessages this) with
      | Some stored => stored
      | None => []
      end in
    let pushed := userMsgs ++ [content] in
    let kept := if Nat.ltb maxUserMessages (length pushed) then tl pushed else pushed in
    {| processedMessages := processedMessages this;
       messageTones := messageTones this;
       userMessages := Map_set userId kept (userMessages this) |}.

Definition getRecentUserMessages (userId : key) (this : State) : list string :=
  match Map_get userId (userMessages this) with
  | Some stored => stored
  | None => []
  end.

(** *** Requests, replies and tasks *)

(** A call of [fetch]. *)
Inductive Fetch : Type :=
| PostMessages (message : Envelope)       (* POST http://localhost:3000/messages *)
| PostClassifier (text : list string).    (* POST http://127.0.0.1:3000/messages/classifier *)

(** [classifierData[0]]: its [label], and [score.toFixed(2)], which
    throws when there is no score. *)
Record Classification := {
  label : option string;
  score : Result string
}.

(** How a [fetch] settles: it rejects, or resolves to a response with
    its [ok] and with what [response.json()] and then [data && data[0]]
    give. *)
Inductive Reply : Type :=
| NetworkError
| Response (ok : bool) (data : Result (option Classification)).

(** What an [await] left waiting: [handleNewMessage] after its first
    [fetch], or either method after the [fetch] of the classifier. *)
Inductive Task : Type :=
| Registering (messageId authorId : key)
| Classifying (messageId : key) (existing : bool).

(** The plugin in its browser: the instance, the calls of [fetch] so
    far, the tasks waiting for a reply and the lines of
    [console.error]. *)
Record Browser := {
  plugin : State;
  fetched : list Fetch;
  awaiting : list Task;
  errors : list string
}.

Definition opened (saved : list (key * Tone)) : Browser :=
  {| plugin := started saved; fetched := []; awaiting := []; errors := [] |}.

Definition fetch (call : Fetch) (task : Task) (this : State) (b : Browser) : Browser :=
  {| plugin := this; fetched := fetched b ++ [call];
     awaiting := awaiting b ++ [task]; errors := errors b |}.

Definition console_error (line : string) (b : Browser) : Browser :=
  {| plugin := plugin b; fetched := fetched b;
     awaiting := awaiting b; errors := errors b ++ [line] |}.

Definition with_plugin (this : State) (b : Browser) : Browser :=
  {| plugin := this; fetched := fetched b; awaiting := awaiting b; errors := errors b |}.

Definition mark_processed (messageId : key) (this : State) : State :=
  {| processedMessages := Set_add messageId (processedMessages this);
     messageTones := messageTones this;
     userMessages := userMessages this |}.

(** *** handleNewMessage *)

(** [author?.id] *)
Definition authorId_of (messageData : MessageJson) : key :=
  match message_author messageData with
  | Some author => author_id author
  | None => None
  end.

(** Up to the first [await]. *)
Definition handleNewMessage (message : Envelope) (b : Browser) : Browser :=
  match body_message message with
  | None => b
  | Some messageData =>
      match message_content messageData with
      | None => b
      | Some content =>
          if negb (truthy_str (Some content)) then b
          else
            let messageId := message_id messageData in
            let authorId := authorId_of messageData in
            if Set_has messageId (processedMessages (plugin b)) then b
            else
              let this := addUserMessage authorId content
                            (mark_processed messageId (plugin b)) in
              fetch (PostMessages message) (Registering messageId authorId) this b
      end
  end.

(** After the registration settled: the status of the response is not
    looked at. *)
Definition registered (messageId authorId : key) (reply : Reply) (b : Browser) : Browser :=
  match reply with
  | NetworkError => console_error "[ToneIndicator] Error processing message:" b
  | Response _ _ =>
      let recentMessages := getRecentUserMessages authorId (plugin b) in
      fetch (PostClassifier recentMessages) (Classifying messageId false) (plugin b) b
  end.

(** [`${classification} (${score})`] *)
Definition display_of (classification : option string) (fixed : string) : string :=
  (match classification with
   | Some text => text
   | None => "undefined"
   end ++ " (" ++ fixed ++ ")")%string.

Definition set_tone (messageId : key) (classification : option string) (fixed : string)
  (this : State) : State :=
  {| processedMessages := processedMessages this;
     messageTones :=
       Map_set messageId
         {| tone_type := classification; tone_score := fixed;
            tone_display := display_of classification fixed |}
         (messageTones this);
     userMessages := userMessages this |}.

Definition caught (existing : bool) (messageId : key) : string :=
  if existing then
    ("[ToneIndicator] Error processing existing message "
     ++ match messageId with Some id => id | None => "undefined" end ++ ":")%string
  else "[ToneIndicator] Error processing message:".

(** After the classifier settled. *)
Definition classified (messageId : key) (existing : bool) (reply : Reply) (b : Browser)
  : Browser :=
  match reply with
  | NetworkError => console_error (caught existing messageId) b
  | Response false _ =>
      if existing then b else console_error "Classification request failed:" b
  | Response true (Rejected _) => console_error (caught existing messageId) b
  | Response true (Resolved None) => b
  | Response true (Resolved (Some first)) =>
      match score first with
      | Rejected _ => console_error (caught existing messageId) b
      | Resolved fixed => with_plugin (set_tone messageId (label first) fixed (plugin b)) b
      end
  end.

(** *** processExistingMessage *)

(** What the method finds in the document for a message: the text of
    its content element, if it has one, and its [data-author-id]. *)
Record Element := {
  textContent : option string;
  data_author_id : option string
}.

(** Up to its [await]; [found] is the result of [findMessageElement]. *)
Definition processExistingMessage (messageId : string) (found : option Element)
  (b : Browser) : Browser :=
  if Set_has (Some messageId) (processedMessages (plugin b)) then b
  else
    let marked := mark_processed (Some messageId) (plugin b) in
    match found with
    | None => with_plugin marked b
    | Some messageElement =>
        match textContent messageElement with
        | None => with_plugin marked b
        | Some content =>
            let authorId := data_author_id messageElement in
            if negb (truthy_str authorId) then with_plugin marked b
            else
              let this := addUserMessage authorId content marked in
              let recentMessages := getRecentUserMessages authorId this in
              fetch (PostClassifier recentMessages) (Classifying (Some messageId) true) this b
        end
    end.

(** *** processCurrentChannelMessages: what it processes, and when *)

(** An element [chat-messages-<id>] and the top of its rectangle, in
    whole units: only the order of the tops matters. *)
Record Rendered := {
  rendered_id : string;
  rendered_top : Z
}.

Definition unprocessedMessageElements (visible : list Rendered) (this : State)
  : list Rendered :=
  filter (fun element =>
            negb (Set_has (Some (rendered_id element)) (processedMessages this))
            && negb (Map_has (Some (rendered_id element)) (messageTones this)))
    visible.

Definition messagesToProcess (visible : list Rendered) (this : State) : list Rendered :=
  Array_slice
    (Array_sort (fun a b => Some (rendered_top a - rendered_top b)%Z)
       (unprocessedMessageElements visible this))
    0 50.

(** The loop [for (let i = 0; i < n; i += 5)]: each turn takes a batch
    and says whether a delay follows it.  [fuel] bounds the number of
    turns. *)
Fixpoint batches_from {A} (fuel i : nat) (toProcess : list A) : list (list A * bool) :=
  match fuel with
  | 0 => []
  | S fuel' =>
      if Nat.ltb i (length toProcess) then
        (Array_slice toProcess i (i + messagesToProcessPerBatch),
         Nat.ltb (i + messagesToProcessPerBatch) (length toProcess))
        :: batches_from fuel' (i + messagesToProcessPerBatch) toProcess
      else []
  end.

Definition batches {A} (toProcess : list A) : list (list A * bool) :=
  batches_from (length toProcess) 0 toProcess.

(** *** The events of a session *)

Inductive Event : Type :=
| MESSAGE_CREATE (message : Envelope)
| Existing (messageId : string) (found : option Element)
| Settled (n : nat) (reply : Reply).

Definition resume (task : Task) (reply : Reply) (b : Browser) : Browser :=
  match task with
  | Registering messageId authorId => registered messageId authorId reply b
  | Classifying messageId existing => classified messageId existing reply b
  end.

Fixpoint without {A} (n : nat) (l : list A) : list A :=
  match n, l with
  | _, [] => []
  | 0, _ :: rest => rest
  | S n', x :: rest => x :: without n' rest
  end.

Definition no_longer_awaiting (n : nat) (b : Browser) : Browser :=
  {| plugin := plugin b; fetched := fetched b;
     awaiting := without n (awaiting b); errors := errors b |}.

(** One turn of the event loop: a dispatched MESSAGE_CREATE, a call of
    [processExistingMessage] from a batch, or the [n]-th waiting task
    resuming with the reply to its [fetch]. *)
Definition turn (event : Event) (b : Browser) : Browser :=
  match event with
  | MESSAGE_CREATE message => handleNewMessage message b
  | Existing messageId found => processExistingMessage messageId found b
  | Settled n reply =>
      match nth_error (awaiting b) n with
      | Some task => resume task reply (no_longer_awaiting n b)
      | None => b
      end
  end.

Definition session (events : list Event) (b : Browser) : Browser :=
  fold_left (fun browser event => turn event browser) events b.

End ToneIndicator.

(** *** Vocabulary of the properties of the plugin *)

(** The last [n] elements of a list. *)
Definition lastn {A} (n : nat) (l : list A) : list A := skipn (length l - n) l.

(** The non-empty contents that the calls [addUserMessage(userId,
    content)] of a sequence give for one user, in the order of the
    calls. *)
Definition said_by (userId : string) (calls : list (ToneIndicator.key * string))
  : list string :=
  map snd
    (filter (fun call => ToneIndicator.same_key (fst call) (Some userId)
                         && negb (String.eqb (snd call) ""))
       calls).

(** The instance after a sequence of calls of [addUserMessage]. *)
Definition after_calls (calls : list (ToneIndicator.key * string))
  (this : ToneIndicator.State) : ToneIndicator.State :=
  fold_left (fun state call => ToneIndicator.addUserMessage (fst call) (snd call) state)
    calls this.

(** The message ids of the registrations among the calls of [fetch]. *)
Definition registrations (calls : list ToneIndicator.Fetch) : list ToneIndicator.key :=
  flat_map (fun call =>
              match call with
              | ToneIndicator.PostMessages message =>
                  match body_message message with
                  | Some messageData => [message_id messageData]
                  | None => []
                  end
              | ToneIndicator.PostClassifier _ => []
              end) calls.

(** The texts sent to the classifier. *)
Definition classifier_texts (calls : list ToneIndicator.Fetch) : list (list string) :=
  flat_map (fun call =>
              match call with
              | ToneIndicator.PostMessages _ => []
              | ToneIndicator.PostClassifier text => [text]
              end) calls.

(** The event carries a message with a non-empty content. *)
Definition has_content (message : Envelope) : Prop :=
  exists messageData content,
    body_message message = Some messageData
    /\ message_content messageData = Some content
    /\ content <> "".

(** The message a task works for. *)
Definition task_message (task : ToneIndicator.Task) : ToneIndicator.key :=
  match task with
  | ToneIndicator.Registering messageId _ => messageId
  | ToneIndicator.Classifying messageId _ => messageId
  end.

(** The registrations that have not settled yet. *)
Definition registering (tasks : list ToneIndicator.Task) : nat :=
  length (filter (fun task =>
                    match task with
                    | ToneIndicator.Registering _ _ => true
                    | ToneIndicator.Classifying _ _ => false
                    end) tasks).

(** What holds of the plugin at every moment of a session that began
    with the classifications [saved]. *)
Definition well_behaved (saved : list (ToneIndicator.key * ToneIndicator.Tone))
  (b : ToneIndicator.Browser) : Prop :=
  let this := ToneIndicator.plugin b in
  (forall userId,
      length (ToneIndicator.getRecentUserMessages userId this)
      <= ToneIndicator.maxUserMessages)
  /\ Forall (fun text => length text <= ToneIndicator.maxUserMessages)
       (classifier_texts (ToneIndicator.fetched b))
  /\ NoDup (ToneIndicator.processedMessages this)
  /\ NoDup (registrations (ToneIndicator.fetched b))
  /\ (forall messageId, In messageId (registrations (ToneIndicator.fetched b)) ->
        In messageId (ToneIndicator.processedMessages this))
  /\ (forall message, In (ToneIndicator.PostMessages message) (ToneIndicator.fetched b) ->
        has_content message)
  /\ (forall task, In task (ToneIndicator.awaiting b) ->
        In (task_message task) (ToneIndicator.processedMessages this))
  /\ (forall messageId,
        ToneIndicator.Map_has messageId (ToneIndicator.messageTones this) = true ->
        ToneIndicator.Map_has messageId saved = true
        \/ In messageId (ToneIndicator.processedMessages this))
  /\ length (classifier_texts (ToneIndicator.fetched b))
     + registering (ToneIndicator.awaiting b)
     <= length (ToneIndicator.processedMessages this).

(** The reply carries a classification: the response is [ok], its body
    parses, it has a first element, and that element has a score. *)
Definition classifies (reply : ToneIndicator.Reply) : bool :=
  match reply with
  | ToneIndicator.Response true (Resolved (Some first)) =>
      match ToneIndicator.score first with
      | Resolved _ => true
      | Rejected _ => false
      end
  | _ => false
  end.

(** The remaining messages of the loop, cut in batches: the simple
    description of what [batches_from] computes. *)
Fixpoint chunks {A} (fuel : nat) (remaining : list A) : list (list A * bool) :=
  match fuel with
  | 0 => []
  | S fuel' =>
      match remaining with
      | [] => []
      | _ :: _ =>
          (firstn ToneIndicator.messagesToProcessPerBatch remaining,
           Nat.ltb ToneIndicator.messagesToProcessPerBatch (length remaining))
          :: chunks fuel' (skipn ToneIndicator.messagesToProcessPerBatch remaining)
      end
  end.

(** Two elements are in the order of the page, top first. *)
Definition top_first (a b : ToneIndicator.Rendered) : bool :=
  (ToneIndicator.rendered_top a <=? ToneIndicator.rendered_top b)%Z.

(** What an existing message leaves behind when [processExistingMessage]
    is called for it: a request to the classifier, when the document
    shows a content element and an author id, or nothing. *)
Definition classifiable (found : option ToneIndicator.Element) : option (string * string) :=
  match found with
  | Some messageElement =>
      match ToneIndicator.textContent messageElement,
            ToneIndicator.data_author_id messageElement with
      | Some content, Some authorId =>
          if truthy_str (Some authorId) then Some (content, authorId) else None
      | _, _ => None
      end
  | None => None
  end.

(** The call [addUserMessage(userId, content)] that an event makes in
    the state [b], if it makes one: a new message with a content, or a
    message found on the page with a text and an author, neither of them
    processed before. *)
Definition call_of (event : ToneIndicator.Event) (b : ToneIndicator.Browser)
  : list (ToneIndicator.key * string) :=
  let processed := ToneIndicator.processedMessages (ToneIndicator.plugin b) in
  match event with
  | ToneIndicator.MESSAGE_CREATE message =>
      match body_message message with
      | Some messageData =>
          match message_content messageData with
          | Some content =>
              if truthy_str (Some content)
                 && negb (ToneIndicator.Set_has (message_id messageData) processed)
              then [(ToneIndicator.authorId_of messageData, content)]
              else []
          | None => []
          end
      | None => []
      end
  | ToneIndicator.Existing messageId (Some messageElement) =>
      match ToneIndicator.textContent messageElement with
      | Some content =>
          if negb (ToneIndicator.Set_has (Some messageId) processed)
             && truthy_str (ToneIndicator.data_author_id messageElement)
          then [(ToneIndicator.data_author_id messageElement, content)]
          else []
      | None => []
      end
  | _ => []
  end.

(** The calls of [addUserMessage] that the events make from the state
    [b] on, in their order. *)
Fixpoint calls_of (events : list ToneIndicator.Event) (b : ToneIndicator.Browser)
  : list (ToneIndicator.key * string) :=
  match events with
  | [] => []
  | event :: rest => call_of event b ++ calls_of rest (ToneIndicator.turn event b)
  end.

(** ** The server *)
Section Server.

(** The functions of the JavaScript runtime the handlers call. *)

(** [JSON.stringify] *)
Variable JSON_stringify : json -> string.
(** [new Date(s).getTime()]: the time value in milliseconds, [None] for
    an invalid date (NaN) *)
Variable Date_parse : string -> option Z.
(** [date.toISOString()] of a valid date *)
Variable Date_toISOString : Z -> string.

(** [x ? JSON.stringify(x) : null] *)
Definition stringify_or_null (v : option json) : option string :=
  match v with
  | Some j => if truthy_json v then Some (JSON_stringify j) else None
  | None => None
  end.

(** *** POST /messages: the parameter lists of its statements *)

Definition authorValues (author : AuthorJson) : author_row := {|
  authors_id := author_id author;
  authors_avatar := author_avatar author;
  authors_clan := author_clan author;
  authors_discriminator := author_discriminator author;
  authors_primary_guild := author_primary_guild author;
  authors_username := author_username author;
  authors_publicFlags := author_publicFlags author;
  authors_avatarDecorationData := author_avatarDecorationData author;
  authors_globalName := author_globalName author
|}.

(** [message.author && message.author.id] *)
Definition author_with_id (message : MessageJson) : option AuthorJson :=
  match message_author message with
  | Some author => if truthy_str (author_id author) then Some author else None
  | None => None
  end.

(** The row the message statement writes; [created_at] is left to its
    default, CURRENT_TIMESTAMP. *)
Definition msgValues (req : Envelope) (message : MessageJson) (current_timestamp : string)
  : message_row := {|
  messages_id := message_id message;
  messages_event_type := body_type req;
  messages_guildId := body_guildId req;
  messages_channelId := body_channelId req;
  messages_message_guild_id := message_guild_id message;
  messages_author_id :=
    match author_with_id message with
    | Some author => author_id author
    | None => None
    end;
  messages_content := message_content message;
  messages_edited_timestamp := message_edited_timestamp message;
  messages_flags := message_flags message;
  messages_nonce := message_nonce message;
  messages_pinned := one_or_zero (truthy_bool (message_pinned message));
  messages_message_timestamp := message_timestamp message;
  messages_tts := one_or_zero (truthy_bool (message_tts message));
  messages_message_type := message_type message;
  messages_optimistic := one_or_zero (truthy_bool (body_optimistic req));
  messages_isPushNotification := one_or_zero (truthy_bool (body_isPushNotification req));
  messages_created_at := Some current_timestamp
|}.

Definition attachmentValues (id : option string) (att : AttachmentJson) (rowid : Z)
  : attachment_row := {|
  attachments_id := rowid;
  attachments_message_id := id;
  attachments_attachment_id := or_null_str (att_id att);
  attachments_filename := or_null_str (att_filename att);
  attachments_size := or_null_num (att_size att);
  attachments_url := or_null_str (att_url att);
  attachments_proxy_url := or_null_str (att_proxy_url att);
  attachments_height := or_null_num (att_height att);
  attachments_width := or_null_num (att_width att)
|}.

Definition embedValues (id : option string) (embed : EmbedJson) (rowid : Z)
  : embed_row := {|
  embeds_id := rowid;
  embeds_message_id := id;
  embeds_title := or_null_str (embed_title embed);
  embeds_embed_type := or_null_str (embed_type embed);
  embeds_description := or_null_str (embed_description embed);
  embeds_url := or_null_str (embed_url embed);
  embeds_timestamp := or_null_str (embed_timestamp embed);
  embeds_color := or_null_num (embed_color embed);
  embeds_footer := stringify_or_null (embed_footer embed);
  embeds_image := stringify_or_null (embed_image embed);
  embeds_thumbnail := stringify_or_null (embed_thumbnail embed);
  embeds_video := stringify_or_null (embed_video embed);
  embeds_provider := stringify_or_null (embed_provider embed);
  embeds_fields := stringify_or_null (embed_fields embed)
|}.

Definition componentValues (id : option string) (comp : ComponentJson) (rowid : Z)
  : component_row := {|
  components_id := rowid;
  components_message_id := id;
  components_comp_type := or_null_num (comp_type comp);
  components_label := or_null_str (comp_label comp);
  components_style := or_null_num (comp_style comp);
  components_custom_id := or_null_str (comp_custom_id comp);
  components_url := or_null_str (comp_url comp);
  components_disabled := one_or_zero (truthy_bool (comp_disabled comp));
  components_emoji := stringify_or_null (comp_emoji comp)
|}.

Definition memberValues (id : option string) (mem : MemberJson) : member_row := {|
  members_message_id := id;
  members_avatar := or_null_str (mem_avatar mem);
  members_banner := or_null_str (mem_banner mem);
  members_communication_disabled_until := or_null_str (mem_communication_disabled_until mem);
  members_deaf := one_or_zero (truthy_bool (mem_deaf mem));
  members_flags := or_null_num (mem_flags mem);
  members_joined_at := or_null_str (mem_joined_at mem);
  members_mute := one_or_zero (truthy_bool (mem_mute mem));
  members_nick := or_null_str (mem_nick mem);
  members_pending := one_or_zero (truthy_bool (mem_pending mem));
  members_premium_since := or_null_str (mem_premium_since mem);
  members_roles := stringify_or_null (mem_roles mem)
|}.

Definition mentionValues (id : option string) (mention : MentionJson) (rowid : Z)
  : mention_row := {|
  mentions_id := rowid;
  mentions_message_id := id;
  mentions_user_id := or_null_str (mention_id mention);
  mentions_username := or_null_str (mention_username mention);
  mentions_discriminator := or_null_str (mention_discriminator mention);
  mentions_avatar := or_null_str (mention_avatar mention);
  mentions_globalName := or_null_str (mention_globalName mention)
|}.

Definition refValues (id : option string) (ref : MessageReferenceJson)
  : message_reference_row := {|
  message_references_message_id := id;
  message_references_ref_channel_id := or_null_str (ref_channel_id ref);
  message_references_ref_guild_id := or_null_str (ref_guild_id ref);
  message_references_ref_message_id := or_null_str (ref_message_id ref);
  message_references_ref_type := or_null_num (ref_type ref)
|}.

Definition refMsgValues (id : option string) (refMsg : ReferencedMessageJson)
  : referenced_message_row := {|
  referenced_messages_id := or_null_str (refMsg_id refMsg);
  referenced_messages_parent_message_id := id;
  referenced_messages_channel_id := or_null_str (refMsg_channel_id refMsg);
  referenced_messages_content := or_null_str (refMsg_content refMsg);
  referenced_messages_edited_timestamp := or_null_str (refMsg_edited_timestamp refMsg);
  referenced_messages_flags := or_null_num (refMsg_flags refMsg);
  referenced_messages_mention_everyone := one_or_zero (truthy_bool (refMsg_mention_everyone refMsg));
  referenced_messages_pinned := one_or_zero (truthy_bool (refMsg_pinned refMsg));
  referenced_messages_timestamp := or_null_str (refMsg_timestamp refMsg);
  referenced_messages_tts := one_or_zero (truthy_bool (refMsg_tts refMsg));
  referenced_messages_ref_message_type := or_null_num (refMsg_type refMsg)
|}.

(** *** POST /messages *)

(** The statements sent from the callback of the message statement,
    once it succeeded, up to [res.json({ success: true })]: [Rejected]
    when a loop threw, which leaves the rest of the callback undone. *)
Definition insert_children (message : MessageJson) : M (Result unit) :=
  let id := message_id message in
  forEach_if_array (message_attachments message) "id" (fun att =>
    logged "Failed to insert attachment:" (insert_attachment (attachmentValues id att))) ;;;
  forEach_if_array (message_embeds message) "title" (fun embed =>
    logged "Failed to insert embed:" (insert_embed (embedValues id embed))) ;;;
  forEach_if_array (message_components message) "type" (fun comp =>
    logged "Failed to insert component:" (insert_component (componentValues id comp))) ;;;
  (match message_member message with
   | Some mem => logged "Failed to insert member:" (upsert_member (memberValues id mem))
   | None => ret tt
   end ;;
   forEach_if_array (message_mentions message) "id" (fun mention =>
     logged "Failed to insert mention:" (insert_mention (mentionValues id mention)))) ;;;
  (match message_message_reference message with
   | Some ref =>
       logged "Failed to insert message reference:"
         (upsert_message_reference (refValues id ref))
   | None => ret tt
   end ;;
   match message_referenced_message message with
   | Some refMsg =>
       logged "Failed to insert referenced message:"
         (upsert_referenced_message (refMsgValues id refMsg))
   | None => ret tt
   end ;;
   ret (Resolved tt)).

(** POST /messages: the response, or [None] when the callback of the
    message statement threw before [res.json].  The author statement and
    the message statement are sent in the same tick: they are applied
    here in the order they are sent, but may complete in either order, and
    so may their console lines be written. *)
Definition post_messages (req : Envelope) : M (option Response) :=
  match body_message req with
  | None =>
      ret (Some (status_response 400 (SuccessFalse "Message object must contain an id")))
  | Some message =>
      if negb (truthy_str (message_id message)) then
        ret (Some (status_response 400 (SuccessFalse "Message object must contain an id")))
      else
        match author_with_id message with
        | Some author =>
            logged "Failed to insert/update author:" (upsert_author (authorValues author))
        | None => ret tt
        end ;;
        env <- ask ;;
        err <- db_run (upsert_message (msgValues req message (now env))) ;;
        match err with
        | Some e =>
            console_error "Failed to insert message:" e ;;
            ret (Some (status_response 500 (SuccessFalse e)))
        | None =>
            thrown <- insert_children message ;;
            match thrown with
            | Resolved _ => ret (Some (json_response SuccessTrue))
            | Rejected _ => ret None
            end
        end
  end.

(** *** The joined reads *)

(** [FROM messages m LEFT JOIN authors a ON m.author_id = a.id]: every
    message with each author whose id matches, or with none. *)
Definition left_join_authors (d : DB) : list (message_row * option author_row) :=
  flat_map (fun row =>
    match filter (fun a => Sql.eq (messages_author_id row) (authors_id a)) (authors d) with
    | [] => [(row, None)]
    | found => map (fun a => (row, Some a)) found
    end) (messages d).

Definition author_column (c : author_row -> option string) (a : option author_row)
  : option string :=
  match a with
  | Some r => c r
  | None => None
  end.

(** [SELECT m.*, a.username, a.avatar, a.globalName] *)
Definition select_message (r : message_row * option author_row) : Message := {|
  m := fst r;
  username := author_column authors_username (snd r);
  avatar := author_column authors_avatar (snd r);
  globalName := author_column authors_globalName (snd r)
|}.

(** [SELECT m.*, a.username, a.globalName] *)
Definition select_related (r : message_row * option author_row) : RelatedMessage := {|
  related_m := fst r;
  related_username := author_column authors_username (snd r);
  related_globalName := author_column authors_globalName (snd r)
|}.

Definition messages_with_authors (d : DB) : list Message :=
  map select_message (left_join_authors d).

(** *** getMessageContext *)

(** [msgSql]: [... WHERE m.id = ?] *)
Definition msgSql (messageId : string) (d : DB) : list Message :=
  filter (fun row => Sql.eq (messages_id (m row)) (Some messageId))
    (messages_with_authors d).

(** The WHERE clause of [contextSql]: [m.channelId = ? AND m.id != ?] *)
Definition other_in_channel (channelId : option string) (messageId : string)
  (row : Message) : bool :=
  Sql.eq (messages_channelId (m row)) channelId
  && Sql.neq (messages_id (m row)) (Some messageId).

(** [contextSql]: [... WHERE m.channelId = ? AND m.id != ? ORDER BY
    m.message_timestamp LIMIT 20] *)
Definition contextSql (channelId : option string) (messageId : string) (d : DB)
  : list Message :=
  Sql.limit 20
    (Sql.order_by (fun row => messages_message_timestamp (m row))
      (filter (other_in_channel channelId messageId) (messages_with_authors d))).

Definition getMessageContext (messageId : string) : M (Result MessageContext) :=
  found <- db_get (msgSql messageId) ;;
  match found with
  | inl err =>
      console_error "Database error:" err ;;
      ret (Rejected ("Database error: " ++ err))
  | inr None =>
      console_error ("Message not found with ID: " ++ messageId) "" ;;
      ret (Rejected "Message not found")
  | inr (Some message) =>
      let channelId := messages_channelId (m message) in
      fetched <- db_all (contextSql channelId messageId) ;;
      match fetched with
      | inl err =>
          console_error "Error fetching context messages:" err ;;
          ret (Rejected ("Error fetching context messages: " ++ err))
      | inr contextMessages =>
          ret (Resolved {|
            message := message;
            channel_id := channelId;
            context_messages := contextMessages;
            context_message_count := length contextMessages
          |})
      end
  end.

(** *** getChatLog *)

(** [new Date(ts).getTime()] on a column value: [null] is the epoch. *)
Definition getTime (ts : option string) : option Z :=
  match ts with
  | Some s => Date_parse s
  | None => Some 0%Z
  end.

(** [date.toISOString()]: a RangeError on an invalid date. *)
Definition toISOString (date : option Z) : Result string :=
  match date with
  | Some t => Resolved (Date_toISOString t)
  | None => Rejected "Invalid time value"
  end.

(** The comparator of the sort: the difference of the two times. *)
Definition by_message_timestamp (a b : Message) : option Z :=
  match getTime (messages_message_timestamp (m a)),
        getTime (messages_message_timestamp (m b)) with
  | Some ta, Some tb => Some (ta - tb)%Z
  | _, _ => None
  end.

(** [msg.created_at ? msg.created_at.slice(11, 16)
    : new Date(msg.message_timestamp).toISOString().substr(11, 5)] *)
Definition timeString (msg : Message) : Result string :=
  let fromTimestamp :=
    match toISOString (getTime (messages_message_timestamp (m msg))) with
    | Resolved iso => Resolved (substr iso 11 5)
    | Rejected e => Rejected e
    end in
  match messages_created_at (m msg) with
  | Some created_at =>
      if truthy_str (Some created_at) then Resolved (slice created_at 11 16)
      else fromTimestamp
  | None => fromTimestamp
  end.

Definition logLine (msg : Message) : Result string :=
  match timeString msg with
  | Rejected e => Rejected e
  | Resolved time =>
      let name := or_else_str (globalName msg) (username msg) in
      Resolved ("[" ++ time ++ "] " ++ template_str name ++ ": "
                ++ template_str (messages_content (m msg)))%string
  end.

Definition getChatLog (messageId : string) : M (list string) :=
  assembled <- getMessageContext messageId ;;
  match assembled with
  | Rejected _ => ret []
  | Resolved messages =>
      let sorted := Array_sort by_message_timestamp (context_messages messages) in
      match Array_map logLine sorted with
      | Resolved logLines => ret logLines
      | Rejected _ => ret []
      end
  end.

(** *** The read endpoints *)

(** [if (err) return res.status(500).json({ error: err.message })], then
    the answer built from the rows. *)
Definition answer {A} (result : string + A) (ok : A -> Response) : Response :=
  match result with
  | inl err => status_response 500 (ErrorBody err)
  | inr rows => ok rows
  end.

(** GET /messages *)
Definition get_messages : M Response :=
  result <- db_all (fun d =>
    Sql.order_by_desc (fun row => messages_created_at (m row)) (messages_with_authors d)) ;;
  ret (answer result (fun rows => json_response (MessagesBody rows))).

(** One of the seven queries of GET /messages/:id. *)
Definition related {A} (q : DB -> list A) : M (Slot A) := db_all q.

Definition attachments_of (messageId : string) (d : DB) : list attachment_row :=
  filter (fun r => Sql.eq (attachments_message_id r) (Some messageId)) (attachments d).

Definition embeds_of (messageId : string) (d : DB) : list embed_row :=
  filter (fun r => Sql.eq (embeds_message_id r) (Some messageId)) (embeds d).

Definition components_of (messageId : string) (d : DB) : list component_row :=
  filter (fun r => Sql.eq (components_message_id r) (Some messageId)) (components d).

Definition members_of (messageId : string) (d : DB) : list member_row :=
  filter (fun r => Sql.eq (members_message_id r) (Some messageId)) (members d).

Definition mentions_of (messageId : string) (d : DB) : list mention_row :=
  filter (fun r => Sql.eq (mentions_message_id r) (Some messageId)) (mentions d).

Definition message_references_of (messageId : string) (d : DB)
  : list message_reference_row :=
  filter (fun r => Sql.eq (message_references_message_id r) (Some messageId))
    (message_references d).

Definition referenced_messages_of (messageId : string) (d : DB)
  : list referenced_message_row :=
  filter (fun r => Sql.eq (referenced_messages_parent_message_id r) (Some messageId))
    (referenced_messages d).

(** GET /messages/:id *)
Definition get_message (messageId : string) : M Response :=
  found <- db_get (msgSql messageId) ;;
  match found with
  | inl err => ret (status_response 500 (ErrorBody err))
  | inr None => ret (status_response 404 (ErrorBody "Message not found"))
  | inr (Some message) =>
      r_attachments <- related (attachments_of messageId) ;;
      r_embeds <- related (embeds_of messageId) ;;
      r_components <- related (components_of messageId) ;;
      r_member <- related (members_of messageId) ;;
      r_mentions <- related (mentions_of messageId) ;;
      r_message_reference <- related (message_references_of messageId) ;;
      r_referenced_message <- related (referenced_messages_of messageId) ;;
      ret (json_response (MessageDetailBody {|
        detail_message := message;
        detail_attachments := r_attachments;
        detail_embeds := r_embeds;
        detail_components := r_components;
        detail_member := r_member;
        detail_mentions := r_mentions;
        detail_message_reference := r_message_reference;
        detail_referenced_message := r_referenced_message
      |}))
  end.

(** GET /messages/log/:messageId *)
Definition get_message_log (messageId : string) : M Response :=
  log <- getChatLog messageId ;;
  ret (json_response (LogBody log)).

(** GET /messages/user/:userId *)
Definition get_messages_by_user (userId : string) : M Response :=
  result <- db_all (fun d =>
    Sql.order_by_desc (fun row => messages_created_at (m row))
      (filter (fun row => Sql.eq (messages_author_id (m row)) (Some userId))
         (messages_with_authors d))) ;;
  ret (answer result (fun rows => json_response (MessagesBody rows))).

(** GET /authors *)
Definition get_authors : M Response :=
  result <- db_all (fun d => Sql.order_by authors_username (authors d)) ;;
  ret (answer result (fun rows => json_response (AuthorsBody rows))).

(** GET /authors/:id *)
Definition get_author (authorId : string) : M Response :=
  result <- db_get (fun d =>
    filter (fun a => Sql.eq (authors_id a) (Some authorId)) (authors d)) ;;
  ret (answer result (fun row =>
    match row with
    | None => status_response 404 (ErrorBody "Author not found")
    | Some a => json_response (AuthorBody a)
    end)).

(** GET /messages/:id/attachments *)
Definition get_attachments (messageId : string) : M Response :=
  result <- db_all (attachments_of messageId) ;;
  ret (answer result (fun rows => json_response (AttachmentsBody rows))).

(** GET /messages/:id/embeds *)
Definition get_embeds (messageId : string) : M Response :=
  result <- db_all (embeds_of messageId) ;;
  ret (answer result (fun rows => json_response (EmbedsBody rows))).

(** GET /messages/:id/components *)
Definition get_components (messageId : string) : M Response :=
  result <- db_all (components_of messageId) ;;
  ret (answer result (fun rows => json_response (ComponentsBody rows))).

(** GET /messages/:id/member *)
Definition get_member (messageId : string) : M Response :=
  result <- db_get (members_of messageId) ;;
  ret (answer result (fun row => json_response (MemberBody row))).

(** GET /messages/:id/mentions *)
Definition get_mentions (messageId : string) : M Response :=
  result <- db_all (mentions_of messageId) ;;
  ret (answer result (fun rows => json_response (MentionsBody rows))).

(** GET /messages/:id/message-reference *)
Definition get_message_reference (messageId : string) : M Response :=
  result <- db_get (message_references_of messageId) ;;
  ret (answer result (fun row => json_response (MessageReferenceBody row))).

(** GET /messages/:id/referenced-message *)
Definition get_referenced_message (messageId : string) : M Response :=
  result <- db_get (referenced_messages_of messageId) ;;
  ret (answer result (fun row => json_response (ReferencedMessageBody row))).

(** GET /message-context/:messageId *)
Definition get_message_context (messageId : string) : M Response :=
  assembled <- getMessageContext messageId ;;
  match assembled with
  | Resolved messages => ret (json_response (ContextBody messages))
  | Rejected error => ret (status_response 500 (ErrorBody error))
  end.

(** *** The annotation bridges *)

Definition record_call (call : Outbound) : M unit :=
  fun _ s =>
    (tt, {| st_db := st_db s; st_clock := st_clock s;
            st_console := st_console s; st_http := st_http s ++ [call] |}).

(** [await axios.post(url, data)] *)
Definition axios (url : string) (data : json) : M (Result json) :=
  record_call (AxiosPost url data) ;;
  env <- ask ;;
  ret (axios_post env url data).

(** [await ollama.chat({model, messages: [{role: 'user', content}], ...})]
    and the tone parsed from the reply *)
Definition ollama_chat (model content : string) : M (Result (option json)) :=
  record_call (OllamaChat model content) ;;
  env <- ask ;;
  ret (ollama_chat_tone env content).

(** POST /messages/classifier with body [{text}].  When the call to the
    classifier throws, the handler sends no response ([None]). *)
Definition post_classifier (text : list string) : M (option Response) :=
  let splitMessages := Array_join text LF in
  response <- axios "http://127.0.0.1:8000/predict" (JObj [("text", JStr splitMessages)]) ;;
  match response with
  | Resolved data => ret (Some (json_response (UpstreamBody data)))
  | Rejected _ => ret None
  end.

(** [req.body] of POST /messages/tone *)
Record ToneMessage := {
  tone_message_id : string
}.

Record ToneRequest := {
  tone_message : option ToneMessage
}.

(** The content of the user message sent to the chat model. *)
Definition queryMessage (chatLog : list string) : string :=
  LF ++ LF
  ++ "            Here is the context for the chat log for the conversation. Please return the tone for the last message in the chat log."
  ++ LF
  ++ "            " ++ JSON_stringify (JArr (map JStr chatLog)) ++ LF
  ++ "        ".

(** POST /messages/tone: any exception ends in [{tone: ""}]. *)
Definition post_tone (req : ToneRequest) : M Response :=
  match tone_message req with
  | None => ret (json_response (ToneBody (Some (JStr ""))))
  | Some message =>
      chatLog <- getChatLog (tone_message_id message) ;;
      response <- ollama_chat "llama3.1" (queryMessage chatLog) ;;
      match response with
      | Resolved tone => ret (json_response (ToneBody tone))
      | Rejected _ => ret (json_response (ToneBody (Some (JStr ""))))
      end
  end.

(** *** The user insights *)

(** [SELECT * FROM messages WHERE author_id = ?] *)
Definition messages_of_author (userId : string) (d : DB) : list message_row :=
  filter (fun row => Sql.eq (messages_author_id row) (Some userId)) (messages d).

(** [relatedMsgSql]: the messages of a channel within a time window,
    but the message itself, by timestamp. *)
Definition relatedMsgSql (channelId : option string) (fiveMinBefore fiveMinAfter : string)
  (id : option string) (d : DB) : list RelatedMessage :=
  Sql.order_by (fun row => messages_message_timestamp (related_m row))
    (filter (fun row =>
               Sql.eq (messages_channelId (related_m row)) channelId
               && Sql.between (messages_message_timestamp (related_m row))
                    (Some fiveMinBefore) (Some fiveMinAfter)
               && Sql.neq (messages_id (related_m row)) id)
       (map select_related (left_join_authors d))).

(** [new Date(timestamp.getTime() + offset)] *)
Definition shifted (timestamp : option Z) (offset : Z) : option Z :=
  TimeClip (option_map (fun t => (t + offset)%Z) timestamp).

(** The loop over the user's messages inside the try block: the first
    exception or failed query ends it. *)
Fixpoint messageWithContext (userMessages : list message_row)
  : M (Result (list MessageWithContext)) :=
  match userMessages with
  | [] => ret (Resolved [])
  | msg :: rest =>
      let timestamp := getTime (messages_message_timestamp msg) in
      match toISOString (shifted timestamp (- (5 * 60 * 1000))) with
      | Rejected e => ret (Rejected e)
      | Resolved fiveMinBefore =>
          match toISOString (shifted timestamp (5 * 60 * 1000)) with
          | Rejected e => ret (Rejected e)
          | Resolved fiveMinAfter =>
              relatedMessages <- db_all (relatedMsgSql (messages_channelId msg)
                                           fiveMinBefore fiveMinAfter (messages_id msg)) ;;
              match relatedMessages with
              | inl err => ret (Rejected err)
              | inr rows =>
                  more <- messageWithContext rest ;;
                  match more with
                  | Rejected e => ret (Rejected e)
                  | Resolved bundles =>
                      ret (Resolved ({| with_message := msg; related_messages := rows |}
                                     :: bundles))
                  end
              end
          end
      end
  end.

(** [[...new Set(values)]]: the distinct values, first occurrences kept. *)
Fixpoint distinct (values : list (option string)) : list (option string) :=
  match values with
  | [] => []
  | v :: rest =>
      v :: filter (fun w =>
             negb match v, w with
                  | Some a, Some b => String.eqb a b
                  | None, None => true
                  | _, _ => false
                  end) (distinct rest)
  end.

(** POST /user_insights/generate/:user_id *)
Definition post_user_insights (userId : string) : M Response :=
  result <- db_all (messages_of_author userId) ;;
  match result with
  | inl err => ret (status_response 500 (ErrorBody err))
  | inr userMessages =>
      if Nat.eqb (length userMessages) 0 then
        ret (json_response (NoMessagesBody userId))
      else
        loop <- messageWithContext userMessages ;;
        match loop with
        | Rejected error => ret (status_response 500 (ErrorBody error))
        | Resolved bundles =>
            let insights := [
              {| insight_name := "message_count";
                 insight_value := nat_toString (length userMessages) |};
              {| insight_name := "channels_posted_in";
                 insight_value :=
                   nat_toString (length (distinct (map messages_channelId userMessages))) |}
            ] in
            ret (json_response
                   (GeneratedBody userId (length userMessages) insights (firstn 20 bundles)))
        end
  end.

(** [SELECT * FROM user_insights WHERE user_id = ? ORDER BY insight_name] *)
Definition insights_of (userId : string) (d : DB) : list user_insight_row :=
  Sql.order_by user_insights_insight_name
    (filter (fun r => Sql.eq (user_insights_user_id r) (Some userId)) (user_insights d)).

(** GET /user_insights/generate/:user_id *)
Definition get_user_insights (userId : string) : M Response :=
  result <- db_all (insights_of userId) ;;
  ret (answer result (fun rows =>
    if Nat.eqb (length rows) 0 then json_response (NoInsightsBody userId)
    else json_response (InsightsBody userId rows))).

(** *** The server as a state machine over the database *)

(** A request as it reaches one of the nineteen route handlers, with
    the parameters the handler reads.  What is answered before a handler
    runs (the preflight and the headers of [cors], a body [express.json]
    cannot parse, a path no route matches) is not a [Request]; nor is the
    choice Express makes between two routes that match one path. *)
Inductive Request : Type :=
| POST_messages (req : Envelope)
| GET_messages
| GET_message (id : string)
| GET_message_log (messageId : string)
| GET_messages_by_user (userId : string)
| GET_authors
| GET_author (id : string)
| GET_attachments (id : string)
| GET_embeds (id : string)
| GET_components (id : string)
| GET_member (id : string)
| GET_mentions (id : string)
| GET_message_reference (id : string)
| GET_referenced_message (id : string)
| GET_message_context (messageId : string)
| POST_classifier (text : list string)
| POST_tone (req : ToneRequest)
| POST_user_insights (user_id : string)
| GET_user_insights (user_id : string).

(** A handler that always sends its response. *)
Definition responds (h : M Response) : M (option Response) :=
  response <- h ;; ret (Some response).

(** The handler of a request: its response, [None] when it sends
    none. *)
Definition handle (request : Request) : M (option Response) :=
  match request with
  | POST_messages req => post_messages req
  | GET_messages => responds get_messages
  | GET_message id => responds (get_message id)
  | GET_message_log messageId => responds (get_message_log messageId)
  | GET_messages_by_user userId => responds (get_messages_by_user userId)
  | GET_authors => responds get_authors
  | GET_author id => responds (get_author id)
  | GET_attachments id => responds (get_attachments id)
  | GET_embeds id => responds (get_embeds id)
  | GET_components id => responds (get_components id)
  | GET_member id => responds (get_member id)
  | GET_mentions id => responds (get_mentions id)
  | GET_message_reference id => responds (get_message_reference id)
  | GET_referenced_message id => responds (get_referenced_message id)
  | GET_message_context messageId => responds (get_message_context messageId)
  | POST_classifier text => post_classifier text
  | POST_tone req => responds (post_tone req)
  | POST_user_insights user_id => responds (post_user_insights user_id)
  | GET_user_insights user_id => responds (get_user_insights user_id)
  end.

(** The state a request starts from. *)
Definition start (d : DB) : St :=
  {| st_db := d; st_clock := 0; st_console := []; st_http := [] |}.

(** Running a handler on a database: its result and the final state. *)
Definition run {A} (h : M A) (env : Env) (d : DB) : A * St := h env (start d).

(** The databases the server can reach from a fresh file. *)
Inductive reachable : DB -> Prop :=
| reachable_empty : reachable empty_db
| reachable_request (d : DB) (env : Env) (request : Request) :
    reachable d -> reachable (st_db (snd (run (handle request) env d))).

(** ** Vocabulary of the properties *)

(** *** Relations between the database before and after a handler *)

(** A handler preserves a relation between the database it starts from
    and the one it leaves. *)
Definition preserves (R : DB -> DB -> Prop) {A} (h : M A) : Prop :=
  forall env s, R (st_db s) (st_db (snd (h env s))).

(** The relation is reflexive and transitive. *)
Definition preorder (R : DB -> DB -> Prop) : Prop :=
  (forall d, R d d) /\ (forall a b c, R a b -> R b c -> R a c).

(** The messages table is as it was. *)
Definition messages_kept (d d' : DB) : Prop := messages d' = messages d.

(** A table only gained rows at its end. *)
Definition extended {A} (t t' : list A) : Prop := exists more, t' = t ++ more.

(** The four insert-only child tables only gained rows. *)
Definition children_kept (d d' : DB) : Prop :=
  extended (attachments d) (attachments d')
  /\ extended (embeds d) (embeds d')
  /\ extended (components d) (components d')
  /\ extended (mentions d) (mentions d').

(** *** Ingestion *)

(** The envelope has no [message], or a [message] without [id]. *)
Definition lacks_message_id (req : Envelope) : Prop :=
  match body_message req with
  | None => True
  | Some message => message_id message = None
  end.

(** The [n]-th statement of the request fails. *)
Definition failed (env : Env) (n : nat) : bool :=
  match db_fault env n with
  | Some _ => true
  | None => false
  end.

(** The number of failing statements among the [n] statements from
    position [from] on. *)
Definition failures (env : Env) (from n : nat) : nat :=
  length (filter (failed env) (seq from n)).

(** The objects of an array before its first [null]: the elements its
    loop gets to. *)
Fixpoint objects {A} (l : list (option A)) : list A :=
  match l with
  | Some x :: rest => x :: objects rest
  | _ => []
  end.

(** The elements of a property that may be an array, as far as its loop
    gets: all of them when none is [null]. *)
Definition items {A} (l : option (list (option A))) : list A :=
  match l with
  | Some elements => objects elements
  | None => []
  end.

(** The property is an array with a [null] element. *)
Definition has_null {A} (l : option (list (option A))) : bool :=
  match l with
  | Some elements =>
      existsb (fun x => match x with None => true | Some _ => false end) elements
  | None => false
  end.

(** Every element of the four child arrays is an object. *)
Definition objects_only (message : MessageJson) : Prop :=
  has_null (message_attachments message) = false
  /\ has_null (message_embeds message) = false
  /\ has_null (message_components message) = false
  /\ has_null (message_mentions message) = false.

(** The exception that ends the callback of the message statement, if
    any: that of the first loop that meets a [null]. *)
Definition thrown_by (message : MessageJson) : Result unit :=
  if has_null (message_attachments message) then Rejected (TypeError_null "id")
  else if has_null (message_embeds message) then Rejected (TypeError_null "title")
  else if has_null (message_components message) then Rejected (TypeError_null "type")
  else if has_null (message_mentions message) then Rejected (TypeError_null "id")
  else Resolved tt.

(** An array cut before its first [null]. *)
Definition cut {A} (l : option (list (option A))) : option (list (option A)) :=
  option_map (fun elements => map Some (objects elements)) l.

(** What the callback of the message statement gets to before it ends:
    each array up to its first [null], and nothing of what follows the
    loop that met it. *)
Definition reached (message : MessageJson) : MessageJson :=
  let a := has_null (message_attachments message) in
  let e := a || has_null (message_embeds message) in
  let c := e || has_null (message_components message) in
  let n := c || has_null (message_mentions message) in
  {|
    message_id := message_id message;
    message_guild_id := message_guild_id message;
    message_content := message_content message;
    message_edited_timestamp := message_edited_timestamp message;
    message_flags := message_flags message;
    message_nonce := message_nonce message;
    message_pinned := message_pinned message;
    message_timestamp := message_timestamp message;
    message_tts := message_tts message;
    message_type := message_type message;
    message_author := message_author message;
    message_attachments := cut (message_attachments message);
    message_embeds := if a then None else cut (message_embeds message);
    message_components := if e then None else cut (message_components message);
    message_member := if c then None else message_member message;
    message_mentions := if c then None else cut (message_mentions message);
    message_message_reference := if n then None else message_message_reference message;
    message_referenced_message := if n then None else message_referenced_message message
  |}.

(** The callback on each object in turn. *)
Fixpoint each {A} (l : list A) (f : A -> M unit) : M unit :=
  match l with
  | [] => ret tt
  | x :: rest => f x ;; each rest f
  end.

Definition each_if_array {A} (l : option (list (option A))) (f : A -> M unit) : M unit :=
  match l with
  | Some elements => each (objects elements) f
  | None => ret tt
  end.

(** The statements of [insert_children] for a message whose loops all
    come to their end. *)
Definition store_children (message : MessageJson) : M unit :=
  let id := message_id message in
  each_if_array (message_attachments message) (fun att =>
    logged "Failed to insert attachment:" (insert_attachment (attachmentValues id att))) ;;
  each_if_array (message_embeds message) (fun embed =>
    logged "Failed to insert embed:" (insert_embed (embedValues id embed))) ;;
  each_if_array (message_components message) (fun comp =>
    logged "Failed to insert component:" (insert_component (componentValues id comp))) ;;
  match message_member message with
  | Some mem => logged "Failed to insert member:" (upsert_member (memberValues id mem))
  | None => ret tt
  end ;;
  each_if_array (message_mentions message) (fun mention =>
    logged "Failed to insert mention:" (insert_mention (mentionValues id mention))) ;;
  match message_message_reference message with
  | Some ref =>
      logged "Failed to insert message reference:"
        (upsert_message_reference (refValues id ref))
  | None => ret tt
  end ;;
  match message_referenced_message message with
  | Some refMsg =>
      logged "Failed to insert referenced message:"
        (upsert_referenced_message (refMsgValues id refMsg))
  | None => ret tt
  end.

(** One when the property is there, zero otherwise. *)
Definition count_if {A} (o : option A) : nat :=
  match o with
  | Some _ => 1
  | None => 0
  end.

(** The members table is as it was. *)
Definition members_kept (d d' : DB) : Prop := members d' = members d.

(** The message_references table is as it was. *)
Definition message_references_kept (d d' : DB) : Prop :=
  message_references d' = message_references d.

(** The number of statements [insert_children] sends for the children it
    gets to: all of them when no array holds a null. *)
Definition children_count (message : MessageJson) : nat :=
  length (items (message_attachments message))
  + length (items (message_embeds message))
  + length (items (message_components message))
  + count_if (message_member message)
  + length (items (message_mentions message))
  + count_if (message_message_reference message)
  + count_if (message_referenced_message message).

(** Positions of the child statements, counted from the first of them. *)
Definition attachment_offset (message : MessageJson) (i : nat) : nat := i.

Definition embed_offset (message : MessageJson) (i : nat) : nat :=
  length (items (message_attachments message)) + i.

Definition component_offset (message : MessageJson) (i : nat) : nat :=
  embed_offset message (length (items (message_embeds message))) + i.

Definition member_offset (message : MessageJson) : nat :=
  component_offset message (length (items (message_components message))).

Definition mention_offset (message : MessageJson) (i : nat) : nat :=
  member_offset message + count_if (message_member message) + i.

Definition message_reference_offset (message : MessageJson) : nat :=
  mention_offset message (length (items (message_mentions message))).

Definition referenced_message_offset (message : MessageJson) : nat :=
  message_reference_offset message + count_if (message_message_reference message).

(** Every child whose own statement succeeds is stored, whatever became
    of the statements before and after it. *)
Definition children_stored (message : MessageJson) (env : Env) (c : nat) (d : DB) : Prop :=
  let id := message_id message in
  (forall i att, nth_error (items (message_attachments message)) i = Some att ->
     db_fault env (c + attachment_offset message i) = None ->
     exists rowid, In (attachmentValues id att rowid) (attachments d))
  /\ (forall i embed, nth_error (items (message_embeds message)) i = Some embed ->
     db_fault env (c + embed_offset message i) = None ->
     exists rowid, In (embedValues id embed rowid) (embeds d))
  /\ (forall i comp, nth_error (items (message_components message)) i = Some comp ->
     db_fault env (c + component_offset message i) = None ->
     exists rowid, In (componentValues id comp rowid) (components d))
  /\ (forall mem, message_member message = Some mem ->
     db_fault env (c + member_offset message) = None ->
     In (memberValues id mem) (members d))
  /\ (forall i mention, nth_error (items (message_mentions message)) i = Some mention ->
     db_fault env (c + mention_offset message i) = None ->
     exists rowid, In (mentionValues id mention rowid) (mentions d))
  /\ (forall ref, message_message_reference message = Some ref ->
     db_fault env (c + message_reference_offset message) = None ->
     In (refValues id ref) (message_references d))
  /\ (forall refMsg, message_referenced_message message = Some refMsg ->
     db_fault env (c + referenced_message_offset message) = None ->
     In (refMsgValues id refMsg) (referenced_messages d)).

(** Position of the message statement among the statements of the
    request: the author statement, when there is one, goes first. *)
Definition message_statement (message : MessageJson) : nat :=
  count_if (author_with_id message).

(** The number of statements a valid ingestion sends when its message
    statement succeeds. *)
Definition statements_sent (message : MessageJson) : nat :=
  message_statement message + 1 + children_count message.

(** *** Context assembly *)

(** A list is in the order of [le]. *)
Definition ordered {A} (le : A -> A -> bool) : list A -> Prop :=
  Sorted (fun a b => le a b = true).

(** What a row of the join is made of: a row of the messages table with
    the three columns of an author whose id is its [author_id], or with
    NULLs when no author has that id. *)
Definition joined_with_author (d : DB) (row : Message) : Prop :=
  In (m row) (messages d)
  /\ ((exists a, In a (authors d)
         /\ Sql.eq (messages_author_id (m row)) (authors_id a) = true
         /\ username row = authors_username a
         /\ avatar row = authors_avatar a
         /\ globalName row = authors_globalName a)
      \/ ((forall a, In a (authors d) ->
             Sql.eq (messages_author_id (m row)) (authors_id a) = false)
          /\ username row = None /\ avatar row = None /\ globalName row = None)).

(** The primary key of the authors table: no two rows share an id. *)
Definition authors_unique (d : DB) : Prop :=
  forall id, length (filter (fun a => Sql.eq id (authors_id a)) (authors d)) <= 1.

(** The primary key of the messages table. *)
Definition messages_unique (d : DB) : Prop :=
  forall id, length (filter (fun r => Sql.eq id (messages_id r)) (messages d)) <= 1.

(** Both keys are unique in [d'] when they are in [d]. *)
Definition keys_kept (d d' : DB) : Prop :=
  authors_unique d /\ messages_unique d -> authors_unique d' /\ messages_unique d'.

(** Ascending order of the message timestamp, as TEXT. *)
Definition by_timestamp (a b : Message) : bool :=
  Sql.le (messages_message_timestamp (m a)) (messages_message_timestamp (m b)).

(** *** The transcript *)

(** A value is present: neither NULL nor the empty string. *)
Definition present (v : option string) : Prop :=
  exists s, v = Some s /\ s <> "".

(** The display name of a row: the global name of its author when
    present, otherwise the username. *)
Definition display_name (msg : Message) (name : option string) : Prop :=
  (present (globalName msg) /\ name = globalName msg)
  \/ (~ present (globalName msg) /\ name = username msg).

(** The time shown for a row: characters 11 to 16 of [created_at] when
    present, otherwise those of the ISO rendering of the date of
    [message_timestamp]. *)
Definition shown_time (msg : Message) (time : string) : Prop :=
  (exists created_at,
      messages_created_at (m msg) = Some created_at /\ created_at <> ""
      /\ time = substring 11 5 created_at)
  \/ (~ present (messages_created_at (m msg))
      /\ exists t, getTime (messages_message_timestamp (m msg)) = Some t
                   /\ time = substring 11 5 (Date_toISOString t)).

(** The line of a row: "[time] name: content", a NULL name or content
    reading "null". *)
Definition transcript_line (msg : Message) (line : string) : Prop :=
  exists time name,
    shown_time msg time /\ display_name msg name
    /\ line = ("[" ++ time ++ "] " ++ template_str name ++ ": "
               ++ template_str (messages_content (m msg)))%string.

(** A row can be rendered: it has a [created_at], or a timestamp that is
    a date. *)
Definition renderable (msg : Message) : Prop :=
  present (messages_created_at (m msg))
  \/ exists t, getTime (messages_message_timestamp (m msg)) = Some t.

(** The same row with another content, when it is the row [messageId]. *)
Definition with_content (messageId : string) (content : option string)
  (row : message_row) : message_row :=
  if Sql.eq (messages_id row) (Some messageId) then {|
    messages_id := messages_id row;
    messages_event_type := messages_event_type row;
    messages_guildId := messages_guildId row;
    messages_channelId := messages_channelId row;
    messages_message_guild_id := messages_message_guild_id row;
    messages_author_id := messages_author_id row;
    messages_content := content;
    messages_edited_timestamp := messages_edited_timestamp row;
    messages_flags := messages_flags row;
    messages_nonce := messages_nonce row;
    messages_pinned := messages_pinned row;
    messages_message_timestamp := messages_message_timestamp row;
    messages_tts := messages_tts row;
    messages_message_type := messages_message_type row;
    messages_optimistic := messages_optimistic row;
    messages_isPushNotification := messages_isPushNotification row;
    messages_created_at := messages_created_at row
  |} else row.

(** The database with another content for the message [messageId]. *)
Definition set_content (messageId : string) (content : option string) (d : DB) : DB := {|
  messages := map (with_content messageId content) (messages d);
  authors := authors d;
  attachments := attachments d; embeds := embeds d; components := components d;
  members := members d; mentions := mentions d;
  message_references := message_references d;
  referenced_messages := referenced_messages d; user_insights := user_insights d;
  seq_attachments := seq_attachments d; seq_embeds := seq_embeds d;
  seq_components := seq_components d; seq_mentions := seq_mentions d
|}.

(** The joined row of that row. *)
Definition joined_with_content (messageId : string) (content : option string)
  (row : Message) : Message := {|
  m := with_content messageId content (m row);
  username := username row;
  avatar := avatar row;
  globalName := globalName row
|}.

(** The user_insights table is as it was. *)
Definition user_insights_kept (d d' : DB) : Prop := user_insights d' = user_insights d.

(** *** The read API *)

(** The twelve lookups of the read API. *)
Inductive ReadEndpoint : Type :=
| AllMessages
| MessageById
| MessagesByUser
| AllAuthors
| AuthorById
| AttachmentsOf
| EmbedsOf
| ComponentsOf
| MemberOf
| MentionsOf
| MessageReferenceOf
| ReferencedMessageOf.

(** The handler of a lookup; [param] is the id in its path, if any. *)
Definition read_endpoint (endpoint : ReadEndpoint) (param : string) : M Response :=
  match endpoint with
  | AllMessages => get_messages
  | MessageById => get_message param
  | MessagesByUser => get_messages_by_user param
  | AllAuthors => get_authors
  | AuthorById => get_author param
  | AttachmentsOf => get_attachments param
  | EmbedsOf => get_embeds param
  | ComponentsOf => get_components param
  | MemberOf => get_member param
  | MentionsOf => get_mentions param
  | MessageReferenceOf => get_message_reference param
  | ReferencedMessageOf => get_referenced_message param
  end.

(** The two lookups of one row by its own id. *)
Definition singular_lookup (endpoint : ReadEndpoint) : bool :=
  match endpoint with
  | MessageById | AuthorById => true
  | _ => false
  end.

(** The body carries a list, and the list is empty. *)
Definition empty_list_body (b : Body) : bool :=
  match b with
  | MessagesBody [] | AuthorsBody [] | AttachmentsBody [] | EmbedsBody []
  | ComponentsBody [] | MentionsBody [] | LogBody [] => true
  | _ => false
  end.

(** No row of the table has [id] in the column [key]. *)
Definition no_row {A} (key : A -> option string) (id : string) (t : list A) : Prop :=
  forall r, In r t -> key r <> Some id.

(** *** Tables an ingestion leaves alone *)

(** The authors table is as it was. *)
Definition authors_kept (d d' : DB) : Prop := authors d' = authors d.

(** The referenced_messages table is as it was. *)
Definition referenced_messages_kept (d d' : DB) : Prop :=
  referenced_messages d' = referenced_messages d.

(** The three tables written with INSERT OR REPLACE by the children
    statements are as they were. *)
Definition upserted_children_kept (d d' : DB) : Prop :=
  members d' = members d
  /\ message_references d' = message_references d
  /\ referenced_messages d' = referenced_messages d.

(** *** Lookups after an ingestion *)

(** The rows of the join for one row of the messages table. *)
Definition joined_rows (d : DB) (row : message_row) : list Message :=
  map select_message
    match filter (fun a => Sql.eq (messages_author_id row) (authors_id a)) (authors d) with
    | [] => [(row, None)]
    | found => map (fun a => (row, Some a)) found
    end.

(** The three author columns of a joined row are those of [author]. *)
Definition shows_author (row : Message) (author : AuthorJson) : Prop :=
  username row = author_username author
  /\ avatar row = author_avatar author
  /\ globalName row = author_globalName author.

(** The three author columns of a joined row are NULL. *)
Definition shows_no_author (row : Message) : Prop :=
  username row = None /\ avatar row = None /\ globalName row = None.

(** The outcome of the [n]-th statement of a request, a query whose rows
    would be [rows]: the error, or the rows. *)
Definition answered {A} (env : Env) (n : nat) (rows : A) : string + A :=
  match db_fault env n with
  | Some e => inl e
  | None => inr rows
  end.

(** The state once [n] more statements were sent, none of them writing. *)
Definition after_queries (n : nat) (s : St) : St :=
  {| st_db := st_db s; st_clock := n + st_clock s;
     st_console := st_console s; st_http := st_http s |}.

(** Everything GET /messages/:id reports on a message it found. *)
Definition detail_of (messageId : string) (env : Env) (c : nat) (d : DB) (message : Message)
  : MessageDetail := {|
  detail_message := message;
  detail_attachments := answered env (c + 1) (attachments_of messageId d);
  detail_embeds := answered env (c + 2) (embeds_of messageId d);
  detail_components := answered env (c + 3) (components_of messageId d);
  detail_member := answered env (c + 4) (members_of messageId d);
  detail_mentions := answered env (c + 5) (mentions_of messageId d);
  detail_message_reference := answered env (c + 6) (message_references_of messageId d);
  detail_referenced_message := answered env (c + 7) (referenced_messages_of messageId d)
|}.

(** The envelope carries a message whose [id] is truthy. *)
Definition has_message_id (req : Envelope) : Prop :=
  exists message id,
    body_message req = Some message /\ message_id message = Some id /\ id <> "".

(** *** Invariants of the reachable databases *)

(** The TEXT primary key [key] names at most one row of the table. *)
Definition unique_key {A} (key : A -> option string) (t : list A) : Prop :=
  forall id, length (filter (fun a => Sql.eq id (key a)) t) <= 1.

(** The rowids of an AUTOINCREMENT table grow along the table. *)
Definition increasing (ids : list Z) : Prop := Sorted Z.lt ids.

(** Every PRIMARY KEY the schema declares holds. *)
Definition primary_keys (d : DB) : Prop :=
  unique_key authors_id (authors d)
  /\ unique_key messages_id (messages d)
  /\ unique_key members_message_id (members d)
  /\ unique_key message_references_message_id (message_references d)
  /\ unique_key referenced_messages_id (referenced_messages d)
  /\ increasing (map attachments_id (attachments d))
  /\ increasing (map embeds_id (embeds d))
  /\ increasing (map components_id (components d))
  /\ increasing (map mentions_id (mentions d)).

(** A property of the database that a handler does not break. *)
Definition maintained (P : DB -> Prop) (d d' : DB) : Prop := P d -> P d'.

(** The messages table has a row of this id, and the id is not NULL. *)
Definition known_message (d : DB) (id : option string) : Prop :=
  exists row, In row (messages d) /\ messages_id row = id /\ id <> None.

(** Every FOREIGN KEY the schema declares on a child table holds: the
    row belongs to a message of the messages table. *)
Definition children_have_parents (d : DB) : Prop :=
  (forall r, In r (attachments d) -> known_message d (attachments_message_id r))
  /\ (forall r, In r (embeds d) -> known_message d (embeds_message_id r))
  /\ (forall r, In r (components d) -> known_message d (components_message_id r))
  /\ (forall r, In r (members d) -> known_message d (members_message_id r))
  /\ (forall r, In r (mentions d) -> known_message d (mentions_message_id r))
  /\ (forall r, In r (message_references d) ->
        known_message d (message_references_message_id r))
  /\ (forall r, In r (referenced_messages d) ->
        known_message d (referenced_messages_parent_message_id r)).

(** The foreign keys hold and the message [id] is there. *)
Definition parents_with (id : option string) (d : DB) : Prop :=
  children_have_parents d /\ known_message d id.

(** *** What the requests do to the database *)

(** The request is an ingestion. *)
Definition writes (request : Request) : bool :=
  match request with
  | POST_messages _ => true
  | _ => false
  end.

(** The requests whose handler starts with a query and answers its
    failure with [{error}]: the twelve lookups and the two user insights
    endpoints. *)
Definition starts_with_query (request : Request) : bool :=
  match request with
  | GET_messages | GET_message _ | GET_messages_by_user _ | GET_authors | GET_author _
  | GET_attachments _ | GET_embeds _ | GET_components _ | GET_member _ | GET_mentions _
  | GET_message_reference _ | GET_referenced_message _
  | POST_user_insights _ | GET_user_insights _ => true
  | _ => false
  end.

(** [ORDER BY created_at DESC] on the joined rows. *)
Definition by_created_at_desc (a b : Message) : bool :=
  Sql.le (messages_created_at (m b)) (messages_created_at (m a)).

(** [ORDER BY username] on the authors. *)
Definition by_username (a b : author_row) : bool :=
  Sql.le (authors_username a) (authors_username b).

(** *** The user insights *)

(** The window of five minutes around a message, as the two ISO strings
    the query compares with. *)
Definition window (msg : message_row) (fiveMinBefore fiveMinAfter : string) : Prop :=
  let timestamp := getTime (messages_message_timestamp msg) in
  toISOString (shifted timestamp (- (5 * 60 * 1000))) = Resolved fiveMinBefore
  /\ toISOString (shifted timestamp (5 * 60 * 1000)) = Resolved fiveMinAfter.

(** A row reported as related to [msg]: a row of the messages table,
    another message of the same channel, whose timestamp lies, as TEXT,
    within the window of [msg]. *)
Definition related_to (d : DB) (msg : message_row) (r : RelatedMessage) : Prop :=
  In (related_m r) (messages d)
  /\ Sql.eq (messages_channelId (related_m r)) (messages_channelId msg) = true
  /\ Sql.neq (messages_id (related_m r)) (messages_id msg) = true
  /\ exists fiveMinBefore fiveMinAfter,
       window msg fiveMinBefore fiveMinAfter
       /\ Sql.between (messages_message_timestamp (related_m r))
            (Some fiveMinBefore) (Some fiveMinAfter) = true.

(** The two statistics of a generation over the messages [mine]. *)
Definition statistics (mine : list message_row) : list Insight := [
  {| insight_name := "message_count"; insight_value := nat_toString (length mine) |};
  {| insight_name := "channels_posted_in";
     insight_value := nat_toString (length (distinct (map messages_channelId mine))) |}
].

(** The dates around the timestamp of the message can be built. *)
Definition dated (msg : message_row) : Prop :=
  exists fiveMinBefore fiveMinAfter, window msg fiveMinBefore fiveMinAfter.

(** *** The order of the transcript *)

(** The order [Array.prototype.sort] leaves two neighbours in: the date
    of the first is not after the date of the second, or one of the two
    timestamps is no date. *)
Definition in_time_order (a b : Message) : bool :=
  match by_message_timestamp a b with
  | Some v => (v <=? 0)%Z
  | None => true
  end.

(** *** The rows an ingestion adds *)

(** The items of an array whose statement, sent from position [c] on,
    succeeds. *)
Fixpoint succeeded {A} (env : Env) (c : nat) (l : list A) : list A :=
  match l with
  | [] => []
  | x :: rest =>
      if failed env c then succeeded env (S c) rest else x :: succeeded env (S c) rest
  end.

(** The table [tbl] of [d'] is the one of [d] followed by one row for
    each item of [sent], in their order, all of them rows of the message
    [id]. *)
Definition appended {A R} (tbl : DB -> list R) (key : R -> option string)
  (row : A -> R -> Prop) (id : option string) (sent : list A) (d d' : DB) : Prop :=
  exists new,
    tbl d' = tbl d ++ new
    /\ Forall2 row sent new
    /\ Forall (fun r => key r = id) new.

(** The same, whatever the order in which the statements of the items
    completed: the table of [d'] is the one of [d] followed by one row for
    each item of [sent], all of them rows of the message [id]. *)
Definition added {A R} (tbl : DB -> list R) (key : R -> option string)
  (row : A -> R -> Prop) (id : option string) (sent : list A) (d d' : DB) : Prop :=
  exists new arranged,
    tbl d' = tbl d ++ new
    /\ Permutation arranged sent
    /\ Forall2 row arranged new
    /\ Forall (fun r => key r = id) new.

(** The table [tbl] is as it was. *)
Definition unchanged {R} (tbl : DB -> list R) (d d' : DB) : Prop := tbl d' = tbl d.

(** The rows of the attachments, embeds, components and mentions of a
    payload, whatever their rowid. *)
Definition attachment_of (id : option string) (att : AttachmentJson) (r : attachment_row)
  : Prop := exists rowid, r = attachmentValues id att rowid.

Definition embed_of (id : option string) (embed : EmbedJson) (r : embed_row) : Prop :=
  exists rowid, r = embedValues id embed rowid.

Definition component_of (id : option string) (comp : ComponentJson) (r : component_row)
  : Prop := exists rowid, r = componentValues id comp rowid.

Definition mention_of (id : option string) (mention : MentionJson) (r : mention_row)
  : Prop := exists rowid, r = mentionValues id mention rowid.

(** From [d] to [d'] each of the attachments, embeds, components and
    mentions tables kept its rows and got, at its end, one row for each
    item of [message] whose own statement succeeded, and nothing else. *)
Definition children_added (message : MessageJson) (env : Env) (d d' : DB) : Prop :=
  let id := message_id message in
  let c := message_statement message + 1 in
  added attachments attachments_message_id (attachment_of id) id
    (succeeded env (c + attachment_offset message 0) (items (message_attachments message)))
    d d'
  /\ added embeds embeds_message_id (embed_of id) id
       (succeeded env (c + embed_offset message 0) (items (message_embeds message))) d d'
  /\ added components components_message_id (component_of id) id
       (succeeded env (c + component_offset message 0) (items (message_components message)))
       d d'
  /\ added mentions mentions_message_id (mention_of id) id
       (succeeded env (c + mention_offset message 0) (items (message_mentions message)))
       d d'.

(** What the lookups by message id find for [other] is the same in [d']
    as in [d]: its message row, attachments, embeds, components, mentions,
    member and message reference. *)
Definition same_for (other : string) (d d' : DB) : Prop :=
  filter (fun row => Sql.eq (messages_id row) (Some other)) (messages d')
  = filter (fun row => Sql.eq (messages_id row) (Some other)) (messages d)
  /\ attachments_of other d' = attachments_of other d
  /\ embeds_of other d' = embeds_of other d
  /\ components_of other d' = components_of other d
  /\ mentions_of other d' = mentions_of other d
  /\ members_of other d' = members_of other d
  /\ message_references_of other d' = message_references_of other d.

(** *** The plugin and the server together *)

(** The server receiving, one after the other, the requests the plugin
    sent: the database they leave. *)
Definition deliver (env : Env) (calls : list ToneIndicator.Fetch) (d : DB) : DB :=
  fold_left (fun db call =>
               match call with
               | ToneIndicator.PostMessages message =>
                   st_db (snd (run (post_messages message) env db))
               | ToneIndicator.PostClassifier text =>
                   st_db (snd (run (post_classifier text) env db))
               end) calls d.

(** *** The time a transcript shows *)

(** Every row of the messages table has a [created_at]. *)
Definition stamped (d : DB) : Prop :=
  forall row, In row (messages d) -> present (messages_created_at row).

(** The line of a row, with the time taken from its [created_at]. *)
Definition line_at_created_at (msg : Message) (line : string) : Prop :=
  exists created_at,
    messages_created_at (m msg) = Some created_at
    /\ line = ("[" ++ substring 11 5 created_at ++ "] "
               ++ template_str (or_else_str (globalName msg) (username msg)) ++ ": "
               ++ template_str (messages_content (m msg)))%string.

(** *** The statuses of the responses *)

(** No statement of the request fails. *)
Definition healthy (env : Env) : Prop := forall n, db_fault env n = None.

(** No row of the authors table has the id. *)
Definition unknown_author (id : string) (d : DB) : Prop :=
  forall a, In a (authors d) -> Sql.eq (authors_id a) (Some id) = false.

(** ** Example requests and databases *)

(** An environment in which no statement fails and the external
    services answer with an empty value. *)
Definition calm (current_timestamp : string) : Env := {|
  now := current_timestamp;
  db_fault := fun _ => None;
  axios_post := fun _ _ => Resolved (JArr []);
  ollama_chat_tone := fun _ => Resolved (Some (JArr []))
|}.

(** An environment in which the statements numbered in [failing] fail. *)
Definition faulty (current_timestamp : string) (failing : list nat) : Env := {|
  now := current_timestamp;
  db_fault := fun n => if existsb (Nat.eqb n) failing then Some "SQLITE_BUSY" else None;
  axios_post := fun _ _ => Resolved (JArr []);
  ollama_chat_tone := fun _ => Resolved (Some (JArr []))
|}.

Definition sample_attachment (id filename : string) : AttachmentJson := {|
  att_id := Some id; att_filename := Some filename; att_size := Some 10%Z;
  att_url := None; att_proxy_url := None; att_height := None; att_width := None
|}.

Definition sample_author (id name : string) (global : option string) : AuthorJson := {|
  author_id := Some id; author_avatar := None; author_clan := None;
  author_discriminator := None; author_primary_guild := None;
  author_username := Some name; author_publicFlags := None;
  author_avatarDecorationData := None; author_globalName := global
|}.

Definition sample_message (id content timestamp : string) (author : option AuthorJson)
  (files : option (list (option AttachmentJson))) : MessageJson := {|
  message_id := Some id; message_guild_id := None;
  message_content := Some content; message_edited_timestamp := None;
  message_flags := None; message_nonce := None; message_pinned := None;
  message_timestamp := Some timestamp; message_tts := None; message_type := Some 0%Z;
  message_author := author; message_attachments := files;
  message_embeds := None; message_components := None; message_member := None;
  message_mentions := None; message_message_reference := None;
  message_referenced_message := None
|}.

Definition sample_envelope (channel : string) (message : option MessageJson) : Envelope := {|
  body_type := Some "MESSAGE_CREATE"; body_guildId := None;
  body_channelId := Some channel; body_message := message;
  body_optimistic := Some false; body_isPushNotification := None
|}.

(** A JavaScript runtime for the examples: every value serialises as an
    empty object, no string is a date. *)
Definition stringify_example (j : json) : string := "{}".

Definition parse_example (s : string) : option Z := None.

Definition iso_example (t : Z) : string := "1970-01-01T00:00:00.000Z".

Definition ten_o_clock : Env := calm "2025-01-01 10:00:00".

Definition five_past_ten : Env := calm "2025-01-01 10:05:00".

(** The first and the fourth statement of the request fail. *)
Definition busy : Env := faulty "2025-01-01 10:00:00" [0; 3].

(** A message of Ann with one attachment, and the same message edited. *)
Definition hello_message : MessageJson :=
  sample_message "m1" "hello" "2025-01-01T09:59:00.000Z"
    (Some (sample_author "u1" "ann" (Some "Ann")))
    (Some [Some (sample_attachment "a1" "cat.png")]).

Definition hello_edited_message : MessageJson :=
  sample_message "m1" "hello, world" "2025-01-01T09:59:00.000Z"
    (Some (sample_author "u1" "ann" (Some "Ann")))
    (Some [Some (sample_attachment "a1" "cat.png")]).

Definition hello : Envelope := sample_envelope "c1" (Some hello_message).

Definition hello_edited : Envelope := sample_envelope "c1" (Some hello_edited_message).

(** An answer of Bob in the same channel. *)
Definition reply : Envelope :=
  sample_envelope "c1"
    (Some (sample_message "m2" "hi Ann" "2025-01-01T10:01:00.000Z"
             (Some (sample_author "u2" "bob" None)) None)).

(** A message without [id]. *)
Definition no_id : MessageJson := {|
  message_id := None; message_guild_id := None;
  message_content := Some "hello"; message_edited_timestamp := None;
  message_flags := None; message_nonce := None; message_pinned := None;
  message_timestamp := None; message_tts := None; message_type := None;
  message_author := Some (sample_author "u1" "ann" None);
  message_attachments := Some [Some (sample_attachment "a1" "cat.png")];
  message_embeds := None; message_components := None; message_member := None;
  message_mentions := None; message_message_reference := None;
  message_referenced_message := None
|}.

(** A message of Ann with an attachment, an embed, a button and a
    mention of Bob. *)
Definition sample_embed (title : string) : EmbedJson := {|
  embed_title := Some title; embed_type := Some "rich"; embed_description := None;
  embed_url := None; embed_timestamp := None; embed_color := None;
  embed_footer := None; embed_image := None; embed_thumbnail := None;
  embed_video := None; embed_provider := None; embed_fields := None
|}.

Definition sample_component (label : string) : ComponentJson := {|
  comp_type := Some 2%Z; comp_label := Some label; comp_style := Some 1%Z;
  comp_custom_id := None; comp_url := None; comp_disabled := None; comp_emoji := None
|}.

Definition sample_mention (id name : string) : MentionJson := {|
  mention_id := Some id; mention_username := Some name; mention_discriminator := None;
  mention_avatar := None; mention_globalName := None
|}.

Definition illustrated (content : string) : MessageJson := {|
  message_id := Some "m1"; message_guild_id := None;
  message_content := Some content; message_edited_timestamp := None;
  message_flags := None; message_nonce := None; message_pinned := None;
  message_timestamp := Some "2025-01-01T09:59:00.000Z"; message_tts := None;
  message_type := Some 0%Z;
  message_author := Some (sample_author "u1" "ann" (Some "Ann"));
  message_attachments := Some [Some (sample_attachment "a1" "cat.png")];
  message_embeds := Some [Some (sample_embed "Cats")];
  message_components := Some [Some (sample_component "More")];
  message_member := None;
  message_mentions := Some [Some (sample_mention "u2" "bob")];
  message_message_reference := None;
  message_referenced_message := None
|}.

(** A message whose second attachment is [null], with an embed. *)
Definition with_null : MessageJson := {|
  message_id := Some "m1"; message_guild_id := None;
  message_content := Some "look"; message_edited_timestamp := None;
  message_flags := None; message_nonce := None; message_pinned := None;
  message_timestamp := Some "2025-01-01T09:59:00.000Z"; message_tts := None;
  message_type := Some 0%Z;
  message_author := None;
  message_attachments :=
    Some [Some (sample_attachment "a1" "one.png"); None;
          Some (sample_attachment "a3" "three.png")];
  message_embeds := Some [Some (sample_embed "Cats")];
  message_components := None;
  message_member := None;
  message_mentions := None;
  message_message_reference := None;
  message_referenced_message := None
|}.

(** A message with an author and three attachments. *)
Definition three_files : MessageJson :=
  sample_message "m1" "look" "2025-01-01T09:59:00.000Z"
    (Some (sample_author "u1" "ann" None))
    (Some [Some (sample_attachment "a1" "one.png"); Some (sample_attachment "a2" "two.png");
           Some (sample_attachment "a3" "three.png")]).

(** A message of channel "c1" with the given id and timestamp, and the
    row it is stored as at ten o'clock. *)
Definition at_noon (id time : string) : Envelope :=
  sample_envelope "c1" (Some (sample_message id "hi" time None None)).

Definition row_at_noon (id time : string) : message_row :=
  msgValues (at_noon id time) (sample_message id "hi" time None None) (now ten_o_clock).

(** The database after POST /messages on [d]. *)
Definition ingest (env : Env) (req : Envelope) (d : DB) : DB :=
  st_db (snd (run (post_messages req) env d)).

(** Three messages of channel "c1" at 12:00, 12:01 and 12:10, ingested
    latest first. *)
Definition three_messages : DB :=
  ingest ten_o_clock (at_noon "m1" "2025-01-01T12:01:00.000Z")
    (ingest ten_o_clock (at_noon "m0" "2025-01-01T12:00:00.000Z")
       (ingest ten_o_clock (at_noon "m2" "2025-01-01T12:10:00.000Z") empty_db)).

(** Twenty-two messages of channel "c1", one a minute from 12:10 to
    12:31, named by their minute. *)
Definition numbered (n : nat) : string := nat_toString n.

Definition minute (n : nat) : string :=
  ("2025-01-01T12:" ++ nat_toString n ++ ":00.000Z")%string.

Definition many_messages : DB :=
  fold_left (fun d n => ingest ten_o_clock (at_noon (numbered n) (minute n)) d)
    (seq 10 22) empty_db.

(** Ann's message, then Bob's answer five minutes later. *)
Definition conversation : DB :=
  ingest five_past_ten reply (ingest ten_o_clock hello empty_db).

(** The database after Ann's message was ingested and the insights of
    its author generated. *)
Definition after_generation : DB :=
  st_db (snd (run (handle (POST_user_insights "u1")) ten_o_clock
                (st_db (snd (run (handle (POST_messages hello)) ten_o_clock empty_db))))).

(** A reply to the message [original], sent by a member with the given
    nickname. *)
Definition sample_member (nick : string) : MemberJson := {|
  mem_avatar := None; mem_banner := None; mem_communication_disabled_until := None;
  mem_deaf := Some false; mem_flags := None; mem_joined_at := None;
  mem_mute := Some false; mem_nick := Some nick; mem_pending := None;
  mem_premium_since := None; mem_roles := None
|}.

Definition sample_reference (original : string) : MessageReferenceJson := {|
  ref_channel_id := Some "c1"; ref_guild_id := None;
  ref_message_id := Some original; ref_type := None
|}.

Definition sample_original (original content : string) : ReferencedMessageJson := {|
  refMsg_id := Some original; refMsg_channel_id := Some "c1";
  refMsg_content := Some content; refMsg_edited_timestamp := None;
  refMsg_flags := None; refMsg_mention_everyone := None; refMsg_pinned := None;
  refMsg_timestamp := None; refMsg_tts := None; refMsg_type := None
|}.

Definition reply_to (original id nick : string) : MessageJson := {|
  message_id := Some id; message_guild_id := None;
  message_content := Some "hi Ann"; message_edited_timestamp := None;
  message_flags := None; message_nonce := None; message_pinned := None;
  message_timestamp := Some "2025-01-01T10:01:00.000Z"; message_tts := None;
  message_type := Some 19%Z;
  message_author := Some (sample_author "u2" "bob" None);
  message_attachments := None; message_embeds := None; message_components := None;
  message_member := Some (sample_member nick);
  message_mentions := None;
  message_message_reference := Some (sample_reference original);
  message_referenced_message := Some (sample_original original "hello")
|}.

Definition reply_envelope (original id nick : string) : Envelope :=
  sample_envelope "c1" (Some (reply_to original id nick)).

(** Two messages of channel "c1": one of Eve without timestamp, which
    [new Date] reads as the epoch, and one of Dan at the epoch. *)
Definition undated_message : MessageJson := {|
  message_id := Some "e1"; message_guild_id := None;
  message_content := Some "when?"; message_edited_timestamp := None;
  message_flags := None; message_nonce := None; message_pinned := None;
  message_timestamp := None; message_tts := None; message_type := Some 0%Z;
  message_author := Some (sample_author "u3" "eve" None);
  message_attachments := None; message_embeds := None; message_components := None;
  message_member := None; message_mentions := None; message_message_reference := None;
  message_referenced_message := None
|}.

Definition epoch_message : MessageJson :=
  sample_message "e2" "then" "1970-01-01T00:00:00.000Z"
    (Some (sample_author "u4" "dan" None)) None.

Definition at_the_epoch : DB :=
  ingest ten_o_clock (sample_envelope "c1" (Some epoch_message))
    (ingest ten_o_clock (sample_envelope "c1" (Some undated_message)) empty_db).

(** Ann, under a new global name, posts "m3". *)
Definition annie : AuthorJson := sample_author "u1" "ann" (Some "Annie").

Definition renamed : Envelope :=
  sample_envelope "c1"
    (Some (sample_message "m3" "bye" "2025-01-01T10:06:00.000Z" (Some annie) None)).

(** ** Properties of the handler monad *)

Lemma preserves_ret R A (a : A) : preorder R -> preserves R (ret a).
Proof. intros [Hrefl _] env s. apply Hrefl. Qed.

Lemma preserves_bind R A B (c : M A) (k : A -> M B) :
  preorder R -> preserves R c -> (forall a, preserves R (k a)) ->
  preserves R (bind c k).
Proof.
  intros [_ Htrans] Hc Hk env s. unfold bind.
  specialize (Hc env s). destruct (c env s) as [a s1]. simpl in Hc.
  eapply Htrans; [exact Hc | apply Hk].
Qed.

Lemma preserves_ask R : preorder R -> preserves R ask.
Proof. intros [Hrefl _] env s. apply Hrefl. Qed.

Lemma preserves_console_error R label detail :
  preorder R -> preserves R (console_error label detail).
Proof. intros [Hrefl _] env s. apply Hrefl. Qed.

Lemma preserves_record_call R call : preorder R -> preserves R (record_call call).
Proof. intros [Hrefl _] env s. apply Hrefl. Qed.

Lemma preserves_statement R : preorder R -> preserves R statement.
Proof. intros [Hrefl _] env s. apply Hrefl. Qed.

Lemma preserves_read R A (q : DB -> A) : preorder R -> preserves R (read q).
Proof. intros [Hrefl _] env s. apply Hrefl. Qed.

Lemma preserves_write R (f : DB -> DB) :
  (forall d, R d (f d)) -> preserves R (write f).
Proof. intros Hf env s. apply Hf. Qed.

Lemma preserves_log_if_error R label err :
  preorder R -> preserves R (log_if_error label err).
Proof.
  intros HR. destruct err; [apply preserves_console_error | apply preserves_ret]; exact HR.
Qed.

Lemma preserves_db_run R (f : DB -> DB) :
  preorder R -> (forall d, R d (f d)) -> preserves R (db_run f).
Proof.
  intros HR Hf. unfold db_run.
  apply preserves_bind; [exact HR | apply preserves_statement; exact HR |].
  intros [e|]; [apply preserves_ret; exact HR |].
  apply preserves_bind; [exact HR | apply preserves_write; exact Hf |].
  intros _. apply preserves_ret; exact HR.
Qed.

Lemma preserves_logged R label (f : DB -> DB) :
  preorder R -> (forall d, R d (f d)) -> preserves R (logged label f).
Proof.
  intros HR Hf. unfold logged.
  apply preserves_bind; [exact HR | apply preserves_db_run; assumption |].
  intros err. apply preserves_log_if_error; exact HR.
Qed.

Lemma preserves_db_all R A (q : DB -> list A) : preorder R -> preserves R (db_all q).
Proof.
  intros HR. unfold db_all.
  apply preserves_bind; [exact HR | apply preserves_statement; exact HR |].
  intros [e|]; [apply preserves_ret; exact HR |].
  apply preserves_bind; [exact HR | apply preserves_read; exact HR |].
  intros rows. apply preserves_ret; exact HR.
Qed.

Lemma preserves_db_get R A (q : DB -> list A) : preorder R -> preserves R (db_get q).
Proof.
  intros HR. unfold db_get.
  apply preserves_bind; [exact HR | apply preserves_statement; exact HR |].
  intros [e|]; [apply preserves_ret; exact HR |].
  apply preserves_bind; [exact HR | apply preserves_read; exact HR |].
  intros rows. apply preserves_ret; exact HR.
Qed.

Lemma preserves_each R A (l : list A) (f : A -> M unit) :
  preorder R -> (forall x, preserves R (f x)) -> preserves R (each l f).
Proof.
  intros HR Hf. induction l as [|x rest IH]; simpl.
  - apply preserves_ret; exact HR.
  - apply preserves_bind; [exact HR | apply Hf | intros _; exact IH].
Qed.

Lemma preserves_each_if_array R A (l : option (list (option A))) (f : A -> M unit) :
  preorder R -> (forall x, preserves R (f x)) -> preserves R (each_if_array l f).
Proof.
  intros HR Hf. destruct l as [items|]; simpl.
  - apply preserves_each; assumption.
  - apply preserves_ret; exact HR.
Qed.

Lemma preserves_forEach R A (l : list (option A)) property (f : A -> M unit) :
  preorder R -> (forall x, preserves R (f x)) -> preserves R (forEach l property f).
Proof.
  intros HR Hf. induction l as [|[x|] rest IH]; simpl.
  - apply preserves_ret; exact HR.
  - apply preserves_bind; [exact HR | apply Hf | intros _; exact IH].
  - apply preserves_ret; exact HR.
Qed.

Lemma preserves_forEach_if_array R A (l : option (list (option A))) property
      (f : A -> M unit) :
  preorder R -> (forall x, preserves R (f x)) -> preserves R (forEach_if_array l property f).
Proof.
  intros HR Hf. destruct l as [elements|]; simpl.
  - apply preserves_forEach; assumption.
  - apply preserves_ret; exact HR.
Qed.

Ltac preserving HR :=
  repeat first
    [ exact HR
    | apply preserves_ret | apply preserves_ask | apply preserves_console_error
    | apply preserves_record_call | apply preserves_statement | apply preserves_read
    | apply preserves_log_if_error | apply preserves_db_all | apply preserves_db_get
    | apply preserves_each_if_array | apply preserves_each
    | apply preserves_forEach_if_array | apply preserves_forEach
    | apply preserves_db_run | apply preserves_logged
    | apply preserves_bind
    | match goal with
      | |- preserves _ (match ?x with _ => _ end) => destruct x
      end
    | match goal with
      | |- forall _, _ => intro
      end ].

(** ** Ingestion: a loop ends at its first null element *)

Lemma forEach_run A (l : list (option A)) property (f : A -> M unit) env s :
  forEach l property f env s
  = (if has_null (Some l) then Rejected (TypeError_null property) else Resolved tt,
     snd (each (objects l) f env s)).
Proof.
  revert s. induction l as [|[x|] rest IH]; intros s; simpl; try reflexivity.
  unfold bind. destruct (f x env s) as [u s1]. apply IH.
Qed.

Lemma forEach_if_array_run A (l : option (list (option A))) property (f : A -> M unit) env s :
  forEach_if_array l property f env s
  = (if has_null l then Rejected (TypeError_null property) else Resolved tt,
     snd (each_if_array l f env s)).
Proof.
  destruct l as [elements|]; [apply forEach_run | reflexivity].
Qed.

Lemma objects_map_Some A (l : list A) : objects (map Some l) = l.
Proof. induction l as [|x rest IH]; simpl; [reflexivity | now rewrite IH]. Qed.

Lemma each_if_array_cut A (l : option (list (option A))) (f : A -> M unit) :
  each_if_array (cut l) f = each_if_array l f.
Proof.
  destruct l as [elements|]; [|reflexivity]. simpl. now rewrite objects_map_Some.
Qed.

Lemma items_cut A (l : option (list (option A))) : items (cut l) = items l.
Proof.
  destruct l as [elements|]; [|reflexivity]. simpl. now rewrite objects_map_Some.
Qed.

Lemma map_Some_objects A (l : list (option A)) :
  has_null (Some l) = false -> map Some (objects l) = l.
Proof.
  induction l as [|[x|] rest IH]; simpl; intros H; try reflexivity; try discriminate.
  now rewrite IH.
Qed.

Lemma cut_without_null A (l : option (list (option A))) : has_null l = false -> cut l = l.
Proof.
  destruct l as [elements|]; [|reflexivity]. intros H. simpl.
  now rewrite map_Some_objects.
Qed.

Lemma has_null_cut A (l : option (list (option A))) : has_null (cut l) = false.
Proof.
  destruct l as [elements|]; [|reflexivity]. simpl.
  induction (objects elements) as [|x rest IH]; [reflexivity | exact IH].
Qed.

(** A message whose arrays hold objects only is reached whole, and its
    callback comes to its end. *)
Lemma reached_objects_only message : objects_only message -> reached message = message.
Proof.
  intros (Ha & He & Hc & Hn). unfold reached. rewrite Ha, He, Hc, Hn. simpl.
  rewrite !cut_without_null by assumption. now destruct message.
Qed.

Lemma thrown_by_objects_only message :
  thrown_by message = Resolved tt <-> objects_only message.
Proof.
  unfold thrown_by, objects_only.
  destruct (has_null (message_attachments message)),
    (has_null (message_embeds message)),
    (has_null (message_components message)),
    (has_null (message_mentions message));
    split; try discriminate; try tauto;
    intros (H1 & H2 & H3 & H4); discriminate.
Qed.

Lemma thrown_by_cases message :
  (thrown_by message = Resolved tt /\ objects_only message)
  \/ (exists e, thrown_by message = Rejected e /\ ~ objects_only message).
Proof.
  destruct (thrown_by message) as [[]|e] eqn:E.
  - left. split; [reflexivity | now apply thrown_by_objects_only].
  - right. exists e. split; [reflexivity|]. intros H.
    apply thrown_by_objects_only in H. rewrite H in E. discriminate E.
Qed.

Lemma objects_only_reached message : objects_only (reached message).
Proof.
  unfold objects_only, reached. cbn.
  repeat split;
    repeat match goal with
           | |- context [if ?b then _ else _] => destruct b
           end; try reflexivity; apply has_null_cut.
Qed.

(** The callback of the message statement sends the statements of what
    it reaches, and ends with the exception of the first loop that met a
    null, if any. *)
Lemma insert_children_run message env s :
  insert_children message env s
  = (thrown_by message, snd (store_children (reached message) env s)).
Proof.
  unfold insert_children, store_children, thrown_by, reached, and_then.
  cbv zeta. cbn [message_id message_attachments message_embeds message_components
                 message_member message_mentions message_message_reference
                 message_referenced_message].
  unfold bind. rewrite !forEach_if_array_run, !each_if_array_cut.
  destruct (each_if_array (message_attachments message) _ env s) as [u1 s1].
  cbn [fst snd].
  destruct (has_null (message_attachments message)); cbn [orb].
  { reflexivity. }
  rewrite forEach_if_array_run, each_if_array_cut.
  destruct (each_if_array (message_embeds message) _ env s1) as [u2 s2].
  cbn [fst snd].
  destruct (has_null (message_embeds message)); cbn [orb].
  { reflexivity. }
  rewrite forEach_if_array_run, each_if_array_cut.
  destruct (each_if_array (message_components message) _ env s2) as [u3 s3].
  cbn [fst snd].
  destruct (has_null (message_components message)); cbn [orb].
  { reflexivity. }
  match goal with
  | |- context [match message_member message with Some mem => _ | None => _ end env s3] =>
      destruct (match message_member message with
                | Some mem => logged "Failed to insert member:"
                                (upsert_member (memberValues (message_id message) mem))
                | None => ret tt
                end env s3) as [u4 s4]
  end.
  rewrite forEach_if_array_run, each_if_array_cut.
  destruct (each_if_array (message_mentions message) _ env s4) as [u5 s5].
  cbn [fst snd].
  destruct (has_null (message_mentions message)); cbn [orb].
  { reflexivity. }
  destruct (message_message_reference message) as [ref|],
    (message_referenced_message message) as [refMsg|]; unfold ret;
    repeat match goal with
           | |- context [logged ?label ?f env ?s0] => destruct (logged label f env s0)
           end; reflexivity.
Qed.

Lemma preserves_insert_children R message :
  (forall reached, preserves R (store_children reached)) ->
  preserves R (insert_children message).
Proof.
  intros H env s. rewrite insert_children_run. apply H.
Qed.

(** ** Ingestion: what the statements of POST /messages keep *)

Lemma extended_refl A (t : list A) : extended t t.
Proof. exists []. now rewrite app_nil_r. Qed.

Lemma extended_trans A (a b c : list A) : extended a b -> extended b c -> extended a c.
Proof. intros [x ->] [y ->]. exists (x ++ y). now rewrite app_assoc. Qed.

Lemma extended_snoc A (t : list A) (r : A) : extended t (t ++ [r]).
Proof. now exists [r]. Qed.

Lemma extended_In A (t t' : list A) (r : A) : extended t t' -> In r t -> In r t'.
Proof. intros [more ->] H. apply in_or_app. now left. Qed.

Lemma messages_kept_preorder : preorder messages_kept.
Proof.
  split; unfold messages_kept.
  - reflexivity.
  - intros a b c H1 H2. now rewrite H2.
Qed.

Lemma children_kept_preorder : preorder children_kept.
Proof.
  split; unfold children_kept.
  - intros d. repeat split; apply extended_refl.
  - intros a b c (A1 & A2 & A3 & A4) (B1 & B2 & B3 & B4).
    repeat split; eapply extended_trans; eassumption.
Qed.

Ltac table_kept :=
  intros; unfold children_kept; simpl; repeat split;
  first [ apply extended_refl | apply extended_snoc ].

Lemma store_children_keeps_messages message :
  preserves messages_kept (store_children message).
Proof.
  unfold store_children. preserving messages_kept_preorder; reflexivity.
Qed.

Lemma store_children_keeps_children message :
  preserves children_kept (store_children message).
Proof.
  unfold store_children. preserving children_kept_preorder; table_kept.
Qed.

Lemma post_messages_keeps_children req : preserves children_kept (post_messages req).
Proof.
  unfold post_messages.
  preserving children_kept_preorder; table_kept.
Qed.

(** The message statement is the only one that touches the messages
    table: a successful ingestion replaces or adds exactly its row. *)
Lemma post_messages_upserts req message env s response s' :
  body_message req = Some message ->
  post_messages req env s = (response, s') ->
  response = Some (json_response SuccessTrue) ->
  messages (st_db s')
  = Sql.insert_or_replace messages_id (msgValues req message (now env)) (messages (st_db s)).
Proof.
  intros Hm Hrun Hok. unfold post_messages in Hrun. rewrite Hm in Hrun.
  destruct (negb (truthy_str (message_id message)));
    [inversion Hrun; subst; discriminate|].
  set (author_step := match author_with_id message with
                      | Some author => _
                      | None => _
                      end) in Hrun.
  assert (Ha : preserves messages_kept author_step).
  { subst author_step. preserving messages_kept_preorder; reflexivity. }
  specialize (Ha env s). unfold messages_kept in Ha.
  unfold bind at 1 in Hrun. destruct (author_step env s) as [u s1]. simpl in Ha.
  unfold bind, ask, db_run, bind, statement in Hrun.
  destruct (db_fault env (st_clock s1)) as [e|].
  - simpl in Hrun. inversion Hrun; subst; discriminate.
  - unfold write, ret in Hrun.
    match type of Hrun with
    | context [insert_children message env ?s2] =>
        pose proof (preserves_insert_children messages_kept message
                      store_children_keeps_messages env s2) as Hc;
        destruct (insert_children message env s2) as [[u'|e] s3]
    end; inversion Hrun; subst; [|discriminate].
    unfold messages_kept in Hc. simpl in Hc.
    now rewrite Hc, Ha.
Qed.

Lemma insert_or_replace_unique A (key : A -> option string) (r : A) (t : list A) (id : string) :
  key r = Some id ->
  filter (fun row => Sql.eq (key row) (Some id)) (Sql.insert_or_replace key r t) = [r].
Proof.
  intros Hk. unfold Sql.insert_or_replace. rewrite filter_app. simpl.
  rewrite Hk. simpl. rewrite String.eqb_refl.
  replace (filter _ (filter _ t)) with (@nil A); [reflexivity|].
  induction t as [|x rest IH]; simpl; [reflexivity|].
  destruct (Sql.eq (key x) (Some id)) eqn:E; simpl; [exact IH|].
  now rewrite E.
Qed.

(** C3: a POST /messages whose body lacks [message] or [message.id] is
    answered 400 with [{success: false, error}] and the handler leaves the
    whole state as it found it: the database is unchanged, no statement
    was sent to SQLite (no author upsert, no message row, no child row),
    nothing was logged and nothing was called. *)
Theorem C3_missing_id_rejected_before_any_write :
  forall (req : Envelope) (env : Env) (s : St),
    lacks_message_id req ->
    post_messages req env s
    = (Some (status_response 400 (SuccessFalse "Message object must contain an id")), s).
Proof.
  intros req env s H. unfold lacks_message_id in H. unfold post_messages.
  destruct (body_message req) as [message|]; [|reflexivity].
  rewrite H. reflexivity.
Qed.

(** ** Ingestion: every child statement is sent, whatever failed before *)

Lemma failures_S env from n :
  failures env from (S n) = (if failed env from then 1 else 0) + failures env (S from) n.
Proof. unfold failures. simpl. destruct (failed env from); reflexivity. Qed.

Lemma failures_add env from n k :
  failures env from (n + k) = failures env from n + failures env (from + n) k.
Proof.
  unfold failures. rewrite seq_app, filter_app, length_app. reflexivity.
Qed.

Lemma logged_effect label f env s :
  let s' := snd (logged label f env s) in
  st_clock s' = S (st_clock s)
  /\ length (st_console s') = length (st_console s) + failures env (st_clock s) 1
  /\ st_db s' = (if failed env (st_clock s) then st_db s else f (st_db s)).
Proof.
  unfold logged, db_run, bind, statement, failures, failed. simpl.
  destruct (db_fault env (st_clock s)) as [e|]; simpl.
  - rewrite length_app. simpl. repeat split; lia.
  - repeat split; lia.
Qed.

(** A loop of logged inserts into the table [tbl]: it sends one statement
    per item, logs one line per failure, only adds rows to [tbl], and the
    row of every item whose statement succeeds is in [tbl] afterwards. *)
Lemma each_logged_effect A R (tbl : DB -> list R) (ins : A -> DB -> DB)
      (row : A -> R -> Prop) label (l : list A) env s :
  (forall x d, exists r, row x r /\ tbl (ins x d) = tbl d ++ [r]) ->
  let s' := snd (each l (fun x => logged label (ins x)) env s) in
  st_clock s' = st_clock s + length l
  /\ length (st_console s') = length (st_console s) + failures env (st_clock s) (length l)
  /\ extended (tbl (st_db s)) (tbl (st_db s'))
  /\ forall i x, nth_error l i = Some x -> db_fault env (st_clock s + i) = None ->
       exists r, row x r /\ In r (tbl (st_db s')).
Proof.
  intros Hins. revert s. induction l as [|x rest IH]; intros s; simpl.
  - unfold failures. simpl. repeat split; try lia.
    + apply extended_refl.
    + intros [|i] y H; discriminate.
  - unfold bind.
    pose proof (logged_effect label (ins x) env s) as (Hc & Hl & Hd).
    destruct (logged label (ins x) env s) as [u s1]. simpl in Hc, Hl, Hd.
    specialize (IH s1). simpl in IH. destruct IH as (Ic & Il & Ie & Ii).
    assert (Hstep : extended (tbl (st_db s)) (tbl (st_db s1))).
    { rewrite Hd. destruct (failed env (st_clock s)).
      - apply extended_refl.
      - destruct (Hins x (st_db s)) as (r & _ & ->). apply extended_snoc. }
    repeat split.
    + lia.
    + rewrite Il, Hl, Hc. change (S (length rest)) with (1 + length rest).
      rewrite failures_add. replace (st_clock s + 1) with (S (st_clock s)) by lia. lia.
    + eapply extended_trans; eassumption.
    + intros [|i] y Hy Hf; simpl in Hy.
      * inversion Hy; subst y. rewrite Nat.add_0_r in Hf.
        unfold failed in Hd. rewrite Hf in Hd.
        destruct (Hins x (st_db s)) as (r & Hr & Ht).
        exists r. split; [exact Hr|].
        eapply extended_In; [exact Ie|]. rewrite Hd, Ht.
        apply in_or_app. right. now left.
      * apply (Ii i y Hy). rewrite Hc.
        now replace (S (st_clock s) + i) with (st_clock s + S i) by lia.
Qed.

Lemma each_if_array_logged_effect A R (tbl : DB -> list R) (ins : A -> DB -> DB)
      (row : A -> R -> Prop) label (l : option (list (option A))) env s :
  (forall x d, exists r, row x r /\ tbl (ins x d) = tbl d ++ [r]) ->
  let s' := snd (each_if_array l (fun x => logged label (ins x)) env s) in
  st_clock s' = st_clock s + length (items l)
  /\ length (st_console s') = length (st_console s) + failures env (st_clock s) (length (items l))
  /\ forall i x, nth_error (items l) i = Some x -> db_fault env (st_clock s + i) = None ->
       exists r, row x r /\ In r (tbl (st_db s')).
Proof.
  intros Hins. destruct l as [elements|]; simpl.
  - destruct (each_logged_effect A R tbl ins row label (objects elements) env s Hins)
      as (Hc & Hl & _ & Hi).
    repeat split; assumption.
  - unfold failures. simpl. repeat split; try lia.
    intros [|i] x H; discriminate.
Qed.

Lemma optional_logged_effect A (o : option A) label (f : A -> DB -> DB) env s :
  let s' := snd (match o with
                 | Some x => logged label (f x)
                 | None => ret tt
                 end env s) in
  st_clock s' = st_clock s + count_if o
  /\ length (st_console s') = length (st_console s) + failures env (st_clock s) (count_if o)
  /\ forall x, o = Some x -> db_fault env (st_clock s) = None -> st_db s' = f x (st_db s).
Proof.
  destruct o as [x|]; simpl.
  - destruct (logged_effect label (f x) env s) as (Hc & Hl & Hd).
    repeat split; try lia.
    intros y Hy Hf. inversion Hy; subst y. unfold failed in Hd. now rewrite Hf in Hd.
  - unfold failures. simpl. repeat split; try lia. discriminate.
Qed.

Lemma In_insert_or_replace A (key : A -> option string) (r : A) (t : list A) :
  In r (Sql.insert_or_replace key r t).
Proof. unfold Sql.insert_or_replace. apply in_or_app. right. now left. Qed.

Lemma members_kept_preorder : preorder members_kept.
Proof.
  split; unfold members_kept.
  - reflexivity.
  - intros a b c H1 H2. now rewrite H2.
Qed.

Lemma message_references_kept_preorder : preorder message_references_kept.
Proof.
  split; unfold message_references_kept.
  - reflexivity.
  - intros a b c H1 H2. now rewrite H2.
Qed.

Ltac keep env R HR K s :=
  match goal with
  | |- context [?h env s] =>
      assert (K : R (st_db s) (st_db (snd (h env s))))
        by (let P := fresh "P" in
            assert (P : preserves R h)
              by (preserving HR; intros; first [table_kept | reflexivity]);
            exact (P env s))
  end.

Ltac name_phase env s r E :=
  match goal with
  | |- context [?h env s] => remember (h env s) as r eqn:E
  end.

Lemma store_children_effect message env s :
  let s' := snd (store_children message env s) in
  st_clock s' = st_clock s + children_count message
  /\ length (st_console s')
     = length (st_console s) + failures env (st_clock s) (children_count message)
  /\ children_stored message env (st_clock s) (st_db s').
Proof.
  unfold store_children. cbv zeta. unfold bind.
  set (id := message_id message).
  (* attachments *)
  pose proof (each_if_array_logged_effect _ _ attachments
                (fun att => insert_attachment (attachmentValues id att))
                (fun att r => exists rowid, r = attachmentValues id att rowid)
                "Failed to insert attachment:" (message_attachments message) env s) as P1.
  cbv beta zeta in P1.
  name_phase env s r1 E1. clear E1. destruct r1 as [u1 s1]. simpl snd in P1.
  destruct P1 as (C1 & L1 & M1).
  { intros x d. eexists. split; [eexists; reflexivity | reflexivity]. }
  (* embeds *)
  pose proof (each_if_array_logged_effect _ _ embeds
                (fun embed => insert_embed (embedValues id embed))
                (fun embed r => exists rowid, r = embedValues id embed rowid)
                "Failed to insert embed:" (message_embeds message) env s1) as P2.
  cbv beta zeta in P2.
  keep env children_kept children_kept_preorder K2 s1.
  name_phase env s1 r2 E2. clear E2. destruct r2 as [u2 s2]. simpl snd in P2, K2.
  destruct P2 as (C2 & L2 & M2).
  { intros x d. eexists. split; [eexists; reflexivity | reflexivity]. }
  (* components *)
  pose proof (each_if_array_logged_effect _ _ components
                (fun comp => insert_component (componentValues id comp))
                (fun comp r => exists rowid, r = componentValues id comp rowid)
                "Failed to insert component:" (message_components message) env s2) as P3.
  cbv beta zeta in P3.
  keep env children_kept children_kept_preorder K3 s2.
  name_phase env s2 r3 E3. clear E3. destruct r3 as [u3 s3]. simpl snd in P3, K3.
  destruct P3 as (C3 & L3 & M3).
  { intros x d. eexists. split; [eexists; reflexivity | reflexivity]. }
  (* member *)
  pose proof (optional_logged_effect _ (message_member message) "Failed to insert member:"
                (fun mem => upsert_member (memberValues id mem)) env s3) as P4.
  cbv beta zeta in P4.
  keep env children_kept children_kept_preorder K4 s3.
  name_phase env s3 r4 E4. clear E4. destruct r4 as [u4 s4]. simpl snd in P4, K4.
  destruct P4 as (C4 & L4 & M4).
  (* mentions *)
  pose proof (each_if_array_logged_effect _ _ mentions
                (fun mention => insert_mention (mentionValues id mention))
                (fun mention r => exists rowid, r = mentionValues id mention rowid)
                "Failed to insert mention:" (message_mentions message) env s4) as P5.
  cbv beta zeta in P5.
  keep env children_kept children_kept_preorder K5 s4.
  keep env members_kept members_kept_preorder N5 s4.
  name_phase env s4 r5 E5. clear E5. destruct r5 as [u5 s5]. simpl snd in P5, K5, N5.
  destruct P5 as (C5 & L5 & M5).
  { intros x d. eexists. split; [eexists; reflexivity | reflexivity]. }
  (* message reference *)
  pose proof (optional_logged_effect _ (message_message_reference message)
                "Failed to insert message reference:"
                (fun ref => upsert_message_reference (refValues id ref)) env s5) as P6.
  cbv beta zeta in P6.
  keep env children_kept children_kept_preorder K6 s5.
  keep env members_kept members_kept_preorder N6 s5.
  name_phase env s5 r6 E6. clear E6. destruct r6 as [u6 s6]. simpl snd in P6, K6, N6.
  destruct P6 as (C6 & L6 & M6).
  (* referenced message *)
  pose proof (optional_logged_effect _ (message_referenced_message message)
                "Failed to insert referenced message:"
                (fun refMsg => upsert_referenced_message (refMsgValues id refMsg)) env s6) as P7.
  cbv beta zeta in P7.
  keep env children_kept children_kept_preorder K7 s6.
  keep env members_kept members_kept_preorder N7 s6.
  keep env message_references_kept message_references_kept_preorder R7 s6.
  name_phase env s6 r7 E7. clear E7. destruct r7 as [u7 s7]. simpl snd in *.
  destruct P7 as (C7 & L7 & M7).
  rewrite C1 in *. rewrite C2 in *. rewrite C3 in *. rewrite C4 in *.
  rewrite C5 in *. rewrite C6 in *.
  split; [|split].
  - rewrite C7. unfold children_count. lia.
  - rewrite L7, L6, L5, L4, L3, L2, L1. unfold children_count.
    rewrite !failures_add, !Nat.add_assoc. lia.
  - unfold children_stored, attachment_offset, referenced_message_offset,
      message_reference_offset, mention_offset, member_offset, component_offset,
      embed_offset.
    cbv zeta. fold id.
    unfold members_kept in N5, N6, N7. unfold message_references_kept in R7.
    repeat apply conj.
    + intros i att Hn Hf. rewrite ?Nat.add_assoc in Hf. destruct (M1 i att Hn Hf) as (r & (rowid & ->) & Hin).
      exists rowid.
      eapply extended_In; [exact (proj1 K7)|].
      eapply extended_In; [exact (proj1 K6)|].
      eapply extended_In; [exact (proj1 K5)|].
      eapply extended_In; [exact (proj1 K4)|].
      eapply extended_In; [exact (proj1 K3)|].
      eapply extended_In; [exact (proj1 K2)|]. exact Hin.
    + intros i embed Hn Hf. rewrite ?Nat.add_assoc in Hf. destruct (M2 i embed Hn Hf) as (r & (rowid & ->) & Hin).
      exists rowid.
      eapply extended_In; [exact (proj1 (proj2 K7))|].
      eapply extended_In; [exact (proj1 (proj2 K6))|].
      eapply extended_In; [exact (proj1 (proj2 K5))|].
      eapply extended_In; [exact (proj1 (proj2 K4))|].
      eapply extended_In; [exact (proj1 (proj2 K3))|]. exact Hin.
    + intros i comp Hn Hf. rewrite ?Nat.add_assoc in Hf. destruct (M3 i comp Hn Hf) as (r & (rowid & ->) & Hin).
      exists rowid.
      eapply extended_In; [exact (proj1 (proj2 (proj2 K7)))|].
      eapply extended_In; [exact (proj1 (proj2 (proj2 K6)))|].
      eapply extended_In; [exact (proj1 (proj2 (proj2 K5)))|].
      eapply extended_In; [exact (proj1 (proj2 (proj2 K4)))|]. exact Hin.
    + intros mem Hn Hf. rewrite ?Nat.add_assoc in Hf. rewrite N7, N6, N5, (M4 mem Hn Hf). simpl.
      apply In_insert_or_replace.
    + intros i mention Hn Hf. rewrite ?Nat.add_assoc in Hf. destruct (M5 i mention Hn Hf) as (r & (rowid & ->) & Hin).
      exists rowid.
      eapply extended_In; [exact (proj2 (proj2 (proj2 K7)))|].
      eapply extended_In; [exact (proj2 (proj2 (proj2 K6)))|]. exact Hin.
    + intros ref Hn Hf. rewrite ?Nat.add_assoc in Hf. rewrite R7, (M6 ref Hn Hf). simpl.
      apply In_insert_or_replace.
    + intros refMsg Hn Hf. rewrite ?Nat.add_assoc in Hf. rewrite (M7 refMsg Hn Hf). simpl.
      apply In_insert_or_replace.
Qed.

(** A valid ingestion whose message statement succeeds, whatever its
    arrays hold: the callback sends one statement for each child it
    reaches, and answers unless a loop threw. *)
Lemma post_messages_effect req message env d :
  body_message req = Some message ->
  truthy_str (message_id message) = true ->
  db_fault env (message_statement message) = None ->
  let result := run (post_messages req) env d in
  fst result = match thrown_by message with
               | Resolved _ => Some (json_response SuccessTrue)
               | Rejected _ => None
               end
  /\ st_clock (snd result) = statements_sent (reached message)
  /\ length (st_console (snd result)) = failures env 0 (statements_sent (reached message))
  /\ children_stored (reached message) env (message_statement message + 1)
       (st_db (snd result)).
Proof.
  intros Hm Hid Hf. unfold run, post_messages.
  rewrite Hm, Hid. change (negb true) with false. cbv beta iota. unfold bind. cbv beta.
  pose proof (optional_logged_effect _ (author_with_id message)
                "Failed to insert/update author:"
                (fun author => upsert_author (authorValues author)) env (start d)) as P0.
  cbv beta zeta in P0.
  name_phase env (start d) r0 E0. clear E0. destruct r0 as [u0 s0]. simpl snd in P0.
  destruct P0 as (C0 & L0 & _). simpl in C0, L0. fold (message_statement message) in C0, L0.
  unfold ask, db_run, bind, statement. rewrite C0, Hf. unfold write, ret.
  rewrite insert_children_run.
  match goal with
  | |- context [store_children (reached message) env ?s2] =>
      pose proof (store_children_effect (reached message) env s2) as (C & L & Hstored);
      destruct (store_children (reached message) env s2) as [u s3]
  end.
  unfold statements_sent.
  change (message_statement (reached message)) with (message_statement message).
  cbn [fst snd st_clock st_console st_db] in *.
  replace (S (message_statement message)) with (message_statement message + 1) in * by lia.
  split; [|split; [|split]].
  - destruct (thrown_by message); reflexivity.
  - destruct (thrown_by message); cbn [snd]; lia.
  - assert (H1 : failures env (message_statement message) 1 = 0).
    { unfold failures, failed. simpl. now rewrite Hf. }
    destruct (thrown_by message); cbn [snd];
      rewrite L, L0, !failures_add; simpl; lia.
  - destruct (thrown_by message); exact Hstored.
Qed.

(** C4: when the envelope passes validation, every element of its
    child arrays is an object and the message statement succeeds, the
    answer is [{success: true}] whatever the outcome of the other
    statements; one statement was sent for the author, for the message and
    for every child (a failure stops none of the siblings); every failure
    left exactly one console line and nothing else; and every attachment,
    embed, component, mention, member, message reference and referenced
    message whose own statement succeeded is in its table, whichever
    sibling statements failed. *)
Theorem C4_child_failures_are_only_logged :
  forall (req : Envelope) (message : MessageJson) (env : Env) (d : DB),
    body_message req = Some message ->
    truthy_str (message_id message) = true ->
    objects_only message ->
    db_fault env (message_statement message) = None ->
    let result := run (post_messages req) env d in
    fst result = Some (json_response SuccessTrue)
    /\ st_clock (snd result) = statements_sent message
    /\ length (st_console (snd result)) = failures env 0 (statements_sent message)
    /\ children_stored message env (message_statement message + 1) (st_db (snd result)).
Proof.
  intros req message env d Hm Hid Hobjects Hf.
  pose proof (post_messages_effect req message env d Hm Hid Hf) as H. cbv zeta in H.
  rewrite (reached_objects_only message Hobjects) in H.
  apply thrown_by_objects_only in Hobjects. rewrite Hobjects in H. exact H.
Qed.

(** ** Sorting: the result is an ordered rearrangement *)

Section Sorting.

Context {A : Type} (le : A -> A -> bool).

Lemma insert_by_permutation (x : A) (l : list A) : Permutation (insert_by le x l) (x :: l).
Proof.
  induction l as [|y rest IH]; simpl.
  - apply Permutation_refl.
  - destruct (le x y).
    + apply Permutation_refl.
    + eapply perm_trans; [apply perm_skip; exact IH | apply perm_swap].
Qed.

Lemma sort_by_permutation (l : list A) : Permutation (sort_by le l) l.
Proof.
  induction l as [|x rest IH]; simpl.
  - apply perm_nil.
  - eapply perm_trans; [apply insert_by_permutation | apply perm_skip; exact IH].
Qed.

Lemma sort_by_In (l : list A) (x : A) : In x (sort_by le l) <-> In x l.
Proof.
  split; apply Permutation_in;
    [apply sort_by_permutation | apply Permutation_sym, sort_by_permutation].
Qed.

Lemma sort_by_length (l : list A) : length (sort_by le l) = length l.
Proof. apply Permutation_length, sort_by_permutation. Qed.

Hypothesis le_total : forall a b, le a b = true \/ le b a = true.

Lemma insert_by_ordered (x : A) (l : list A) : ordered le l -> ordered le (insert_by le x l).
Proof.
  unfold ordered. induction l as [|y rest IH]; intros Hl; simpl.
  - repeat constructor.
  - destruct (le x y) eqn:E.
    + constructor; [exact Hl | constructor; exact E].
    + apply Sorted_inv in Hl. destruct Hl as [Hrest Hhd].
      constructor; [apply IH; exact Hrest |].
      assert (Hyx : le y x = true) by (destruct (le_total x y); congruence).
      destruct rest as [|z rest']; simpl.
      * constructor; exact Hyx.
      * destruct (le x z); constructor; [exact Hyx | now inversion Hhd].
Qed.

Lemma sort_by_ordered (l : list A) : ordered le (sort_by le l).
Proof.
  induction l as [|x rest IH]; simpl.
  - constructor.
  - apply insert_by_ordered, IH.
Qed.

Lemma firstn_ordered (n : nat) (l : list A) : ordered le l -> ordered le (firstn n l).
Proof.
  unfold ordered. revert l. induction n as [|n IH]; intros l Hl; simpl.
  - constructor.
  - destruct l as [|x rest]; [constructor|].
    apply Sorted_inv in Hl. destruct Hl as [Hrest Hhd].
    constructor; [apply IH; exact Hrest |].
    destruct rest as [|y rest']; destruct n; simpl; constructor.
    now inversion Hhd.
Qed.

End Sorting.

Lemma Permutation_filter A (f : A -> bool) (l l' : list A) :
  Permutation l l' -> Permutation (filter f l) (filter f l').
Proof.
  induction 1 as [|x l l' _ IH|x y l|l l' l'' _ IH1 _ IH2]; simpl.
  - apply perm_nil.
  - destruct (f x); [apply perm_skip|]; exact IH.
  - destruct (f x), (f y); try apply Permutation_refl. apply perm_swap.
  - eapply perm_trans; eassumption.
Qed.

(** ** The order of TEXT values *)

Lemma String_leb_iff (a b : string) :
  String.leb a b = true <-> a = b \/ String_as_OT.lt a b.
Proof.
  unfold String.leb. split.
  - destruct (String.compare a b) eqn:E; intros H; try discriminate.
    + left. now apply String_as_OT.cmp_eq.
    + right. now apply String_as_OT.cmp_lt.
  - intros [->|H].
    + replace (String.compare b b) with Eq; [reflexivity|].
      symmetry. now apply String_as_OT.cmp_eq.
    + apply String_as_OT.cmp_lt in H. unfold String_as_OT.cmp in H. now rewrite H.
Qed.

Lemma String_leb_trans (a b c : string) :
  String.leb a b = true -> String.leb b c = true -> String.leb a c = true.
Proof.
  rewrite !String_leb_iff. intros [->|H1] [->|H2]; auto.
  right. eapply String_as_OT.lt_trans; eassumption.
Qed.

Lemma String_ltb_leb (a b : string) : String.ltb a b = true -> String.leb a b = true.
Proof. unfold String.ltb, String.leb. destruct (String.compare a b); simpl; congruence. Qed.

Lemma String_ltb_not_geb (a b : string) : String.ltb a b = true -> String.leb b a = false.
Proof.
  unfold String.ltb, String.leb. rewrite (String.compare_antisym b a).
  destruct (String.compare a b); simpl; congruence.
Qed.

Lemma Sql_le_total (a b : option string) : Sql.le a b = true \/ Sql.le b a = true.
Proof.
  destruct a as [x|], b as [y|]; simpl; auto. apply String.leb_total.
Qed.

Lemma Sql_le_trans (a b c : option string) :
  Sql.le a b = true -> Sql.le b c = true -> Sql.le a c = true.
Proof.
  destruct a as [x|], b as [y|], c as [z|]; simpl; try congruence.
  apply String_leb_trans.
Qed.

(** ** Context assembly *)

Lemma filter_nil_all A (f : A -> bool) (l : list A) :
  filter f l = [] -> forall x, In x l -> f x = false.
Proof.
  induction l as [|y rest IH]; simpl; intros H x Hx; [contradiction|].
  destruct (f y) eqn:E; [discriminate|].
  destruct Hx as [->|Hx]; [exact E | now apply IH].
Qed.

Lemma map_filter_through A B (f : A -> B) (p : B -> bool) (l : list A) :
  map f (filter (fun x => p (f x)) l) = filter p (map f l).
Proof.
  induction l as [|x rest IH]; simpl; [reflexivity|].
  destruct (p (f x)); simpl; now rewrite IH.
Qed.

Lemma messages_with_authors_joined d row :
  In row (messages_with_authors d) -> joined_with_author d row.
Proof.
  unfold messages_with_authors, left_join_authors. intros H.
  apply in_map_iff in H. destruct H as ([r a] & <- & H).
  apply in_flat_map in H. destruct H as (r0 & Hr0 & H).
  destruct (filter _ (authors d)) as [|a0 found] eqn:E.
  - destruct H as [H|[]]. inversion H; subst r0 a. split; [exact Hr0|]. right.
    split; [|now simpl]. simpl. apply (filter_nil_all _ _ _ E).
  - apply in_map_iff in H. destruct H as (a1 & H & Ha1). inversion H; subst r0 a.
    rewrite <- E in Ha1. apply filter_In in Ha1. destruct Ha1 as [Hin Heq].
    split; [exact Hr0|]. left. exists a1. simpl. auto.
Qed.

Lemma left_join_authors_messages d :
  authors_unique d -> map fst (left_join_authors d) = messages d.
Proof.
  intros Hu. unfold left_join_authors.
  induction (messages d) as [|row rest IH]; [reflexivity|].
  simpl in *. rewrite map_app, IH.
  change (row :: rest) with ([row] ++ rest). f_equal.
  specialize (Hu (messages_author_id row)).
  destruct (filter _ (authors d)) as [|a [|b found]]; simpl in *; try reflexivity; lia.
Qed.

Lemma messages_with_authors_messages d :
  authors_unique d -> map m (messages_with_authors d) = messages d.
Proof.
  intros Hu. unfold messages_with_authors. rewrite map_map. simpl.
  now apply left_join_authors_messages.
Qed.

(** The outcome of [getMessageContext], by the outcome of its two
    queries. *)
Lemma getMessageContext_result messageId env d :
  fst (run (getMessageContext messageId) env d)
  = match db_fault env 0 with
    | Some err => Rejected ("Database error: " ++ err)
    | None =>
        match hd_error (msgSql messageId d) with
        | None => Rejected "Message not found"
        | Some message =>
            match db_fault env 1 with
            | Some err => Rejected ("Error fetching context messages: " ++ err)
            | None =>
                let channelId := messages_channelId (m message) in
                Resolved {|
                  message := message;
                  channel_id := channelId;
                  context_messages := contextSql channelId messageId d;
                  context_message_count := length (contextSql channelId messageId d)
                |}
            end
        end
    end.
Proof.
  unfold run, getMessageContext, db_get, db_all, bind, statement, read, ret, start. simpl.
  destruct (db_fault env 0); simpl; [reflexivity|].
  destruct (hd_error (msgSql messageId d)); simpl; [|reflexivity].
  destruct (db_fault env 1); reflexivity.
Qed.

Lemma getMessageContext_keeps_db messageId :
  preserves (fun d d' => d' = d) (getMessageContext messageId).
Proof.
  assert (HR : preorder (fun d d' : DB => d' = d)).
  { split; [reflexivity | intros a b c -> ->; reflexivity]. }
  unfold getMessageContext. preserving HR.
Qed.

Lemma msgSql_none messageId d :
  (forall row, In row (messages d) -> messages_id row <> Some messageId) ->
  msgSql messageId d = [].
Proof.
  intros H. unfold msgSql.
  destruct (filter _ (messages_with_authors d)) as [|row rest] eqn:E; [reflexivity|].
  assert (Hin : In row (filter (fun row => Sql.eq (messages_id (m row)) (Some messageId))
                          (messages_with_authors d))) by (rewrite E; now left).
  apply filter_In in Hin. destruct Hin as [Hin Heq].
  apply messages_with_authors_joined in Hin. destruct Hin as [Hin _].
  exfalso. apply (H _ Hin). unfold Sql.eq in Heq.
  destruct (messages_id (m row)) as [x|]; [|discriminate].
  apply String.eqb_eq in Heq. now subst.
Qed.

Lemma in_messages_with_authors d row :
  In row (messages d) -> exists joined, In joined (messages_with_authors d) /\ m joined = row.
Proof.
  intros H. unfold messages_with_authors, left_join_authors.
  destruct (filter (fun a => Sql.eq (messages_author_id row) (authors_id a)) (authors d))
    as [|a found] eqn:E.
  - exists (select_message (row, None)). split; [|reflexivity].
    apply in_map, in_flat_map. exists row. split; [exact H|]. rewrite E. now left.
  - exists (select_message (row, Some a)). split; [|reflexivity].
    apply in_map, in_flat_map. exists row. split; [exact H|]. rewrite E.
    simpl. now left.
Qed.

Lemma msgSql_some messageId d :
  (exists row, In row (messages d) /\ messages_id row = Some messageId) ->
  exists message, hd_error (msgSql messageId d) = Some message
    /\ In message (messages_with_authors d)
    /\ messages_id (m message) = Some messageId.
Proof.
  intros (row & Hin & Hid). apply in_messages_with_authors in Hin.
  destruct Hin as (joined & Hj & Hm). unfold msgSql.
  assert (Hf : In joined (filter (fun row => Sql.eq (messages_id (m row)) (Some messageId))
                            (messages_with_authors d))).
  { apply filter_In. split; [exact Hj|]. rewrite Hm, Hid. simpl. apply String.eqb_refl. }
  destruct (filter _ (messages_with_authors d)) as [|first rest] eqn:E; [contradiction|].
  exists first. split; [reflexivity|].
  assert (H1 : In first (filter (fun row => Sql.eq (messages_id (m row)) (Some messageId))
                           (messages_with_authors d))) by (rewrite E; now left).
  apply filter_In in H1. destruct H1 as [H1 H2]. split; [exact H1|].
  unfold Sql.eq in H2. destruct (messages_id (m first)) as [x|]; [|discriminate].
  apply String.eqb_eq in H2. now subst.
Qed.

Lemma In_firstn A (n : nat) (l : list A) (x : A) : In x (firstn n l) -> In x l.
Proof.
  intros H. rewrite <- (firstn_skipn n l). apply in_or_app. now left.
Qed.

Lemma by_timestamp_total (a b : Message) : by_timestamp a b = true \/ by_timestamp b a = true.
Proof. apply Sql_le_total. Qed.

(** C2: when its queries are answered, [getMessageContext] (1) fails
    with "Message not found" when the messages table has no row of that
    id; (2) on an id the table has, returns the row of that id joined
    with its author, that row's channel id, a list of at most 20 joined
    rows, each another message (its id differs from the requested one) of
    that channel, in ascending order of [message_timestamp], which is the
    first 20 rows of all the other messages of the channel put in that
    order (whatever the timestamp of the target), and the length of the
    list as count; (3) with exactly three messages in one channel whose
    timestamps are in the order t0, t1, t2, on the middle one the context
    is the other two, the one at t0 first. *)
Theorem C2_context_is_first_20_others_in_timestamp_order :
  forall (messageId : string) (env : Env) (d : DB),
    db_fault env 0 = None ->
    let result := fst (run (getMessageContext messageId) env d) in
    ((forall row, In row (messages d) -> messages_id row <> Some messageId) ->
     result = Rejected "Message not found")
    /\ (db_fault env 1 = None ->
        (exists row, In row (messages d) /\ messages_id row = Some messageId) ->
        exists context,
          result = Resolved context
          /\ messages_id (m (message context)) = Some messageId
          /\ joined_with_author d (message context)
          /\ channel_id context = messages_channelId (m (message context))
          /\ length (context_messages context) <= 20
          /\ (forall other, In other (context_messages context) ->
                joined_with_author d other
                /\ Sql.eq (messages_channelId (m other)) (channel_id context) = true
                /\ Sql.neq (messages_id (m other)) (Some messageId) = true)
          /\ ordered by_timestamp (context_messages context)
          /\ (exists others,
                Permutation others
                  (filter (other_in_channel (channel_id context) messageId)
                     (messages_with_authors d))
                /\ ordered by_timestamp others
                /\ context_messages context = firstn 20 others)
          /\ context_message_count context = length (context_messages context))
    /\ (forall (r0 r1 r2 : message_row) (id0 id2 channel t0 t1 t2 : string),
          db_fault env 1 = None ->
          authors_unique d ->
          Permutation (messages d) [r0; r1; r2] ->
          messages_id r0 = Some id0 -> messages_id r1 = Some messageId ->
          messages_id r2 = Some id2 ->
          id0 <> messageId -> id2 <> messageId ->
          messages_channelId r0 = Some channel -> messages_channelId r1 = Some channel ->
          messages_channelId r2 = Some channel ->
          messages_message_timestamp r0 = Some t0 ->
          messages_message_timestamp r1 = Some t1 ->
          messages_message_timestamp r2 = Some t2 ->
          String.ltb t0 t1 = true -> String.ltb t1 t2 = true ->
          exists context,
            result = Resolved context
            /\ m (message context) = r1
            /\ map m (context_messages context) = [r0; r2]
            /\ context_message_count context = 2).
Proof.
  intros messageId env d F0 result. subst result.
  rewrite getMessageContext_result, F0.
  split; [|split].
  - intros Hnone. now rewrite (msgSql_none _ _ Hnone).
  - intros F1 Hsome. rewrite F1. destruct (msgSql_some _ _ Hsome) as (target & -> & Hin & Hid).
    eexists. split; [reflexivity|]. cbv zeta. simpl.
    split; [exact Hid|]. split; [now apply messages_with_authors_joined|].
    split; [reflexivity|]. unfold contextSql, Sql.limit, Sql.order_by.
    split; [apply firstn_le_length|].
    split; [|split; [|split; [|reflexivity]]].
    + intros other Hother. apply In_firstn, sort_by_In, filter_In in Hother.
      destruct Hother as [Hj Hw]. apply andb_true_iff in Hw.
      split; [now apply messages_with_authors_joined | exact Hw].
    + apply firstn_ordered, sort_by_ordered. exact by_timestamp_total.
    + eexists. split; [apply sort_by_permutation|].
      split; [apply sort_by_ordered; exact by_timestamp_total | reflexivity].
  - intros r0 r1 r2 id0 id2 channel t0 t1 t2 F1 Hu Hp I0 I1 I2 N0 N2 C0 C1 C2 T0 T1 T2 L01 L12.
    rewrite F1.
    pose proof (messages_with_authors_messages d Hu) as Hm.
    (* the target *)
    assert (Htarget : exists target, msgSql messageId d = [target] /\ m target = r1).
    { pose proof (map_filter_through _ _ m
                    (fun r => Sql.eq (messages_id r) (Some messageId))
                    (messages_with_authors d)) as Hf.
      rewrite Hm in Hf. fold (msgSql messageId d) in Hf.
      assert (Hp1 : Permutation [r1] (map m (msgSql messageId d))).
      { rewrite Hf. apply Permutation_sym.
        eapply perm_trans; [apply Permutation_filter; exact Hp|].
        simpl. rewrite I0, I1, I2. simpl.
        rewrite String.eqb_refl.
        apply String.eqb_neq in N0, N2. rewrite N0, N2. apply Permutation_refl. }
      apply Permutation_length_1_inv in Hp1.
      destruct (msgSql messageId d) as [|target [|]]; try discriminate.
      exists target. split; [reflexivity|]. now inversion Hp1. }
    destruct Htarget as (target & -> & Ht). simpl hd_error. cbv iota zeta.
    eexists. split; [reflexivity|]. simpl.
    split; [exact Ht|]. rewrite Ht, C1.
    (* the others *)
    pose proof (map_filter_through _ _ m
                  (fun r => Sql.eq (messages_channelId r) (Some channel)
                            && Sql.neq (messages_id r) (Some messageId))
                  (messages_with_authors d)) as Hf.
    rewrite Hm in Hf.
    assert (Hp2 : Permutation [r0; r2]
                    (map m (filter (other_in_channel (Some channel) messageId)
                              (messages_with_authors d)))).
    { unfold other_in_channel. rewrite Hf. apply Permutation_sym.
      eapply perm_trans; [apply Permutation_filter; exact Hp|].
      simpl. rewrite I0, I1, I2, C0, C1, C2. simpl.
      rewrite !String.eqb_refl. simpl.
      apply String.eqb_neq in N0, N2. rewrite N0, N2. apply Permutation_refl. }
    unfold contextSql, Sql.limit, Sql.order_by.
    assert (L02 : String.ltb t0 t2 = true).
    { unfold String.ltb in *.
      destruct (String.compare t0 t1) eqn:E1; try discriminate.
      destruct (String.compare t1 t2) eqn:E2; try discriminate.
      apply String_as_OT.cmp_lt in E1, E2.
      pose proof (String_as_OT.lt_trans _ _ _ E1 E2) as E.
      apply String_as_OT.cmp_lt in E. unfold String_as_OT.cmp in E. now rewrite E. }
    apply Permutation_length_2_inv in Hp2.
    destruct (filter (other_in_channel (Some channel) messageId) (messages_with_authors d))
      as [|x [|y [|z rest]]]; simpl in Hp2;
      destruct Hp2 as [Hp2|Hp2]; try discriminate;
      inversion Hp2 as [[Hx Hy]]; simpl; rewrite Hx, Hy, T0, T2; simpl.
    + rewrite (String_ltb_leb _ _ L02). simpl. rewrite Hx, Hy. auto.
    + rewrite (String_ltb_not_geb _ _ L02). simpl. rewrite Hx, Hy. auto.
Qed.

(** ** The transcript *)

(** The transcript in terms of the outcome of the assembly. *)
Lemma getChatLog_result messageId env d :
  fst (run (getChatLog messageId) env d)
  = match fst (run (getMessageContext messageId) env d) with
    | Rejected _ => []
    | Resolved messages =>
        match Array_map logLine
                (Array_sort by_message_timestamp (context_messages messages)) with
        | Resolved logLines => logLines
        | Rejected _ => []
        end
    end.
Proof.
  unfold run, getChatLog, bind.
  destruct (getMessageContext messageId env (start d)) as [[messages|error] s]; simpl.
  - destruct (Array_map logLine _); reflexivity.
  - reflexivity.
Qed.

Lemma get_message_log_result messageId env d :
  fst (run (get_message_log messageId) env d)
  = json_response (LogBody (fst (run (getChatLog messageId) env d))).
Proof.
  unfold run, get_message_log, bind.
  destruct (getChatLog messageId env (start d)) as [log s]. reflexivity.
Qed.

(** C5: whenever the assembly of the context fails, for whatever reason
    (no such message, or either query failing), [getChatLog] returns the
    empty list, and GET /messages/log/:messageId answers 200 with
    [{messages: []}]: the error is not propagated. *)
Theorem C5_failed_assembly_gives_empty_transcript :
  forall (messageId : string) (env : Env) (d : DB) (error : string),
    fst (run (getMessageContext messageId) env d) = Rejected error ->
    fst (run (getChatLog messageId) env d) = []
    /\ fst (run (get_message_log messageId) env d) = json_response (LogBody []).
Proof.
  intros messageId env d error H.
  rewrite get_message_log_result, getChatLog_result, H. split; reflexivity.
Qed.

(** A message that has no other message in its channel gets the same
    empty transcript: the two cases look the same to the caller. *)
Lemma no_context_gives_empty_transcript messageId env d context :
  fst (run (getMessageContext messageId) env d) = Resolved context ->
  context_messages context = [] ->
  fst (run (getChatLog messageId) env d) = [].
Proof.
  intros H Hnil. rewrite getChatLog_result, H, Hnil. reflexivity.
Qed.

(** In particular a message id the table does not hold gets the empty
    transcript in every environment. *)
Lemma unknown_message_gives_empty_transcript messageId env d :
  (forall row, In row (messages d) -> messages_id row <> Some messageId) ->
  fst (run (getChatLog messageId) env d) = [].
Proof.
  intros H. rewrite getChatLog_result, getMessageContext_result.
  rewrite (msgSql_none _ _ H). destruct (db_fault env 0); reflexivity.
Qed.

Lemma truthy_str_present (v : option string) : truthy_str v = true <-> present v.
Proof.
  unfold present. destruct v as [s|]; simpl.
  - rewrite negb_true_iff, String.eqb_neq. split.
    + intros H. now exists s.
    + intros (s' & H & Hs). now inversion H; subst.
  - split; [discriminate | intros (s & H & _); discriminate].
Qed.

Lemma logLine_transcript_line msg line :
  logLine msg = Resolved line -> transcript_line msg line.
Proof.
  unfold logLine, timeString, toISOString, transcript_line, shown_time, display_name.
  intros H.
  assert (Hname : exists name,
             or_else_str (globalName msg) (username msg) = name
             /\ ((present (globalName msg) /\ name = globalName msg)
                 \/ (~ present (globalName msg) /\ name = username msg))).
  { eexists. split; [reflexivity|]. unfold or_else_str.
    destruct (truthy_str (globalName msg)) eqn:E.
    - left. split; [now apply truthy_str_present | reflexivity].
    - right. split; [|reflexivity]. intros Hp. apply truthy_str_present in Hp. congruence. }
  destruct Hname as (name & Hn & Hname). rewrite Hn in H.
  destruct (messages_created_at (m msg)) as [created_at|] eqn:Ec.
  - destruct (truthy_str (Some created_at)) eqn:Et.
    + inversion H; subst line. exists (slice created_at 11 16), name.
      split; [|split; [exact Hname | reflexivity]].
      left. exists created_at. split; [reflexivity|].
      apply truthy_str_present in Et. destruct Et as (s & Hs & Hne).
      inversion Hs; subst s. split; [exact Hne | reflexivity].
    + destruct (getTime (messages_message_timestamp (m msg))) as [t|] eqn:Eg;
        [|discriminate].
      inversion H; subst line. exists (substr (Date_toISOString t) 11 5), name.
      split; [|split; [exact Hname | reflexivity]].
      right. split.
      * intros Hp. apply truthy_str_present in Hp. congruence.
      * exists t. split; reflexivity.
  - destruct (getTime (messages_message_timestamp (m msg))) as [t|] eqn:Eg;
      [|discriminate].
    inversion H; subst line. exists (substr (Date_toISOString t) 11 5), name.
    split; [|split; [exact Hname | reflexivity]].
    right. split.
    + intros (s & Hs & _). discriminate.
    + exists t. split; reflexivity.
Qed.

Lemma renderable_logLine msg : renderable msg -> exists line, logLine msg = Resolved line.
Proof.
  unfold renderable, logLine, timeString, toISOString. intros [Hp|(t & Ht)].
  - apply truthy_str_present in Hp.
    destruct (messages_created_at (m msg)) as [created_at|]; [|discriminate].
    rewrite Hp. eexists. reflexivity.
  - rewrite Ht.
    destruct (messages_created_at (m msg)) as [created_at|];
      [destruct (truthy_str (Some created_at))|]; eexists; reflexivity.
Qed.

Lemma Array_map_Forall2 A B (f : A -> Result B) (l : list A) (ys : list B) :
  Array_map f l = Resolved ys -> Forall2 (fun x y => f x = Resolved y) l ys.
Proof.
  revert ys. induction l as [|x rest IH]; simpl; intros ys H.
  - inversion H. constructor.
  - destruct (f x) as [y|e] eqn:E; [|discriminate].
    destruct (Array_map f rest) as [ys'|e]; [|discriminate].
    inversion H; subst. constructor; [exact E | now apply IH].
Qed.

Lemma Array_map_total A B (f : A -> Result B) (l : list A) :
  Forall (fun x => exists y, f x = Resolved y) l -> exists ys, Array_map f l = Resolved ys.
Proof.
  induction 1 as [|x rest (y & Hy) _ (ys & IH)]; simpl.
  - eexists. reflexivity.
  - rewrite Hy, IH. eexists. reflexivity.
Qed.

Lemma Array_sort_permutation A (compareFn : A -> A -> option Z) (l : list A) :
  Permutation (Array_sort compareFn l) l.
Proof. apply sort_by_permutation. Qed.

(** C6: when the context of a message was assembled, the transcript is
    the list of the lines of some of its context messages (all of them,
    in some order, when every one can be rendered), and each line reads
    "[HH:MM] name: content", the name being the author's [globalName]
    when present (not NULL, not empty) and the [username] otherwise, and
    the time being characters 11 to 16 of [created_at] when present and
    otherwise those of the ISO rendering of [message_timestamp]. *)
Theorem C6_transcript_line_format :
  forall (messageId : string) (env : Env) (d : DB) (context : MessageContext),
    fst (run (getMessageContext messageId) env d) = Resolved context ->
    exists rendered,
      Forall2 transcript_line rendered (fst (run (getChatLog messageId) env d))
      /\ incl rendered (context_messages context)
      /\ (Forall renderable (context_messages context) ->
          Permutation rendered (context_messages context)).
Proof.
  intros messageId env d context H. rewrite getChatLog_result, H.
  set (sorted := Array_sort by_message_timestamp (context_messages context)).
  assert (Hperm : Permutation sorted (context_messages context))
    by apply Array_sort_permutation.
  destruct (Array_map logLine sorted) as [logLines|e] eqn:E.
  - exists sorted. split; [|split].
    + apply Array_map_Forall2 in E.
      eapply Forall2_impl; [|exact E]. intros msg line. apply logLine_transcript_line.
    + intros msg. now apply Permutation_in.
    + intros _. exact Hperm.
  - exists []. split; [constructor|]. split; [intros msg []|].
    intros Hall. exfalso.
    assert (Hs : Forall renderable sorted).
    { eapply Permutation_Forall; [apply Permutation_sym; exact Hperm | exact Hall]. }
    destruct (Array_map_total _ _ logLine sorted) as (ys & Hys).
    + eapply Forall_impl; [|exact Hs]. intros msg. apply renderable_logLine.
    + congruence.
Qed.

(** Characters 11 to 16 of a [created_at] in the format of
    CURRENT_TIMESTAMP, "YYYY-MM-DD HH:MM:SS", are "HH:MM". *)
Lemma created_at_slice_is_HH_MM (date hh mm rest : string) :
  String.length date = 10 -> String.length hh = 2 -> String.length mm = 2 ->
  slice (date ++ " " ++ hh ++ ":" ++ mm ++ rest) 11 16 = (hh ++ ":" ++ mm)%string.
Proof.
  intros Hd Hh Hm.
  do 11 (destruct date as [|? date]; try discriminate).
  do 3 (destruct hh as [|? hh]; try discriminate).
  do 3 (destruct mm as [|? mm]; try discriminate).
  simpl. destruct rest; reflexivity.
Qed.

(** ** The target message is not part of its own transcript *)

Lemma with_content_columns messageId content row :
  messages_id (with_content messageId content row) = messages_id row
  /\ messages_author_id (with_content messageId content row) = messages_author_id row
  /\ messages_channelId (with_content messageId content row) = messages_channelId row.
Proof.
  unfold with_content. destruct (Sql.eq (messages_id row) (Some messageId)); auto.
Qed.

Lemma messages_with_authors_set_content messageId content d :
  messages_with_authors (set_content messageId content d)
  = map (joined_with_content messageId content) (messages_with_authors d).
Proof.
  unfold messages_with_authors, left_join_authors. simpl.
  induction (messages d) as [|row rest IH]; [reflexivity|].
  simpl in *. rewrite !map_app, IH. f_equal.
  destruct (with_content_columns messageId content row) as (_ & -> & _).
  destruct (filter _ (authors d)) as [|a found]; [reflexivity|].
  simpl. f_equal. rewrite !map_map. reflexivity.
Qed.

Lemma filter_map_same A (p : A -> bool) (g : A -> A) (l : list A) :
  (forall x, p (g x) = p x) -> filter p (map g l) = map g (filter p l).
Proof.
  intros H. induction l as [|x rest IH]; simpl; [reflexivity|].
  rewrite H. destruct (p x); simpl; now rewrite IH.
Qed.

Lemma map_filter_fixed A (p : A -> bool) (g : A -> A) (l : list A) :
  (forall x, p x = true -> g x = x) -> map g (filter p l) = filter p l.
Proof.
  intros H. induction l as [|x rest IH]; simpl; [reflexivity|].
  destruct (p x) eqn:E; simpl; [|exact IH]. now rewrite IH, H.
Qed.

Lemma other_in_channel_not_target channelId messageId row :
  other_in_channel channelId messageId row = true ->
  Sql.eq (messages_id (m row)) (Some messageId) = false
  /\ messages_id (m row) <> Some messageId.
Proof.
  unfold other_in_channel. intros H. apply andb_true_iff in H. destruct H as [_ H].
  unfold Sql.neq in H. destruct (messages_id (m row)) as [x|]; [|discriminate].
  simpl. apply negb_true_iff in H. split; [exact H|].
  intros Heq. inversion Heq; subst. now rewrite String.eqb_refl in H.
Qed.

Lemma contextSql_set_content channelId messageId content d :
  contextSql channelId messageId (set_content messageId content d)
  = contextSql channelId messageId d.
Proof.
  unfold contextSql. rewrite messages_with_authors_set_content.
  rewrite filter_map_same, map_filter_fixed; [reflexivity | |].
  - intros row H. apply other_in_channel_not_target in H. destruct H as [H _].
    unfold joined_with_content, with_content. rewrite H. now destruct row.
  - intros row. unfold other_in_channel, joined_with_content. simpl.
    now destruct (with_content_columns messageId content (m row)) as (-> & _ & ->).
Qed.

Lemma msgSql_set_content messageId content d :
  msgSql messageId (set_content messageId content d)
  = map (joined_with_content messageId content) (msgSql messageId d).
Proof.
  unfold msgSql. rewrite messages_with_authors_set_content.
  apply filter_map_same. intros row. unfold joined_with_content. simpl.
  now destruct (with_content_columns messageId content (m row)) as (-> & _).
Qed.

(** The transcript does not depend on the content of the target. *)
Lemma getChatLog_set_content messageId content env d :
  fst (run (getChatLog messageId) env (set_content messageId content d))
  = fst (run (getChatLog messageId) env d).
Proof.
  rewrite !getChatLog_result, !getMessageContext_result.
  destruct (db_fault env 0); [reflexivity|].
  rewrite msgSql_set_content.
  destruct (msgSql messageId d) as [|target rest]; [reflexivity|].
  simpl hd_error. cbv iota.
  destruct (db_fault env 1); [reflexivity|]. cbv zeta. simpl.
  destruct (with_content_columns messageId content (m target)) as (_ & _ & ->).
  now rewrite contextSql_set_content.
Qed.

(** A context that was assembled is the answer of the two queries. *)
Lemma assembled_context messageId env d context :
  fst (run (getMessageContext messageId) env d) = Resolved context ->
  context_messages context
  = contextSql (messages_channelId (m (message context))) messageId d.
Proof.
  rewrite getMessageContext_result.
  destruct (db_fault env 0); [discriminate|].
  destruct (hd_error (msgSql messageId d)); [|discriminate].
  destruct (db_fault env 1); [discriminate|].
  intros H. inversion H. reflexivity.
Qed.

Lemma contextSql_others channelId messageId d msg :
  In msg (contextSql channelId messageId d) ->
  In msg (messages_with_authors d) /\ other_in_channel channelId messageId msg = true.
Proof.
  unfold contextSql, Sql.limit, Sql.order_by. intros H.
  now apply In_firstn, sort_by_In, filter_In in H.
Qed.

Lemma getMessageContext_keeps_calls messageId env s :
  st_http (snd (getMessageContext messageId env s)) = st_http s.
Proof.
  unfold getMessageContext, db_get, db_all, bind, statement, read, ret, console_error.
  simpl. destruct (db_fault env (st_clock s)); simpl; [reflexivity|].
  destruct (hd_error (msgSql messageId (st_db s))); simpl; [|reflexivity].
  destruct (db_fault env (S (st_clock s))); reflexivity.
Qed.

Lemma getChatLog_keeps_calls messageId env s :
  st_http (snd (getChatLog messageId env s)) = st_http s.
Proof.
  unfold getChatLog, bind.
  pose proof (getMessageContext_keeps_calls messageId env s) as H.
  destruct (getMessageContext messageId env s) as [[messages|error] s1]; simpl in *.
  - destruct (Array_map logLine _); exact H.
  - exact H.
Qed.

Lemma logLine_renderable msg line : logLine msg = Resolved line -> renderable msg.
Proof.
  unfold logLine, timeString, toISOString, renderable. intros H.
  destruct (messages_created_at (m msg)) as [created_at|] eqn:Ec.
  - destruct (truthy_str (Some created_at)) eqn:Et.
    + left. now apply truthy_str_present.
    + right. destruct (getTime (messages_message_timestamp (m msg))) as [t|];
        [now exists t | discriminate H].
  - right. destruct (getTime (messages_message_timestamp (m msg))) as [t|];
      [now exists t | discriminate H].
Qed.

(** C10: the transcript of a message has one line per context message
    and no other line.  When the context of the message was assembled, no
    context message is the target, and either every context message can be
    rendered, and then the transcript is made of the lines of all the
    context messages, one line each and nothing else, or one of them cannot
    and the transcript is empty; the first is the case whenever every row
    of the messages table has a [created_at].  When the context was not
    assembled the transcript is empty.  So the target itself is never
    rendered.  The prompt POST /messages/tone sends to the chat model,
    which asks for the tone of the last message of the chat log, is built
    from this transcript alone, and the transcript is the same whatever
    the content of the target: the prompt never carries the text of the
    target. *)
Theorem C10_target_message_is_not_in_transcript :
  forall (messageId : string) (env : Env) (d : DB),
    let chatLog := fst (run (getChatLog messageId) env d) in
    match fst (run (getMessageContext messageId) env d) with
    | Resolved context =>
        Forall (fun msg => messages_id (m msg) <> Some messageId) (context_messages context)
        /\ ((Forall renderable (context_messages context)
             /\ length chatLog = context_message_count context
             /\ exists rendered,
                  Permutation rendered (context_messages context)
                  /\ Forall2 transcript_line rendered chatLog)
            \/ (~ Forall renderable (context_messages context) /\ chatLog = []))
        /\ (stamped d -> Forall renderable (context_messages context))
    | Rejected _ => chatLog = []
    end
    /\ st_http (snd (run (post_tone
                            {| tone_message := Some {| tone_message_id := messageId |} |})
                       env d))
       = [OllamaChat "llama3.1" (queryMessage chatLog)]
    /\ forall content,
         fst (run (getChatLog messageId) env (set_content messageId content d)) = chatLog.
Proof.
  intros messageId env d chatLog. split; [|split].
  - subst chatLog. rewrite getChatLog_result.
    destruct (fst (run (getMessageContext messageId) env d)) as [context|error] eqn:H;
      [|reflexivity].
    assert (Hothers : forall msg, In msg (context_messages context) ->
                        In msg (messages_with_authors d)
                        /\ messages_id (m msg) <> Some messageId).
    { intros msg Hin. rewrite (assembled_context _ _ _ _ H) in Hin.
      apply contextSql_others in Hin. destruct Hin as [Hin Hother].
      split; [exact Hin|]. now apply other_in_channel_not_target in Hother. }
    split; [apply Forall_forall; intros msg Hin; exact (proj2 (Hothers msg Hin))|].
    split.
    + set (sorted := Array_sort by_message_timestamp (context_messages context)).
      assert (Hperm : Permutation sorted (context_messages context))
        by apply Array_sort_permutation.
      destruct (Array_map logLine sorted) as [logLines|e] eqn:E.
      * left. apply Array_map_Forall2 in E.
        assert (Hs : Forall renderable sorted).
        { clear Hperm. induction E as [|msg line rest lines Hline _ IH]; constructor.
          - exact (logLine_renderable msg line Hline).
          - exact IH. }
        split; [eapply Permutation_Forall; [exact Hperm | exact Hs]|].
        split.
        -- rewrite <- (Forall2_length E), (Permutation_length Hperm).
           rewrite getMessageContext_result in H.
           destruct (db_fault env 0); [discriminate|].
           destruct (hd_error (msgSql messageId d)); [|discriminate].
           destruct (db_fault env 1); [discriminate|].
           injection H as <-. reflexivity.
        -- exists sorted. split; [exact Hperm|].
           eapply Forall2_impl; [|exact E]. intros msg line. apply logLine_transcript_line.
      * right. split; [|reflexivity]. intros Hall.
        assert (Hs : Forall renderable sorted).
        { eapply Permutation_Forall; [apply Permutation_sym; exact Hperm | exact Hall]. }
        destruct (Array_map_total _ _ logLine sorted) as (ys & Hys).
        -- eapply Forall_impl; [|exact Hs]. intros msg. apply renderable_logLine.
        -- congruence.
    + intros Hstamped. apply Forall_forall. intros msg Hin. left.
      apply Hstamped. destruct (Hothers msg Hin) as [Hjoined _].
      apply messages_with_authors_joined in Hjoined. exact (proj1 Hjoined).
  - subst chatLog. unfold run, post_tone. simpl tone_message. cbv iota.
    unfold bind, ollama_chat, bind, record_call, ask, ret. simpl.
    pose proof (getChatLog_keeps_calls messageId env (start d)) as Hc.
    destruct (getChatLog messageId env (start d)) as [log s1]. simpl in *.
    rewrite Hc. destruct (ollama_chat_tone env (queryMessage log)); reflexivity.
  - intros content. apply getChatLog_set_content.
Qed.

(** ** The classifier bridge *)

Lemma append_empty_r (s : string) : (s ++ "")%string = s.
Proof. induction s as [|c s IH]; simpl; [reflexivity | now rewrite IH]. Qed.

Lemma join_from_rest (sep : string) (l : list string) :
  join_from sep false l
  = match l with
    | [] => ""
    | _ :: _ => (sep ++ String.concat sep l)%string
    end.
Proof.
  induction l as [|x rest IH]; [reflexivity|].
  simpl join_from. rewrite IH. destruct rest as [|y rest'].
  - simpl. now rewrite !append_empty_r.
  - reflexivity.
Qed.

(** [Array.prototype.join] is the concatenation with separators. *)
Lemma Array_join_concat (l : list string) (sep : string) :
  Array_join l sep = String.concat sep l.
Proof.
  unfold Array_join. destruct l as [|x rest]; [reflexivity|].
  simpl join_from. rewrite join_from_rest. destruct rest as [|y rest'].
  - simpl. now rewrite !append_empty_r.
  - reflexivity.
Qed.

(** C8: POST /messages/classifier makes exactly one call, a POST to the
    classifier whose body is [{text}] with the texts joined by line
    feeds; for the empty list the text is the empty string and the call
    is made all the same.  The handler answers with the data of the
    reply, and not at all when the call throws. *)
Theorem C8_classifier_forwards_joined_text :
  forall (text : list string) (env : Env) (d : DB),
    let forwarded := JObj [("text", JStr (String.concat LF text))] in
    st_http (snd (run (post_classifier text) env d))
    = [AxiosPost "http://127.0.0.1:8000/predict" forwarded]
    /\ st_http (snd (run (post_classifier []) env d))
       = [AxiosPost "http://127.0.0.1:8000/predict" (JObj [("text", JStr "")])]
    /\ fst (run (post_classifier text) env d)
       = match axios_post env "http://127.0.0.1:8000/predict" forwarded with
         | Resolved data => Some (json_response (UpstreamBody data))
         | Rejected _ => None
         end
    /\ st_db (snd (run (post_classifier text) env d)) = d.
Proof.
  intros text env d forwarded. subst forwarded.
  unfold run, post_classifier, axios, bind, record_call, ask, ret, start. simpl.
  rewrite !Array_join_concat. simpl.
  repeat split;
    try (destruct (axios_post env _ (JObj [("text", JStr (String.concat LF text))]));
         reflexivity).
  destruct (axios_post env _ (JObj [("text", JStr "")])); reflexivity.
Qed.

(** ** Only POST /messages writes *)

(** Every handler other than POST /messages leaves the database as it
    is, so a relation that is reflexive and transitive is preserved by
    the server as soon as POST /messages preserves it. *)
Section Preservation.

Variable R : DB -> DB -> Prop.
Hypothesis R_preorder : preorder R.

Lemma getMessageContext_preserves messageId : preserves R (getMessageContext messageId).
Proof. unfold getMessageContext. preserving R_preorder. Qed.

Lemma getChatLog_preserves messageId : preserves R (getChatLog messageId).
Proof.
  unfold getChatLog.
  apply preserves_bind; [exact R_preorder | apply getMessageContext_preserves |].
  intros [messages|error]; [|apply preserves_ret; exact R_preorder].
  cbv zeta. destruct (Array_map logLine _); apply preserves_ret; exact R_preorder.
Qed.

Lemma messageWithContext_preserves userMessages :
  preserves R (messageWithContext userMessages).
Proof.
  induction userMessages as [|msg rest IH]; simpl.
  - apply preserves_ret; exact R_preorder.
  - destruct (toISOString _); [|apply preserves_ret; exact R_preorder].
    destruct (toISOString _); [|apply preserves_ret; exact R_preorder].
    apply preserves_bind; [exact R_preorder | apply preserves_db_all; exact R_preorder |].
    intros [err|rows]; [apply preserves_ret; exact R_preorder|].
    apply preserves_bind; [exact R_preorder | exact IH |].
    intros [bundles|e]; apply preserves_ret; exact R_preorder.
Qed.

Hypothesis post_messages_preserves : forall req, preserves R (post_messages req).

Lemma handle_preserves request : preserves R (handle request).
Proof.
  destruct request; unfold handle, responds.
  - apply post_messages_preserves.
  - unfold get_messages. preserving R_preorder.
  - unfold get_message, related. preserving R_preorder.
  - unfold get_message_log.
    apply preserves_bind; [exact R_preorder | | preserving R_preorder].
    apply preserves_bind;
      [exact R_preorder | apply getChatLog_preserves | preserving R_preorder].
  - unfold get_messages_by_user. preserving R_preorder.
  - unfold get_authors. preserving R_preorder.
  - unfold get_author. preserving R_preorder.
  - unfold get_attachments. preserving R_preorder.
  - unfold get_embeds. preserving R_preorder.
  - unfold get_components. preserving R_preorder.
  - unfold get_member. preserving R_preorder.
  - unfold get_mentions. preserving R_preorder.
  - unfold get_message_reference. preserving R_preorder.
  - unfold get_referenced_message. preserving R_preorder.
  - unfold get_message_context.
    apply preserves_bind; [exact R_preorder | | preserving R_preorder].
    apply preserves_bind;
      [exact R_preorder | apply getMessageContext_preserves | preserving R_preorder].
  - unfold post_classifier, axios. preserving R_preorder.
  - apply preserves_bind; [exact R_preorder | | preserving R_preorder].
    unfold post_tone. destruct (tone_message req); [|preserving R_preorder].
    apply preserves_bind; [exact R_preorder | apply getChatLog_preserves |].
    intros chatLog. unfold ollama_chat. preserving R_preorder.
  - apply preserves_bind; [exact R_preorder | | preserving R_preorder].
    unfold post_user_insights.
    apply preserves_bind; [exact R_preorder | apply preserves_db_all; exact R_preorder |].
    intros [err|userMessages]; [preserving R_preorder|].
    destruct (Nat.eqb _ 0); [preserving R_preorder|].
    apply preserves_bind;
      [exact R_preorder | apply messageWithContext_preserves | preserving R_preorder].
  - unfold get_user_insights. preserving R_preorder.
Qed.

End Preservation.

(** ** The user_insights table is never written *)

Lemma user_insights_kept_preorder : preorder user_insights_kept.
Proof.
  split; unfold user_insights_kept.
  - reflexivity.
  - intros a b c H1 H2. now rewrite H2.
Qed.

(** No handler changes the user_insights table. *)
Lemma handle_keeps_user_insights request :
  preserves user_insights_kept (handle request).
Proof.
  apply handle_preserves; [exact user_insights_kept_preorder|].
  intros req. unfold post_messages.
  preserving user_insights_kept_preorder; reflexivity.
Qed.

Lemma reachable_user_insights_empty d : reachable d -> user_insights d = [].
Proof.
  induction 1 as [|d env request _ IH]; [reflexivity|].
  pose proof (handle_keeps_user_insights request env (start d)) as H.
  unfold user_insights_kept in H. simpl in H. unfold run. now rewrite H.
Qed.

(** C9: in every database the server can reach from a fresh file the
    user_insights table is empty (no handler, the insight generation
    included, ever writes it), so GET /user_insights/generate/:user_id,
    when its query is answered, responds for every user with the empty
    result [{user_id, insights: [], message}]. *)
Theorem C9_user_insights_stay_empty :
  forall (d : DB),
    reachable d ->
    user_insights d = []
    /\ (forall request env,
          user_insights (st_db (snd (run (handle request) env d))) = [])
    /\ forall (user_id : string) (env : Env),
         db_fault env 0 = None ->
         fst (run (get_user_insights user_id) env d)
         = json_response (NoInsightsBody user_id).
Proof.
  intros d Hd. pose proof (reachable_user_insights_empty d Hd) as He.
  split; [exact He|]. split.
  - intros request env. apply reachable_user_insights_empty.
    now apply reachable_request.
  - intros user_id env Hf.
    unfold run, get_user_insights, db_all, bind, statement, read, ret, start. simpl.
    rewrite Hf. simpl. unfold insights_of. rewrite He. reflexivity.
Qed.

(** ** The read endpoints when nothing matches *)

Lemma no_row_filter A (key : A -> option string) (id : string) (t : list A) :
  no_row key id t -> filter (fun r => Sql.eq (key r) (Some id)) t = [].
Proof.
  unfold no_row. induction t as [|r rest IH]; intros H; simpl; [reflexivity|].
  destruct (Sql.eq (key r) (Some id)) eqn:E.
  - exfalso. apply (H r); [now left|]. unfold Sql.eq in E.
    destruct (key r) as [x|]; [|discriminate]. apply String.eqb_eq in E. now subst.
  - apply IH. intros r' Hr'. apply H. now right.
Qed.

Lemma messages_by_author_none userId d :
  no_row messages_author_id userId (messages d) ->
  filter (fun row => Sql.eq (messages_author_id (m row)) (Some userId))
    (messages_with_authors d) = [].
Proof.
  intros H.
  destruct (filter _ (messages_with_authors d)) as [|row rest] eqn:E; [reflexivity|].
  assert (Hin : In row (filter (fun row => Sql.eq (messages_author_id (m row)) (Some userId))
                          (messages_with_authors d))) by (rewrite E; now left).
  apply filter_In in Hin. destruct Hin as [Hin Heq].
  apply messages_with_authors_joined in Hin. destruct Hin as [Hin _].
  exfalso. apply (H _ Hin). unfold Sql.eq in Heq.
  destruct (messages_author_id (m row)) as [x|]; [|discriminate].
  apply String.eqb_eq in Heq. now subst.
Qed.

Lemma messages_with_authors_nil d : messages d = [] -> messages_with_authors d = [].
Proof. unfold messages_with_authors, left_join_authors. now intros ->. Qed.

Ltac run_lookup Hf :=
  unfold run, bind, db_all, db_get, bind, statement, read, ret, start; simpl;
  rewrite Hf; simpl.

(** C7, as the code has it: when the lookup query is answered, (1) the
    two lookups of a row by its own id, GET /messages/:id and GET
    /authors/:id, respond 404 when no row has that id; (2) the list
    lookups (all messages, messages of an author, all authors, and the
    attachments, embeds, components and mentions of a message) respond 200
    with an empty list when nothing matches; (3) the three lookups of the
    single member, message reference and referenced message of a message
    respond 200 with the row left undefined, neither a list nor an error;
    and (4) whatever the database and the outcome of the queries, none of
    the ten other lookups ever responds 404. *)
Theorem C7_only_singular_lookups_respond_not_found :
  forall (id : string) (env : Env) (d : DB),
    db_fault env 0 = None ->
    (no_row messages_id id (messages d) ->
       fst (run (get_message id) env d)
       = status_response 404 (ErrorBody "Message not found"))
    /\ (no_row authors_id id (authors d) ->
       fst (run (get_author id) env d)
       = status_response 404 (ErrorBody "Author not found"))
    /\ (messages d = [] ->
       fst (run get_messages env d) = json_response (MessagesBody []))
    /\ (no_row messages_author_id id (messages d) ->
       fst (run (get_messages_by_user id) env d) = json_response (MessagesBody []))
    /\ (authors d = [] ->
       fst (run get_authors env d) = json_response (AuthorsBody []))
    /\ (no_row attachments_message_id id (attachments d) ->
       fst (run (get_attachments id) env d) = json_response (AttachmentsBody []))
    /\ (no_row embeds_message_id id (embeds d) ->
       fst (run (get_embeds id) env d) = json_response (EmbedsBody []))
    /\ (no_row components_message_id id (components d) ->
       fst (run (get_components id) env d) = json_response (ComponentsBody []))
    /\ (no_row mentions_message_id id (mentions d) ->
       fst (run (get_mentions id) env d) = json_response (MentionsBody []))
    /\ (no_row members_message_id id (members d) ->
       fst (run (get_member id) env d) = json_response (MemberBody None))
    /\ (no_row message_references_message_id id (message_references d) ->
       fst (run (get_message_reference id) env d)
       = json_response (MessageReferenceBody None))
    /\ (no_row referenced_messages_parent_message_id id (referenced_messages d) ->
       fst (run (get_referenced_message id) env d)
       = json_response (ReferencedMessageBody None))
    /\ (forall endpoint param env' d',
          singular_lookup endpoint = false ->
          status (fst (run (read_endpoint endpoint param) env' d')) <> 404%Z).
Proof.
  intros id env d Hf. repeat apply conj.
  - intros H. unfold get_message. run_lookup Hf.
    rewrite (msgSql_none id d H). reflexivity.
  - intros H. unfold get_author. run_lookup Hf.
    rewrite (no_row_filter _ _ _ _ H). reflexivity.
  - intros H. unfold get_messages. run_lookup Hf.
    rewrite (messages_with_authors_nil d H). reflexivity.
  - intros H. unfold get_messages_by_user. run_lookup Hf.
    rewrite (messages_by_author_none id d H). reflexivity.
  - intros H. unfold get_authors. run_lookup Hf. rewrite H. reflexivity.
  - intros H. unfold get_attachments. run_lookup Hf.
    unfold attachments_of. rewrite (no_row_filter _ _ _ _ H). reflexivity.
  - intros H. unfold get_embeds. run_lookup Hf.
    unfold embeds_of. rewrite (no_row_filter _ _ _ _ H). reflexivity.
  - intros H. unfold get_components. run_lookup Hf.
    unfold components_of. rewrite (no_row_filter _ _ _ _ H). reflexivity.
  - intros H. unfold get_mentions. run_lookup Hf.
    unfold mentions_of. rewrite (no_row_filter _ _ _ _ H). reflexivity.
  - intros H. unfold get_member. run_lookup Hf.
    unfold members_of. rewrite (no_row_filter _ _ _ _ H). reflexivity.
  - intros H. unfold get_message_reference. run_lookup Hf.
    unfold message_references_of. rewrite (no_row_filter _ _ _ _ H). reflexivity.
  - intros H. unfold get_referenced_message. run_lookup Hf.
    unfold referenced_messages_of. rewrite (no_row_filter _ _ _ _ H). reflexivity.
  - intros endpoint param env' d' Hs.
    destruct endpoint; try discriminate; simpl;
      unfold run, get_messages, get_messages_by_user, get_authors, get_attachments,
        get_embeds, get_components, get_member, get_mentions, get_message_reference,
        get_referenced_message, bind, db_all, db_get, bind, statement, read, ret, start;
      simpl; destruct (db_fault env' 0); simpl; discriminate.
Qed.

(** ** The primary keys of authors and messages *)

Lemma filter_filter_length A (p q : A -> bool) (t : list A) :
  length (filter p (filter q t)) <= length (filter p t).
Proof.
  induction t as [|x rest IH]; simpl; [lia|].
  destruct (q x); simpl; destruct (p x); simpl; lia.
Qed.

(** INSERT OR REPLACE keeps a key unique. *)
Lemma insert_or_replace_keeps_unique A (key : A -> option string) (r : A) (t : list A) :
  (forall id, length (filter (fun a => Sql.eq id (key a)) t) <= 1) ->
  forall id, length (filter (fun a => Sql.eq id (key a)) (Sql.insert_or_replace key r t)) <= 1.
Proof.
  intros H id. unfold Sql.insert_or_replace. rewrite filter_app, length_app. simpl.
  destruct (Sql.eq id (key r)) eqn:E; simpl.
  - replace (filter _ (filter _ t)) with (@nil A); [simpl; lia|].
    symmetry. unfold Sql.eq in E.
    destruct id as [x|]; [|discriminate]. destruct (key r) as [y|]; [|discriminate].
    apply String.eqb_eq in E. subst y.
    induction t as [|a rest IH]; simpl; [reflexivity|].
    assert (Hrest : forall id, length (filter (fun a => Sql.eq id (key a)) rest) <= 1).
    { intros id. specialize (H id). simpl in H.
      destruct (Sql.eq id (key a)); simpl in H; lia. }
    destruct (key a) as [z|] eqn:Ka; simpl.
    + destruct (String.eqb z x) eqn:Ezx; simpl; [now apply IH|].
      rewrite Ka. simpl. rewrite String.eqb_sym, Ezx. now apply IH.
    + rewrite Ka. simpl. now apply IH.
  - specialize (H id). pose proof (filter_filter_length A
      (fun a => Sql.eq id (key a)) (fun old => negb (Sql.eq (key old) (key r))) t).
    lia.
Qed.

Lemma keys_kept_preorder : preorder keys_kept.
Proof.
  split; unfold keys_kept.
  - auto.
  - intros a b c H1 H2 H. auto.
Qed.

Lemma post_messages_keeps_keys req : preserves keys_kept (post_messages req).
Proof.
  unfold post_messages.
  preserving keys_kept_preorder; unfold keys_kept, authors_unique, messages_unique;
    simpl; try (intros; assumption).
  - intros [Ha Hm]. split; [|exact Hm].
    now apply insert_or_replace_keeps_unique.
  - intros [Ha Hm]. split; [exact Ha|].
    now apply insert_or_replace_keeps_unique.
Qed.

(** In every database the server can reach, an author id and a message
    id name at most one row. *)
Lemma reachable_keys_unique d : reachable d -> authors_unique d /\ messages_unique d.
Proof.
  induction 1 as [|d env request _ IH].
  - split; intros id; simpl; lia.
  - exact (handle_preserves keys_kept keys_kept_preorder post_messages_keeps_keys
             request env (start d) IH).
Qed.

(** ** Ingestion: the tables written with INSERT OR REPLACE *)

Lemma authors_kept_preorder : preorder authors_kept.
Proof.
  split; unfold authors_kept.
  - reflexivity.
  - intros a b c H1 H2. now rewrite H2.
Qed.

Lemma referenced_messages_kept_preorder : preorder referenced_messages_kept.
Proof.
  split; unfold referenced_messages_kept.
  - reflexivity.
  - intros a b c H1 H2. now rewrite H2.
Qed.

Lemma upserted_children_kept_preorder : preorder upserted_children_kept.
Proof.
  split; unfold upserted_children_kept.
  - intros d. repeat split.
  - intros a b c (A1 & A2 & A3) (B1 & B2 & B3).
    rewrite B1, B2, B3. repeat split; assumption.
Qed.

(** A loop of inserts into one of the AUTOINCREMENT tables sends one
    statement per item and leaves the three upserted tables alone. *)
Lemma each_if_array_keeps_upserted A label (ins : A -> DB -> DB)
      (l : option (list (option A))) env s :
  (forall x d, upserted_children_kept d (ins x d)) ->
  let s' := snd (each_if_array l (fun x => logged label (ins x)) env s) in
  st_clock s' = st_clock s + length (items l)
  /\ upserted_children_kept (st_db s) (st_db s').
Proof.
  intros Hins. cbv zeta. split.
  - destruct l as [elements|]; simpl; [|lia].
    revert s. induction (objects elements) as [|x rest IH]; intros s; simpl; [lia|].
    unfold bind.
    pose proof (logged_effect label (ins x) env s) as (Hc & _ & _).
    destruct (logged label (ins x) env s) as [u s1]. simpl in Hc.
    rewrite IH, Hc. lia.
  - assert (P : preserves upserted_children_kept
                  (each_if_array l (fun x => logged label (ins x)))).
    { preserving upserted_children_kept_preorder. apply Hins. }
    exact (P env s).
Qed.

(** A statement that may be absent: its position, and the database it
    leaves. *)
Lemma optional_logged_db A (o : option A) label (f : A -> DB -> DB) env s :
  let s' := snd (match o with
                 | Some x => logged label (f x)
                 | None => ret tt
                 end env s) in
  st_clock s' = st_clock s + count_if o
  /\ st_db s' = match o with
                | Some x => if failed env (st_clock s) then st_db s else f x (st_db s)
                | None => st_db s
                end.
Proof.
  destruct o as [x|]; simpl.
  - destruct (logged_effect label (f x) env s) as (Hc & _ & Hd). split; [lia | exact Hd].
  - split; [lia | reflexivity].
Qed.

Ltac upserted_cases :=
  repeat match goal with
         | |- context [match ?o with Some _ => _ | None => _ end] => destruct o
         | |- context [if ?b then _ else _] => destruct b
         end; simpl.

(** The member, message reference and referenced message statements each
    replace or add exactly their row, and no other statement of
    [store_children] touches their table. *)
Lemma store_children_upserts message env s :
  let id := message_id message in
  let d := st_db s in
  let d' := st_db (snd (store_children message env s)) in
  members d'
  = match message_member message with
    | Some mem =>
        if failed env (st_clock s + member_offset message) then members d
        else Sql.insert_or_replace members_message_id (memberValues id mem) (members d)
    | None => members d
    end
  /\ message_references d'
     = match message_message_reference message with
       | Some ref =>
           if failed env (st_clock s + message_reference_offset message)
           then message_references d
           else Sql.insert_or_replace message_references_message_id (refValues id ref)
                  (message_references d)
       | None => message_references d
       end
  /\ referenced_messages d'
     = match message_referenced_message message with
       | Some refMsg =>
           if failed env (st_clock s + referenced_message_offset message)
           then referenced_messages d
           else Sql.insert_or_replace referenced_messages_id (refMsgValues id refMsg)
                  (referenced_messages d)
       | None => referenced_messages d
       end.
Proof.
  unfold store_children. cbv zeta. unfold bind.
  set (id := message_id message).
  pose proof (each_if_array_keeps_upserted _ "Failed to insert attachment:"
                (fun att => insert_attachment (attachmentValues id att))
                (message_attachments message) env s) as P1.
  cbv beta zeta in P1.
  name_phase env s r1 E1. clear E1. destruct r1 as [u1 s1]. simpl snd in P1.
  destruct P1 as (C1 & K1); [intros; repeat split|].
  pose proof (each_if_array_keeps_upserted _ "Failed to insert embed:"
                (fun embed => insert_embed (embedValues id embed))
                (message_embeds message) env s1) as P2.
  cbv beta zeta in P2.
  name_phase env s1 r2 E2. clear E2. destruct r2 as [u2 s2]. simpl snd in P2.
  destruct P2 as (C2 & K2); [intros; repeat split|].
  pose proof (each_if_array_keeps_upserted _ "Failed to insert component:"
                (fun comp => insert_component (componentValues id comp))
                (message_components message) env s2) as P3.
  cbv beta zeta in P3.
  name_phase env s2 r3 E3. clear E3. destruct r3 as [u3 s3]. simpl snd in P3.
  destruct P3 as (C3 & K3); [intros; repeat split|].
  pose proof (optional_logged_db _ (message_member message) "Failed to insert member:"
                (fun mem => upsert_member (memberValues id mem)) env s3) as P4.
  cbv beta zeta in P4.
  name_phase env s3 r4 E4. clear E4. destruct r4 as [u4 s4]. simpl snd in P4.
  destruct P4 as (C4 & D4).
  pose proof (each_if_array_keeps_upserted _ "Failed to insert mention:"
                (fun mention => insert_mention (mentionValues id mention))
                (message_mentions message) env s4) as P5.
  cbv beta zeta in P5.
  name_phase env s4 r5 E5. clear E5. destruct r5 as [u5 s5]. simpl snd in P5.
  destruct P5 as (C5 & K5); [intros; repeat split|].
  pose proof (optional_logged_db _ (message_message_reference message)
                "Failed to insert message reference:"
                (fun ref => upsert_message_reference (refValues id ref)) env s5) as P6.
  cbv beta zeta in P6.
  name_phase env s5 r6 E6. clear E6. destruct r6 as [u6 s6]. simpl snd in P6.
  destruct P6 as (C6 & D6).
  pose proof (optional_logged_db _ (message_referenced_message message)
                "Failed to insert referenced message:"
                (fun refMsg => upsert_referenced_message (refMsgValues id refMsg)) env s6) as P7.
  cbv beta zeta in P7.
  name_phase env s6 r7 E7. clear E7. destruct r7 as [u7 s7]. simpl snd in *.
  destruct P7 as (C7 & D7).
  destruct K1 as (K1 & L1 & M1). destruct K2 as (K2 & L2 & M2).
  destruct K3 as (K3 & L3 & M3). destruct K5 as (K5 & L5 & M5).
  unfold referenced_message_offset, message_reference_offset, mention_offset,
    member_offset, component_offset, embed_offset.
  rewrite ?Nat.add_assoc.
  rewrite C1 in *. rewrite C2 in *. rewrite C3 in *. rewrite C4 in *.
  rewrite C5 in *. rewrite C6 in *.
  split; [|split].
  - transitivity (members (st_db s4)).
    { rewrite D7, D6, <- K5. now upserted_cases. }
    rewrite D4, <- K1, <- K2, <- K3. now upserted_cases.
  - rewrite D7, D6. upserted_cases; rewrite ?L5, D4; upserted_cases;
      rewrite ?L3, ?L2, ?L1; reflexivity.
  - rewrite D7, D6. upserted_cases; rewrite ?M5, D4; upserted_cases;
      rewrite ?M3, ?M2, ?M1; reflexivity.
Qed.

Lemma store_children_keeps_authors message :
  preserves authors_kept (store_children message).
Proof.
  unfold store_children. preserving authors_kept_preorder; reflexivity.
Qed.

(** The tables a valid ingestion leaves when its message statement
    succeeds: the message row is replaced or added, and so is the row of
    each of the author, member, message reference and referenced message
    statements that is sent and succeeds. *)
Lemma post_messages_tables req message env d :
  body_message req = Some message ->
  truthy_str (message_id message) = true ->
  db_fault env (message_statement message) = None ->
  let id := message_id message in
  let c := message_statement message + 1 in
  let sent := reached message in
  let d' := st_db (snd (run (post_messages req) env d)) in
  messages d' = Sql.insert_or_replace messages_id (msgValues req message (now env)) (messages d)
  /\ authors d'
     = match author_with_id message with
       | Some author =>
           if failed env 0 then authors d
           else Sql.insert_or_replace authors_id (authorValues author) (authors d)
       | None => authors d
       end
  /\ members d'
     = match message_member sent with
       | Some mem =>
           if failed env (c + member_offset sent) then members d
           else Sql.insert_or_replace members_message_id (memberValues id mem) (members d)
       | None => members d
       end
  /\ message_references d'
     = match message_message_reference sent with
       | Some ref =>
           if failed env (c + message_reference_offset sent) then message_references d
           else Sql.insert_or_replace message_references_message_id (refValues id ref)
                  (message_references d)
       | None => message_references d
       end
  /\ referenced_messages d'
     = match message_referenced_message sent with
       | Some refMsg =>
           if failed env (c + referenced_message_offset sent) then referenced_messages d
           else Sql.insert_or_replace referenced_messages_id (refMsgValues id refMsg)
                  (referenced_messages d)
       | None => referenced_messages d
       end.
Proof.
  intros Hm Hid Hf. cbv zeta. unfold run, post_messages.
  rewrite Hm, Hid. change (negb true) with false. cbv beta iota. unfold bind. cbv beta.
  pose proof (optional_logged_db _ (author_with_id message)
                "Failed to insert/update author:"
                (fun author => upsert_author (authorValues author)) env (start d)) as P0.
  cbv beta zeta in P0.
  name_phase env (start d) r0 E0. clear E0. destruct r0 as [u0 s0]. simpl snd in P0.
  destruct P0 as (C0 & D0). simpl in C0, D0. fold (message_statement message) in C0.
  unfold ask, db_run, bind, statement. rewrite C0, Hf. unfold write, ret.
  rewrite insert_children_run.
  match goal with
  | |- context [store_children (reached message) env ?s2] =>
      pose proof (store_children_upserts (reached message) env s2) as (U1 & U2 & U3);
      pose proof (store_children_keeps_messages (reached message) env s2) as Km;
      pose proof (store_children_keeps_authors (reached message) env s2) as Ka;
      destruct (store_children (reached message) env s2) as [u s3]
  end.
  change (message_id (reached message)) with (message_id message) in U1, U2, U3.
  unfold messages_kept in Km. unfold authors_kept in Ka.
  cbn [st_db st_clock snd] in U1, U2, U3, Km, Ka.
  replace (S (message_statement message)) with (message_statement message + 1) in * by lia.
  destruct (thrown_by message); cbn [st_db st_clock snd];
    rewrite U1, U2, U3, Km, Ka, D0;
    repeat split; destruct (author_with_id message) as [author|];
    try destruct (failed env 0); reflexivity.
Qed.

(** The same for a message whose arrays hold objects only. *)
Lemma post_messages_tables_objects req message env d :
  body_message req = Some message ->
  truthy_str (message_id message) = true ->
  objects_only message ->
  db_fault env (message_statement message) = None ->
  let id := message_id message in
  let c := message_statement message + 1 in
  let d' := st_db (snd (run (post_messages req) env d)) in
  messages d' = Sql.insert_or_replace messages_id (msgValues req message (now env)) (messages d)
  /\ authors d'
     = match author_with_id message with
       | Some author =>
           if failed env 0 then authors d
           else Sql.insert_or_replace authors_id (authorValues author) (authors d)
       | None => authors d
       end
  /\ members d'
     = match message_member message with
       | Some mem =>
           if failed env (c + member_offset message) then members d
           else Sql.insert_or_replace members_message_id (memberValues id mem) (members d)
       | None => members d
       end
  /\ message_references d'
     = match message_message_reference message with
       | Some ref =>
           if failed env (c + message_reference_offset message) then message_references d
           else Sql.insert_or_replace message_references_message_id (refValues id ref)
                  (message_references d)
       | None => message_references d
       end
  /\ referenced_messages d'
     = match message_referenced_message message with
       | Some refMsg =>
           if failed env (c + referenced_message_offset message) then referenced_messages d
           else Sql.insert_or_replace referenced_messages_id (refMsgValues id refMsg)
                  (referenced_messages d)
       | None => referenced_messages d
       end.
Proof.
  intros Hm Hid Hobjects Hf.
  pose proof (post_messages_tables req message env d Hm Hid Hf) as H. cbv zeta in H.
  rewrite (reached_objects_only message Hobjects) in H. exact H.
Qed.

(** ** An ingested message is served back *)

Lemma map_flat_map A B C (f : B -> C) (g : A -> list B) (l : list A) :
  map f (flat_map g l) = flat_map (fun x => map f (g x)) l.
Proof.
  induction l as [|x rest IH]; simpl; [reflexivity|].
  now rewrite map_app, IH.
Qed.

Lemma messages_with_authors_rows d :
  messages_with_authors d = flat_map (joined_rows d) (messages d).
Proof.
  unfold messages_with_authors, left_join_authors. apply map_flat_map.
Qed.

Lemma joined_rows_message d row joined : In joined (joined_rows d row) -> m joined = row.
Proof.
  unfold joined_rows. intros H. apply in_map_iff in H. destruct H as ([r a] & <- & H).
  destruct (filter _ (authors d)) as [|a0 found].
  - destruct H as [H|[]]. now inversion H.
  - apply in_map_iff in H. destruct H as (a1 & H & _). now inversion H.
Qed.

(** A WHERE clause on the columns of [messages] keeps or drops the joined
    rows of a message together. *)
Lemma filter_joined_rows (p : message_row -> bool) d row :
  filter (fun joined => p (m joined)) (joined_rows d row)
  = if p row then joined_rows d row else [].
Proof.
  pose proof (joined_rows_message d row) as H.
  induction (joined_rows d row) as [|x rest IH]; simpl.
  - now destruct (p row).
  - rewrite (H x) by now left. rewrite IH by (intros j Hj; apply H; now right).
    now destruct (p row).
Qed.

Lemma filter_flat_map_joined_rows (p : message_row -> bool) d (t : list message_row) :
  filter (fun joined => p (m joined)) (flat_map (joined_rows d) t)
  = flat_map (joined_rows d) (filter p t).
Proof.
  induction t as [|row rest IH]; simpl; [reflexivity|].
  rewrite filter_app, filter_joined_rows, IH.
  destruct (p row); reflexivity.
Qed.

Lemma msgSql_rows messageId d :
  msgSql messageId d
  = flat_map (joined_rows d)
      (filter (fun row => Sql.eq (messages_id row) (Some messageId)) (messages d)).
Proof.
  unfold msgSql. rewrite messages_with_authors_rows.
  apply (filter_flat_map_joined_rows (fun row => Sql.eq (messages_id row) (Some messageId))).
Qed.

Lemma Sql_eq_sym a b : Sql.eq a b = Sql.eq b a.
Proof. destruct a, b; simpl; try reflexivity. apply String.eqb_sym. Qed.

Lemma truthy_str_Some v : truthy_str v = true -> exists s, v = Some s.
Proof. destruct v as [s|]; [eauto | discriminate]. Qed.

(** The rows of the join for a message whose author was just upserted
    show that author, and those of a message without author show none. *)
Lemma joined_rows_of_upserted_author d row author t joined :
  authors d = Sql.insert_or_replace authors_id (authorValues author) t ->
  truthy_str (author_id author) = true ->
  messages_author_id row = author_id author ->
  In joined (joined_rows d row) ->
  m joined = row /\ shows_author joined author.
Proof.
  intros Ha Ht Hrow Hin. split; [now apply (joined_rows_message d)|].
  destruct (truthy_str_Some _ Ht) as (x & Hx).
  unfold joined_rows in Hin. rewrite Hrow, Hx, Ha in Hin.
  rewrite (filter_ext _ (fun a => Sql.eq (authors_id a) (Some x))) in Hin
    by (intros a; apply Sql_eq_sym).
  rewrite insert_or_replace_unique in Hin by exact Hx.
  destruct Hin as [<-|[]]. repeat split.
Qed.

Lemma joined_rows_without_author d row :
  messages_author_id row = None -> joined_rows d row = [select_message (row, None)].
Proof.
  intros H. unfold joined_rows. rewrite H.
  replace (filter _ (authors d)) with (@nil author_row); [reflexivity|].
  symmetry. induction (authors d) as [|a rest IH]; simpl; [reflexivity | exact IH].
Qed.

Lemma joined_rows_not_empty d row : joined_rows d row <> [].
Proof.
  unfold joined_rows. destruct (filter _ (authors d)); simpl; discriminate.
Qed.

Lemma db_all_run A (q : DB -> list A) env s :
  db_all q env s = (answered env (st_clock s) (q (st_db s)), after_queries 1 s).
Proof.
  unfold db_all, bind, statement, read, ret, answered, after_queries.
  destruct (db_fault env (st_clock s)); reflexivity.
Qed.

Lemma db_get_run A (q : DB -> list A) env s :
  db_get q env s = (answered env (st_clock s) (hd_error (q (st_db s))), after_queries 1 s).
Proof.
  unfold db_get, bind, statement, read, ret, answered, after_queries.
  destruct (db_fault env (st_clock s)); reflexivity.
Qed.

(** GET /messages/:id on a message its first query finds: the seven
    other queries are all sent, and each fills its own slot. *)
Lemma get_message_found messageId env s message :
  db_fault env (st_clock s) = None ->
  hd_error (msgSql messageId (st_db s)) = Some message ->
  get_message messageId env s
  = (json_response (MessageDetailBody (detail_of messageId env (st_clock s) (st_db s) message)),
     after_queries 8 s).
Proof.
  intros Hf Hm. unfold get_message, related, bind.
  rewrite db_get_run. unfold answered at 1. rewrite Hf, Hm.
  rewrite !db_all_run. unfold ret, detail_of, after_queries. cbn [st_db st_clock].
  replace (st_clock s + 1) with (1 + st_clock s) by lia.
  replace (st_clock s + 2) with (1 + (1 + st_clock s)) by lia.
  replace (st_clock s + 3) with (1 + (1 + (1 + st_clock s))) by lia.
  replace (st_clock s + 4) with (1 + (1 + (1 + (1 + st_clock s)))) by lia.
  replace (st_clock s + 5) with (1 + (1 + (1 + (1 + (1 + st_clock s))))) by lia.
  replace (st_clock s + 6) with (1 + (1 + (1 + (1 + (1 + (1 + st_clock s)))))) by lia.
  replace (st_clock s + 7) with (1 + (1 + (1 + (1 + (1 + (1 + (1 + st_clock s))))))) by lia.
  reflexivity.
Qed.

(** X1: a message that POST /messages stored is served by GET
    /messages/:id, whatever the database held before: when the message
    statement succeeds and the lookup query is answered, the lookup
    responds 200 with exactly the row written from the envelope (the new
    content on a re-ingestion), joined with the username, avatar and
    global name of the envelope's author when the author statement
    succeeded, and with NULL author columns when the message has no author
    with an id. *)
Theorem X1_ingested_message_is_served_back :
  forall (req : Envelope) (message : MessageJson) (id : string) (env env' : Env) (d : DB),
    body_message req = Some message ->
    message_id message = Some id ->
    id <> "" ->
    db_fault env (message_statement message) = None ->
    db_fault env' 0 = None ->
    let d' := st_db (snd (run (post_messages req) env d)) in
    exists detail,
      fst (run (get_message id) env' d') = json_response (MessageDetailBody detail)
      /\ m (detail_message detail) = msgValues req message (now env)
      /\ (forall author, author_with_id message = Some author -> db_fault env 0 = None ->
            shows_author (detail_message detail) author)
      /\ (author_with_id message = None -> shows_no_author (detail_message detail)).
Proof.
  intros req message id env env' d Hm Hid Hne Hf Hq d'.
  assert (Ht : truthy_str (message_id message) = true).
  { rewrite Hid. simpl. apply Bool.negb_true_iff. now apply String.eqb_neq. }
  destruct (post_messages_tables req message env d Hm Ht Hf) as (Tm & Ta & _).
  fold d' in Tm, Ta.
  set (row := msgValues req message (now env)) in *.
  assert (Hrows : msgSql id d' = joined_rows d' row).
  { rewrite msgSql_rows, Tm, insert_or_replace_unique by exact Hid.
    simpl. apply app_nil_r. }
  destruct (joined_rows d' row) as [|first rest] eqn:E;
    [exfalso; now apply (joined_rows_not_empty d' row)|].
  assert (Hin : In first (joined_rows d' row)) by (rewrite E; now left).
  exists (detail_of id env' 0 d' first).
  split.
  { unfold run. rewrite (get_message_found id env' (start d') first); [reflexivity | exact Hq |].
    cbn [start st_db]. now rewrite Hrows. }
  cbn [detail_of detail_message].
  split; [now apply (joined_rows_message d')|]. split.
  - intros author Hau Hf0.
    assert (Hau' := Hau). unfold author_with_id in Hau'.
    destruct (message_author message) as [a0|]; [|discriminate].
    destruct (truthy_str (author_id a0)) eqn:Hta; [|discriminate].
    inversion Hau'; subst a0.
    rewrite Hau in Ta. unfold failed in Ta. rewrite Hf0 in Ta.
    apply (joined_rows_of_upserted_author d' row author (authors d) first Ta Hta);
      [subst row; simpl; now rewrite Hau | exact Hin].
  - intros Hno.
    rewrite joined_rows_without_author in Hin by (subst row; simpl; now rewrite Hno).
    destruct Hin as [<-|[]]. repeat split.
Qed.

(** ** POST /messages: its three answers *)

Lemma truthy_str_iff v : truthy_str v = true <-> exists s, v = Some s /\ s <> "".
Proof.
  destruct v as [s|]; simpl.
  - rewrite Bool.negb_true_iff, String.eqb_neq. split.
    + intros H. now exists s.
    + intros (s' & Heq & Hne). now inversion Heq; subst.
  - split; [discriminate | intros (s & H & _); discriminate].
Qed.

(** The run of a valid ingestion up to the callback of its message
    statement: the author statement, if any, then the message statement. *)
Lemma post_messages_valid req message env d :
  body_message req = Some message ->
  truthy_str (message_id message) = true ->
  let result := run (post_messages req) env d in
  let written :=
    match author_with_id message with
    | Some author => if failed env 0 then d else upsert_author (authorValues author) d
    | None => d
    end in
  match db_fault env (message_statement message) with
  | Some e =>
      fst result = Some (status_response 500 (SuccessFalse e))
      /\ st_clock (snd result) = message_statement message + 1
      /\ st_db (snd result) = written
      /\ In {| console_label := "Failed to insert message:"; console_detail := e |}
           (st_console (snd result))
      /\ length (st_console (snd result)) = failures env 0 (message_statement message + 1)
  | None =>
      fst result = match thrown_by message with
                   | Resolved _ => Some (json_response SuccessTrue)
                   | Rejected _ => None
                   end
      /\ message_statement message + 1 <= st_clock (snd result)
  end.
Proof.
  intros Hm Hid. cbv zeta. unfold run, post_messages.
  rewrite Hm, Hid. change (negb true) with false. cbv beta iota. unfold bind. cbv beta.
  pose proof (optional_logged_db _ (author_with_id message)
                "Failed to insert/update author:"
                (fun author => upsert_author (authorValues author)) env (start d)) as P0.
  pose proof (optional_logged_effect _ (author_with_id message)
                "Failed to insert/update author:"
                (fun author => upsert_author (authorValues author)) env (start d)) as Q0.
  cbv beta zeta in P0, Q0.
  name_phase env (start d) r0 E0. clear E0. destruct r0 as [u0 s0]. simpl snd in P0, Q0.
  destruct P0 as (C0 & D0). destruct Q0 as (_ & L0 & _).
  simpl in C0, D0, L0. fold (message_statement message) in C0, L0.
  unfold ask, db_run, bind, statement. rewrite C0.
  destruct (db_fault env (message_statement message)) as [e|] eqn:Hf.
  - unfold ret, console_error. cbn [fst snd st_db st_clock st_console].
    split; [reflexivity|]. split; [lia|]. split; [exact D0|]. split.
    + apply in_or_app. right. now left.
    + rewrite length_app, L0, failures_add. simpl.
      assert (H1 : failures env (message_statement message) 1 = 1).
      { unfold failures, failed. simpl. now rewrite Hf. }
      lia.
  - unfold write, ret. rewrite insert_children_run.
    match goal with
    | |- context [store_children (reached message) env ?s2] =>
        pose proof (store_children_effect (reached message) env s2) as (C & _ & _);
        destruct (store_children (reached message) env s2) as [u s3]
    end.
    cbn [fst snd st_db st_clock] in *.
    destruct (thrown_by message); cbn [fst snd]; (split; [reflexivity | lia]).
Qed.

(** A response with the status was sent. *)
Lemma answered_with_None n : ~ (exists response : Response, None = Some response /\ status response = n).
Proof. intros (response & H & _). discriminate H. Qed.

(** X2: POST /messages answers 400 exactly when the envelope has no
    message or the message has no truthy id (absent, or the empty string),
    and then it sends no statement at all.  In every other case it sends
    at least the message statement, and what it answers is decided by the
    message statement and the arrays alone: 500 exactly when the message
    statement fails; 200 exactly when it succeeds and every element of the
    child arrays is an object; and nothing at all exactly when it succeeds
    and an array holds a null, on which the callback throws before it
    responds. *)
Theorem X2_ingestion_answers_400_exactly_without_id :
  forall (req : Envelope) (env : Env) (d : DB),
    let result := run (post_messages req) env d in
    let answers n := exists response, fst result = Some response /\ status response = n in
    (answers 400%Z <-> ~ has_message_id req)
    /\ (~ has_message_id req -> snd result = start d)
    /\ (has_message_id req ->
          1 <= st_clock (snd result)
          /\ forall message, body_message req = Some message ->
               (answers 500%Z <-> failed env (message_statement message) = true)
               /\ (answers 200%Z <->
                     failed env (message_statement message) = false
                     /\ objects_only message)
               /\ (fst result = None <->
                     failed env (message_statement message) = false
                     /\ ~ objects_only message)).
Proof.
  intros req env d result answers. subst answers.
  destruct (body_message req) as [message|] eqn:Hm.
  - destruct (truthy_str (message_id message)) eqn:Hid.
    + assert (Hhas : has_message_id req).
      { apply truthy_str_iff in Hid. destruct Hid as (id & Hid & Hne).
        now exists message, id. }
      pose proof (post_messages_valid req message env d Hm Hid) as H.
      cbv zeta in H. fold result in H.
      destruct (db_fault env (message_statement message)) as [e|] eqn:Hf.
      * destruct H as (Hr & Hc & _). rewrite Hr.
        split; [split; [intros (r & Hs & Hn); injection Hs as <-; discriminate Hn
                       | contradiction]|].
        split; [contradiction|]. intros _. split; [lia|].
        intros message' Hm'. injection Hm' as <-. unfold failed. rewrite Hf.
        split; [split; [reflexivity | intros _; eexists; split; reflexivity]|].
        split; [split; [intros (r & Hs & Hn); injection Hs as <-; discriminate Hn
                       | intros (Hx & _); discriminate Hx]|].
        split; [discriminate | intros (Hx & _); discriminate Hx].
      * destruct H as (Hr & Hc). rewrite Hr.
        destruct (thrown_by_cases message) as [(-> & Hobjects)|(err & -> & Hnull)].
        -- split; [split; [intros (r & Hs & Hn); injection Hs as <-; discriminate Hn
                          | contradiction]|].
           split; [contradiction|]. intros _. split; [lia|].
           intros message' Hm'. injection Hm' as <-. unfold failed. rewrite Hf.
           split; [split; [intros (r & Hs & Hn); injection Hs as <-; discriminate Hn
                          | discriminate]|].
           split; [split; [intros _; now split
                          | intros _; eexists; split; reflexivity]|].
           split; [discriminate | intros (_ & Hx); contradiction].
        -- split; [split; [intros Hx; now apply answered_with_None in Hx
                          | contradiction]|].
           split; [contradiction|]. intros _. split; [lia|].
           intros message' Hm'. injection Hm' as <-. unfold failed. rewrite Hf.
           split; [split; [intros Hx; now apply answered_with_None in Hx
                          | discriminate]|].
           split; [split; [intros Hx; now apply answered_with_None in Hx
                          | intros (_ & Hx); contradiction]|].
           split; [intros _; now split | reflexivity].
    + assert (Hno : ~ has_message_id req).
      { intros (message' & id & Hm' & Hid' & Hne). rewrite Hm in Hm'.
        inversion Hm'; subst message'. rewrite Hid' in Hid. simpl in Hid.
        apply Bool.negb_false_iff, String.eqb_eq in Hid. contradiction. }
      subst result. unfold run, post_messages. rewrite Hm, Hid. simpl.
      split; [split; [intros _; exact Hno | intros _; eexists; split; reflexivity]|].
      split; [reflexivity | contradiction].
  - assert (Hno : ~ has_message_id req).
    { intros (message' & id & Hm' & _). rewrite Hm in Hm'. discriminate. }
    subst result. unfold run, post_messages. rewrite Hm. simpl.
    split; [split; [intros _; exact Hno | intros _; eexists; split; reflexivity]|].
    split; [reflexivity | contradiction].
Qed.

(** X3: when the message statement of a valid ingestion fails, the answer
    is 500 with [{success: false, error}] carrying SQLite's message, the
    failure is logged, and the request ends there: no child statement is
    sent, and the console holds one line for each of the one or two
    statements that failed, in whichever order they completed.  The author
    statement is not undone: the database that is left is the one the
    request started from, with the author row replaced or added if that
    statement succeeded. *)
Theorem X3_failed_message_statement_keeps_the_author :
  forall (req : Envelope) (message : MessageJson) (env : Env) (d : DB) (e : string),
    body_message req = Some message ->
    truthy_str (message_id message) = true ->
    db_fault env (message_statement message) = Some e ->
    let result := run (post_messages req) env d in
    fst result = Some (status_response 500 (SuccessFalse e))
    /\ st_clock (snd result) = message_statement message + 1
    /\ st_db (snd result)
       = match author_with_id message with
         | Some author => if failed env 0 then d else upsert_author (authorValues author) d
         | None => d
         end
    /\ In {| console_label := "Failed to insert message:"; console_detail := e |}
         (st_console (snd result))
    /\ length (st_console (snd result)) = failures env 0 (message_statement message + 1).
Proof.
  intros req message env d e Hm Hid Hf.
  pose proof (post_messages_valid req message env d Hm Hid) as H.
  cbv zeta in H. rewrite Hf in H. exact H.
Qed.

(** ** The member, the message reference and the referenced message *)

Lemma insert_or_replace_other A (key : A -> option string) (r : A) (t : list A)
      (id other : string) :
  key r = Some id -> other <> id ->
  filter (fun row => Sql.eq (key row) (Some other)) (Sql.insert_or_replace key r t)
  = filter (fun row => Sql.eq (key row) (Some other)) t.
Proof.
  intros Hk Hne. unfold Sql.insert_or_replace. rewrite filter_app. simpl.
  rewrite Hk. simpl. apply String.eqb_neq in Hne. rewrite String.eqb_sym, Hne, app_nil_r.
  induction t as [|x rest IH]; simpl; [reflexivity|].
  destruct (key x) as [k|] eqn:Kx; simpl.
  - destruct (String.eqb k id) eqn:E; simpl.
    + apply String.eqb_eq in E. subst k. rewrite String.eqb_sym, Hne. exact IH.
    + rewrite Kx. simpl. destruct (String.eqb k other); now rewrite IH.
  - rewrite Kx. simpl. exact IH.
Qed.

Lemma failed_false env n : db_fault env n = None -> failed env n = false.
Proof. unfold failed. now intros ->. Qed.

(** X4: the member and the message reference of a message are kept one
    per message.  After a valid ingestion whose arrays hold objects only
    and whose message statement succeeds, a member (a message reference) whose own statement succeeds
    is the only row of its table for that message id, whatever the table
    held for it before; the single-row lookup GET /messages/:id/member
    (/message-reference) returns exactly it; and the rows of every other
    message are as they were. *)
Theorem X4_member_and_reference_are_one_per_message :
  forall (req : Envelope) (message : MessageJson) (id : string) (env env' : Env) (d : DB),
    body_message req = Some message ->
    message_id message = Some id ->
    id <> "" ->
    objects_only message ->
    db_fault env (message_statement message) = None ->
    db_fault env' 0 = None ->
    let c := message_statement message + 1 in
    let d' := st_db (snd (run (post_messages req) env d)) in
    (forall mem, message_member message = Some mem ->
       db_fault env (c + member_offset message) = None ->
       members_of id d' = [memberValues (Some id) mem]
       /\ fst (run (get_member id) env' d')
          = json_response (MemberBody (Some (memberValues (Some id) mem)))
       /\ forall other, other <> id -> members_of other d' = members_of other d)
    /\ (forall ref, message_message_reference message = Some ref ->
       db_fault env (c + message_reference_offset message) = None ->
       message_references_of id d' = [refValues (Some id) ref]
       /\ fst (run (get_message_reference id) env' d')
          = json_response (MessageReferenceBody (Some (refValues (Some id) ref)))
       /\ forall other, other <> id ->
            message_references_of other d' = message_references_of other d).
Proof.
  intros req message id env env' d Hm Hid Hne Hobjects Hf Hq c d'.
  assert (Ht : truthy_str (message_id message) = true).
  { apply truthy_str_iff. now exists id. }
  destruct (post_messages_tables_objects req message env d Hm Ht Hobjects Hf)
    as (_ & _ & Tmem & Tref & _).
  fold c d' in Tmem, Tref. rewrite Hid in Tmem, Tref.
  split.
  - intros mem Hmem Hfm. rewrite Hmem, (failed_false _ _ Hfm) in Tmem.
    assert (Hrows : members_of id d' = [memberValues (Some id) mem]).
    { unfold members_of. rewrite Tmem. now apply insert_or_replace_unique. }
    split; [exact Hrows|]. split.
    + unfold get_member, run, bind. rewrite db_get_run. unfold answered, ret, start.
      cbn [st_clock st_db fst]. rewrite Hq, Hrows. reflexivity.
    + intros other Ho. unfold members_of. rewrite Tmem.
      now apply (insert_or_replace_other _ _ _ _ id).
  - intros ref Href Hfr. rewrite Href, (failed_false _ _ Hfr) in Tref.
    assert (Hrows : message_references_of id d' = [refValues (Some id) ref]).
    { unfold message_references_of. rewrite Tref. now apply insert_or_replace_unique. }
    split; [exact Hrows|]. split.
    + unfold get_message_reference, run, bind. rewrite db_get_run.
      unfold answered, ret, start.
      cbn [st_clock st_db fst]. rewrite Hq, Hrows. reflexivity.
    + intros other Ho. unfold message_references_of. rewrite Tref.
      now apply (insert_or_replace_other _ _ _ _ id).
Qed.

Lemma In_insert_or_replace_old A (key : A -> option string) (r old : A) (t : list A) :
  In old t -> Sql.eq (key old) (key r) = false -> In old (Sql.insert_or_replace key r t).
Proof.
  intros Hin Hk. unfold Sql.insert_or_replace. apply in_or_app. left.
  apply filter_In. split; [exact Hin | now rewrite Hk].
Qed.

(** X5: the referenced_messages table is keyed by the id of the original
    message, not by the reply.  After a valid ingestion of a reply whose
    arrays hold objects only, whose referenced message has a truthy id and
    whose statements succeed, the
    table holds exactly one row of that original, and its parent is the
    reply just ingested: an earlier reply to the same original has lost
    it, so no other parent's rows contain the original any more.  Rows of
    other originals are kept, so a parent may own several rows. *)
Theorem X5_referenced_message_belongs_to_the_last_reply :
  forall (req : Envelope) (message : MessageJson) (id original : string)
         (refMsg : ReferencedMessageJson) (env : Env) (d : DB),
    body_message req = Some message ->
    message_id message = Some id ->
    id <> "" ->
    objects_only message ->
    message_referenced_message message = Some refMsg ->
    refMsg_id refMsg = Some original ->
    original <> "" ->
    db_fault env (message_statement message) = None ->
    db_fault env (message_statement message + 1 + referenced_message_offset message) = None ->
    let d' := st_db (snd (run (post_messages req) env d)) in
    filter (fun r => Sql.eq (referenced_messages_id r) (Some original))
      (referenced_messages d')
    = [refMsgValues (Some id) refMsg]
    /\ referenced_messages_parent_message_id (refMsgValues (Some id) refMsg) = Some id
    /\ (forall parent r, parent <> id -> In r (referenced_messages_of parent d') ->
          referenced_messages_id r <> Some original)
    /\ (forall r, In r (referenced_messages d) ->
          referenced_messages_id r <> Some original -> In r (referenced_messages d')).
Proof.
  intros req message id original refMsg env d Hm Hid Hne Hobjects Hrm Hrid Hro Hf Hfr d'.
  assert (Ht : truthy_str (message_id message) = true).
  { apply truthy_str_iff. now exists id. }
  destruct (post_messages_tables_objects req message env d Hm Ht Hobjects Hf)
    as (_ & _ & _ & _ & T).
  fold d' in T. rewrite Hid, Hrm, (failed_false _ _ Hfr) in T.
  assert (Hkey : referenced_messages_id (refMsgValues (Some id) refMsg) = Some original).
  { simpl. unfold or_null_str. rewrite Hrid.
    replace (truthy_str (Some original)) with true; [reflexivity|].
    symmetry. apply truthy_str_iff. now exists original. }
  assert (Hrows : filter (fun r => Sql.eq (referenced_messages_id r) (Some original))
                    (referenced_messages d') = [refMsgValues (Some id) refMsg]).
  { rewrite T. now apply insert_or_replace_unique. }
  split; [exact Hrows|]. split; [reflexivity|]. split.
  - intros parent r Hp Hin Hr. unfold referenced_messages_of in Hin.
    apply filter_In in Hin. destruct Hin as [Hin Hpar].
    assert (Hin' : In r (filter (fun r => Sql.eq (referenced_messages_id r) (Some original))
                           (referenced_messages d'))).
    { apply filter_In. split; [exact Hin|]. rewrite Hr. simpl. apply String.eqb_refl. }
    rewrite Hrows in Hin'. destruct Hin' as [<-|[]].
    simpl in Hpar. apply String.eqb_eq in Hpar. now apply Hp.
  - intros r Hin Hr. rewrite T. apply In_insert_or_replace_old; [exact Hin|].
    rewrite Hkey. destruct (referenced_messages_id r) as [k|]; simpl; [|reflexivity].
    apply String.eqb_neq. intros ->. now apply Hr.
Qed.

(** ** The keys the schema declares *)

Lemma maintained_preorder P : preorder (maintained P).
Proof. split; unfold maintained; auto. Qed.

Lemma fold_max_bound (ids : list Z) (x : Z) :
  In x ids -> (x <= fold_right Z.max 0%Z ids)%Z.
Proof.
  induction ids as [|y rest IH]; simpl; [contradiction|].
  intros [->|H]; [lia | specialize (IH H); lia].
Qed.

Lemma increasing_snoc (ids : list Z) (n : Z) :
  increasing ids -> (forall x, In x ids -> (x < n)%Z) -> increasing (ids ++ [n]).
Proof.
  unfold increasing. induction ids as [|y rest IH]; simpl; intros Hs Hlt.
  - repeat constructor.
  - apply Sorted_inv in Hs. destruct Hs as [Hs Hd]. constructor.
    + apply IH; [exact Hs | intros x Hx; apply Hlt; now right].
    + destruct rest as [|z rest']; simpl.
      * constructor. apply Hlt. now left.
      * constructor. now inversion Hd.
Qed.

(** The next rowid is above every rowid of the table. *)
Lemma increasing_next_rowid (seq : Z) (ids : list Z) :
  increasing ids -> increasing (ids ++ [Sql.next_rowid seq ids]).
Proof.
  intros H. apply increasing_snoc; [exact H|].
  intros x Hx. apply fold_max_bound in Hx. unfold Sql.next_rowid. lia.
Qed.

Lemma post_messages_maintains_keys req :
  preserves (maintained primary_keys) (post_messages req).
Proof.
  unfold post_messages, store_children.
  preserving (maintained_preorder primary_keys);
    unfold maintained, primary_keys, unique_key; simpl;
    intros (K1 & K2 & K3 & K4 & K5 & K6 & K7 & K8 & K9);
    rewrite ?map_app; simpl;
    repeat split;
    first [ assumption
          | now apply insert_or_replace_keeps_unique
          | now apply increasing_next_rowid ].
Qed.

(** X6: in every database the server can reach from a fresh file, every
    PRIMARY KEY of the schema holds: an author id, a message id, the
    message id of a member or of a message reference and the id of a
    referenced message each name at most one row, and in the four
    insert-only tables the rowids grow strictly along the table, so no
    rowid is ever given twice. *)
Theorem X6_primary_keys_hold_in_reachable_databases :
  forall (d : DB), reachable d -> primary_keys d.
Proof.
  induction 1 as [|d env request _ IH].
  - unfold primary_keys, unique_key, increasing. simpl.
    repeat split; try (intros; lia); constructor.
  - exact (handle_preserves (maintained primary_keys) (maintained_preorder primary_keys)
             post_messages_maintains_keys request env (start d) IH).
Qed.

(** ** The foreign keys the schema declares *)

Lemma known_message_upsert r d id :
  known_message d id -> known_message (upsert_message r d) id.
Proof.
  intros (row & Hin & Hid & Hnn). unfold known_message. simpl.
  destruct (Sql.eq (messages_id row) (messages_id r)) eqn:E.
  - exists r. split; [apply In_insert_or_replace|]. split; [|exact Hnn].
    unfold Sql.eq in E. destruct (messages_id row) as [x|]; [|discriminate].
    destruct (messages_id r) as [y|]; [|discriminate].
    apply String.eqb_eq in E. now subst.
  - exists row. split; [|now split]. now apply In_insert_or_replace_old.
Qed.

Lemma known_message_upserted r d :
  messages_id r <> None -> known_message (upsert_message r d) (messages_id r).
Proof.
  intros H. exists r. split; [apply In_insert_or_replace | now split].
Qed.

Lemma children_have_parents_messages d d' :
  (forall id, known_message d id -> known_message d' id) ->
  attachments d' = attachments d -> embeds d' = embeds d ->
  components d' = components d -> members d' = members d ->
  mentions d' = mentions d -> message_references d' = message_references d ->
  referenced_messages d' = referenced_messages d ->
  children_have_parents d -> children_have_parents d'.
Proof.
  intros Hk E1 E2 E3 E4 E5 E6 E7 (P1 & P2 & P3 & P4 & P5 & P6 & P7).
  unfold children_have_parents. rewrite E1, E2, E3, E4, E5, E6, E7.
  repeat split; intros r Hr; apply Hk; auto.
Qed.

Lemma parents_with_preorder id : preorder (maintained (parents_with id)).
Proof. apply maintained_preorder. Qed.

Ltac parent_of Hk :=
  match goal with
  | H : In _ (_ ++ [_]) |- _ =>
      apply in_app_or in H; destruct H as [H|[<-|[]]]; [|exact Hk]
  | H : In _ (Sql.insert_or_replace _ _ _) |- _ =>
      unfold Sql.insert_or_replace in H;
      apply in_app_or in H; destruct H as [H|[<-|[]]];
      [apply filter_In in H; destruct H as [H _] | exact Hk]
  | _ => idtac
  end;
  match goal with
  | P : forall r, In r _ -> known_message _ _, H : In _ _ |- _ => exact (P _ H)
  end.

(** The children statements of a message that is in the messages table
    keep the foreign keys. *)
Lemma store_children_keeps_parents message :
  preserves (maintained (parents_with (message_id message))) (store_children message).
Proof.
  unfold store_children. cbv zeta.
  preserving (parents_with_preorder (message_id message));
    unfold maintained, parents_with, children_have_parents;
    intros ((P1 & P2 & P3 & P4 & P5 & P6 & P7) & Hk);
    (split; [|exact Hk]);
    (split; [|split; [|split; [|split; [|split; [|split]]]]]);
    intros child Hchild; simpl in Hchild; parent_of Hk.
Qed.

Lemma post_messages_maintains_parents req :
  preserves (maintained children_have_parents) (post_messages req).
Proof.
  intros env s. unfold post_messages.
  destruct (body_message req) as [message|]; [|intros H; exact H].
  destruct (negb (truthy_str (message_id message))) eqn:Hid; [intros H; exact H|].
  apply Bool.negb_false_iff, truthy_str_Some in Hid. destruct Hid as (id & Hid).
  unfold bind.
  set (author_step := match author_with_id message with
                      | Some author => _
                      | None => _
                      end).
  assert (Ha : preserves (maintained children_have_parents) author_step).
  { subst author_step.
    preserving (maintained_preorder children_have_parents).
    unfold maintained. apply (children_have_parents_messages d); auto. }
  specialize (Ha env s). destruct (author_step env s) as [u s0]. simpl in Ha.
  unfold ask, db_run, bind, statement.
  destruct (db_fault env (st_clock s0)) as [e|]; [exact Ha|].
  unfold write, ret.
  rewrite insert_children_run.
  match goal with
  | |- context [store_children (reached message) env ?s2] =>
      pose proof (store_children_keeps_parents (reached message) env s2) as Hc;
      destruct (store_children (reached message) env s2) as [u' s3]
  end.
  change (message_id (reached message)) with (message_id message) in Hc.
  unfold maintained, parents_with in *.
  destruct (thrown_by message); simpl in *;
    (intros H; apply Hc; split;
     [ apply (children_have_parents_messages (st_db s0)); auto;
       intros k; apply known_message_upsert
     | apply (known_message_upserted (msgValues req message (now env)));
       simpl; rewrite Hid; discriminate ]).
Qed.

(** X7: in every database the server can reach from a fresh file, every
    FOREIGN KEY the schema declares on a child table holds, though SQLite
    is never asked to enforce them: each attachment, embed, component,
    member, mention and message reference row carries the id of a row of
    the messages table, and so does the parent of each referenced message.
    The children statements are only sent once the message statement
    succeeded, and no statement removes a message id. *)
Theorem X7_children_belong_to_stored_messages :
  forall (d : DB), reachable d -> children_have_parents d.
Proof.
  induction 1 as [|d env request _ IH].
  - unfold children_have_parents. simpl. repeat split; contradiction.
  - exact (handle_preserves (maintained children_have_parents)
             (maintained_preorder children_have_parents)
             post_messages_maintains_parents request env (start d) IH).
Qed.

(** ** The handlers that only read *)

(** Every handler but the ingestion preserves every reflexive and
    transitive relation on the database. *)
Lemma reading_preserves R request :
  preorder R -> writes request = false -> preserves R (handle request).
Proof.
  intros HR Hw. destruct request; try discriminate; unfold handle, responds.
  - unfold get_messages. preserving HR.
  - unfold get_message, related. preserving HR.
  - unfold get_message_log.
    apply preserves_bind; [exact HR | | preserving HR].
    apply preserves_bind; [exact HR | now apply getChatLog_preserves | preserving HR].
  - unfold get_messages_by_user. preserving HR.
  - unfold get_authors. preserving HR.
  - unfold get_author. preserving HR.
  - unfold get_attachments. preserving HR.
  - unfold get_embeds. preserving HR.
  - unfold get_components. preserving HR.
  - unfold get_member. preserving HR.
  - unfold get_mentions. preserving HR.
  - unfold get_message_reference. preserving HR.
  - unfold get_referenced_message. preserving HR.
  - unfold get_message_context.
    apply preserves_bind; [exact HR | | preserving HR].
    apply preserves_bind; [exact HR | now apply getMessageContext_preserves | preserving HR].
  - unfold post_classifier, axios. preserving HR.
  - apply preserves_bind; [exact HR | | preserving HR].
    unfold post_tone. destruct (tone_message req); [|preserving HR].
    apply preserves_bind; [exact HR | now apply getChatLog_preserves |].
    intros chatLog. unfold ollama_chat. preserving HR.
  - apply preserves_bind; [exact HR | | preserving HR].
    unfold post_user_insights.
    apply preserves_bind; [exact HR | apply preserves_db_all; exact HR |].
    intros [err|userMessages]; [preserving HR|].
    destruct (Nat.eqb _ 0); [preserving HR|].
    apply preserves_bind;
      [exact HR | now apply messageWithContext_preserves | preserving HR].
  - unfold get_user_insights. preserving HR.
Qed.

(** X8: POST /messages is the only request that changes the database.
    Every other request (the lookups, the transcript and the context
    endpoints, the classifier and tone bridges and both user insights
    endpoints, the generating one included) leaves the database exactly
    as it found it, whatever its queries and the external services
    answer. *)
Theorem X8_only_the_ingestion_writes :
  forall (request : Request) (env : Env) (d : DB),
    writes request = false ->
    st_db (snd (run (handle request) env d)) = d.
Proof.
  intros request env d Hw.
  assert (HR : preorder (fun d d' : DB => d' = d)).
  { split; [reflexivity | intros a b c -> ->; reflexivity]. }
  exact (reading_preserves _ request HR Hw env (start d)).
Qed.

(** ** GET /messages/:id *)

(** X9: GET /messages/:id on a message the table holds, its first query
    answered, always responds 200: it sends the seven other queries,
    eight statements in all, and reports each of them on its own, the
    rows of the query or, when that query fails, its error in the place
    of the rows; a failing query changes neither the status nor the other
    slots.  The member, message reference and referenced message are
    reported as lists. *)
Theorem X9_message_detail_reports_each_query_on_its_own :
  forall (id : string) (env : Env) (d : DB) (row : message_row),
    db_fault env 0 = None ->
    In row (messages d) ->
    messages_id row = Some id ->
    let result := run (get_message id) env d in
    exists message,
      fst result = json_response (MessageDetailBody (detail_of id env 0 d message))
      /\ hd_error (msgSql id d) = Some message
      /\ messages_id (m message) = Some id
      /\ st_clock (snd result) = 8
      /\ st_db (snd result) = d.
Proof.
  intros id env d row Hf Hin Hid result.
  destruct (msgSql_some id d) as (message & Hhd & _ & Hmid); [now exists row|].
  exists message. subst result. unfold run.
  rewrite (get_message_found id env (start d) message Hf Hhd).
  repeat split; assumption.
Qed.

(** ** Store errors *)

(** X10: when the first query of a lookup or of a user insights endpoint
    fails, the handler answers 500 with [{error}] carrying SQLite's message
    unchanged, and sends no other statement. *)
Theorem X10_failed_query_is_answered_500 :
  forall (request : Request) (env : Env) (d : DB) (e : string),
    starts_with_query request = true ->
    db_fault env 0 = Some e ->
    let result := run (handle request) env d in
    fst result = Some (status_response 500 (ErrorBody e))
    /\ st_clock (snd result) = 1.
Proof.
  intros request env d e Hq Hf.
  destruct request; try discriminate; cbv zeta;
    unfold run, handle, responds, get_messages, get_message, get_messages_by_user,
      get_authors, get_author, get_attachments, get_embeds, get_components, get_member,
      get_mentions, get_message_reference, get_referenced_message, post_user_insights,
      get_user_insights, bind;
    rewrite ?db_all_run, ?db_get_run; unfold answered, ret, start;
    cbn [st_clock st_db fst snd]; rewrite Hf; split; reflexivity.
Qed.

(** ** The list endpoints *)

Lemma by_created_at_desc_total a b :
  by_created_at_desc a b = true \/ by_created_at_desc b a = true.
Proof. apply Sql_le_total. Qed.

Lemma by_username_total a b : by_username a b = true \/ by_username b a = true.
Proof. apply Sql_le_total. Qed.

(** X11: the list endpoints, their query answered, respond 200 with
    every row once, in the order of the query.  GET /messages lists the
    joined rows, latest [created_at] first, and when no author id is
    shared by two authors, every row of the messages table exactly once;
    GET /messages/user/:userId lists, in the same order, exactly the
    joined rows whose [author_id] is the user; GET /authors lists the
    authors table by username, NULL names first. *)
Theorem X11_list_endpoints_are_ordered_rearrangements :
  forall (userId : string) (env : Env) (d : DB),
    db_fault env 0 = None ->
    (exists rows,
        fst (run get_messages env d) = json_response (MessagesBody rows)
        /\ Permutation rows (messages_with_authors d)
        /\ ordered by_created_at_desc rows
        /\ (authors_unique d -> Permutation (map m rows) (messages d)))
    /\ (exists rows,
        fst (run (get_messages_by_user userId) env d) = json_response (MessagesBody rows)
        /\ Permutation rows
             (filter (fun row => Sql.eq (messages_author_id (m row)) (Some userId))
                (messages_with_authors d))
        /\ ordered by_created_at_desc rows
        /\ forall row, In row rows -> messages_author_id (m row) = Some userId)
    /\ (exists rows,
        fst (run get_authors env d) = json_response (AuthorsBody rows)
        /\ Permutation rows (authors d)
        /\ ordered by_username rows).
Proof.
  intros userId env d Hf. split; [|split].
  - eexists. split.
    { unfold run, get_messages, bind. rewrite db_all_run. unfold answered, ret, start.
      cbn [st_clock st_db fst]. rewrite Hf. reflexivity. }
    split; [apply sort_by_permutation|].
    split; [apply (sort_by_ordered by_created_at_desc), by_created_at_desc_total|].
    intros Hu. rewrite <- (messages_with_authors_messages d Hu).
    apply Permutation_map, sort_by_permutation.
  - eexists. split.
    { unfold run, get_messages_by_user, bind. rewrite db_all_run. unfold answered, ret, start.
      cbn [st_clock st_db fst]. rewrite Hf. reflexivity. }
    split; [apply sort_by_permutation|].
    split; [apply (sort_by_ordered by_created_at_desc), by_created_at_desc_total|].
    intros row Hin. apply sort_by_In, filter_In in Hin. destruct Hin as [_ Heq].
    unfold Sql.eq in Heq. destruct (messages_author_id (m row)) as [x|]; [|discriminate].
    apply String.eqb_eq in Heq. now subst.
  - eexists. split.
    { unfold run, get_authors, bind. rewrite db_all_run. unfold answered, ret, start.
      cbn [st_clock st_db fst]. rewrite Hf. reflexivity. }
    split; [apply sort_by_permutation|].
    apply (sort_by_ordered by_username), by_username_total.
Qed.

(** ** The generation of user insights *)

Lemma left_join_authors_In d r a : In (r, a) (left_join_authors d) -> In r (messages d).
Proof.
  unfold left_join_authors. intros H. apply in_flat_map in H.
  destruct H as (row & Hrow & H).
  destruct (filter _ (authors d)) as [|a0 found].
  - destruct H as [H|[]]. now inversion H; subst.
  - apply in_map_iff in H. destruct H as (a1 & H & _). now inversion H; subst.
Qed.

Lemma relatedMsgSql_related d msg before after r :
  window msg before after ->
  In r (relatedMsgSql (messages_channelId msg) before after (messages_id msg) d) ->
  related_to d msg r.
Proof.
  intros Hw Hin. unfold relatedMsgSql, Sql.order_by in Hin.
  apply sort_by_In, filter_In in Hin. destruct Hin as [Hin Hp].
  apply Bool.andb_true_iff in Hp. destruct Hp as [Hp Hne].
  apply Bool.andb_true_iff in Hp. destruct Hp as [Hch Hbt].
  apply in_map_iff in Hin. destruct Hin as ([row a] & <- & Hin).
  apply left_join_authors_In in Hin.
  split; [exact Hin|]. split; [exact Hch|]. split; [exact Hne|].
  exists before, after. now split.
Qed.

(** The loop, when it ends without exception: one bundle and one query
    per message, in the order of the messages. *)
Lemma messageWithContext_resolved userMessages env s bundles :
  fst (messageWithContext userMessages env s) = Resolved bundles ->
  map with_message bundles = userMessages
  /\ st_clock (snd (messageWithContext userMessages env s))
     = length userMessages + st_clock s
  /\ Forall (fun b => Forall (related_to (st_db s) (with_message b)) (related_messages b))
       bundles.
Proof.
  revert s bundles. induction userMessages as [|msg rest IH]; intros s bundles;
    cbn [messageWithContext]; cbv zeta.
  - intros H. inversion H. repeat split. constructor.
  - set (timestamp := getTime (messages_message_timestamp msg)).
    destruct (toISOString (shifted timestamp (- (5 * 60 * 1000)))) as [before|e] eqn:Eb;
      [|discriminate].
    destruct (toISOString (shifted timestamp (5 * 60 * 1000))) as [after|e] eqn:Ea;
      [|discriminate].
    unfold bind. rewrite db_all_run. unfold answered.
    destruct (db_fault env (st_clock s)) as [e|]; [discriminate|].
    specialize (IH (after_queries 1 s)).
    destruct (messageWithContext rest env (after_queries 1 s)) as [[more|e] s1];
      [|discriminate].
    specialize (IH more eq_refl). destruct IH as (Im & Ic & If).
    cbn [fst snd ret] in *. intros H. inversion H; subst bundles. cbn [map].
    split; [now rewrite Im|]. split; [rewrite Ic; cbn [after_queries st_clock length]; lia|].
    constructor; [|exact If]. cbn [with_message related_messages].
    apply Forall_forall. intros r Hr.
    apply (relatedMsgSql_related (st_db s) msg before after); [now split | exact Hr].
Qed.

Lemma same_channel (v w : option string) :
  match v, w with
  | Some a, Some b => String.eqb a b
  | None, None => true
  | _, _ => false
  end = true <-> v = w.
Proof.
  destruct v as [a|], w as [b|]; split; try discriminate; try reflexivity.
  - intros H. apply String.eqb_eq in H. now subst.
  - intros H. inversion H. apply String.eqb_refl.
Qed.

(** [[...new Set(values)]] has every value of the list, once. *)
Lemma distinct_In values v : In v (distinct values) <-> In v values.
Proof.
  induction values as [|w rest IH]; simpl; [reflexivity|].
  rewrite filter_In, IH. split.
  - intros [H|[H _]]; auto.
  - intros [H|H]; [now left|].
    destruct (same_channel w v) as [H1 H2].
    destruct (match w, v with
              | Some a, Some b => String.eqb a b
              | None, None => true
              | _, _ => false
              end) eqn:E.
    + left. now apply H1.
    + right. now split.
Qed.

Lemma distinct_NoDup values : NoDup (distinct values).
Proof.
  induction values as [|w rest IH]; simpl; constructor.
  - intros H. apply filter_In in H. destruct H as [_ H].
    apply Bool.negb_true_iff in H.
    destruct (same_channel w w) as [_ H2]. rewrite H2 in H by reflexivity. discriminate.
  - now apply NoDup_filter.
Qed.

(** X12: what a generation reports.  Whenever POST
    /user_insights/generate/:user_id answers with generated insights, the
    user has at least one message; [message_count] is the number of rows
    of the messages table whose [author_id] is the user; the insights are
    exactly "message_count" and "channels_posted_in", the latter counting
    each channel of those rows once (NULL counts as a channel); the
    bundles are those of the first 20 of these rows, in table order,
    though one query was sent for every row; and every related row of a
    bundle is another message of the same channel whose timestamp lies
    within five minutes of the bundle's message, as TEXT. *)
Theorem X12_generated_insights_describe_the_messages_of_the_user :
  forall (userId uid : string) (env : Env) (d : DB) (count : nat)
         (insights : list Insight) (bundles : list MessageWithContext),
    fst (run (post_user_insights userId) env d)
    = json_response (GeneratedBody uid count insights bundles) ->
    let mine := messages_of_author userId d in
    uid = userId
    /\ 0 < count
    /\ count = length mine
    /\ (forall row, In row mine <->
          In row (messages d) /\ messages_author_id row = Some userId)
    /\ insights = statistics mine
    /\ NoDup (distinct (map messages_channelId mine))
    /\ (forall c, In c (distinct (map messages_channelId mine))
                  <-> exists row, In row mine /\ messages_channelId row = c)
    /\ map with_message bundles = firstn 20 mine
    /\ st_clock (snd (run (post_user_insights userId) env d)) = 1 + count
    /\ Forall (fun b => Forall (related_to d (with_message b)) (related_messages b)) bundles.
Proof.
  intros userId uid env d count insights bundles H mine.
  unfold run, post_user_insights, bind in *. rewrite db_all_run in *.
  remember 20 as limit eqn:Hlimit.
  unfold answered in *. cbn [start st_clock st_db] in *.
  destruct (db_fault env 0) as [e|]; [discriminate|].
  fold mine in H |- *.
  destruct (Nat.eqb (length mine) 0) eqn:E0; [discriminate|].
  apply Nat.eqb_neq in E0.
  pose proof (messageWithContext_resolved mine env
                (after_queries 1 {| st_db := d; st_clock := 0; st_console := [];
                                    st_http := [] |})) as L.
  destruct (messageWithContext mine env _) as [[all|e] s1]; [|discriminate].
  specialize (L all eq_refl). destruct L as (Lm & Lc & Lf).
  cbn [fst snd ret after_queries st_db st_clock] in *.
  unfold json_response in H. injection H as Hu Hc Hi Hb.
  subst uid count insights bundles.
  split; [reflexivity|]. split; [lia|]. split; [reflexivity|]. split.
  { intros row. unfold mine, messages_of_author. rewrite filter_In. split.
    - intros [Hin Heq]. split; [exact Hin|]. unfold Sql.eq in Heq.
      destruct (messages_author_id row) as [x|]; [|discriminate].
      apply String.eqb_eq in Heq. now subst.
    - intros [Hin Heq]. split; [exact Hin|]. rewrite Heq. simpl. apply String.eqb_refl. }
  split; [reflexivity|]. split; [apply distinct_NoDup|]. split.
  { intros c. rewrite distinct_In, in_map_iff. split; intros (row & Hr1 & Hr2); eauto. }
  split; [now rewrite <- firstn_map, Lm|]. split; [lia|].
  apply Forall_forall. intros b Hb. apply In_firstn in Hb.
  now apply (proj1 (Forall_forall _ _) Lf).
Qed.

(** The loop stops with the RangeError of [toISOString] at the first
    message whose dates cannot be built, when the queries before it are
    answered. *)
Lemma messageWithContext_undated userMessages env s :
  (forall n, db_fault env n = None) ->
  Exists (fun msg => ~ dated msg) userMessages ->
  fst (messageWithContext userMessages env s) = Rejected "Invalid time value".
Proof.
  intros Hf. revert s. induction userMessages as [|msg rest IH]; intros s Hex;
    cbn [messageWithContext]; cbv zeta.
  - inversion Hex.
  - set (timestamp := getTime (messages_message_timestamp msg)).
    destruct (toISOString (shifted timestamp (- (5 * 60 * 1000)))) as [before|e] eqn:Eb.
    + destruct (toISOString (shifted timestamp (5 * 60 * 1000))) as [after|e] eqn:Ea.
      * unfold bind. rewrite db_all_run. unfold answered. rewrite Hf.
        assert (Hrest : Exists (fun msg => ~ dated msg) rest).
        { inversion Hex as [? ? Hhd|]; [|assumption].
          exfalso. apply Hhd. exists before, after. now split. }
        specialize (IH (after_queries 1 s) Hrest).
        destruct (messageWithContext rest env (after_queries 1 s)) as [[more|e] s1];
          simpl in *; [discriminate | congruence].
      * unfold toISOString in Ea.
        destruct (shifted timestamp (5 * 60 * 1000)); [discriminate|].
        inversion Ea. reflexivity.
    + unfold toISOString in Eb.
      destruct (shifted timestamp (- (5 * 60 * 1000))); [discriminate|].
      inversion Eb. reflexivity.
Qed.

(** X13: one message without a usable timestamp fails the whole
    generation.  When every query is answered and one of the messages of
    the user has a [message_timestamp] that is not a date, or from which
    the dates five minutes before and after cannot be built, POST
    /user_insights/generate/:user_id answers 500 with the RangeError's
    text [{error: "Invalid time value"}], whatever the other messages. *)
Theorem X13_one_undated_message_fails_the_generation :
  forall (userId : string) (env : Env) (d : DB) (msg : message_row),
    (forall n, db_fault env n = None) ->
    In msg (messages_of_author userId d) ->
    ~ dated msg ->
    fst (run (post_user_insights userId) env d)
    = status_response 500 (ErrorBody "Invalid time value").
Proof.
  intros userId env d msg Hf Hin Hno.
  unfold run, post_user_insights, bind. rewrite db_all_run. unfold answered.
  cbn [start st_clock st_db]. rewrite Hf.
  destruct (Nat.eqb (length (messages_of_author userId d)) 0) eqn:E0.
  { apply Nat.eqb_eq in E0. destruct (messages_of_author userId d); [contradiction|].
    discriminate. }
  match goal with
  | |- context [messageWithContext ?l env ?s] =>
      pose proof (messageWithContext_undated l env s Hf) as L;
      destruct (messageWithContext l env s) as [loop s1]
  end.
  simpl in L. rewrite L; [reflexivity|].
  apply Exists_exists. now exists msg.
Qed.

(** ** The transcript: all the context or nothing, in time order *)

Lemma in_time_order_total a b : in_time_order a b = true \/ in_time_order b a = true.
Proof.
  unfold in_time_order, by_message_timestamp.
  destruct (getTime (messages_message_timestamp (m a))) as [ta|];
    destruct (getTime (messages_message_timestamp (m b))) as [tb|]; auto.
  destruct (Z.leb_spec (ta - tb) 0); [now left|].
  right. apply Z.leb_le. lia.
Qed.

Lemma Array_map_rejected A B (f : A -> Result B) (l : list A) (e : string) :
  Array_map f l = Rejected e -> exists x, In x l /\ f x = Rejected e.
Proof.
  induction l as [|x rest IH]; simpl; [discriminate|].
  destruct (f x) as [y|e'] eqn:E.
  - destruct (Array_map f rest) as [ys|e'']; [discriminate|].
    intros H. destruct (IH H) as (x' & Hin & Hx'). exists x'. split; [now right | exact Hx'].
  - intros H. inversion H; subst. exists x. split; [now left | exact E].
Qed.

Lemma assembled_count messageId env d context :
  fst (run (getMessageContext messageId) env d) = Resolved context ->
  context_message_count context = length (context_messages context)
  /\ length (context_messages context) <= 20.
Proof.
  rewrite getMessageContext_result.
  destruct (db_fault env 0); [discriminate|].
  destruct (hd_error (msgSql messageId d)); [|discriminate].
  destruct (db_fault env 1); [discriminate|].
  intros H. inversion H. simpl. split; [reflexivity|].
  unfold contextSql, Sql.limit. apply firstn_le_length.
Qed.

(** X14: the transcript of a message whose context was assembled is
    all of the context or nothing.  The context rows are put in the order
    of their dates (two neighbours are in time order unless one of them
    has a timestamp that is no date), whatever the TEXT order the query
    returned them in, and each is rendered in that order; so either the
    transcript has exactly one line per context row, [context_message_count]
    lines and never more than 20, or one row cannot be rendered (it has
    neither a [created_at] nor a timestamp that is a date) and the
    transcript is empty. *)
Theorem X14_transcript_is_all_of_the_context_in_time_order_or_nothing :
  forall (messageId : string) (env : Env) (d : DB) (context : MessageContext),
    fst (run (getMessageContext messageId) env d) = Resolved context ->
    let chatLog := fst (run (getChatLog messageId) env d) in
    exists sorted,
      Permutation sorted (context_messages context)
      /\ ordered in_time_order sorted
      /\ ((Array_map logLine sorted = Resolved chatLog
           /\ length chatLog = context_message_count context)
          \/ (chatLog = [] /\ exists msg, In msg sorted /\ ~ renderable msg))
      /\ length chatLog <= 20.
Proof.
  intros messageId env d context H chatLog.
  destruct (assembled_count _ _ _ _ H) as (Hcount & Hmax).
  subst chatLog. rewrite getChatLog_result, H.
  set (sorted := Array_sort by_message_timestamp (context_messages context)).
  assert (Hperm : Permutation sorted (context_messages context))
    by apply Array_sort_permutation.
  exists sorted. split; [exact Hperm|]. split.
  { apply (sort_by_ordered in_time_order), in_time_order_total. }
  destruct (Array_map logLine sorted) as [logLines|e] eqn:E.
  - assert (Hlen : length logLines = length (context_messages context)).
    { apply Array_map_Forall2, Forall2_length in E.
      rewrite <- E. now apply Permutation_length. }
    split; [left; split; [reflexivity | now rewrite Hcount]|]. now rewrite Hlen.
  - split; [|simpl; lia]. right. split; [reflexivity|].
    destruct (Array_map_rejected _ _ _ _ _ E) as (msg & Hin & Hmsg).
    exists msg. split; [exact Hin|]. intros Hr.
    destruct (renderable_logLine msg Hr) as (line & Hline). congruence.
Qed.

(** ** GET /message-context/:messageId *)

(** X15: GET /message-context/:messageId answers 200 with the assembled
    context or 500 with [{error}], and nothing else: a failing first query
    reads "Database error: " followed by SQLite's message, a failing
    second query "Error fetching context messages: " followed by it, and
    an id the messages table does not have is answered 500 "Message not
    found", not 404. *)
Theorem X15_context_endpoint_answers_500_for_every_failure :
  forall (messageId : string) (env : Env) (d : DB),
    let response := fst (run (get_message_context messageId) env d) in
    (status response = 200%Z \/ status response = 500%Z)
    /\ (forall context,
          fst (run (getMessageContext messageId) env d) = Resolved context ->
          response = json_response (ContextBody context))
    /\ (forall e, db_fault env 0 = Some e ->
          response = status_response 500 (ErrorBody ("Database error: " ++ e)))
    /\ (db_fault env 0 = None -> no_row messages_id messageId (messages d) ->
          response = status_response 500 (ErrorBody "Message not found"))
    /\ (forall e row, db_fault env 0 = None ->
          In row (messages d) -> messages_id row = Some messageId ->
          db_fault env 1 = Some e ->
          response
          = status_response 500 (ErrorBody ("Error fetching context messages: " ++ e))).
Proof.
  intros messageId env d response.
  assert (Hresp : response
                  = match fst (run (getMessageContext messageId) env d) with
                    | Resolved messages => json_response (ContextBody messages)
                    | Rejected error => status_response 500 (ErrorBody error)
                    end).
  { subst response. unfold run, get_message_context, bind.
    destruct (getMessageContext messageId env (start d)) as [[messages|error] s];
      reflexivity. }
  rewrite Hresp. clear Hresp response. rewrite getMessageContext_result.
  split; [|split; [|split; [|split]]].
  - destruct (db_fault env 0); [now right|].
    destruct (hd_error (msgSql messageId d)); [|now right].
    destruct (db_fault env 1); [now right | now left].
  - destruct (db_fault env 0); [discriminate|].
    destruct (hd_error (msgSql messageId d)); [|discriminate].
    destruct (db_fault env 1); [discriminate|].
    intros context H. inversion H. reflexivity.
  - intros e ->. reflexivity.
  - intros -> Hno. rewrite (msgSql_none messageId d Hno). reflexivity.
  - intros e row -> Hin Hid ->.
    destruct (msgSql_some messageId d) as (message & -> & _); [now exists row|].
    reflexivity.
Qed.

(** ** POST /messages/tone *)

(** X16: POST /messages/tone never answers an error.  The response is
    always 200 with a [{tone}] body, and the database is left as it was.
    A body without [message] is answered [{tone: ""}] with no query and
    no call at all.  Otherwise the chat model is called exactly once,
    even when the transcript is empty, and the tone is the one parsed
    from its reply, or "" when the call or the parsing throws. *)
Theorem X16_tone_bridge_always_answers_200 :
  forall (req : ToneRequest) (env : Env) (d : DB),
    let result := run (post_tone req) env d in
    status (fst result) = 200%Z
    /\ st_db (snd result) = d
    /\ exists tone,
         body (fst result) = ToneBody tone
         /\ (tone_message req = None -> tone = Some (JStr "") /\ snd result = start d)
         /\ (forall message, tone_message req = Some message ->
               let prompt :=
                 queryMessage (fst (run (getChatLog (tone_message_id message)) env d)) in
               st_http (snd result) = [OllamaChat "llama3.1" prompt]
               /\ tone = match ollama_chat_tone env prompt with
                         | Resolved parsed => parsed
                         | Rejected _ => Some (JStr "")
                         end).
Proof.
  intros req env d result. subst result. unfold run, post_tone.
  destruct (tone_message req) as [message|].
  - unfold bind, ollama_chat, bind, record_call, ask, ret.
    pose proof (getChatLog_keeps_calls (tone_message_id message) env (start d)) as Hc.
    assert (HR : preorder (fun d d' : DB => d' = d)).
    { split; [reflexivity | intros a b c -> ->; reflexivity]. }
    pose proof (getChatLog_preserves _ HR (tone_message_id message) env (start d)) as Hd.
    destruct (getChatLog (tone_message_id message) env (start d)) as [log s1] eqn:Elog.
    cbn [fst snd st_db st_http start] in *.
    destruct (ollama_chat_tone env (queryMessage log)) as [parsed|e] eqn:E;
      cbn [fst snd st_db st_http status body json_response];
      (split; [reflexivity|]); (split; [exact Hd|]);
      eexists; (split; [reflexivity|]); (split; [discriminate|]);
      intros message' Hm; injection Hm as <-; cbv zeta; rewrite Elog;
      cbn [fst]; rewrite Hc, E; split; reflexivity.
  - cbn. split; [reflexivity|]. split; [reflexivity|].
    eexists. split; [reflexivity|]. split; [intros _; split; reflexivity|].
    discriminate.
Qed.

(** ** Author names are joined when read *)

Lemma author_with_id_truthy message author :
  author_with_id message = Some author -> truthy_str (author_id author) = true.
Proof.
  unfold author_with_id. destruct (message_author message) as [a|]; [|discriminate].
  destruct (truthy_str (author_id a)) eqn:E; [|discriminate].
  intros H. inversion H; subst. exact E.
Qed.

(** The authors table after a valid ingestion whose author statement
    succeeds, whatever becomes of the message statement. *)
Lemma post_messages_upserts_author req message author env d :
  body_message req = Some message ->
  truthy_str (message_id message) = true ->
  author_with_id message = Some author ->
  db_fault env 0 = None ->
  authors (st_db (snd (run (post_messages req) env d)))
  = Sql.insert_or_replace authors_id (authorValues author) (authors d).
Proof.
  intros Hm Hid Ha Hf.
  destruct (db_fault env (message_statement message)) as [e|] eqn:E.
  - pose proof (post_messages_valid req message env d Hm Hid) as H.
    cbv zeta in H. rewrite E in H. destruct H as (_ & _ & -> & _).
    rewrite Ha, (failed_false _ _ Hf). reflexivity.
  - destruct (post_messages_tables req message env d Hm Hid E) as (_ & -> & _).
    rewrite Ha, (failed_false _ _ Hf). reflexivity.
Qed.

(** X17: the author columns of a message are joined when it is read,
    not stored with it.  After a valid ingestion whose author statement
    succeeds (even if its message statement then fails), every joined row
    whose [author_id] is that author, the rows of older messages
    included, shows the username, avatar and global name of this
    envelope. *)
Theorem X17_author_columns_follow_the_last_upsert :
  forall (req : Envelope) (message : MessageJson) (author : AuthorJson)
         (env : Env) (d : DB) (row : Message),
    body_message req = Some message ->
    truthy_str (message_id message) = true ->
    author_with_id message = Some author ->
    db_fault env 0 = None ->
    let d' := st_db (snd (run (post_messages req) env d)) in
    In row (messages_with_authors d') ->
    messages_author_id (m row) = author_id author ->
    shows_author row author.
Proof.
  intros req message author env d row Hm Hid Ha Hf d' Hin Hrow.
  pose proof (post_messages_upserts_author req message author env d Hm Hid Ha Hf) as Ta.
  fold d' in Ta.
  rewrite messages_with_authors_rows in Hin. apply in_flat_map in Hin.
  destruct Hin as (r0 & _ & Hin).
  pose proof (joined_rows_message d' r0 row Hin) as Hr0. subst r0.
  exact (proj2 (joined_rows_of_upserted_author d' (m row) author (authors d) row Ta
                  (author_with_id_truthy message author Ha) Hrow Hin)).
Qed.

(** ** Ingestion: exactly the rows of the envelope are added *)

Lemma bind_run A B (c : M A) (k : A -> M B) env s :
  bind c k env s = k (fst (c env s)) env (snd (c env s)).
Proof. unfold bind. now destruct (c env s). Qed.

Lemma unchanged_preorder R (tbl : DB -> list R) : preorder (unchanged tbl).
Proof.
  split; unfold unchanged.
  - reflexivity.
  - intros a b c H1 H2. now rewrite H2.
Qed.

(** A loop of logged inserts adds one row per item whose statement
    succeeds, in the order of the items. *)
Lemma each_logged_appends A R (tbl : DB -> list R) (key : R -> option string)
      (ins : A -> DB -> DB) (row : A -> R -> Prop) (id : option string)
      label (l : list A) env s :
  (forall x d, exists r, row x r /\ key r = id /\ tbl (ins x d) = tbl d ++ [r]) ->
  let s' := snd (each l (fun x => logged label (ins x)) env s) in
  st_clock s' = st_clock s + length l
  /\ appended tbl key row id (succeeded env (st_clock s) l) (st_db s) (st_db s').
Proof.
  intros Hins. revert s. induction l as [|x rest IH]; intros s; simpl.
  - split; [lia|]. exists []. rewrite app_nil_r. repeat split; constructor.
  - unfold bind.
    pose proof (logged_effect label (ins x) env s) as (Hc & _ & Hd).
    destruct (logged label (ins x) env s) as [u s1]. simpl in Hc, Hd.
    specialize (IH s1). simpl in IH. destruct IH as (Ic & new & It & If & Ik).
    split; [lia|]. rewrite Hc in If. unfold appended. rewrite It, Hd.
    destruct (failed env (st_clock s)).
    + exists new. repeat split; assumption.
    + destruct (Hins x (st_db s)) as (r & Hr & Hk & ->).
      exists (r :: new). rewrite <- app_assoc. repeat split; constructor; assumption.
Qed.

Lemma each_if_array_logged_appends A R (tbl : DB -> list R) (key : R -> option string)
      (ins : A -> DB -> DB) (row : A -> R -> Prop) (id : option string)
      label (l : option (list (option A))) env s :
  (forall x d, exists r, row x r /\ key r = id /\ tbl (ins x d) = tbl d ++ [r]) ->
  let s' := snd (each_if_array l (fun x => logged label (ins x)) env s) in
  st_clock s' = st_clock s + length (items l)
  /\ appended tbl key row id (succeeded env (st_clock s) (items l)) (st_db s) (st_db s').
Proof.
  intros Hins. destruct l as [elements|]; simpl.
  - now apply each_logged_appends.
  - split; [lia|]. exists []. rewrite app_nil_r. repeat split; constructor.
Qed.

Lemma appended_then_unchanged A R (tbl : DB -> list R) key (row : A -> R -> Prop) id sent
      d0 d1 d2 d3 :
  unchanged tbl d0 d1 -> appended tbl key row id sent d1 d2 -> unchanged tbl d2 d3 ->
  appended tbl key row id sent d0 d3.
Proof.
  unfold unchanged. intros H01 (new & Ht & Hf & Hk) H23.
  exists new. rewrite H23, Ht, H01. repeat split; assumption.
Qed.

Lemma each_if_array_clock A label (ins : A -> DB -> DB) (l : option (list (option A))) env s :
  st_clock (snd (each_if_array l (fun x => logged label (ins x)) env s))
  = st_clock s + length (items l).
Proof.
  destruct l as [elements|]; simpl; [|lia].
  revert s. induction (objects elements) as [|x rest IH]; intros s; simpl; [lia|].
  unfold bind.
  pose proof (logged_effect label (ins x) env s) as (Hc & _ & _).
  destruct (logged label (ins x) env s) as [u s1]. simpl in Hc.
  rewrite IH, Hc. lia.
Qed.

Lemma optional_clock A (o : option A) label (f : A -> DB -> DB) env s :
  st_clock (snd (match o with
                 | Some x => logged label (f x)
                 | None => ret tt
                 end env s))
  = st_clock s + count_if o.
Proof. apply optional_logged_db. Qed.

(** The statements of [store_children] that do not write [tbl]. *)
Ltac leaves_unchanged tbl :=
  match goal with
  | |- unchanged tbl (st_db ?s) (st_db (snd (?h ?env ?s))) =>
      let P := fresh "P" in
      assert (P : preserves (unchanged tbl) h)
        by (repeat match goal with
                   | p := _ : M unit |- _ => subst p
                   end;
            preserving (unchanged_preorder _ tbl); intros; reflexivity);
      exact (P env s)
  end.

Ltac name_phases :=
  unfold store_children; cbv zeta;
  set (p1 := each_if_array (message_attachments _) _);
  set (p2 := each_if_array (message_embeds _) _);
  set (p3 := each_if_array (message_components _) _);
  set (p4 := match message_member _ with Some _ => _ | None => _ end);
  set (p5 := each_if_array (message_mentions _) _);
  set (p6 := match message_message_reference _ with Some _ => _ | None => _ end);
  set (p7 := match message_referenced_message _ with Some _ => _ | None => _ end).

Lemma store_children_appends_components message env s :
  let id := message_id message in
  appended components components_message_id (component_of id) id
    (succeeded env (st_clock s + component_offset message 0)
       (items (message_components message)))
    (st_db s) (st_db (snd (store_children message env s))).
Proof.
  cbv zeta. name_phases.
  rewrite bind_run. cbv beta.
  assert (K1 : unchanged components (st_db s) (st_db (snd (p1 env s))))
    by leaves_unchanged components.
  assert (C1 := each_if_array_clock _ _ _ (message_attachments message) env s
                : st_clock (snd (p1 env s)) = _).
  remember (snd (p1 env s)) as s1 eqn:E1. clear E1.
  rewrite bind_run. cbv beta.
  assert (K2 : unchanged components (st_db s1) (st_db (snd (p2 env s1))))
    by leaves_unchanged components.
  assert (C2 := each_if_array_clock _ _ _ (message_embeds message) env s1
                : st_clock (snd (p2 env s1)) = _).
  remember (snd (p2 env s1)) as s2 eqn:E2. clear E2.
  rewrite bind_run. cbv beta.
  destruct (each_if_array_logged_appends _ _ components components_message_id
              (fun comp => insert_component (componentValues (message_id message) comp))
              (component_of (message_id message)) (message_id message)
              "Failed to insert component:" (message_components message) env s2)
    as (_ & A3).
  { intros x d. eexists. split; [eexists; reflexivity|]. split; reflexivity. }
  fold p3 in A3.
  match goal with
  | |- appended _ _ _ _ _ _ (st_db (snd (?rest env ?s3))) =>
      assert (K : unchanged components (st_db s3) (st_db (snd (rest env s3))))
        by leaves_unchanged components
  end.
  unfold component_offset, embed_offset. rewrite Nat.add_0_r, Nat.add_assoc, <- C1, <- C2.
  eapply appended_then_unchanged; [|exact A3|exact K].
  unfold unchanged in *. now rewrite K2.
Qed.

Lemma store_children_appends_attachments message env s :
  let id := message_id message in
  appended attachments attachments_message_id (attachment_of id) id
    (succeeded env (st_clock s + attachment_offset message 0)
       (items (message_attachments message)))
    (st_db s) (st_db (snd (store_children message env s))).
Proof.
  cbv zeta. name_phases.
  rewrite bind_run. cbv beta.
  destruct (each_if_array_logged_appends _ _ attachments attachments_message_id
              (fun att => insert_attachment (attachmentValues (message_id message) att))
              (attachment_of (message_id message)) (message_id message)
              "Failed to insert attachment:" (message_attachments message) env s)
    as (_ & A1).
  { intros x d. eexists. split; [eexists; reflexivity|]. split; reflexivity. }
  fold p1 in A1.
  match goal with
  | |- appended _ _ _ _ _ _ (st_db (snd (?rest env ?s1))) =>
      assert (K : unchanged attachments (st_db s1) (st_db (snd (rest env s1))))
        by leaves_unchanged attachments
  end.
  unfold attachment_offset. rewrite Nat.add_0_r.
  eapply appended_then_unchanged; [|exact A1|exact K]. reflexivity.
Qed.

Lemma store_children_appends_embeds message env s :
  let id := message_id message in
  appended embeds embeds_message_id (embed_of id) id
    (succeeded env (st_clock s + embed_offset message 0) (items (message_embeds message)))
    (st_db s) (st_db (snd (store_children message env s))).
Proof.
  cbv zeta. name_phases.
  rewrite bind_run. cbv beta.
  assert (K1 : unchanged embeds (st_db s) (st_db (snd (p1 env s))))
    by leaves_unchanged embeds.
  assert (C1 := each_if_array_clock _ _ _ (message_attachments message) env s
                : st_clock (snd (p1 env s)) = _).
  remember (snd (p1 env s)) as s1 eqn:E1. clear E1.
  rewrite bind_run. cbv beta.
  destruct (each_if_array_logged_appends _ _ embeds embeds_message_id
              (fun embed => insert_embed (embedValues (message_id message) embed))
              (embed_of (message_id message)) (message_id message)
              "Failed to insert embed:" (message_embeds message) env s1)
    as (_ & A2).
  { intros x d. eexists. split; [eexists; reflexivity|]. split; reflexivity. }
  fold p2 in A2.
  match goal with
  | |- appended _ _ _ _ _ _ (st_db (snd (?rest env ?s2))) =>
      assert (K : unchanged embeds (st_db s2) (st_db (snd (rest env s2))))
        by leaves_unchanged embeds
  end.
  unfold embed_offset. rewrite Nat.add_0_r, <- C1.
  eapply appended_then_unchanged; [exact K1|exact A2|exact K].
Qed.

Lemma store_children_appends_mentions message env s :
  let id := message_id message in
  appended mentions mentions_message_id (mention_of id) id
    (succeeded env (st_clock s + mention_offset message 0) (items (message_mentions message)))
    (st_db s) (st_db (snd (store_children message env s))).
Proof.
  cbv zeta. name_phases.
  rewrite bind_run. cbv beta.
  assert (K1 : unchanged mentions (st_db s) (st_db (snd (p1 env s))))
    by leaves_unchanged mentions.
  assert (C1 := each_if_array_clock _ _ _ (message_attachments message) env s
                : st_clock (snd (p1 env s)) = _).
  remember (snd (p1 env s)) as s1 eqn:E1. clear E1.
  rewrite bind_run. cbv beta.
  assert (K2 : unchanged mentions (st_db s1) (st_db (snd (p2 env s1))))
    by leaves_unchanged mentions.
  assert (C2 := each_if_array_clock _ _ _ (message_embeds message) env s1
                : st_clock (snd (p2 env s1)) = _).
  remember (snd (p2 env s1)) as s2 eqn:E2. clear E2.
  rewrite bind_run. cbv beta.
  assert (K3 : unchanged mentions (st_db s2) (st_db (snd (p3 env s2))))
    by leaves_unchanged mentions.
  assert (C3 := each_if_array_clock _ _ _ (message_components message) env s2
                : st_clock (snd (p3 env s2)) = _).
  remember (snd (p3 env s2)) as s3 eqn:E3. clear E3.
  rewrite bind_run. cbv beta.
  assert (K4 : unchanged mentions (st_db s3) (st_db (snd (p4 env s3))))
    by leaves_unchanged mentions.
  assert (C4 := optional_clock _ (message_member message) _ _ env s3
                : st_clock (snd (p4 env s3)) = _).
  remember (snd (p4 env s3)) as s4 eqn:E4. clear E4.
  rewrite bind_run. cbv beta.
  destruct (each_if_array_logged_appends _ _ mentions mentions_message_id
              (fun mention => insert_mention (mentionValues (message_id message) mention))
              (mention_of (message_id message)) (message_id message)
              "Failed to insert mention:" (message_mentions message) env s4)
    as (_ & A5).
  { intros x d. eexists. split; [eexists; reflexivity|]. split; reflexivity. }
  fold p5 in A5.
  match goal with
  | |- appended _ _ _ _ _ _ (st_db (snd (?rest env ?s5))) =>
      assert (K : unchanged mentions (st_db s5) (st_db (snd (rest env s5))))
        by leaves_unchanged mentions
  end.
  unfold mention_offset, member_offset, component_offset, embed_offset.
  rewrite Nat.add_0_r, !Nat.add_assoc, <- C1, <- C2, <- C3, <- C4.
  eapply appended_then_unchanged; [|exact A5|exact K].
  unfold unchanged in *. now rewrite K4, K3, K2.
Qed.

(** The state in which the children statements of a valid ingestion
    start, once the message statement succeeded. *)
Lemma post_messages_children req message env d :
  body_message req = Some message ->
  truthy_str (message_id message) = true ->
  db_fault env (message_statement message) = None ->
  exists s2,
    st_db (snd (run (post_messages req) env d))
    = st_db (snd (store_children (reached message) env s2))
    /\ st_clock s2 = message_statement message + 1
    /\ attachments (st_db s2) = attachments d
    /\ embeds (st_db s2) = embeds d
    /\ components (st_db s2) = components d
    /\ mentions (st_db s2) = mentions d.
Proof.
  intros Hm Hid Hf. unfold run, post_messages.
  rewrite Hm, Hid. change (negb true) with false. cbv beta iota. unfold bind. cbv beta.
  pose proof (optional_logged_db _ (author_with_id message)
                "Failed to insert/update author:"
                (fun author => upsert_author (authorValues author)) env (start d)) as P0.
  cbv beta zeta in P0.
  name_phase env (start d) r0 E0. clear E0. destruct r0 as [u0 s0]. simpl snd in P0.
  destruct P0 as (C0 & D0). simpl in C0, D0. fold (message_statement message) in C0.
  unfold ask, db_run, bind, statement. rewrite C0, Hf. unfold write, ret.
  rewrite insert_children_run.
  match goal with
  | |- context [store_children (reached message) env ?s2] =>
      exists s2; destruct (store_children (reached message) env s2) as [u s3]
  end.
  cbn [fst snd st_db st_clock upsert_message attachments embeds components mentions].
  rewrite D0.
  split; [destruct (thrown_by message); reflexivity|]. split; [lia|].
  repeat split; destruct (author_with_id message); try destruct (failed env 0); reflexivity.
Qed.

Lemma appended_from A R (tbl : DB -> list R) key (row : A -> R -> Prop) id sent d0 d1 d2 :
  tbl d1 = tbl d0 -> appended tbl key row id sent d1 d2 -> appended tbl key row id sent d0 d2.
Proof. intros H (new & Ht & Hrest). exists new. now rewrite <- H. Qed.

Lemma Forall_filter_all A (p : A -> bool) (l : list A) :
  Forall (fun x => p x = true) l -> filter p l = l.
Proof. induction 1 as [|x rest Hx _ IH]; simpl; [reflexivity|]. now rewrite Hx, IH. Qed.

Lemma Forall_filter_none A (p : A -> bool) (l : list A) :
  Forall (fun x => p x = false) l -> filter p l = [].
Proof. induction 1 as [|x rest Hx _ IH]; simpl; [reflexivity|]. now rewrite Hx. Qed.

(** What the lookup of a message finds after rows were appended for the
    message [id]: those rows more for [id], the same for any other. *)
Lemma appended_lookup A R (tbl : DB -> list R) key (row : A -> R -> Prop)
      (id : string) sent d d' (other : string) :
  appended tbl key row (Some id) sent d d' ->
  length (filter (fun r => Sql.eq (key r) (Some id)) (tbl d'))
  = length (filter (fun r => Sql.eq (key r) (Some id)) (tbl d)) + length sent
  /\ (other <> id ->
      filter (fun r => Sql.eq (key r) (Some other)) (tbl d')
      = filter (fun r => Sql.eq (key r) (Some other)) (tbl d)).
Proof.
  intros (new & Ht & Hf & Hk). rewrite Ht, !filter_app. split.
  - rewrite length_app, (Forall_filter_all _ _ new).
    + now rewrite (Forall2_length Hf).
    + eapply Forall_impl; [|exact Hk]. intros r ->. simpl. apply String.eqb_refl.
  - intros Hne. rewrite (Forall_filter_none _ _ new); [apply app_nil_r|].
    eapply Forall_impl; [|exact Hk]. intros r ->. simpl.
    apply String.eqb_neq. congruence.
Qed.

Lemma appended_added A R (tbl : DB -> list R) key (row : A -> R -> Prop) id sent d d' :
  appended tbl key row id sent d d' -> added tbl key row id sent d d'.
Proof.
  intros (new & Ht & Hf & Hk). exists new, sent.
  split; [exact Ht|]. split; [apply Permutation_refl|]. now split.
Qed.

(** The rows a valid ingestion adds to the four tables of its arrays. *)
Lemma post_messages_appends req message id env d :
  body_message req = Some message ->
  message_id message = Some id ->
  id <> "" ->
  objects_only message ->
  db_fault env (message_statement message) = None ->
  let c := message_statement message + 1 in
  let d' := st_db (snd (run (post_messages req) env d)) in
  appended attachments attachments_message_id (attachment_of (Some id)) (Some id)
    (succeeded env (c + attachment_offset message 0) (items (message_attachments message)))
    d d'
  /\ appended embeds embeds_message_id (embed_of (Some id)) (Some id)
       (succeeded env (c + embed_offset message 0) (items (message_embeds message))) d d'
  /\ appended components components_message_id (component_of (Some id)) (Some id)
       (succeeded env (c + component_offset message 0) (items (message_components message)))
       d d'
  /\ appended mentions mentions_message_id (mention_of (Some id)) (Some id)
       (succeeded env (c + mention_offset message 0) (items (message_mentions message)))
       d d'.
Proof.
  intros Hm Hid Hne Hobjects Hf c d'.
  assert (Ht : truthy_str (message_id message) = true).
  { apply truthy_str_iff. now exists id. }
  destruct (post_messages_children req message env d Hm Ht Hf)
    as (s2 & Hd & Hc & Ta & Te & Tc & Tm).
  fold d' in Hd. rewrite (reached_objects_only message Hobjects) in Hd.
  pose proof (store_children_appends_attachments message env s2) as Aa.
  pose proof (store_children_appends_embeds message env s2) as Ae.
  pose proof (store_children_appends_components message env s2) as Ac.
  pose proof (store_children_appends_mentions message env s2) as Am.
  cbv zeta in Aa, Ae, Ac, Am. rewrite <- Hd, Hc, Hid in Aa, Ae, Ac, Am.
  fold c in Aa, Ae, Ac, Am.
  apply (appended_from _ _ _ _ _ _ _ d) in Aa; [|exact Ta].
  apply (appended_from _ _ _ _ _ _ _ d) in Ae; [|exact Te].
  apply (appended_from _ _ _ _ _ _ _ d) in Ac; [|exact Tc].
  apply (appended_from _ _ _ _ _ _ _ d) in Am; [|exact Tm].
  repeat split; assumption.
Qed.

(** A request answered [{success: true}] passed validation, its message
    statement succeeded and none of its loops met a null. *)
Lemma post_messages_success req message env d :
  body_message req = Some message ->
  fst (run (post_messages req) env d) = Some (json_response SuccessTrue) ->
  truthy_str (message_id message) = true
  /\ db_fault env (message_statement message) = None
  /\ objects_only message.
Proof.
  intros Hm Hok.
  destruct (truthy_str (message_id message)) eqn:Hid.
  - pose proof (post_messages_valid req message env d Hm Hid) as H. cbv zeta in H.
    destruct (db_fault env (message_statement message)) as [e|].
    + destruct H as (H & _). rewrite H in Hok. discriminate Hok.
    + destruct H as (H & _). rewrite H in Hok.
      destruct (thrown_by_cases message) as [(_ & Hobjects)|(err & E & _)].
      * split; [reflexivity|]. split; [reflexivity | exact Hobjects].
      * rewrite E in Hok. discriminate Hok.
  - unfold run, post_messages in Hok. rewrite Hm, Hid in Hok. discriminate Hok.
Qed.

Lemma post_messages_children_added req message env d :
  body_message req = Some message ->
  fst (run (post_messages req) env d) = Some (json_response SuccessTrue) ->
  children_added message env d (st_db (snd (run (post_messages req) env d))).
Proof.
  intros Hm Hok.
  destruct (post_messages_success req message env d Hm Hok) as (Hid & Hf & Hobjects).
  destruct (proj1 (truthy_str_iff _) Hid) as (id & Hid' & Hne).
  destruct (post_messages_appends req message id env d Hm Hid' Hne Hobjects Hf)
    as (Aa & Ae & Ac & Am).
  unfold children_added. rewrite Hid'.
  repeat split; apply appended_added; assumption.
Qed.

(** C1: ingesting two envelopes with the same message id, one after the
    other and both answered [{success: true}], leaves exactly one row of
    that id in the messages table: the row of the second envelope, with
    the second content and not the first.  Each of the attachments,
    embeds, components and mentions tables is, after the first ingestion,
    the table before it followed by one row for each item of the first
    envelope whose statement succeeded, and after the second ingestion
    the table after the first followed by one row for each item of the
    second envelope whose statement succeeded: the rows of the first
    ingestion are all still there, and those of the second are added to
    them, not put in their place. *)
Theorem C1_reingestion_replaces_row_and_keeps_children :
  forall (first second : Envelope) (message1 message2 : MessageJson) (id : string)
         (env1 env2 : Env) (d : DB),
    body_message first = Some message1 ->
    body_message second = Some message2 ->
    message_id message1 = Some id ->
    message_id message2 = Some id ->
    message_content message1 <> message_content message2 ->
    let after1 := run (post_messages first) env1 d in
    let after2 := run (post_messages second) env2 (st_db (snd after1)) in
    fst after1 = Some (json_response SuccessTrue) ->
    fst after2 = Some (json_response SuccessTrue) ->
    let d1 := st_db (snd after1) in
    let d2 := st_db (snd after2) in
    (exists row,
        filter (fun r => Sql.eq (messages_id r) (Some id)) (messages d2) = [row]
        /\ row = msgValues second message2 (now env2)
        /\ messages_content row = message_content message2
        /\ messages_content row <> message_content message1)
    /\ children_added message1 env1 d d1
    /\ children_added message2 env2 d1 d2.
Proof.
  intros first second message1 message2 id env1 env2 d H1 H2 Hid1 Hid2 Hcontent
    after1 after2 Hok1 Hok2 d1 d2.
  split; [|split].
  - exists (msgValues second message2 (now env2)).
    split; [|split; [reflexivity|split; [reflexivity|]]].
    + subst d2 after2. unfold run in *.
      destruct (post_messages second env2 (start (st_db (snd after1)))) as [response s2] eqn:E.
      simpl in Hok2. simpl.
      rewrite (post_messages_upserts _ _ _ _ _ _ H2 E Hok2).
      apply insert_or_replace_unique. exact Hid2.
    + cbn [msgValues messages_content]. intros Heq. apply Hcontent. now rewrite Heq.
  - exact (post_messages_children_added first message1 env1 d H1 Hok1).
  - exact (post_messages_children_added second message2 env2 (st_db (snd after1)) H2 Hok2).
Qed.

(** X18: a valid ingestion whose arrays hold objects only and whose
    message statement succeeds adds to each of the attachments, embeds,
    components and mentions tables exactly one row for each item of the
    envelope whose own statement succeeds, at the end of the table and
    under the id of the message, in the order in which the statements
    completed; it never looks at the rows the message already has.  So
    the lookup of the message's attachments (embeds, components, mentions)
    grows by that number at every ingestion of the same envelope. *)
Theorem X18_ingestion_appends_one_row_per_successful_child :
  forall (req : Envelope) (message : MessageJson) (id : string) (env : Env) (d : DB),
    body_message req = Some message ->
    message_id message = Some id ->
    id <> "" ->
    objects_only message ->
    db_fault env (message_statement message) = None ->
    let c := message_statement message + 1 in
    let d' := st_db (snd (run (post_messages req) env d)) in
    let sent_attachments :=
      succeeded env (c + attachment_offset message 0) (items (message_attachments message)) in
    let sent_embeds :=
      succeeded env (c + embed_offset message 0) (items (message_embeds message)) in
    let sent_components :=
      succeeded env (c + component_offset message 0) (items (message_components message)) in
    let sent_mentions :=
      succeeded env (c + mention_offset message 0) (items (message_mentions message)) in
    added attachments attachments_message_id (attachment_of (Some id)) (Some id)
      sent_attachments d d'
    /\ added embeds embeds_message_id (embed_of (Some id)) (Some id) sent_embeds d d'
    /\ added components components_message_id (component_of (Some id)) (Some id)
         sent_components d d'
    /\ added mentions mentions_message_id (mention_of (Some id)) (Some id)
         sent_mentions d d'
    /\ length (attachments_of id d') = length (attachments_of id d) + length sent_attachments
    /\ length (embeds_of id d') = length (embeds_of id d) + length sent_embeds
    /\ length (components_of id d') = length (components_of id d) + length sent_components
    /\ length (mentions_of id d') = length (mentions_of id d) + length sent_mentions.
Proof.
  intros req message id env d Hm Hid Hne Hobjects Hf c d' sa se sc sm.
  destruct (post_messages_appends req message id env d Hm Hid Hne Hobjects Hf)
    as (Aa & Ae & Ac & Am).
  fold c d' in Aa, Ae, Ac, Am. fold sa in Aa. fold se in Ae. fold sc in Ac. fold sm in Am.
  repeat split; try (apply appended_added; assumption).
  - exact (proj1 (appended_lookup _ _ _ _ _ id _ _ _ id Aa)).
  - exact (proj1 (appended_lookup _ _ _ _ _ id _ _ _ id Ae)).
  - exact (proj1 (appended_lookup _ _ _ _ _ id _ _ _ id Ac)).
  - exact (proj1 (appended_lookup _ _ _ _ _ id _ _ _ id Am)).
Qed.

(** X19: an ingestion changes nothing of what is stored under another
    message id.  Whatever the envelope and the outcome of its statements,
    for every id other than the one of its message the row of the messages
    table and the attachments, embeds, components, mentions, member and
    message reference found under that id are the same after the request
    as before.  (The two tables not keyed by the message are not in this
    list: a referenced message can move to the new reply, and the author
    row is shared by all the messages of the author.) *)
Theorem X19_ingestion_leaves_other_messages_alone :
  forall (req : Envelope) (other : string) (env : Env) (d : DB),
    (forall message, body_message req = Some message -> message_id message <> Some other) ->
    same_for other d (st_db (snd (run (post_messages req) env d))).
Proof.
  intros req other env d Hother.
  destruct (body_message req) as [message|] eqn:Hm;
    [|unfold run, post_messages; rewrite Hm; repeat split].
  destruct (truthy_str (message_id message)) eqn:Hid;
    [|unfold run, post_messages; rewrite Hm, Hid; repeat split].
  destruct (proj1 (truthy_str_iff _) Hid) as (id & Hid' & Hne).
  assert (Ho : other <> id).
  { intros ->. now apply (Hother message). }
  destruct (db_fault env (message_statement message)) as [e|] eqn:Hf.
  - pose proof (post_messages_valid req message env d Hm Hid) as H.
    cbv zeta in H. rewrite Hf in H. destruct H as (_ & _ & -> & _).
    destruct (author_with_id message); [destruct (failed env 0)|]; repeat split.
  - destruct (post_messages_tables req message env d Hm Hid Hf)
      as (Tm & _ & Tmem & Tref & _).
    destruct (post_messages_children req message env d Hm Hid Hf)
      as (s2 & Hd & Hc & Ta & Te & Tc & Tn).
    pose proof (store_children_appends_attachments (reached message) env s2) as Aa.
    pose proof (store_children_appends_embeds (reached message) env s2) as Ae.
    pose proof (store_children_appends_components (reached message) env s2) as Ac.
    pose proof (store_children_appends_mentions (reached message) env s2) as Am.
    cbv zeta in Aa, Ae, Ac, Am.
    change (message_id (reached message)) with (message_id message) in Aa, Ae, Ac, Am.
    rewrite <- Hd, Hid' in Aa, Ae, Ac, Am.
    apply (appended_from _ _ _ _ _ _ _ d) in Aa; [|exact Ta].
    apply (appended_from _ _ _ _ _ _ _ d) in Ae; [|exact Te].
    apply (appended_from _ _ _ _ _ _ _ d) in Ac; [|exact Tc].
    apply (appended_from _ _ _ _ _ _ _ d) in Am; [|exact Tn].
    cbv zeta in Tm, Tmem, Tref. rewrite Hid' in Tmem, Tref.
    remember (reached message) as sent eqn:Hsent. clear Hsent.
    unfold same_for, attachments_of, embeds_of, components_of, mentions_of, members_of,
      message_references_of.
    split; [rewrite Tm; now apply (insert_or_replace_other _ _ _ _ id)|].
    split; [exact (proj2 (appended_lookup _ _ _ _ _ id _ _ _ other Aa) Ho)|].
    split; [exact (proj2 (appended_lookup _ _ _ _ _ id _ _ _ other Ae) Ho)|].
    split; [exact (proj2 (appended_lookup _ _ _ _ _ id _ _ _ other Ac) Ho)|].
    split; [exact (proj2 (appended_lookup _ _ _ _ _ id _ _ _ other Am) Ho)|].
    split.
    + rewrite Tmem. destruct (message_member sent) as [mem|]; [|reflexivity].
      match goal with |- context [if ?b then _ else _] => destruct b end; [reflexivity|].
      now apply (insert_or_replace_other _ _ _ _ id).
    + rewrite Tref. destruct (message_message_reference sent) as [ref|]; [|reflexivity].
      match goal with |- context [if ?b then _ else _] => destruct b end; [reflexivity|].
      now apply (insert_or_replace_other _ _ _ _ id).
Qed.

(** ** The transcript shows the time of ingestion *)

Lemma post_messages_messages req env d :
  let d' := st_db (snd (run (post_messages req) env d)) in
  messages d' = messages d
  \/ exists message,
       body_message req = Some message
       /\ messages d'
          = Sql.insert_or_replace messages_id (msgValues req message (now env)) (messages d).
Proof.
  cbv zeta. destruct (body_message req) as [message|] eqn:Hm;
    [|left; unfold run, post_messages; now rewrite Hm].
  destruct (truthy_str (message_id message)) eqn:Hid;
    [|left; unfold run, post_messages; now rewrite Hm, Hid].
  destruct (db_fault env (message_statement message)) as [e|] eqn:Hf.
  - left. pose proof (post_messages_valid req message env d Hm Hid) as H.
    cbv zeta in H. rewrite Hf in H. destruct H as (_ & _ & -> & _).
    destruct (author_with_id message); [destruct (failed env 0)|]; reflexivity.
  - right. exists message. split; [reflexivity|].
    exact (proj1 (post_messages_tables req message env d Hm Hid Hf)).
Qed.

Lemma stamped_logLine d msg :
  stamped d -> In msg (messages_with_authors d) ->
  exists line, logLine msg = Resolved line /\ line_at_created_at msg line.
Proof.
  intros Hs Hin. apply messages_with_authors_joined in Hin. destruct Hin as [Hin _].
  destruct (Hs _ Hin) as (created_at & Hc & Hne).
  unfold logLine, timeString. rewrite Hc. simpl truthy_str.
  replace (String.eqb created_at "") with false by (symmetry; now apply String.eqb_neq).
  cbn [negb]. eexists. split; [reflexivity|]. exists created_at. split; [exact Hc|].
  reflexivity.
Qed.

Lemma Array_map_Forall2_total A B (f : A -> Result B) (P : A -> B -> Prop) (l : list A) :
  (forall x, In x l -> exists y, f x = Resolved y /\ P x y) ->
  exists ys, Array_map f l = Resolved ys /\ Forall2 P l ys.
Proof.
  induction l as [|x rest IH]; intros H; simpl.
  - exists []. split; [reflexivity | constructor].
  - destruct (H x (or_introl eq_refl)) as (y & Hy & Hp).
    destruct IH as (ys & Hys & Hf); [intros z Hz; apply H; now right|].
    rewrite Hy, Hys. exists (y :: ys). split; [reflexivity | now constructor].
Qed.

(** X28: the time in a transcript line is the time the server stored
    the message, not the time the message was sent.  The message statement
    never gives a [created_at], so every row is stamped with
    CURRENT_TIMESTAMP when it is written, and again at every re-ingestion:
    if every row has a [created_at], every request served at a time whose
    text is not empty leaves it so.  In such a database every context row
    can be rendered, so the transcript of a message whose context was
    assembled has exactly [context_message_count] lines, and every line
    shows characters 11 to 16 of the [created_at] of its row; the
    [message_timestamp] is used to order the lines and for nothing
    else. *)
Theorem X28_transcript_shows_the_time_of_ingestion :
  forall (d : DB),
    stamped d ->
    (forall request env, now env <> "" ->
       stamped (st_db (snd (run (handle request) env d))))
    /\ forall messageId env context,
         fst (run (getMessageContext messageId) env d) = Resolved context ->
         let chatLog := fst (run (getChatLog messageId) env d) in
         length chatLog = context_message_count context
         /\ exists sorted,
              Permutation sorted (context_messages context)
              /\ ordered in_time_order sorted
              /\ Forall2 line_at_created_at sorted chatLog.
Proof.
  intros d Hs. split.
  - intros request env Hnow.
    destruct (writes request) eqn:Hw.
    + destruct request; try discriminate. unfold run, handle, responds, bind.
      pose proof (post_messages_messages req env d) as H. cbv zeta in H.
      unfold run in H.
      destruct (post_messages req env (start d)) as [response s']. cbn [fst snd ret] in *.
      destruct H as [H|(message & _ & H)]; intros row Hin; rewrite H in Hin.
      * now apply Hs.
      * unfold Sql.insert_or_replace in Hin. apply in_app_or in Hin.
        destruct Hin as [Hin|[<-|[]]].
        -- apply filter_In in Hin. now apply Hs.
        -- simpl. now exists (now env).
    + assert (HR : preorder (fun d d' : DB => d' = d)).
      { split; [reflexivity | intros a b c -> ->; reflexivity]. }
      pose proof (reading_preserves _ request HR Hw env (start d)) as H.
      cbn [start st_db] in H. unfold run. now rewrite H.
  - intros messageId env context H chatLog.
    destruct (assembled_count _ _ _ _ H) as (Hcount & _).
    subst chatLog. rewrite getChatLog_result, H.
    set (sorted := Array_sort by_message_timestamp (context_messages context)).
    assert (Hperm : Permutation sorted (context_messages context))
      by apply Array_sort_permutation.
    destruct (Array_map_Forall2_total _ _ logLine line_at_created_at sorted)
      as (lines & Hlines & Hf).
    { intros msg Hin. apply (stamped_logLine d); [exact Hs|].
      apply (Permutation_in _ Hperm) in Hin.
      rewrite (assembled_context _ _ _ _ H) in Hin.
      now apply contextSql_others in Hin. }
    rewrite Hlines. split.
    + rewrite <- (Forall2_length Hf), Hcount. now apply Permutation_length.
    + exists sorted. split; [exact Hperm|]. split; [|exact Hf].
      apply (sort_by_ordered in_time_order), in_time_order_total.
Qed.

(** ** The statuses the server sends *)

Lemma hd_error_nil A (l : list A) : hd_error l = None -> l = [].
Proof. destruct l; [reflexivity | discriminate]. Qed.

Lemma responds_some (h : M Response) env d :
  fst (run (responds h) env d) = Some (fst (run h env d)).
Proof. unfold run, responds, bind, ret. now destruct (h env (start d)). Qed.

Ltac sent :=
  let H := fresh "H" in
  intros ? H; injection H as <-; cbn [status json_response status_response];
  repeat match goal with
         | |- _ /\ _ => split
         | |- In _ _ => simpl; tauto
         | |- (_ = _)%Z -> _ => let E := fresh in intros E; try discriminate E
         end.

(** X29: the statuses the handlers send.  Every response of a route
    handler carries 200, 400, 404 or 500.  A handler leaves a request
    without a response in two cases only: the classifier bridge, and the
    ingestion of a message one of whose child arrays holds a null.  400 is
    sent by the ingestion alone, for an envelope without a message id; 404
    by the lookups of one message and of one author alone, when their query
    was answered and found no row; and when no statement fails, 500 is
    sent by the context endpoint and the generation of insights alone. *)
Theorem X29_statuses_of_the_responses :
  forall (request : Request) (env : Env) (d : DB),
    let result := fst (run (handle request) env d) in
    (result = None ->
       (exists text, request = POST_classifier text)
       \/ (exists req message,
             request = POST_messages req
             /\ body_message req = Some message
             /\ ~ objects_only message))
    /\ forall response, result = Some response ->
         In (status response) [200; 400; 404; 500]%Z
         /\ (status response = 400%Z ->
               exists req, request = POST_messages req /\ ~ has_message_id req)
         /\ (status response = 404%Z ->
               db_fault env 0 = None
               /\ ((exists id, request = GET_message id /\ msgSql id d = [])
                   \/ (exists id, request = GET_author id /\ unknown_author id d)))
         /\ (status response = 500%Z -> healthy env ->
               (exists messageId, request = GET_message_context messageId)
               \/ (exists user_id, request = POST_user_insights user_id)).
Proof.
  intros request env d result. subst result.
  destruct request; unfold handle;
    try (rewrite responds_some; split; [discriminate|]).
  - (* POST /messages *)
    destruct (body_message req) as [message|] eqn:Hm.
    + destruct (truthy_str (message_id message)) eqn:Hid.
      * pose proof (post_messages_valid req message env d Hm Hid) as H.
        cbv zeta in H.
        destruct (fst (run (post_messages req) env d)) as [response|] eqn:Hr.
        -- split; [discriminate|].
           destruct (db_fault env (message_statement message)) as [e|] eqn:Hf.
           ++ destruct H as (H & _). injection H as ->. sent.
              intros Hh. rewrite Hh in Hf. discriminate Hf.
           ++ destruct H as (H & _).
              destruct (thrown_by message); [|discriminate H].
              injection H as ->. sent.
        -- split; [|discriminate]. intros _. right. exists req, message.
           split; [reflexivity|]. split; [exact Hm|].
           destruct (db_fault env (message_statement message)) as [e|];
             [destruct H as (H & _); discriminate H|].
           destruct H as (H & _).
           destruct (thrown_by_cases message) as [(E & _)|(err & _ & Hnull)];
             [rewrite E in H; discriminate H | exact Hnull].
      * assert (Hno : ~ has_message_id req).
        { intros (message' & id & Hm' & Hid' & Hne). rewrite Hm in Hm'.
          injection Hm' as <-. rewrite Hid' in Hid. simpl in Hid.
          apply Bool.negb_false_iff, String.eqb_eq in Hid. contradiction. }
        unfold run, post_messages. rewrite Hm, Hid. unfold ret. cbn [fst negb].
        split; [discriminate|]. sent.
        exists req. split; [reflexivity | exact Hno].
    + assert (Hno : ~ has_message_id req).
      { intros (message' & id & Hm' & _). rewrite Hm in Hm'. discriminate Hm'. }
      unfold run, post_messages. rewrite Hm. unfold ret. cbn [fst].
      split; [discriminate|]. sent.
      exists req. split; [reflexivity | exact Hno].
  - (* GET /messages *)
    unfold run, handle, responds, get_messages, bind. rewrite db_all_run.
    unfold answered, answer, ret, start. cbn [st_clock fst].
    destruct (db_fault env 0) eqn:Hf; sent.
    intros Hh. rewrite Hh in Hf. discriminate Hf.
  - (* GET /messages/:id *)
    unfold run, handle, responds, bind.
    destruct (db_fault env 0) as [e|] eqn:Hf.
    + unfold get_message, bind. rewrite db_get_run. unfold answered, start. cbn [st_clock].
      rewrite Hf. unfold ret. cbn [fst]. sent.
      intros Hh. rewrite Hh in Hf. discriminate Hf.
    + destruct (hd_error (msgSql id d)) as [message|] eqn:Hhd.
      * rewrite (get_message_found id env (start d) message Hf Hhd).
        unfold ret. cbn [fst]. sent.
      * unfold get_message, bind. rewrite db_get_run. unfold answered, start.
        cbn [st_clock st_db]. rewrite Hf, Hhd. unfold ret. cbn [fst]. sent.
        -- reflexivity.
        -- left. exists id. split; [reflexivity | now apply hd_error_nil].
  - (* GET /messages/log/:messageId *)
    unfold run, handle, responds, get_message_log, bind.
    destruct (getChatLog messageId env (start d)) as [log s]. unfold ret. cbn [fst]. sent.
  - (* GET /messages/user/:userId *)
    unfold run, handle, responds, get_messages_by_user, bind. rewrite db_all_run.
    unfold answered, answer, ret, start. cbn [st_clock fst].
    destruct (db_fault env 0) eqn:Hf; sent.
    intros Hh. rewrite Hh in Hf. discriminate Hf.
  - (* GET /authors *)
    unfold run, handle, responds, get_authors, bind. rewrite db_all_run.
    unfold answered, answer, ret, start. cbn [st_clock fst].
    destruct (db_fault env 0) eqn:Hf; sent.
    intros Hh. rewrite Hh in Hf. discriminate Hf.
  - (* GET /authors/:id *)
    unfold run, handle, responds, get_author, bind. rewrite db_get_run.
    unfold answered, answer, ret, start. cbn [st_clock st_db fst].
    destruct (db_fault env 0) eqn:Hf.
    + sent. intros Hh. rewrite Hh in Hf. discriminate Hf.
    + destruct (hd_error _) eqn:Hhd; sent.
      * reflexivity.
      * right. exists id. split; [reflexivity|].
        apply hd_error_nil in Hhd. intros a Hin.
        destruct (Sql.eq (authors_id a) (Some id)) eqn:E; [|reflexivity].
        assert (Hf' : In a []) by (rewrite <- Hhd; apply filter_In; now split).
        destruct Hf'.
  - (* GET /messages/:id/attachments *)
    unfold run, handle, responds, get_attachments, bind. rewrite db_all_run.
    unfold answered, answer, ret, start. cbn [st_clock fst].
    destruct (db_fault env 0) eqn:Hf; sent.
    intros Hh. rewrite Hh in Hf. discriminate Hf.
  - (* GET /messages/:id/embeds *)
    unfold run, handle, responds, get_embeds, bind. rewrite db_all_run.
    unfold answered, answer, ret, start. cbn [st_clock fst].
    destruct (db_fault env 0) eqn:Hf; sent.
    intros Hh. rewrite Hh in Hf. discriminate Hf.
  - (* GET /messages/:id/components *)
    unfold run, handle, responds, get_components, bind. rewrite db_all_run.
    unfold answered, answer, ret, start. cbn [st_clock fst].
    destruct (db_fault env 0) eqn:Hf; sent.
    intros Hh. rewrite Hh in Hf. discriminate Hf.
  - (* GET /messages/:id/member *)
    unfold run, handle, responds, get_member, bind. rewrite db_get_run.
    unfold answered, answer, ret, start. cbn [st_clock fst].
    destruct (db_fault env 0) eqn:Hf; sent.
    intros Hh. rewrite Hh in Hf. discriminate Hf.
  - (* GET /messages/:id/mentions *)
    unfold run, handle, responds, get_mentions, bind. rewrite db_all_run.
    unfold answered, answer, ret, start. cbn [st_clock fst].
    destruct (db_fault env 0) eqn:Hf; sent.
    intros Hh. rewrite Hh in Hf. discriminate Hf.
  - (* GET /messages/:id/message-reference *)
    unfold run, handle, responds, get_message_reference, bind. rewrite db_get_run.
    unfold answered, answer, ret, start. cbn [st_clock fst].
    destruct (db_fault env 0) eqn:Hf; sent.
    intros Hh. rewrite Hh in Hf. discriminate Hf.
  - (* GET /messages/:id/referenced-message *)
    unfold run, handle, responds, get_referenced_message, bind. rewrite db_get_run.
    unfold answered, answer, ret, start. cbn [st_clock fst].
    destruct (db_fault env 0) eqn:Hf; sent.
    intros Hh. rewrite Hh in Hf. discriminate Hf.
  - (* GET /message-context/:messageId *)
    unfold run, handle, responds, get_message_context, bind.
    destruct (getMessageContext messageId env (start d)) as [[context|error] s];
      unfold ret; cbn [fst]; sent.
    intros _. left. now exists messageId.
  - (* POST /messages/classifier *)
    split; [intros _; left; now exists text|].
    unfold run, handle, post_classifier, axios, bind, record_call, ask, ret. cbn [fst].
    destruct (axios_post env _ _); [sent | discriminate].
  - (* POST /messages/tone *)
    unfold run, handle, responds, post_tone, bind.
    destruct (tone_message req) as [message|]; [|unfold ret; cbn [fst]; sent].
    destruct (getChatLog (tone_message_id message) env (start d)) as [chatLog s].
    unfold ollama_chat, bind, record_call, ask, ret. cbn [fst].
    destruct (ollama_chat_tone env _); cbn [fst]; sent.
  - (* POST /user_insights/generate/:user_id *)
    unfold run, handle, responds, post_user_insights, bind. rewrite db_all_run.
    unfold answered, start. cbn [st_clock st_db].
    destruct (db_fault env 0) eqn:Hf.
    + unfold ret. cbn [fst]. sent. intros _. right. now exists user_id.
    + destruct (Nat.eqb _ 0); [unfold ret; cbn [fst]; sent|].
      destruct (messageWithContext _ env _) as [[bundles|error] s];
        unfold ret; cbn [fst]; sent.
      intros _. right. now exists user_id.
  - (* GET /user_insights/generate/:user_id *)
    unfold run, handle, responds, get_user_insights, bind. rewrite db_all_run.
    unfold answered, answer, ret, start. cbn [st_clock st_db fst].
    destruct (db_fault env 0) eqn:Hf; [|destruct (Nat.eqb _ 0)]; sent.
    intros Hh. rewrite Hh in Hf. discriminate Hf.
Qed.

End Server.

(** ** The plugin: the recent messages of a user *)

Lemma same_key_eq a b : ToneIndicator.same_key a b = true <-> a = b.
Proof.
  destruct a as [x|], b as [y|]; simpl; split; try discriminate; try reflexivity.
  - intros H. apply String.eqb_eq in H. now subst.
  - intros H. inversion H. apply String.eqb_refl.
Qed.

Lemma same_key_refl a : ToneIndicator.same_key a a = true.
Proof. now apply same_key_eq. Qed.

Lemma same_key_sym a b : ToneIndicator.same_key a b = ToneIndicator.same_key b a.
Proof. destruct a, b; simpl; try reflexivity. apply String.eqb_sym. Qed.

Lemma Map_get_set_same V (k : ToneIndicator.key) (v : V) m :
  ToneIndicator.Map_get k (ToneIndicator.Map_set k v m) = Some v.
Proof.
  induction m as [|[k' v'] rest IH]; simpl.
  - now rewrite same_key_refl.
  - destruct (ToneIndicator.same_key k k') eqn:E; simpl.
    + now rewrite same_key_refl.
    + now rewrite E.
Qed.

Lemma Map_get_set_other V (k k' : ToneIndicator.key) (v : V) m :
  ToneIndicator.same_key k k' = false ->
  ToneIndicator.Map_get k (ToneIndicator.Map_set k' v m) = ToneIndicator.Map_get k m.
Proof.
  intros Hk. induction m as [|[k0 v0] rest IH]; simpl.
  - now rewrite Hk.
  - destruct (ToneIndicator.same_key k' k0) eqn:E; simpl.
    + apply same_key_eq in E. subst k0. now rewrite Hk.
    + destruct (ToneIndicator.same_key k k0); [reflexivity | exact IH].
Qed.

Lemma lastn_all A (n : nat) (l : list A) : length l <= n -> lastn n l = l.
Proof. intros H. unfold lastn. now replace (length l - n) with 0 by lia. Qed.

Lemma lastn_length A (n : nat) (l : list A) : length (lastn n l) = Nat.min n (length l).
Proof. unfold lastn. rewrite length_skipn. lia. Qed.

Lemma lastn_app A (n : nat) (a b : list A) : lastn n (lastn n a ++ b) = lastn n (a ++ b).
Proof.
  unfold lastn. rewrite !length_app, length_skipn, !skipn_app, skipn_skipn, length_skipn.
  f_equal; f_equal; lia.
Qed.

Lemma lastn_snoc A (n : nat) (l : list A) (x : A) :
  length l <= n ->
  (if Nat.ltb n (length (l ++ [x])) then tl (l ++ [x]) else l ++ [x]) = lastn n (l ++ [x]).
Proof.
  intros H. rewrite length_app. simpl. unfold lastn. rewrite length_app. simpl.
  destruct (Nat.ltb_spec n (length l + 1)) as [Hlt|Hge].
  - replace (length l + 1 - n) with 1 by lia. now destruct l.
  - now replace (length l + 1 - n) with 0 by lia.
Qed.

(** One call of [addUserMessage], seen from the user [userId]. *)
Lemma addUserMessage_recent userId k content this :
  userId <> "" ->
  length (ToneIndicator.getRecentUserMessages (Some userId) this)
  <= ToneIndicator.maxUserMessages ->
  ToneIndicator.getRecentUserMessages (Some userId)
    (ToneIndicator.addUserMessage k content this)
  = lastn ToneIndicator.maxUserMessages
      (ToneIndicator.getRecentUserMessages (Some userId) this
       ++ said_by userId [(k, content)]).
Proof.
  intros Hu Hlen. unfold ToneIndicator.addUserMessage, said_by. simpl.
  destruct (truthy_str k) eqn:Hk; simpl.
  - destruct (String.eqb content "") eqn:Hc; simpl.
    + rewrite Bool.andb_false_r. simpl. rewrite app_nil_r. now rewrite lastn_all.
    + rewrite Bool.andb_true_r.
      destruct (ToneIndicator.same_key k (Some userId)) eqn:E; simpl.
      * apply same_key_eq in E. subst k.
        unfold ToneIndicator.getRecentUserMessages at 1. simpl.
        rewrite Map_get_set_same. apply lastn_snoc. exact Hlen.
      * unfold ToneIndicator.getRecentUserMessages at 1. simpl.
        rewrite Map_get_set_other by (now rewrite same_key_sym).
        rewrite app_nil_r. now rewrite lastn_all.
  - destruct k as [x|]; simpl in *.
    + apply Bool.negb_false_iff, String.eqb_eq in Hk. subst x.
      replace (String.eqb "" userId) with false
        by (symmetry; apply String.eqb_neq; congruence).
      simpl. rewrite app_nil_r. now rewrite lastn_all.
    + rewrite app_nil_r. now rewrite lastn_all.
Qed.

Lemma said_by_cons userId call calls :
  said_by userId (call :: calls) = said_by userId [call] ++ said_by userId calls.
Proof.
  unfold said_by. simpl.
  destruct (ToneIndicator.same_key (fst call) (Some userId) && _); reflexivity.
Qed.

Lemma after_calls_recent userId calls this :
  userId <> "" ->
  length (ToneIndicator.getRecentUserMessages (Some userId) this)
  <= ToneIndicator.maxUserMessages ->
  ToneIndicator.getRecentUserMessages (Some userId) (after_calls calls this)
  = lastn ToneIndicator.maxUserMessages
      (ToneIndicator.getRecentUserMessages (Some userId) this ++ said_by userId calls).
Proof.
  intros Hu. revert this. induction calls as [|[k content] rest IH]; intros this Hlen.
  - simpl. unfold said_by. simpl. rewrite app_nil_r. now rewrite lastn_all.
  - unfold after_calls. simpl. fold (after_calls rest).
    rewrite IH.
    + rewrite (addUserMessage_recent userId k content this Hu Hlen).
      rewrite lastn_app, <- app_assoc. now rewrite <- said_by_cons.
    + rewrite (addUserMessage_recent userId k content this Hu Hlen).
      rewrite lastn_length. lia.
Qed.

(** A key that is no user id, [undefined] or the empty string, never
    gets a list. *)
Lemma addUserMessage_falsy k userId content this :
  truthy_str k = false ->
  ToneIndicator.getRecentUserMessages k (ToneIndicator.addUserMessage userId content this)
  = ToneIndicator.getRecentUserMessages k this.
Proof.
  intros Hk. unfold ToneIndicator.addUserMessage.
  destruct (truthy_str userId) eqn:Hu; simpl; [|reflexivity].
  destruct (negb (String.eqb content "")); simpl; [|reflexivity].
  unfold ToneIndicator.getRecentUserMessages. simpl.
  rewrite Map_get_set_other; [reflexivity|].
  destruct (ToneIndicator.same_key k userId) eqn:E; [|reflexivity].
  apply same_key_eq in E. subst k. congruence.
Qed.

Lemma after_calls_falsy k calls this :
  truthy_str k = false ->
  ToneIndicator.getRecentUserMessages k (after_calls calls this)
  = ToneIndicator.getRecentUserMessages k this.
Proof.
  intros Hk. revert this. induction calls as [|[userId content] rest IH]; intros this.
  - reflexivity.
  - unfold after_calls. simpl. fold (after_calls rest).
    rewrite IH. now apply addUserMessage_falsy.
Qed.

(** X20: the recent messages of a user are the last ten of what the
    user said.  After any sequence of calls of [addUserMessage] on a fresh
    instance, [getRecentUserMessages] gives for a user the non-empty
    contents of the calls made for that user, in the order of the calls,
    cut down to the last [maxUserMessages] = 10 of them: a call without
    user id or with an empty content changes nothing, nor does a call for
    another user, and the eleventh message pushes the oldest one out. *)
Theorem X20_recent_messages_are_the_last_ten_of_the_user :
  forall (userId : string) (calls : list (ToneIndicator.key * string))
         (saved : list (ToneIndicator.key * ToneIndicator.Tone)),
    userId <> "" ->
    let this := after_calls calls (ToneIndicator.started saved) in
    ToneIndicator.getRecentUserMessages (Some userId) this
    = lastn ToneIndicator.maxUserMessages (said_by userId calls)
    /\ length (ToneIndicator.getRecentUserMessages (Some userId) this) <= 10
    /\ ToneIndicator.getRecentUserMessages None this = []
    /\ ToneIndicator.getRecentUserMessages (Some "") this = [].
Proof.
  intros userId calls saved Hu this.
  assert (H : ToneIndicator.getRecentUserMessages (Some userId) this
              = lastn ToneIndicator.maxUserMessages (said_by userId calls)).
  { subst this. rewrite after_calls_recent; [reflexivity | exact Hu | simpl; lia]. }
  split; [exact H|]. split.
  - rewrite H, lastn_length. unfold ToneIndicator.maxUserMessages. lia.
  - subst this. split; rewrite after_calls_falsy; reflexivity.
Qed.
(** ** The plugin: what holds throughout a session *)

Lemma Set_has_In k s : ToneIndicator.Set_has k s = true <-> In k s.
Proof.
  unfold ToneIndicator.Set_has. rewrite existsb_exists. split.
  - intros (x & Hin & Hx). apply same_key_eq in Hx. now subst.
  - intros H. exists k. split; [exact H | apply same_key_refl].
Qed.

Lemma Set_has_not_In k s : ToneIndicator.Set_has k s = false <-> ~ In k s.
Proof.
  rewrite <- Set_has_In. destruct (ToneIndicator.Set_has k s); split; congruence.
Qed.

Lemma addUserMessage_bounded k userId content this :
  length (ToneIndicator.getRecentUserMessages k this) <= ToneIndicator.maxUserMessages ->
  length (ToneIndicator.getRecentUserMessages k
            (ToneIndicator.addUserMessage userId content this))
  <= ToneIndicator.maxUserMessages.
Proof.
  intros H. unfold ToneIndicator.addUserMessage.
  destruct (negb (truthy_str userId) || negb (truthy_str (Some content))); [exact H|].
  unfold ToneIndicator.getRecentUserMessages in *. cbn [ToneIndicator.userMessages].
  destruct (ToneIndicator.same_key k userId) eqn:E.
  - apply same_key_eq in E. subst k. rewrite Map_get_set_same.
    rewrite lastn_snoc by exact H. rewrite lastn_length. lia.
  - now rewrite Map_get_set_other by exact E.
Qed.

Lemma addUserMessage_keeps userId content this :
  ToneIndicator.processedMessages (ToneIndicator.addUserMessage userId content this)
  = ToneIndicator.processedMessages this
  /\ ToneIndicator.messageTones (ToneIndicator.addUserMessage userId content this)
     = ToneIndicator.messageTones this.
Proof.
  unfold ToneIndicator.addUserMessage.
  destruct (negb (truthy_str userId) || negb (truthy_str (Some content))); split; reflexivity.
Qed.

Lemma registrations_app a b : registrations (a ++ b) = registrations a ++ registrations b.
Proof. unfold registrations. apply flat_map_app. Qed.

Lemma classifier_texts_app a b :
  classifier_texts (a ++ b) = classifier_texts a ++ classifier_texts b.
Proof. unfold classifier_texts. apply flat_map_app. Qed.

Lemma registering_app a b : registering (a ++ b) = registering a + registering b.
Proof. unfold registering. now rewrite filter_app, length_app. Qed.

Lemma In_without A (n : nat) (l : list A) (x : A) :
  In x (ToneIndicator.without n l) -> In x l.
Proof.
  revert n. induction l as [|y rest IH]; intros [|n]; simpl; auto.
  intros [H|H]; [now left | right; now apply (IH n)].
Qed.

Lemma registering_without n tasks task :
  nth_error tasks n = Some task ->
  registering tasks
  = registering (ToneIndicator.without n tasks) + registering [task].
Proof.
  revert n. induction tasks as [|t rest IH]; intros [|n] H; simpl in H; try discriminate.
  - inversion H; subst t. unfold registering. simpl. destruct task; simpl; lia.
  - specialize (IH n H). unfold registering in *.
    destruct t, task; simpl in *; lia.
Qed.

Lemma Map_has_set V (k k' : ToneIndicator.key) (v : V) m :
  ToneIndicator.Map_has k (ToneIndicator.Map_set k' v m)
  = ToneIndicator.same_key k k' || ToneIndicator.Map_has k m.
Proof.
  unfold ToneIndicator.Map_has. destruct (ToneIndicator.same_key k k') eqn:E.
  - apply same_key_eq in E. subst k'. now rewrite Map_get_set_same.
  - now rewrite Map_get_set_other by exact E.
Qed.

Lemma well_behaved_opened saved : well_behaved saved (ToneIndicator.opened saved).
Proof.
  unfold well_behaved. simpl.
  split; [intros userId; unfold ToneIndicator.getRecentUserMessages; simpl; lia|].
  split; [constructor|]. split; [constructor|]. split; [constructor|].
  split; [intros ? []|]. split; [intros ? []|]. split; [intros ? []|].
  split; [intros messageId H; now left | unfold registering; simpl; lia].
Qed.

Lemma NoDup_snoc A (l : list A) (x : A) : NoDup l -> ~ In x l -> NoDup (l ++ [x]).
Proof.
  intros Hl Hx. apply NoDup_app; [exact Hl | repeat constructor; intros [] |].
  intros y Hy [<-|[]]. now apply Hx.
Qed.

Lemma Set_add_new k s :
  ToneIndicator.Set_has k s = false -> ToneIndicator.Set_add k s = s ++ [k].
Proof. unfold ToneIndicator.Set_add. now intros ->. Qed.

Ltac wb_parts :=
  split; [|split; [|split; [|split; [|split; [|split; [|split; [|split]]]]]]].

(** A turn that only marks a message as processed. *)
Lemma well_behaved_marked saved b messageId :
  ToneIndicator.Set_has messageId (ToneIndicator.processedMessages (ToneIndicator.plugin b))
  = false ->
  well_behaved saved b ->
  well_behaved saved
    (ToneIndicator.with_plugin
       (ToneIndicator.mark_processed messageId (ToneIndicator.plugin b)) b).
Proof.
  intros Hnew (I1 & I2 & I3 & I4 & I5 & I6 & I7 & I8 & I9).
  unfold well_behaved. cbn [ToneIndicator.with_plugin ToneIndicator.plugin
    ToneIndicator.fetched ToneIndicator.awaiting ToneIndicator.mark_processed
    ToneIndicator.processedMessages ToneIndicator.messageTones].
  rewrite (Set_add_new _ _ Hnew). apply Set_has_not_In in Hnew.
  wb_parts.
  - exact I1.
  - exact I2.
  - now apply NoDup_snoc.
  - exact I4.
  - intros k Hk. apply in_or_app. left. now apply I5.
  - exact I6.
  - intros task Ht. apply in_or_app. left. now apply I7.
  - intros k Hk. destruct (I8 k Hk); [now left | right; apply in_or_app; now left].
  - rewrite length_app. simpl. lia.
Qed.

Lemma well_behaved_handleNewMessage saved message b :
  well_behaved saved b -> well_behaved saved (ToneIndicator.handleNewMessage message b).
Proof.
  intros H. unfold ToneIndicator.handleNewMessage.
  destruct (body_message message) as [messageData|] eqn:Hm; [|exact H].
  destruct (message_content messageData) as [content|] eqn:Hc; [|exact H].
  destruct (negb (truthy_str (Some content))) eqn:Ht; [exact H|].
  cbv zeta.
  destruct (ToneIndicator.Set_has (message_id messageData) _) eqn:Hnew; [exact H|].
  destruct H as (I1 & I2 & I3 & I4 & I5 & I6 & I7 & I8 & I9).
  unfold well_behaved. cbn [ToneIndicator.fetch ToneIndicator.plugin ToneIndicator.fetched
    ToneIndicator.awaiting].
  destruct (addUserMessage_keeps (ToneIndicator.authorId_of messageData) content
              (ToneIndicator.mark_processed (message_id messageData)
                 (ToneIndicator.plugin b))) as (Kp & Kt).
  rewrite Kp, Kt. cbn [ToneIndicator.mark_processed ToneIndicator.processedMessages
    ToneIndicator.messageTones].
  rewrite (Set_add_new _ _ Hnew). pose proof (proj1 (Set_has_not_In _ _) Hnew) as Hnot.
  rewrite registrations_app, classifier_texts_app, registering_app.
  cbn [registrations classifier_texts flat_map app]. rewrite Hm. cbn [app].
  rewrite app_nil_r.
  wb_parts.
  - intros userId. apply addUserMessage_bounded. exact (I1 userId).
  - exact I2.
  - now apply NoDup_snoc.
  - apply NoDup_snoc; [exact I4|]. intros Hin. apply Hnot. now apply I5.
  - intros k Hk. apply in_app_or in Hk. apply in_or_app.
    destruct Hk as [Hk|Hk]; [left; now apply I5 | now right].
  - intros message' Hin. apply in_app_or in Hin. destruct Hin as [Hin|[Heq|[]]].
    + now apply I6.
    + inversion Heq; subst message'. exists messageData, content.
      split; [exact Hm|]. split; [exact Hc|].
      apply Bool.negb_false_iff in Ht. simpl in Ht.
      apply Bool.negb_true_iff, String.eqb_neq in Ht. exact Ht.
  - intros task Hin. apply in_app_or in Hin. apply in_or_app.
    destruct Hin as [Hin|[<-|[]]]; [left; now apply I7 | right; now left].
  - intros k Hk. destruct (I8 k Hk); [now left | right; apply in_or_app; now left].
  - rewrite length_app. unfold registering at 2. simpl. lia.
Qed.

Lemma well_behaved_processExistingMessage saved messageId found b :
  well_behaved saved b ->
  well_behaved saved (ToneIndicator.processExistingMessage messageId found b).
Proof.
  intros H. unfold ToneIndicator.processExistingMessage.
  destruct (ToneIndicator.Set_has (Some messageId) _) eqn:Hnew; [exact H|].
  cbv zeta.
  destruct found as [messageElement|]; [|now apply well_behaved_marked].
  destruct (ToneIndicator.textContent messageElement) as [content|];
    [|now apply well_behaved_marked].
  destruct (negb (truthy_str (ToneIndicator.data_author_id messageElement)));
    [now apply well_behaved_marked|].
  destruct H as (I1 & I2 & I3 & I4 & I5 & I6 & I7 & I8 & I9).
  unfold well_behaved. cbn [ToneIndicator.fetch ToneIndicator.plugin ToneIndicator.fetched
    ToneIndicator.awaiting].
  set (this := ToneIndicator.addUserMessage _ content _).
  destruct (addUserMessage_keeps (ToneIndicator.data_author_id messageElement) content
              (ToneIndicator.mark_processed (Some messageId)
                 (ToneIndicator.plugin b))) as (Kp & Kt).
  fold this in Kp, Kt. rewrite Kp, Kt.
  cbn [ToneIndicator.mark_processed ToneIndicator.processedMessages
    ToneIndicator.messageTones].
  rewrite (Set_add_new _ _ Hnew). pose proof (proj1 (Set_has_not_In _ _) Hnew) as Hnot.
  rewrite registrations_app, classifier_texts_app, registering_app.
  cbn [registrations classifier_texts flat_map app]. rewrite app_nil_r.
  assert (B : forall userId,
             length (ToneIndicator.getRecentUserMessages userId this)
             <= ToneIndicator.maxUserMessages).
  { intros userId. subst this. apply addUserMessage_bounded. exact (I1 userId). }
  wb_parts.
  - exact B.
  - apply Forall_app. split; [exact I2|]. constructor; [apply B | constructor].
  - now apply NoDup_snoc.
  - exact I4.
  - intros k Hk. apply in_or_app. left. now apply I5.
  - intros message' Hin. apply in_app_or in Hin. destruct Hin as [Hin|[Heq|[]]].
    + now apply I6.
    + discriminate Heq.
  - intros task Hin. apply in_app_or in Hin. apply in_or_app.
    destruct Hin as [Hin|[<-|[]]]; [left; now apply I7 | right; now left].
  - intros k Hk. destruct (I8 k Hk); [now left | right; apply in_or_app; now left].
  - rewrite !length_app. unfold registering at 2. simpl. lia.
Qed.

Lemma well_behaved_settled saved n reply b :
  well_behaved saved b -> well_behaved saved (ToneIndicator.turn (ToneIndicator.Settled n reply) b).
Proof.
  intros H. unfold ToneIndicator.turn.
  destruct (nth_error (ToneIndicator.awaiting b) n) as [task|] eqn:Hn; [|exact H].
  destruct H as (I1 & I2 & I3 & I4 & I5 & I6 & I7 & I8 & I9).
  pose proof (nth_error_In _ _ Hn) as Hin.
  pose proof (I7 task Hin) as Hp.
  pose proof (registering_without n _ task Hn) as Hr.
  assert (W : forall t, In t (ToneIndicator.without n (ToneIndicator.awaiting b)) ->
                   In (task_message t) (ToneIndicator.processedMessages (ToneIndicator.plugin b))).
  { intros t Ht. apply I7. now apply (In_without _ n). }
  destruct task as [messageId authorId|messageId existing]; simpl in Hp;
    unfold ToneIndicator.resume.
  - unfold ToneIndicator.registered. unfold registering at 3 in Hr. simpl in Hr.
    destruct reply as [|ok data].
    + unfold well_behaved. cbn. wb_parts; try assumption.
      unfold registering, classifier_texts in *. lia.
    + unfold well_behaved. cbn [ToneIndicator.fetch ToneIndicator.plugin
        ToneIndicator.fetched ToneIndicator.awaiting ToneIndicator.no_longer_awaiting].
      rewrite registrations_app, classifier_texts_app, registering_app.
      cbn [registrations classifier_texts flat_map app]. rewrite app_nil_r.
      wb_parts; try assumption.
      * apply Forall_app. split; [exact I2|]. constructor; [apply I1 | constructor].
      * intros message' Hin'. apply in_app_or in Hin'. destruct Hin' as [Hin'|[Heq|[]]].
        -- now apply I6.
        -- discriminate Heq.
      * intros t Ht. apply in_app_or in Ht. destruct Ht as [Ht|[<-|[]]];
          [now apply W | exact Hp].
      * rewrite length_app. unfold registering at 2. simpl. lia.
  - unfold ToneIndicator.classified. unfold registering at 3 in Hr. simpl in Hr.
    assert (Same : well_behaved saved (ToneIndicator.no_longer_awaiting n b)).
    { unfold well_behaved. cbn. wb_parts; try assumption.
      unfold registering, classifier_texts in *. lia. }
    assert (Logged : forall line,
               well_behaved saved
                 (ToneIndicator.console_error line (ToneIndicator.no_longer_awaiting n b))).
    { intros line. unfold well_behaved. cbn. wb_parts; try assumption.
      unfold registering, classifier_texts in *. lia. }
    destruct reply as [|[|] [[first|]|e]]; try apply Logged; try exact Same;
      try (destruct existing; [exact Same | apply Logged]).
    destruct (ToneIndicator.score first) as [fixed|e]; [|apply Logged].
    unfold well_behaved. cbn. wb_parts; try assumption;
      [|unfold registering, classifier_texts in *; lia].
    intros k Hk. rewrite Map_has_set in Hk. apply Bool.orb_true_iff in Hk.
    destruct Hk as [Hk|Hk]; [|now apply I8].
    apply same_key_eq in Hk. subst k. now right.
Qed.

Lemma well_behaved_turn saved event b :
  well_behaved saved b -> well_behaved saved (ToneIndicator.turn event b).
Proof.
  destruct event as [message|messageId found|n reply].
  - apply well_behaved_handleNewMessage.
  - apply well_behaved_processExistingMessage.
  - apply well_behaved_settled.
Qed.

Lemma well_behaved_session saved events b :
  well_behaved saved b -> well_behaved saved (ToneIndicator.session events b).
Proof.
  unfold ToneIndicator.session. revert b.
  induction events as [|event rest IH]; intros b Hb; simpl.
  - exact Hb.
  - apply IH. now apply well_behaved_turn.
Qed.

(** X21: what holds at every moment of a session of the plugin,
    whatever events arrive and in whatever order the replies to its
    requests come back: no user has more than ten recent messages, and no
    text sent to the classifier has more than ten entries; no message id
    is registered twice with the server, every registered message has a
    non-empty content and is marked as processed; every waiting task
    works for a processed message; a message has a tone only if it was
    saved by an earlier session or processed in this one; and the
    classifier is asked at most once per processed message. *)
Theorem X21_plugin_session_is_well_behaved :
  forall (saved : list (ToneIndicator.key * ToneIndicator.Tone))
         (events : list ToneIndicator.Event),
    well_behaved saved (ToneIndicator.session events (ToneIndicator.opened saved)).
Proof.
  intros saved events. apply well_behaved_session, well_behaved_opened.
Qed.
(** ** The plugin: a new message *)

Lemma turn_keeps_falsy k event b :
  truthy_str k = false ->
  ToneIndicator.getRecentUserMessages k (ToneIndicator.plugin (ToneIndicator.turn event b))
  = ToneIndicator.getRecentUserMessages k (ToneIndicator.plugin b).
Proof.
  intros Hk. destruct event as [message|messageId found|n reply]; simpl.
  - unfold ToneIndicator.handleNewMessage.
    destruct (body_message message) as [messageData|]; [|reflexivity].
    destruct (message_content messageData) as [content|]; [|reflexivity].
    destruct (negb (truthy_str (Some content))); [reflexivity|].
    cbv zeta. destruct (ToneIndicator.Set_has _ _); [reflexivity|].
    cbn [ToneIndicator.fetch ToneIndicator.plugin].
    now rewrite addUserMessage_falsy.
  - unfold ToneIndicator.processExistingMessage.
    destruct (ToneIndicator.Set_has _ _); [reflexivity|]. cbv zeta.
    destruct found as [messageElement|]; [|reflexivity].
    destruct (ToneIndicator.textContent messageElement) as [content|]; [|reflexivity].
    destruct (negb (truthy_str _)); [reflexivity|].
    cbn [ToneIndicator.fetch ToneIndicator.plugin].
    now rewrite addUserMessage_falsy.
  - destruct (nth_error (ToneIndicator.awaiting b) n) as [[messageId authorId|messageId existing]|];
      [| |reflexivity]; simpl.
    + destruct reply; reflexivity.
    + destruct reply as [|[|] [[first|]|e]]; try reflexivity;
        try (destruct existing; reflexivity).
      unfold ToneIndicator.classified.
      destruct (ToneIndicator.score first); reflexivity.
Qed.

Lemma session_keeps_falsy k events b :
  truthy_str k = false ->
  ToneIndicator.getRecentUserMessages k
    (ToneIndicator.plugin (ToneIndicator.session events b))
  = ToneIndicator.getRecentUserMessages k (ToneIndicator.plugin b).
Proof.
  intros Hk. unfold ToneIndicator.session. revert b.
  induction events as [|event rest IH]; intros b; simpl; [reflexivity|].
  rewrite IH. now apply turn_keeps_falsy.
Qed.

Lemma nth_error_snoc A (l : list A) (x : A) : nth_error (l ++ [x]) (length l) = Some x.
Proof. rewrite nth_error_app2 by lia. now rewrite Nat.sub_diag. Qed.

Lemma without_snoc A (l : list A) (x : A) : ToneIndicator.without (length l) (l ++ [x]) = l.
Proof. induction l as [|y rest IH]; simpl; [reflexivity | now rewrite IH]. Qed.

(** The list of a user after a message was added ends with it. *)
Lemma addUserMessage_last userId content this :
  truthy_str userId = true -> content <> "" ->
  exists earlier,
    ToneIndicator.getRecentUserMessages userId
      (ToneIndicator.addUserMessage userId content this)
    = earlier ++ [content].
Proof.
  intros Hu Hc. unfold ToneIndicator.addUserMessage. rewrite Hu. simpl.
  apply String.eqb_neq in Hc. rewrite Hc. simpl.
  unfold ToneIndicator.getRecentUserMessages. simpl. rewrite Map_get_set_same.
  destruct (ToneIndicator.Map_get userId (ToneIndicator.userMessages this)) as [stored|].
  - destruct (Nat.ltb _ _) eqn:E; [|now exists stored].
    destruct stored as [|x rest]; [discriminate E | now exists rest].
  - now exists [].
Qed.

Lemma turn_userMessages event b :
  ToneIndicator.userMessages (ToneIndicator.plugin (ToneIndicator.turn event b))
  = ToneIndicator.userMessages (after_calls (call_of event b) (ToneIndicator.plugin b)).
Proof.
  destruct event as [message|messageId found|n reply]; cbn [ToneIndicator.turn call_of].
  - unfold ToneIndicator.handleNewMessage. cbv zeta.
    destruct (body_message message) as [messageData|]; [|reflexivity].
    destruct (message_content messageData) as [content|]; [|reflexivity].
    destruct (truthy_str (Some content)); cbn [negb andb]; [|reflexivity].
    destruct (ToneIndicator.Set_has _ _); cbn [negb]; [reflexivity|].
    cbn [ToneIndicator.fetch ToneIndicator.plugin after_calls fold_left fst snd].
    unfold ToneIndicator.addUserMessage.
    cbn [ToneIndicator.mark_processed ToneIndicator.userMessages].
    destruct (negb (truthy_str _) || negb (truthy_str _)); reflexivity.
  - unfold ToneIndicator.processExistingMessage. cbv zeta.
    destruct found as [messageElement|].
    + destruct (ToneIndicator.textContent messageElement) as [content|].
      * destruct (ToneIndicator.Set_has _ _); cbn [negb andb]; [reflexivity|].
        destruct (truthy_str (ToneIndicator.data_author_id messageElement)) eqn:Ea;
          cbn [negb]; [|reflexivity].
        cbn [ToneIndicator.fetch ToneIndicator.plugin after_calls fold_left fst snd].
        unfold ToneIndicator.addUserMessage.
        cbn [ToneIndicator.mark_processed ToneIndicator.userMessages].
        destruct (negb (truthy_str _) || negb (truthy_str _)); reflexivity.
      * destruct (ToneIndicator.Set_has _ _); reflexivity.
    + destruct (ToneIndicator.Set_has _ _); reflexivity.
  - destruct (nth_error (ToneIndicator.awaiting b) n)
      as [[messageId authorId|messageId existing]|]; [| |reflexivity]; simpl.
    + destruct reply; reflexivity.
    + destruct reply as [|[|] [[first|]|e]]; try reflexivity;
        try (destruct existing; reflexivity).
      unfold ToneIndicator.classified.
      destruct (ToneIndicator.score first); reflexivity.
Qed.

Lemma getRecentUserMessages_userMessages k this this' :
  ToneIndicator.userMessages this = ToneIndicator.userMessages this' ->
  ToneIndicator.getRecentUserMessages k this = ToneIndicator.getRecentUserMessages k this'.
Proof. unfold ToneIndicator.getRecentUserMessages. now intros ->. Qed.

Lemma said_by_app userId calls more :
  said_by userId (calls ++ more) = said_by userId calls ++ said_by userId more.
Proof. unfold said_by. now rewrite filter_app, map_app. Qed.

(** The recent messages of a user at any later moment of a session:
    those of now, followed by what the events added for the user, cut to
    the last ten. *)
Lemma session_recent saved userId events b :
  well_behaved saved b -> userId <> "" ->
  ToneIndicator.getRecentUserMessages (Some userId)
    (ToneIndicator.plugin (ToneIndicator.session events b))
  = lastn ToneIndicator.maxUserMessages
      (ToneIndicator.getRecentUserMessages (Some userId) (ToneIndicator.plugin b)
       ++ said_by userId (calls_of events b)).
Proof.
  intros Hb Hu. revert b Hb. unfold ToneIndicator.session.
  induction events as [|event rest IH]; intros b Hb; cbn [fold_left calls_of].
  - unfold said_by. simpl. rewrite app_nil_r. symmetry. apply lastn_all.
    apply (proj1 Hb).
  - rewrite (IH _ (well_behaved_turn saved event b Hb)).
    rewrite (getRecentUserMessages_userMessages _ _ _ (turn_userMessages event b)).
    rewrite after_calls_recent by (exact Hu || apply (proj1 Hb)).
    rewrite lastn_app, said_by_app. now rewrite app_assoc.
Qed.

(** X22: a new message with a content is registered, and then
    classified whatever the server answered.  For a MESSAGE_CREATE whose
    message has a non-empty content and an id not processed yet, at any
    moment of a session: the event itself is posted to the server and the
    id is marked as processed.  When that request gets a response,
    whatever its status and whatever happened in between, the recent
    messages of the author at that moment are sent to the classifier:
    none when the author has no id; otherwise the last ten of the
    author's messages up to this one followed by those that were added
    while the request was pending, so that the list ends with this
    message when the response is the next event.  When the request fails
    on the network at once, nothing more is sent, one error is logged,
    and since the id stays processed the same event arriving again is
    ignored. *)
Theorem X22_new_message_is_classified_whatever_the_server_answers :
  forall (saved : list (ToneIndicator.key * ToneIndicator.Tone))
         (events : list ToneIndicator.Event)
         (message : Envelope) (messageData : MessageJson) (content : string),
    let b := ToneIndicator.session events (ToneIndicator.opened saved) in
    body_message message = Some messageData ->
    message_content messageData = Some content ->
    content <> "" ->
    ~ In (message_id messageData) (ToneIndicator.processedMessages (ToneIndicator.plugin b)) ->
    let messageId := message_id messageData in
    let authorId := ToneIndicator.authorId_of messageData in
    let n := length (ToneIndicator.awaiting b) in
    let b1 := ToneIndicator.turn (ToneIndicator.MESSAGE_CREATE message) b in
    ToneIndicator.fetched b1 = ToneIndicator.fetched b ++ [ToneIndicator.PostMessages message]
    /\ nth_error (ToneIndicator.awaiting b1) n
       = Some (ToneIndicator.Registering messageId authorId)
    /\ In messageId (ToneIndicator.processedMessages (ToneIndicator.plugin b1))
    /\ (forall between position ok data,
          let pending := ToneIndicator.session between b1 in
          nth_error (ToneIndicator.awaiting pending) position
          = Some (ToneIndicator.Registering messageId authorId) ->
          let b2 := ToneIndicator.turn
                      (ToneIndicator.Settled position (ToneIndicator.Response ok data))
                      pending in
          exists text,
            ToneIndicator.fetched b2
            = ToneIndicator.fetched pending ++ [ToneIndicator.PostClassifier text]
            /\ (truthy_str authorId = false -> text = [])
            /\ (forall userId, authorId = Some userId -> userId <> "" ->
                  exists earlier,
                    ToneIndicator.getRecentUserMessages authorId (ToneIndicator.plugin b1)
                    = earlier ++ [content]
                    /\ text = lastn ToneIndicator.maxUserMessages
                                (earlier ++ content
                                 :: said_by userId (calls_of between b1))
                    /\ (between = [] -> text = earlier ++ [content])))
    /\ (let b2 := ToneIndicator.turn
                    (ToneIndicator.Settled n ToneIndicator.NetworkError) b1 in
        ToneIndicator.fetched b2 = ToneIndicator.fetched b1
        /\ ToneIndicator.awaiting b2 = ToneIndicator.awaiting b
        /\ ToneIndicator.errors b2
           = ToneIndicator.errors b ++ ["[ToneIndicator] Error processing message:"]
        /\ ToneIndicator.turn (ToneIndicator.MESSAGE_CREATE message) b2 = b2).
Proof.
  intros saved events message messageData content b Hm Hc Hne Hnew messageId authorId n b1.
  assert (Hb1 : b1 = ToneIndicator.fetch (ToneIndicator.PostMessages message)
                       (ToneIndicator.Registering messageId authorId)
                       (ToneIndicator.addUserMessage authorId content
                          (ToneIndicator.mark_processed messageId (ToneIndicator.plugin b)))
                       b).
  { subst b1. unfold ToneIndicator.turn, ToneIndicator.handleNewMessage.
    rewrite Hm, Hc. simpl truthy_str.
    replace (String.eqb content "") with false by (symmetry; now apply String.eqb_neq).
    cbn [negb]. cbv zeta.
    now rewrite (proj2 (Set_has_not_In _ _) Hnew). }
  assert (Hp : In messageId (ToneIndicator.processedMessages (ToneIndicator.plugin b1))).
  { rewrite Hb1. cbn [ToneIndicator.fetch ToneIndicator.plugin].
    rewrite (proj1 (addUserMessage_keeps _ _ _)).
    cbn [ToneIndicator.mark_processed ToneIndicator.processedMessages].
    rewrite Set_add_new by (now apply Set_has_not_In).
    apply in_or_app. right. now left. }
  assert (Hn : nth_error (ToneIndicator.awaiting b1) n
               = Some (ToneIndicator.Registering messageId authorId)).
  { rewrite Hb1. apply nth_error_snoc. }
  assert (Hwb : well_behaved saved b1).
  { apply well_behaved_turn. subst b. apply well_behaved_session, well_behaved_opened. }
  split; [now rewrite Hb1|]. split; [exact Hn|]. split; [exact Hp|]. split.
  - intros between position ok data pending Hpos b2. subst b2.
    unfold ToneIndicator.turn. rewrite Hpos.
    cbn [ToneIndicator.resume ToneIndicator.registered].
    eexists. split; [reflexivity|].
    cbn [ToneIndicator.no_longer_awaiting ToneIndicator.plugin]. split.
    + intros Ha. subst pending. rewrite session_keeps_falsy by exact Ha.
      rewrite Hb1. cbn [ToneIndicator.fetch ToneIndicator.plugin].
      rewrite addUserMessage_falsy by exact Ha.
      change (ToneIndicator.getRecentUserMessages authorId
                (ToneIndicator.mark_processed messageId (ToneIndicator.plugin b)))
        with (ToneIndicator.getRecentUserMessages authorId (ToneIndicator.plugin b)).
      subst b. now rewrite session_keeps_falsy.
    + intros userId Ha Hu.
      assert (Ht : truthy_str authorId = true).
      { rewrite Ha. simpl. apply Bool.negb_true_iff. now apply String.eqb_neq. }
      destruct (addUserMessage_last authorId content
                  (ToneIndicator.mark_processed messageId (ToneIndicator.plugin b)) Ht Hne)
        as (earlier & He).
      assert (He1 : ToneIndicator.getRecentUserMessages authorId (ToneIndicator.plugin b1)
                    = earlier ++ [content]).
      { rewrite Hb1. exact He. }
      exists earlier. split; [exact He1|].
      assert (Htext : ToneIndicator.getRecentUserMessages authorId
                        (ToneIndicator.plugin pending)
                      = lastn ToneIndicator.maxUserMessages
                          (earlier ++ content :: said_by userId (calls_of between b1))).
      { subst pending. rewrite Ha in *.
        rewrite (session_recent saved userId between b1 Hwb Hu), He1.
        now rewrite <- app_assoc. }
      split; [exact Htext|].
      intros ->. subst pending. cbn [ToneIndicator.session fold_left]. exact He1.
  - cbv zeta.
    set (b2 := ToneIndicator.turn (ToneIndicator.Settled n ToneIndicator.NetworkError) b1).
    assert (Hb2 : b2 = ToneIndicator.console_error
                         "[ToneIndicator] Error processing message:"
                         (ToneIndicator.no_longer_awaiting n b1)).
    { subst b2. unfold ToneIndicator.turn. now rewrite Hn. }
    split; [now rewrite Hb2|].
    split; [rewrite Hb2, Hb1; apply without_snoc|].
    split; [now rewrite Hb2, Hb1|].
    assert (Hp2 : In (message_id messageData)
                    (ToneIndicator.processedMessages (ToneIndicator.plugin b2)))
      by (rewrite Hb2; exact Hp).
    unfold ToneIndicator.turn, ToneIndicator.handleNewMessage.
    rewrite Hm, Hc. simpl truthy_str.
    replace (String.eqb content "") with false by (symmetry; now apply String.eqb_neq).
    cbn [negb]. cbv zeta.
    now rewrite (proj2 (Set_has_In _ _) Hp2).
Qed.

(** ** The plugin: the classification of a message *)

(** X23: a tone is set exactly when the classifier's reply carries a
    classification.  When the task classifying a message resumes: if the
    response is [ok], its body parses, has a first element and that
    element has a score, the message gets the tone made of the label, the
    score with two decimals and the text "label (score)", the tones of the
    other messages are untouched, and the message is no longer among the
    unprocessed ones of any page; for every other reply (network error,
    status not ok, body that does not parse or is empty, no score) the
    tones are left as they were.  In both cases nothing more is
    requested. *)
Theorem X23_tone_is_set_exactly_on_a_classification :
  forall (b : ToneIndicator.Browser) (n : nat) (messageId : ToneIndicator.key)
         (existing : bool) (reply : ToneIndicator.Reply),
    nth_error (ToneIndicator.awaiting b) n = Some (ToneIndicator.Classifying messageId existing) ->
    let b' := ToneIndicator.turn (ToneIndicator.Settled n reply) b in
    let tones := ToneIndicator.messageTones (ToneIndicator.plugin b) in
    let tones' := ToneIndicator.messageTones (ToneIndicator.plugin b') in
    (classifies reply = false -> tones' = tones)
    /\ (forall first fixed,
          reply = ToneIndicator.Response true (Resolved (Some first)) ->
          ToneIndicator.score first = Resolved fixed ->
          ToneIndicator.Map_get messageId tones'
          = Some {| ToneIndicator.tone_type := ToneIndicator.label first;
                    ToneIndicator.tone_score := fixed;
                    ToneIndicator.tone_display :=
                      ToneIndicator.display_of (ToneIndicator.label first) fixed |}
          /\ (forall other, other <> messageId ->
                ToneIndicator.Map_get other tones' = ToneIndicator.Map_get other tones)
          /\ forall visible,
               Forall (fun element =>
                         Some (ToneIndicator.rendered_id element) <> messageId)
                 (ToneIndicator.unprocessedMessageElements visible
                    (ToneIndicator.plugin b')))
    /\ ToneIndicator.fetched b' = ToneIndicator.fetched b
    /\ ToneIndicator.processedMessages (ToneIndicator.plugin b')
       = ToneIndicator.processedMessages (ToneIndicator.plugin b).
Proof.
  intros b n messageId existing reply Hn b' tones tones'.
  assert (Hb' : b' = ToneIndicator.classified messageId existing reply
                       (ToneIndicator.no_longer_awaiting n b)).
  { subst b'. unfold ToneIndicator.turn. now rewrite Hn. }
  subst tones'. rewrite Hb'. clear Hb' b'.
  split; [|split; [|split]].
  - intros Hno. destruct reply as [|[|] [[first|]|e]]; simpl; try reflexivity;
      try (destruct existing; reflexivity).
    simpl in Hno. destruct (ToneIndicator.score first); [discriminate | reflexivity].
  - intros first fixed -> Hs. unfold ToneIndicator.classified. rewrite Hs.
    cbn [ToneIndicator.with_plugin ToneIndicator.plugin ToneIndicator.set_tone
      ToneIndicator.messageTones ToneIndicator.no_longer_awaiting].
    split; [apply Map_get_set_same|]. split.
    + intros other Ho. apply Map_get_set_other.
      destruct (ToneIndicator.same_key other messageId) eqn:E; [|reflexivity].
      apply same_key_eq in E. contradiction.
    + intros visible. unfold ToneIndicator.unprocessedMessageElements.
      apply Forall_forall. intros element Hin Heq.
      apply filter_In in Hin. destruct Hin as [_ Hin].
      apply Bool.andb_true_iff in Hin. destruct Hin as [_ Hin].
      cbn [ToneIndicator.with_plugin ToneIndicator.plugin ToneIndicator.set_tone
        ToneIndicator.messageTones ToneIndicator.no_longer_awaiting] in Hin.
      rewrite Map_has_set, Heq, same_key_refl in Hin. discriminate.
  - destruct reply as [|[|] [[first|]|e]]; simpl; try reflexivity;
      try (destruct existing; reflexivity).
    destruct (ToneIndicator.score first); reflexivity.
  - destruct reply as [|[|] [[first|]|e]]; simpl; try reflexivity;
      try (destruct existing; reflexivity).
    destruct (ToneIndicator.score first); reflexivity.
Qed.

(** ** The plugin: the batches of processCurrentChannelMessages *)

Lemma batches_from_chunks A (fuel i : nat) (toProcess : list A) :
  ToneIndicator.batches_from fuel i toProcess = chunks fuel (skipn i toProcess).
Proof.
  revert i. induction fuel as [|fuel IH]; intros i; [reflexivity|].
  cbn [ToneIndicator.batches_from chunks].
  destruct (Nat.ltb_spec i (length toProcess)) as [Hlt|Hge].
  - destruct (skipn i toProcess) as [|x rest] eqn:E.
    + exfalso. assert (H : length (skipn i toProcess) = 0) by now rewrite E.
      rewrite length_skipn in H. lia.
    + rewrite <- E. rewrite IH. unfold ToneIndicator.Array_slice.
      replace (i + ToneIndicator.messagesToProcessPerBatch - i)
        with ToneIndicator.messagesToProcessPerBatch by lia.
      rewrite skipn_skipn, length_skipn.
      replace (ToneIndicator.messagesToProcessPerBatch + i)
        with (i + ToneIndicator.messagesToProcessPerBatch) by lia.
      f_equal. f_equal.
      destruct (Nat.ltb_spec (i + ToneIndicator.messagesToProcessPerBatch)
                  (length toProcess));
        destruct (Nat.ltb_spec ToneIndicator.messagesToProcessPerBatch
                    (length toProcess - i)); try reflexivity; lia.
  - now rewrite skipn_all2 by lia.
Qed.

Lemma chunks_properties A (fuel : nat) (remaining : list A) :
  length remaining <= fuel ->
  let turns := chunks fuel remaining in
  concat (map fst turns) = remaining
  /\ Forall (fun batch => 1 <= length batch <= ToneIndicator.messagesToProcessPerBatch)
       (map fst turns)
  /\ length turns <= length remaining
  /\ length remaining <= ToneIndicator.messagesToProcessPerBatch * length turns
  /\ ToneIndicator.messagesToProcessPerBatch * (length turns - 1) < length remaining + 1
  /\ map snd turns = repeat true (length turns - 1) ++ repeat false (Nat.min 1 (length turns))
  /\ forall more, chunks (fuel + more) remaining = turns.
Proof.
  revert remaining. induction fuel as [|fuel IH]; intros remaining Hlen; cbv zeta.
  - destruct remaining; [|simpl in Hlen; lia]. simpl. repeat split; try constructor; try lia.
    intros more. destruct more; reflexivity.
  - destruct remaining as [|x rest]; [simpl; repeat split; try constructor; lia|].
    cbn [chunks Nat.add].
    assert (Hpos : 1 <= length (x :: rest)) by (simpl; lia).
    remember (x :: rest) as remaining eqn:Erem. clear Erem x rest.
    assert (Hrest : length (skipn ToneIndicator.messagesToProcessPerBatch remaining) <= fuel).
    { rewrite length_skipn. unfold ToneIndicator.messagesToProcessPerBatch. lia. }
    specialize (IH _ Hrest). cbv zeta in IH.
    destruct IH as (Ic & If & In' & Iu & Il & Id & Im).
    set (turns := chunks fuel (skipn ToneIndicator.messagesToProcessPerBatch remaining)) in *.
    assert (Hskip : length (skipn ToneIndicator.messagesToProcessPerBatch remaining)
                    = length remaining - ToneIndicator.messagesToProcessPerBatch)
      by apply length_skipn.
    assert (Hfirst : length (firstn ToneIndicator.messagesToProcessPerBatch remaining)
                     = Nat.min ToneIndicator.messagesToProcessPerBatch (length remaining))
      by apply length_firstn.
    unfold ToneIndicator.messagesToProcessPerBatch in *. clearbody turns.
    cbn [map fst snd concat length].
    split; [rewrite Ic; apply firstn_skipn|].
    split; [constructor; [lia | exact If]|].
    split; [lia|]. split; [lia|]. split; [lia|]. split.
    + rewrite Id. replace (S (length turns) - 1) with (length turns) by lia.
      destruct (Nat.ltb_spec 5 (length remaining)) as [Hlt|Hge].
      * destruct turns as [|t turns']; [cbn [length] in Iu; lia|].
        simpl. now rewrite Nat.sub_0_r.
      * destruct turns as [|t turns']; [reflexivity|]. cbn [length] in In'. lia.
    + intros more. now rewrite Im.
Qed.

Lemma chunks_nth A (fuel : nat) (remaining : list A) (i : nat) (batch : list A) :
  nth_error (map fst (chunks fuel remaining)) i = Some batch ->
  batch = firstn ToneIndicator.messagesToProcessPerBatch
            (skipn (ToneIndicator.messagesToProcessPerBatch * i) remaining).
Proof.
  revert remaining i. induction fuel as [|fuel IH]; intros remaining i H.
  - destruct i; discriminate H.
  - cbn [chunks] in H. destruct remaining as [|x rest]; [destruct i; discriminate H|].
    remember (x :: rest) as l eqn:El. clear El x rest.
    destruct i as [|i]; cbn [map fst nth_error] in H.
    + injection H as <-. now rewrite Nat.mul_0_r.
    + apply IH in H. rewrite skipn_skipn in H. rewrite H. do 2 f_equal.
      unfold ToneIndicator.messagesToProcessPerBatch. lia.
Qed.

Lemma chunks_full A (fuel : nat) (remaining : list A) :
  Forall (fun batch => length batch = ToneIndicator.messagesToProcessPerBatch)
    (removelast (map fst (chunks fuel remaining))).
Proof.
  revert remaining. induction fuel as [|fuel IH]; intros remaining; [constructor|].
  cbn [chunks]. destruct remaining as [|x rest]; [constructor|].
  remember (x :: rest) as l eqn:El. clear El x rest.
  cbn [map fst].
  specialize (IH (skipn ToneIndicator.messagesToProcessPerBatch l)).
  destruct (chunks fuel (skipn ToneIndicator.messagesToProcessPerBatch l))
    as [|next turns] eqn:E; [constructor|].
  cbn [map removelast]. cbn [map] in IH. constructor; [|exact IH].
  rewrite length_firstn. apply Nat.min_l.
  destruct fuel as [|fuel']; [discriminate E|].
  cbn [chunks] in E.
  destruct (skipn ToneIndicator.messagesToProcessPerBatch l) as [|y more] eqn:Es;
    [discriminate E|].
  assert (Hl : length (skipn ToneIndicator.messagesToProcessPerBatch l) = S (length more))
    by now rewrite Es.
  rewrite length_skipn in Hl. lia.
Qed.

(** X24: the loop of [processCurrentChannelMessages] goes once through
    the messages to process, five at a time.  The batches it takes, put
    end to end, are the list itself, in its order: the batch of turn [i]
    is the five messages from position [5 * i] on, or those that are left.
    Every batch has between one and five messages and every batch but the
    last has exactly five; a delay follows every batch but the last; and
    the loop ends, after as many turns as there are batches, whatever more
    turns it is allowed. *)
Theorem X24_batches_cover_the_messages_five_at_a_time :
  forall (A : Type) (toProcess : list A),
    let turns := ToneIndicator.batches toProcess in
    concat (map fst turns) = toProcess
    /\ (forall i batch, nth_error (map fst turns) i = Some batch ->
          batch = firstn 5 (skipn (5 * i) toProcess))
    /\ Forall (fun batch => 1 <= length batch <= 5) (map fst turns)
    /\ Forall (fun batch => length batch = 5) (removelast (map fst turns))
    /\ length toProcess <= 5 * length turns
    /\ 5 * (length turns - 1) < length toProcess + 1
    /\ map snd turns = repeat true (length turns - 1) ++ repeat false (Nat.min 1 (length turns))
    /\ forall more,
         ToneIndicator.batches_from (length toProcess + more) 0 toProcess = turns.
Proof.
  intros A toProcess turns. subst turns. unfold ToneIndicator.batches.
  rewrite batches_from_chunks. simpl skipn.
  destruct (chunks_properties A (length toProcess) toProcess (le_n _))
    as (Hc & Hf & _ & Hu & Hl & Hd & Hm).
  split; [exact Hc|]. split; [intros i batch; apply chunks_nth|].
  split; [exact Hf|]. split; [apply chunks_full|].
  repeat split; try assumption.
  intros more. rewrite batches_from_chunks. simpl skipn. apply Hm.
Qed.

(** ** The plugin: the messages a run processes *)

Lemma StronglySorted_app_inv A (R : A -> A -> Prop) (l1 l2 : list A) :
  StronglySorted R (l1 ++ l2) -> forall a b, In a l1 -> In b l2 -> R a b.
Proof.
  induction l1 as [|x rest IH]; simpl; intros Hs a b Ha Hb; [contradiction|].
  apply StronglySorted_inv in Hs. destruct Hs as [Hs Hx].
  destruct Ha as [<-|Ha].
  - apply (proj1 (Forall_forall _ _) Hx). apply in_or_app. now right.
  - now apply IH.
Qed.

Lemma top_first_sorted (l : list ToneIndicator.Rendered) :
  ordered top_first
    (Array_sort (fun a b => Some (ToneIndicator.rendered_top a - ToneIndicator.rendered_top b)%Z)
       l).
Proof.
  unfold Array_sort.
  assert (H : ordered (fun a b =>
                         (ToneIndicator.rendered_top a - ToneIndicator.rendered_top b <=? 0)%Z)
                (sort_by (fun a b =>
                   (ToneIndicator.rendered_top a - ToneIndicator.rendered_top b <=? 0)%Z) l)).
  { apply sort_by_ordered. intros a b.
    destruct (Z.leb_spec (ToneIndicator.rendered_top a - ToneIndicator.rendered_top b) 0);
      [now left|].
    right. apply Z.leb_le. lia. }
  unfold ordered in *. eapply Sorted_ind with (P := fun l => Sorted _ l); [| |exact H].
  - constructor.
  - intros a l' _ IH Hd. constructor; [exact IH|].
    destruct Hd as [|b l'' Hab]; constructor.
    unfold top_first. apply Z.leb_le. apply Z.leb_le in Hab. lia.
Qed.

(** X25: a run of [processCurrentChannelMessages] processes the fifty
    topmost of the visible messages that are neither processed nor
    classified.  The messages it takes are at most 50, in the order of the
    page from the top; each of them is a visible message that is not in
    [processedMessages] and has no tone; and together with the ones it
    leaves for a later run they are exactly the visible messages of that
    kind, none of those left being higher on the page than one that is
    taken.  With 50 of them or fewer, none is left. *)
Theorem X25_a_run_takes_the_fifty_topmost_unprocessed_messages :
  forall (visible : list ToneIndicator.Rendered) (this : ToneIndicator.State),
    let toProcess := ToneIndicator.messagesToProcess visible this in
    let unprocessed := ToneIndicator.unprocessedMessageElements visible this in
    length toProcess <= 50
    /\ ordered top_first toProcess
    /\ (forall element, In element toProcess ->
          In element visible
          /\ ~ In (Some (ToneIndicator.rendered_id element))
                 (ToneIndicator.processedMessages this)
          /\ ToneIndicator.Map_get (Some (ToneIndicator.rendered_id element))
               (ToneIndicator.messageTones this) = None)
    /\ exists later,
         Permutation (toProcess ++ later) unprocessed
         /\ (forall taken left, In taken toProcess -> In left later ->
               (ToneIndicator.rendered_top taken <= ToneIndicator.rendered_top left)%Z)
         /\ (length unprocessed <= 50 -> later = []).
Proof.
  intros visible this toProcess unprocessed.
  set (sorted := Array_sort
                   (fun a b => Some (ToneIndicator.rendered_top a
                                     - ToneIndicator.rendered_top b)%Z) unprocessed).
  assert (Htake : toProcess = firstn 50 sorted).
  { subst toProcess. unfold ToneIndicator.messagesToProcess, ToneIndicator.Array_slice.
    reflexivity. }
  assert (Hperm : Permutation sorted unprocessed) by apply Array_sort_permutation.
  assert (Hsorted : ordered top_first sorted) by apply top_first_sorted.
  rewrite Htake. split; [apply firstn_le_length|].
  split; [now apply firstn_ordered|]. split.
  - intros element Hin. apply In_firstn in Hin.
    apply (Permutation_in _ Hperm) in Hin. subst unprocessed.
    unfold ToneIndicator.unprocessedMessageElements in Hin.
    apply filter_In in Hin. destruct Hin as [Hv Hp].
    apply Bool.andb_true_iff in Hp. destruct Hp as [Hp Ht].
    apply Bool.negb_true_iff in Hp, Ht.
    split; [exact Hv|]. split; [now apply Set_has_not_In|].
    unfold ToneIndicator.Map_has in Ht.
    destruct (ToneIndicator.Map_get _ _); [discriminate | reflexivity].
  - exists (skipn 50 sorted). rewrite firstn_skipn. split; [exact Hperm|]. split.
    + intros taken left Ht Hl.
      assert (Hss : StronglySorted (fun a b => top_first a b = true) sorted).
      { apply Sorted_StronglySorted; [|exact Hsorted].
        intros a b c Hab Hbc. unfold top_first in *.
        apply Z.leb_le. apply Z.leb_le in Hab, Hbc. lia. }
      rewrite <- (firstn_skipn 50 sorted) in Hss.
      apply Z.leb_le. exact (StronglySorted_app_inv _ _ _ _ Hss taken left Ht Hl).
    + intros Hlen. apply skipn_all2. rewrite (Permutation_length Hperm). exact Hlen.
Qed.

(** ** The plugin: a message already on the page *)

(** X26: a message found on the page is handled once, and never
    registered.  For a message id not processed yet, at any moment of a
    session, a call of [processExistingMessage] marks the id as processed
    whatever the document shows, so that a second call, or a
    MESSAGE_CREATE for the same id arriving later, does nothing at all.
    The classifier is asked only when the document shows a content element
    and an author id, with the recent messages of that author, which end
    with the text of the message unless it is empty; and no request is
    ever sent to POST /messages for such a message. *)
Theorem X26_existing_message_is_handled_once_and_never_registered :
  forall (saved : list (ToneIndicator.key * ToneIndicator.Tone))
         (events : list ToneIndicator.Event)
         (messageId : string) (found : option ToneIndicator.Element),
    let b := ToneIndicator.session events (ToneIndicator.opened saved) in
    ~ In (Some messageId) (ToneIndicator.processedMessages (ToneIndicator.plugin b)) ->
    let b1 := ToneIndicator.turn (ToneIndicator.Existing messageId found) b in
    In (Some messageId) (ToneIndicator.processedMessages (ToneIndicator.plugin b1))
    /\ (forall again, ToneIndicator.turn (ToneIndicator.Existing messageId again) b1 = b1)
    /\ (forall message messageData,
          body_message message = Some messageData ->
          message_id messageData = Some messageId ->
          ToneIndicator.turn (ToneIndicator.MESSAGE_CREATE message) b1 = b1)
    /\ registrations (ToneIndicator.fetched b1) = registrations (ToneIndicator.fetched b)
    /\ match classifiable found with
       | Some (content, authorId) =>
           exists text,
             ToneIndicator.fetched b1
             = ToneIndicator.fetched b ++ [ToneIndicator.PostClassifier text]
             /\ ToneIndicator.awaiting b1
                = ToneIndicator.awaiting b
                  ++ [ToneIndicator.Classifying (Some messageId) true]
             /\ (content <> "" -> exists earlier, text = earlier ++ [content])
             /\ (content = "" ->
                 text = ToneIndicator.getRecentUserMessages (Some authorId)
                          (ToneIndicator.plugin b))
       | None =>
           ToneIndicator.fetched b1 = ToneIndicator.fetched b
           /\ ToneIndicator.awaiting b1 = ToneIndicator.awaiting b
       end.
Proof.
  intros saved events messageId found b Hnew b1.
  pose proof (proj2 (Set_has_not_In _ _) Hnew) as Hhas.
  assert (Hp : In (Some messageId)
                 (ToneIndicator.processedMessages (ToneIndicator.plugin b1))).
  { subst b1. unfold ToneIndicator.turn, ToneIndicator.processExistingMessage.
    rewrite Hhas. cbv zeta.
    assert (Hm : In (Some messageId)
                   (ToneIndicator.processedMessages
                      (ToneIndicator.mark_processed (Some messageId)
                         (ToneIndicator.plugin b)))).
    { cbn [ToneIndicator.mark_processed ToneIndicator.processedMessages].
      rewrite Set_add_new by exact Hhas. apply in_or_app. right. now left. }
    destruct found as [messageElement|]; [|exact Hm].
    destruct (ToneIndicator.textContent messageElement) as [content|]; [|exact Hm].
    destruct (negb (truthy_str _)); [exact Hm|].
    cbn [ToneIndicator.fetch ToneIndicator.plugin].
    now rewrite (proj1 (addUserMessage_keeps _ _ _)). }
  pose proof (proj2 (Set_has_In _ _) Hp) as Hhas1.
  split; [exact Hp|]. split.
  { intros again. unfold ToneIndicator.turn at 1, ToneIndicator.processExistingMessage.
    now rewrite Hhas1. }
  split.
  { intros message messageData Hm Hid.
    unfold ToneIndicator.turn at 1, ToneIndicator.handleNewMessage. rewrite Hm.
    destruct (message_content messageData) as [content|]; [|reflexivity].
    destruct (negb (truthy_str (Some content))); [reflexivity|].
    cbv zeta. now rewrite Hid, Hhas1. }
  subst b1. unfold ToneIndicator.turn, ToneIndicator.processExistingMessage, classifiable.
  rewrite Hhas. cbv zeta.
  destruct found as [messageElement|]; [|now repeat split].
  destruct (ToneIndicator.textContent messageElement) as [content|]; [|now repeat split].
  destruct (ToneIndicator.data_author_id messageElement) as [authorId|];
    [|now repeat split].
  destruct (truthy_str (Some authorId)) eqn:Ha; cbn [negb]; [|now repeat split].
  cbn [ToneIndicator.fetch ToneIndicator.fetched ToneIndicator.awaiting].
  split.
  { rewrite registrations_app. simpl. apply app_nil_r. }
  eexists. split; [reflexivity|]. split; [reflexivity|]. split.
  - intros Hc. now apply addUserMessage_last.
  - intros ->. unfold ToneIndicator.addUserMessage. rewrite Ha. reflexivity.
Qed.

(** ** The plugin and the server together *)

Lemma insert_or_replace_new A (key : A -> option string) (r : A) (t : list A) :
  ~ In (key r) (map key t) -> Sql.insert_or_replace key r t = t ++ [r].
Proof.
  intros Hnew. unfold Sql.insert_or_replace. f_equal.
  induction t as [|x rest IH]; simpl; [reflexivity|].
  destruct (Sql.eq (key x) (key r)) eqn:E; simpl.
  - exfalso. apply Hnew. left. unfold Sql.eq in E.
    destruct (key x) as [a|]; [|discriminate]. destruct (key r) as [c|]; [|discriminate].
    apply String.eqb_eq in E. now subst.
  - f_equal. apply IH. intros H. apply Hnew. now right.
Qed.

Section Together.

Variable JSON_stringify : json -> string.

Lemma deliver_cons env call rest d :
  deliver JSON_stringify env (call :: rest) d
  = deliver JSON_stringify env rest
      match call with
      | ToneIndicator.PostMessages message =>
          st_db (snd (run (post_messages JSON_stringify message) env d))
      | ToneIndicator.PostClassifier text =>
          st_db (snd (run (post_classifier text) env d))
      end.
Proof. reflexivity. Qed.

(** The message ids of the table after the requests of the plugin were
    served, every statement succeeding. *)
Lemma deliver_registrations env calls d :
  (forall n, db_fault env n = None) ->
  Forall (fun messageId => truthy_str messageId = true) (registrations calls) ->
  NoDup (map messages_id (messages d) ++ registrations calls) ->
  map messages_id (messages (deliver JSON_stringify env calls d))
  = map messages_id (messages d) ++ registrations calls.
Proof.
  intros Hf. revert d. induction calls as [|call rest IH]; intros d Ht Hn.
  - simpl. now rewrite app_nil_r.
  - rewrite deliver_cons.
    change (call :: rest) with ([call] ++ rest) in Ht, Hn |- *.
    rewrite registrations_app in Ht, Hn |- *.
    apply Forall_app in Ht. destruct Ht as [Ht1 Ht2]. rewrite app_assoc in Hn.
    destruct call as [message|text].
    + destruct (body_message message) as [messageData|] eqn:Hm.
      * assert (Hreg : registrations [ToneIndicator.PostMessages message]
                       = [message_id messageData]).
        { unfold registrations. simpl. now rewrite Hm. }
        rewrite Hreg in Ht1, Hn |- *.
        assert (Hid : truthy_str (message_id messageData) = true) by now inversion Ht1.
        destruct (post_messages_tables JSON_stringify message messageData env d Hm Hid
                    (Hf _)) as (Tm & _).
        cbv zeta in Tm.
        assert (Hnew : ~ In (message_id messageData) (map messages_id (messages d))).
        { apply NoDup_app_remove_r in Hn. apply NoDup_remove_2 in Hn.
          intros H. apply Hn. rewrite app_nil_r. exact H. }
        rewrite insert_or_replace_new in Tm by exact Hnew.
        rewrite IH; [| exact Ht2 | now rewrite Tm, map_app].
        rewrite Tm, map_app, <- app_assoc. reflexivity.
      * assert (Hreg : registrations [ToneIndicator.PostMessages message] = []).
        { unfold registrations. simpl. now rewrite Hm. }
        rewrite Hreg in Hn |- *. rewrite app_nil_r in Hn.
        assert (Hsame : st_db (snd (run (post_messages JSON_stringify message) env d)) = d).
        { unfold run, post_messages. now rewrite Hm. }
        rewrite Hsame. simpl. now apply IH.
    + assert (Hsame : st_db (snd (run (post_classifier text) env d)) = d).
      { unfold run, post_classifier, axios, bind, record_call, ask, ret. simpl.
        destruct (axios_post env _ _); reflexivity. }
      rewrite Hsame. simpl in Hn |- *. rewrite app_nil_r in Hn. now apply IH.
Qed.

End Together.

(** X27: what the plugin registers is what the server stores.  Take any
    session of the plugin in which every registered message has an id,
    deliver the requests it sent to a server with an empty database, in
    any order, every statement succeeding: the messages table then holds
    exactly one row for each message the plugin registered, in the order
    of delivery; the classification requests leave no row. *)
Theorem X27_the_server_stores_one_row_per_registered_message :
  forall (JSON_stringify : json -> string)
         (saved : list (ToneIndicator.key * ToneIndicator.Tone))
         (events : list ToneIndicator.Event) (env : Env)
         (delivered : list ToneIndicator.Fetch),
    let b := ToneIndicator.session events (ToneIndicator.opened saved) in
    (forall n, db_fault env n = None) ->
    Forall (fun messageId => truthy_str messageId = true)
      (registrations (ToneIndicator.fetched b)) ->
    Permutation delivered (ToneIndicator.fetched b) ->
    let d := deliver JSON_stringify env delivered empty_db in
    map messages_id (messages d) = registrations delivered
    /\ NoDup (map messages_id (messages d))
    /\ Permutation (map messages_id (messages d)) (registrations (ToneIndicator.fetched b)).
Proof.
  intros JSON_stringify saved events env delivered b Hf Ht Hperm d.
  pose proof (well_behaved_session saved events _ (well_behaved_opened saved))
    as (_ & _ & _ & Hnd & _).
  fold b in Hnd.
  assert (Hpr : Permutation (registrations delivered) (registrations (ToneIndicator.fetched b))).
  { unfold registrations. now apply Permutation_flat_map. }
  assert (Hnd' : NoDup (registrations delivered)).
  { eapply Permutation_NoDup; [apply Permutation_sym; exact Hpr | exact Hnd]. }
  assert (Ht' : Forall (fun messageId => truthy_str messageId = true)
                  (registrations delivered)).
  { eapply Permutation_Forall; [apply Permutation_sym; exact Hpr | exact Ht]. }
  assert (H : map messages_id (messages d) = registrations delivered).
  { subst d. rewrite (deliver_registrations JSON_stringify env delivered empty_db Hf Ht');
      [reflexivity | exact Hnd']. }
  split; [exact H|]. rewrite H. split; [exact Hnd' | exact Hpr].
Qed.

(** ** Worked examples

    The theorems at concrete requests, with the example runtime. *)

(** Witness of C1: "m1", with an attachment, an embed, a button and a
    mention, is ingested at ten and again, edited, five minutes later: one
    row with the second content, and in each of the four tables the row of
    the first ingestion followed by the row of the second. *)
Lemma C1_reingestion_witness :
  let first := sample_envelope "c1" (Some (illustrated "hello")) in
  let second := sample_envelope "c1" (Some (illustrated "hello, world")) in
  let d1 := st_db (snd (run (post_messages stringify_example first) ten_o_clock empty_db)) in
  let d2 := st_db (snd (run (post_messages stringify_example second) five_past_ten d1)) in
  map messages_content (messages d2) = [Some "hello, world"]
  /\ children_added stringify_example (illustrated "hello") ten_o_clock empty_db d1
  /\ children_added stringify_example (illustrated "hello, world") five_past_ten d1 d2
  /\ (length (attachments d1), length (embeds d1), length (components d1),
      length (mentions d1)) = (1, 1, 1, 1)
  /\ (length (attachments d2), length (embeds d2), length (components d2),
      length (mentions d2)) = (2, 2, 2, 2).
Proof.
  cbv zeta.
  destruct (C1_reingestion_replaces_row_and_keeps_children stringify_example
              (sample_envelope "c1" (Some (illustrated "hello")))
              (sample_envelope "c1" (Some (illustrated "hello, world")))
              (illustrated "hello") (illustrated "hello, world")
              "m1" ten_o_clock five_past_ten empty_db
              eq_refl eq_refl eq_refl eq_refl ltac:(discriminate) eq_refl eq_refl)
    as (_ & Hfirst & Hsecond).
  split; [vm_compute; reflexivity|].
  split; [exact Hfirst|]. split; [exact Hsecond|].
  split; vm_compute; reflexivity.
Defined.

(** Witness of C2: of the three messages at 12:00, 12:01 and 12:10, the
    context of the one at 12:01 is the two others, 12:00 first; "m9" is
    not found. *)
Lemma C2_context_witness :
  fst (run (getMessageContext "m9") ten_o_clock (three_messages stringify_example))
  = Rejected "Message not found"
  /\ exists context,
       fst (run (getMessageContext "m1") ten_o_clock (three_messages stringify_example))
       = Resolved context
       /\ m (message context) = row_at_noon "m1" "2025-01-01T12:01:00.000Z"
       /\ map m (context_messages context)
          = [row_at_noon "m0" "2025-01-01T12:00:00.000Z";
             row_at_noon "m2" "2025-01-01T12:10:00.000Z"]
       /\ context_message_count context = 2.
Proof.
  split.
  - apply (C2_context_is_first_20_others_in_timestamp_order "m9" ten_o_clock
             (three_messages stringify_example));
      try reflexivity.
    intros row Hin. vm_compute in Hin.
    destruct Hin as [<-|[<-|[<-|[]]]]; discriminate.
  - destruct (C2_context_is_first_20_others_in_timestamp_order "m1" ten_o_clock
                (three_messages stringify_example) eq_refl) as (_ & _ & H).
    apply (H (row_at_noon "m0" "2025-01-01T12:00:00.000Z")
             (row_at_noon "m1" "2025-01-01T12:01:00.000Z")
             (row_at_noon "m2" "2025-01-01T12:10:00.000Z")
             "m0" "m2" "c1"
             "2025-01-01T12:00:00.000Z" "2025-01-01T12:01:00.000Z"
             "2025-01-01T12:10:00.000Z");
      try reflexivity; try discriminate.
    + intros id. simpl. lia.
    + apply (Permutation_cons_append
               [row_at_noon "m0" "2025-01-01T12:00:00.000Z";
                row_at_noon "m1" "2025-01-01T12:01:00.000Z"]
               (row_at_noon "m2" "2025-01-01T12:10:00.000Z")).
Defined.

(** The window is not centred on the target: of the 22 messages from
    12:10 to 12:31, the context of the last one is the 20 earliest, and
    the message just before it is left out. *)
Example context_window_is_not_centred :
  match fst (run (getMessageContext (numbered 31)) ten_o_clock
               (many_messages stringify_example)) with
  | Resolved context =>
      map (fun row => messages_id (m row)) (context_messages context)
      = map (fun n => Some (numbered n)) (seq 10 20)
      /\ context_message_count context = 20
  | Rejected _ => False
  end.
Proof. vm_compute. split; reflexivity. Qed.

(** Witness of C3: an envelope without [message], and one whose message
    has no [id] but an author and an attachment. *)
Lemma C3_missing_id_witness :
  post_messages stringify_example (sample_envelope "c1" None) ten_o_clock (start empty_db)
  = (Some (status_response 400 (SuccessFalse "Message object must contain an id")),
     start empty_db)
  /\ post_messages stringify_example (sample_envelope "c1" (Some no_id)) ten_o_clock
       (start empty_db)
     = (Some (status_response 400 (SuccessFalse "Message object must contain an id")),
        start empty_db).
Proof.
  split.
  - apply (C3_missing_id_rejected_before_any_write stringify_example). simpl. exact I.
  - apply (C3_missing_id_rejected_before_any_write stringify_example). reflexivity.
Defined.

(** Witness of C4: a message with an author and three attachments; the
    author statement and the statement of the second attachment (the
    first and the fourth of the request) fail. *)
Lemma C4_child_failures_witness :
  let result := run (post_messages stringify_example (sample_envelope "c1" (Some three_files)))
                  busy empty_db in
  fst result = Some (json_response SuccessTrue)
  /\ st_clock (snd result) = statements_sent three_files
  /\ length (st_console (snd result)) = failures busy 0 (statements_sent three_files)
  /\ children_stored stringify_example three_files busy (message_statement three_files + 1)
       (st_db (snd result)).
Proof.
  exact (C4_child_failures_are_only_logged stringify_example
           (sample_envelope "c1" (Some three_files)) three_files busy empty_db
           eq_refl eq_refl (conj eq_refl (conj eq_refl (conj eq_refl eq_refl))) eq_refl).
Defined.

(** The same run, computed: five statements, two console lines, the
    first and the third attachment stored, no author. *)
Example child_failures_computed :
  let result := run (post_messages stringify_example (sample_envelope "c1" (Some three_files)))
                  busy empty_db in
  fst result = Some (json_response SuccessTrue)
  /\ st_clock (snd result) = 5
  /\ Permutation (map console_label (st_console (snd result)))
       ["Failed to insert/update author:"; "Failed to insert attachment:"]
  /\ Permutation (map attachments_attachment_id (attachments (st_db (snd result))))
       [Some "a1"; Some "a3"]
  /\ authors (st_db (snd result)) = [].
Proof. vm_compute. repeat split; apply Permutation_refl. Qed.

(** C4 as stated fails: the message whose second attachment is [null]
    passes validation and its message statement succeeds; the statement of
    its first attachment is sent, and fails; but the request is never
    answered, and nothing is sent for the third attachment or the embed:
    the callback of the message statement throws at the [null]. *)
Lemma C4_null_element_leaves_the_request_unanswered :
  let req := sample_envelope "c1" (Some with_null) in
  let env := faulty "2025-01-01 10:00:00" [1] in
  let result := run (post_messages stringify_example req) env empty_db in
  (body_message req = Some with_null
   /\ truthy_str (message_id with_null) = true
   /\ db_fault env (message_statement with_null) = None
   /\ failed env 1 = true
   /\ fst result = None
   /\ st_clock (snd result) = 2
   /\ attachments (st_db (snd result)) = []
   /\ embeds (st_db (snd result)) = [])
  /\ ~ (forall (req : Envelope) (message : MessageJson) (env : Env) (d : DB),
         body_message req = Some message ->
         truthy_str (message_id message) = true ->
         db_fault env (message_statement message) = None ->
         fst (run (post_messages stringify_example req) env d)
         = Some (json_response SuccessTrue)).
Proof.
  cbv zeta. split; [vm_compute; repeat split|].
  intros H.
  specialize (H (sample_envelope "c1" (Some with_null)) with_null
                (faulty "2025-01-01 10:00:00" [1]) empty_db eq_refl eq_refl eq_refl).
  vm_compute in H. discriminate H.
Qed.

(** Witness of C5: a message id the empty database does not hold. *)
Lemma C5_failed_assembly_witness :
  fst (run (getChatLog parse_example iso_example "m9") ten_o_clock empty_db) = []
  /\ fst (run (get_message_log parse_example iso_example "m9") ten_o_clock empty_db)
     = json_response (LogBody []).
Proof.
  apply (C5_failed_assembly_gives_empty_transcript parse_example iso_example
           "m9" ten_o_clock empty_db "Message not found").
  reflexivity.
Defined.

(** A message alone in its channel gets the answer of an unknown one. *)
Example lonely_message_looks_the_same :
  fst (run (get_message_log parse_example iso_example "m1") ten_o_clock
         (ingest stringify_example ten_o_clock hello empty_db))
  = fst (run (get_message_log parse_example iso_example "m9") ten_o_clock
           (ingest stringify_example ten_o_clock hello empty_db)).
Proof. vm_compute. reflexivity. Qed.

(** Witness of C6: in the conversation of Ann and Bob the context of
    Bob's answer is assembled, and its transcript is made of lines of
    that context. *)
Lemma C6_transcript_witness :
  exists context,
    fst (run (getMessageContext "m2") ten_o_clock (conversation stringify_example))
    = Resolved context
    /\ exists rendered,
         Forall2 (transcript_line parse_example iso_example) rendered
           (fst (run (getChatLog parse_example iso_example "m2") ten_o_clock
                   (conversation stringify_example)))
         /\ incl rendered (context_messages context)
         /\ (Forall (renderable parse_example) (context_messages context) ->
             Permutation rendered (context_messages context)).
Proof.
  eexists. split; [vm_compute; reflexivity|].
  apply (C6_transcript_line_format parse_example iso_example "m2" ten_o_clock
           (conversation stringify_example)).
  vm_compute. reflexivity.
Defined.

(** The two transcripts, computed: the time is the time of ingestion,
    the name of Ann her global name, the name of Bob his username. *)
Example transcript_computed :
  fst (run (getChatLog parse_example iso_example "m2") ten_o_clock
         (conversation stringify_example))
  = ["[10:00] Ann: hello"]
  /\ fst (run (getChatLog parse_example iso_example "m1") ten_o_clock
            (conversation stringify_example))
     = ["[10:05] bob: hi Ann"].
Proof. vm_compute. split; reflexivity. Qed.

(** Witness of C7: lookups on the empty database. *)
Lemma C7_read_api_witness :
  fst (run (get_message "m1") ten_o_clock empty_db)
  = status_response 404 (ErrorBody "Message not found")
  /\ fst (run (get_author "u1") ten_o_clock empty_db)
     = status_response 404 (ErrorBody "Author not found")
  /\ fst (run (get_attachments "m1") ten_o_clock empty_db) = json_response (AttachmentsBody [])
  /\ fst (run (get_member "m1") ten_o_clock empty_db) = json_response (MemberBody None).
Proof.
  destruct (C7_only_singular_lookups_respond_not_found "m1" ten_o_clock empty_db eq_refl)
    as (H1 & H2 & _ & _ & _ & H6 & _ & _ & _ & H10 & _).
  split; [|split; [|split]]; [apply H1 | apply H2 | apply H6 | apply H10]; intros r [].
Defined.

(** C7 as stated fails: on the empty database, where nothing matches,
    not every lookup other than the two singular ones answers with an
    empty list: the lookup of the member of a message answers [{member:
    undefined}]. *)
Lemma C7_member_lookup_answers_no_list :
  ~ (forall endpoint param,
       singular_lookup endpoint = false ->
       empty_list_body (body (fst (run (read_endpoint endpoint param) ten_o_clock empty_db)))
       = true).
Proof.
  intros H. specialize (H MemberOf "m1" eq_refl). vm_compute in H. discriminate.
Qed.

(** Witness of C9: after an ingestion and a generation of insights for
    its author, the table is empty and the read endpoint says so. *)
Lemma C9_user_insights_witness :
  user_insights (after_generation stringify_example parse_example iso_example) = []
  /\ fst (run (get_user_insights "u1") ten_o_clock
            (after_generation stringify_example parse_example iso_example))
     = json_response (NoInsightsBody "u1").
Proof.
  destruct (C9_user_insights_stay_empty stringify_example parse_example iso_example
              (after_generation stringify_example parse_example iso_example))
    as (H1 & _ & H3).
  - apply reachable_request, reachable_request, reachable_empty.
  - split; [exact H1 | apply H3; reflexivity].
Defined.

(** GET /message-context/:messageId is no lookup of the read API: on an
    unknown id it answers 500 with the message of the rejection. *)
Example context_endpoint_on_unknown_id :
  fst (run (get_message_context "m9") ten_o_clock empty_db)
  = status_response 500 (ErrorBody "Message not found").
Proof. reflexivity. Qed.

(** The text forwarded to the classifier for two texts, for one, and
    for none. *)
Example classifier_texts_computed :
  Array_join ["one"; "two"] LF = ("one" ++ LF ++ "two")%string
  /\ Array_join ["one"] LF = "one"
  /\ Array_join [] LF = "".
Proof. repeat split. Qed.

(** Witness of X1: "m1" is ingested again, edited, into the database of
    the conversation; its lookup shows the edited content and Ann. *)
Lemma X1_served_back_witness :
  exists detail,
    fst (run (get_message "m1") ten_o_clock
           (ingest stringify_example five_past_ten hello_edited
              (conversation stringify_example)))
    = json_response (MessageDetailBody detail)
    /\ messages_content (m (detail_message detail)) = Some "hello, world"
    /\ username (detail_message detail) = Some "ann"
    /\ globalName (detail_message detail) = Some "Ann".
Proof.
  destruct (X1_ingested_message_is_served_back stringify_example
              hello_edited hello_edited_message "m1" five_past_ten ten_o_clock
              (conversation stringify_example) eq_refl eq_refl)
    as (detail & H1 & H2 & H3 & _); try reflexivity; try discriminate.
  exists detail. split; [exact H1|]. split; [rewrite H2; reflexivity|].
  destruct (H3 _ eq_refl eq_refl) as (Hu & _ & Hg). split; [exact Hu | exact Hg].
Defined.

(** Witness of X3: the author statement and the statement of Ann's
    message both fail: 500, two statements, two console lines, one of
    them the failure of the message, and an empty database. *)
Lemma X3_failed_message_witness :
  let result := run (post_messages stringify_example hello)
                  (faulty "2025-01-01 10:00:00" [0; 1]) empty_db in
  fst result = Some (status_response 500 (SuccessFalse "SQLITE_BUSY"))
  /\ st_clock (snd result) = 2
  /\ st_db (snd result) = empty_db
  /\ In {| console_label := "Failed to insert message:"; console_detail := "SQLITE_BUSY" |}
       (st_console (snd result))
  /\ length (st_console (snd result)) = 2.
Proof.
  exact (X3_failed_message_statement_keeps_the_author stringify_example
           hello hello_message (faulty "2025-01-01 10:00:00" [0; 1]) empty_db "SQLITE_BUSY"
           eq_refl eq_refl eq_refl).
Defined.

(** Witness of X4: Bob's reply "m2" is ingested twice, under two
    nicknames: the members table holds the second one only, and so does
    the lookup. *)
Lemma X4_one_member_witness :
  let d' := ingest stringify_example five_past_ten (reply_envelope "m1" "m2" "Bobby")
              (ingest stringify_example ten_o_clock (reply_envelope "m1" "m2" "bob")
                 empty_db) in
  map members_nick (members d') = [Some "Bobby"]
  /\ fst (run (get_member "m2") ten_o_clock d')
     = json_response (MemberBody (Some (memberValues stringify_example (Some "m2")
                                          (sample_member "Bobby"))))
  /\ map message_references_ref_message_id (message_references d') = [Some "m1"].
Proof.
  destruct (X4_member_and_reference_are_one_per_message stringify_example
              (reply_envelope "m1" "m2" "Bobby") (reply_to "m1" "m2" "Bobby") "m2"
              five_past_ten ten_o_clock
              (ingest stringify_example ten_o_clock (reply_envelope "m1" "m2" "bob") empty_db)
              eq_refl eq_refl ltac:(discriminate)
              (conj eq_refl (conj eq_refl (conj eq_refl eq_refl))))
    as (Hmem & Href); try reflexivity.
  destruct (Hmem _ eq_refl eq_refl) as (_ & Hget & _).
  cbv zeta. split; [vm_compute; reflexivity|]. split; [exact Hget|].
  vm_compute; reflexivity.
Defined.

(** Witness of X5: "m2" and then "m3" reply to "m1": the one row of the
    original belongs to "m3", and the lookup for "m2" finds nothing. *)
Lemma X5_last_reply_witness :
  let d' := ingest stringify_example five_past_ten (reply_envelope "m1" "m3" "carl")
              (ingest stringify_example ten_o_clock (reply_envelope "m1" "m2" "bob")
                 empty_db) in
  map referenced_messages_parent_message_id (referenced_messages d') = [Some "m3"]
  /\ filter (fun r => Sql.eq (referenced_messages_id r) (Some "m1")) (referenced_messages d')
     = [refMsgValues (Some "m3") (sample_original "m1" "hello")]
  /\ fst (run (get_referenced_message "m2") ten_o_clock d')
     = json_response (ReferencedMessageBody None).
Proof.
  destruct (X5_referenced_message_belongs_to_the_last_reply stringify_example
              (reply_envelope "m1" "m3" "carl") (reply_to "m1" "m3" "carl") "m3" "m1"
              (sample_original "m1" "hello") five_past_ten
              (ingest stringify_example ten_o_clock (reply_envelope "m1" "m2" "bob") empty_db)
              eq_refl eq_refl ltac:(discriminate)
              (conj eq_refl (conj eq_refl (conj eq_refl eq_refl))))
    as (Hrows & _); try reflexivity; try discriminate.
  cbv zeta. split; [vm_compute; reflexivity|]. split; [exact Hrows|].
  vm_compute; reflexivity.
Defined.

(** Witness of X6: Ann's message ingested twice, the second time edited:
    the keys hold, with one message row and two attachment rows. *)
Lemma X6_primary_keys_witness :
  let served := handle stringify_example parse_example iso_example in
  let d := st_db (snd (run (served (POST_messages hello_edited)) five_past_ten
                         (st_db (snd (run (served (POST_messages hello)) ten_o_clock
                                        empty_db))))) in
  primary_keys d
  /\ length (messages d) = 1
  /\ map attachments_id (attachments d) = [1%Z; 2%Z].
Proof.
  cbv zeta. split.
  - apply (X6_primary_keys_hold_in_reachable_databases
             stringify_example parse_example iso_example).
    apply reachable_request, reachable_request, reachable_empty.
  - split; vm_compute; reflexivity.
Defined.

(** Witness of X7: Ann's message, Bob's reply to it and a lookup: every
    child row belongs to a stored message. *)
Lemma X7_foreign_keys_witness :
  let served := handle stringify_example parse_example iso_example in
  let d := st_db (snd (run (served (GET_message "m2")) ten_o_clock
             (st_db (snd (run (served (POST_messages (reply_envelope "m1" "m2" "bob")))
                            five_past_ten
                            (st_db (snd (run (served (POST_messages hello)) ten_o_clock
                                           empty_db)))))))) in
  children_have_parents d
  /\ map members_message_id (members d) = [Some "m2"]
  /\ map messages_id (messages d) = [Some "m1"; Some "m2"].
Proof.
  cbv zeta. split.
  - apply (X7_children_belong_to_stored_messages
             stringify_example parse_example iso_example).
    apply reachable_request, reachable_request, reachable_request, reachable_empty.
  - split; vm_compute; reflexivity.
Defined.

(** Witness of X8: generating the insights of Ann leaves the database of
    the conversation as it is. *)
Lemma X8_generation_writes_nothing_witness :
  st_db (snd (run (handle stringify_example parse_example iso_example
                     (POST_user_insights "u1"))
                ten_o_clock (conversation stringify_example)))
  = conversation stringify_example.
Proof.
  exact (X8_only_the_ingestion_writes stringify_example parse_example iso_example
           (POST_user_insights "u1") ten_o_clock (conversation stringify_example) eq_refl).
Defined.

(** Witness of X9: the lookup of Ann's message while its attachments and
    members queries fail: 200, the two errors in their slots, the embeds
    as an empty list. *)
Lemma X9_message_detail_witness :
  let result := run (get_message "m1") (faulty "2025-01-01 10:10:00" [1; 4])
                  (ingest stringify_example ten_o_clock hello empty_db) in
  exists detail,
    fst result = json_response (MessageDetailBody detail)
    /\ detail_attachments detail = inl "SQLITE_BUSY"
    /\ detail_embeds detail = inr []
    /\ detail_member detail = inl "SQLITE_BUSY"
    /\ st_clock (snd result) = 8.
Proof.
  destruct (X9_message_detail_reports_each_query_on_its_own "m1"
              (faulty "2025-01-01 10:10:00" [1; 4])
              (ingest stringify_example ten_o_clock hello empty_db)
              (msgValues hello hello_message (now ten_o_clock)))
    as (message & Hr & _ & _ & Hc & _);
    [reflexivity | left; reflexivity | reflexivity |].
  cbv zeta. eexists. split; [exact Hr|].
  split; [reflexivity|]. split; [reflexivity|]. split; [reflexivity | exact Hc].
Defined.

(** Witness of X10: the lookup of an author while the store is busy. *)
Lemma X10_failed_query_witness :
  fst (run (handle stringify_example parse_example iso_example (GET_author "u1"))
         (faulty "2025-01-01 10:10:00" [0]) (conversation stringify_example))
  = Some (status_response 500 (ErrorBody "SQLITE_BUSY")).
Proof.
  exact (proj1 (X10_failed_query_is_answered_500 stringify_example parse_example iso_example
                  (GET_author "u1") (faulty "2025-01-01 10:10:00" [0])
                  (conversation stringify_example) "SQLITE_BUSY" eq_refl eq_refl)).
Defined.

(** Witness of X11: the conversation, listed: Bob's answer, stored at
    10:05, comes before Ann's message, stored at 10:00; the authors come
    by username. *)
Lemma X11_list_endpoints_witness :
  exists rows,
    fst (run get_messages ten_o_clock (conversation stringify_example))
    = json_response (MessagesBody rows)
    /\ map (fun row => messages_id (m row)) rows = [Some "m2"; Some "m1"]
    /\ ordered by_created_at_desc rows.
Proof.
  destruct (X11_list_endpoints_are_ordered_rearrangements "u1" ten_o_clock
              (conversation stringify_example) eq_refl)
    as ((rows & Hr & _ & Ho & _) & _).
  exists rows. split; [exact Hr|]. split; [|exact Ho].
  assert (H : json_response (MessagesBody rows)
              = json_response (MessagesBody
                  (Sql.order_by_desc (fun row => messages_created_at (m row))
                     (messages_with_authors (conversation stringify_example)))))
    by (rewrite <- Hr; reflexivity).
  inversion H. reflexivity.
Defined.

(** Witness of X12: the insights of Eve, whose one message has no
    timestamp: one message, one channel, one bundle, and Dan's message at
    the epoch as its related message. *)
Lemma X12_generated_insights_witness :
  let result := run (post_user_insights parse_example iso_example "u3") ten_o_clock
                  (at_the_epoch stringify_example) in
  exists bundles,
    fst result
    = json_response (GeneratedBody "u3" 1
                       [{| insight_name := "message_count"; insight_value := "1" |};
                        {| insight_name := "channels_posted_in"; insight_value := "1" |}]
                       bundles)
    /\ map (fun b => messages_id (with_message b)) bundles = [Some "e1"]
    /\ map (fun b => map (fun r => messages_id (related_m r)) (related_messages b)) bundles
       = [[Some "e2"]]
    /\ Forall (fun b => Forall (related_to parse_example iso_example
                               (at_the_epoch stringify_example) (with_message b))
                        (related_messages b)) bundles
    /\ st_clock (snd result) = 2.
Proof.
  cbv zeta. eexists. split; [vm_compute; reflexivity|].
  split; [vm_compute; reflexivity|]. split; [vm_compute; reflexivity|].
  destruct (X12_generated_insights_describe_the_messages_of_the_user
              parse_example iso_example "u3" "u3" ten_o_clock
              (at_the_epoch stringify_example) 1 _ _ eq_refl)
    as (_ & _ & _ & _ & _ & _ & _ & _ & Hc & Hr).
  split; [exact Hr | exact Hc].
Defined.

(** Witness of X13: no string is a date for the runtime of the examples,
    so the timestamp of Ann's message is none, and the generation of her
    insights fails. *)
Lemma X13_undated_message_witness :
  fst (run (post_user_insights parse_example iso_example "u1") ten_o_clock
         (conversation stringify_example))
  = status_response 500 (ErrorBody "Invalid time value").
Proof.
  apply (X13_one_undated_message_fails_the_generation parse_example iso_example
           "u1" ten_o_clock (conversation stringify_example)
           (msgValues hello hello_message (now ten_o_clock))).
  - reflexivity.
  - left. reflexivity.
  - intros (before & after & H & _). discriminate H.
Defined.

(** Witness of X14: the transcript of the message at 12:01 among the
    three messages: its two context rows, each rendered. *)
Lemma X14_transcript_witness :
  let chatLog := fst (run (getChatLog parse_example iso_example "m1") ten_o_clock
                        (three_messages stringify_example)) in
  length chatLog = 2
  /\ exists sorted,
       Permutation sorted (contextSql (Some "c1") "m1" (three_messages stringify_example))
       /\ ordered (in_time_order parse_example) sorted.
Proof.
  cbv zeta. split; [vm_compute; reflexivity|].
  destruct (X14_transcript_is_all_of_the_context_in_time_order_or_nothing
              parse_example iso_example "m1" ten_o_clock (three_messages stringify_example)
              _ eq_refl) as (sorted & Hp & Ho & _).
  exists sorted. split; [exact Hp | exact Ho].
Defined.

(** Witness of X17: Ann posts "m3" under her new global name: her first
    message "m1" is read with the new name too. *)
Lemma X17_author_columns_witness :
  let d' := ingest stringify_example five_past_ten renamed
              (ingest stringify_example ten_o_clock hello empty_db) in
  map (fun row => (messages_id (m row), globalName row)) (messages_with_authors d')
  = [(Some "m1", Some "Annie"); (Some "m3", Some "Annie")]
  /\ Forall (fun row => shows_author row annie) (messages_with_authors d').
Proof.
  cbv zeta. split; [vm_compute; reflexivity|].
  apply Forall_forall. intros row Hin.
  apply (X17_author_columns_follow_the_last_upsert stringify_example renamed
           (sample_message "m3" "bye" "2025-01-01T10:06:00.000Z" (Some annie) None)
           annie five_past_ten (ingest stringify_example ten_o_clock hello empty_db) row);
    try reflexivity; [exact Hin|].
  vm_compute in Hin. destruct Hin as [<-|[<-|[]]]; reflexivity.
Defined.

(** Witness of X18: the message with three attachments is ingested while
    the store is busy, then again: two rows, then three more, one for each
    of the three attachments. *)
Lemma X18_appended_children_witness :
  let envelope := sample_envelope "c1" (Some three_files) in
  let d1 := ingest stringify_example busy envelope empty_db in
  let d2 := ingest stringify_example five_past_ten envelope d1 in
  length (attachments_of "m1" d1) = 2
  /\ length (attachments_of "m1" d2) = 2 + 3
  /\ added attachments attachments_message_id (attachment_of (Some "m1")) (Some "m1")
       [sample_attachment "a1" "one.png"; sample_attachment "a2" "two.png";
        sample_attachment "a3" "three.png"] d1 d2.
Proof.
  cbv zeta.
  destruct (X18_ingestion_appends_one_row_per_successful_child stringify_example
              (sample_envelope "c1" (Some three_files)) three_files "m1" five_past_ten
              (ingest stringify_example busy (sample_envelope "c1" (Some three_files))
                 empty_db)
              eq_refl eq_refl ltac:(discriminate)
              (conj eq_refl (conj eq_refl (conj eq_refl eq_refl))) eq_refl)
    as (Hadd & _ & _ & _ & Hlen & _).
  split; [vm_compute; reflexivity|]. split; [exact Hlen | exact Hadd].
Defined.

(** Witness of X19: Bob's reply is ingested after Ann's message: what is
    stored under "m1" is the same before and after. *)
Lemma X19_other_messages_witness :
  let d := ingest stringify_example ten_o_clock hello empty_db in
  same_for "m1" d (ingest stringify_example five_past_ten (reply_envelope "m1" "m2" "bob") d)
  /\ length (attachments_of "m1" d) = 1.
Proof.
  cbv zeta. split; [|vm_compute; reflexivity].
  apply (X19_ingestion_leaves_other_messages_alone stringify_example
           (reply_envelope "m1" "m2" "bob") "m1" five_past_ten
           (ingest stringify_example ten_o_clock hello empty_db)).
  intros message Hm. inversion Hm; subst message. discriminate.
Defined.

(** Witness of X20: twelve messages of "u1", with a call without user,
    a call for "u2" and an empty message in between: the recent messages
    of "u1" are the third to the twelfth. *)
Lemma X20_recent_messages_witness :
  ToneIndicator.getRecentUserMessages (Some "u1")
    (after_calls
       (map (fun n => (Some "u1", numbered n)) (seq 1 6)
        ++ [(None, "x"); (Some "u2", "hi"); (Some "u1", "")]
        ++ map (fun n => (Some "u1", numbered n)) (seq 7 6))
       (ToneIndicator.started []))
  = map numbered (seq 3 10).
Proof.
  destruct (X20_recent_messages_are_the_last_ten_of_the_user "u1"
              (map (fun n => (Some "u1", numbered n)) (seq 1 6)
               ++ [(None, "x"); (Some "u2", "hi"); (Some "u1", "")]
               ++ map (fun n => (Some "u1", numbered n)) (seq 7 6))
              []) as (H & _); [discriminate|].
  cbv zeta in H. rewrite H. vm_compute. reflexivity.
Defined.

(** Witness of X22: Ann's message arrives in a fresh session and is
    posted to the server; a second message of Ann arrives before the
    server answers; whatever the server then answers to the first, the
    classifier is sent both messages. *)
Lemma X22_new_message_witness :
  let second := sample_envelope "c1"
                  (Some (sample_message "m2" "again" "2025-01-01T10:00:30.000Z"
                           (Some (sample_author "u1" "ann" (Some "Ann"))) None)) in
  let b1 := ToneIndicator.turn (ToneIndicator.MESSAGE_CREATE hello) (ToneIndicator.opened []) in
  let pending := ToneIndicator.session [ToneIndicator.MESSAGE_CREATE second] b1 in
  ToneIndicator.fetched b1 = [ToneIndicator.PostMessages hello]
  /\ forall ok data,
       ToneIndicator.fetched
         (ToneIndicator.turn (ToneIndicator.Settled 0 (ToneIndicator.Response ok data))
            pending)
       = [ToneIndicator.PostMessages hello; ToneIndicator.PostMessages second;
          ToneIndicator.PostClassifier ["hello"; "again"]].
Proof.
  destruct (X22_new_message_is_classified_whatever_the_server_answers [] []
              hello hello_message "hello" eq_refl eq_refl)
    as (H1 & _ & _ & H4 & _); [discriminate | intros [] |].
  cbv zeta. split; [exact H1|].
  intros ok data.
  destruct (H4 [ToneIndicator.MESSAGE_CREATE
                  (sample_envelope "c1"
                     (Some (sample_message "m2" "again" "2025-01-01T10:00:30.000Z"
                              (Some (sample_author "u1" "ann" (Some "Ann"))) None)))]
              0 ok data eq_refl) as (text & Hf & _ & Ht).
  destruct (Ht "u1" eq_refl) as (earlier & He & -> & _); [discriminate|].
  refine (eq_trans Hf _).
  change (ToneIndicator.getRecentUserMessages _ _) with ([] ++ ["hello"]) in He.
  apply app_inj_tail in He. destruct He as [<- _].
  vm_compute. reflexivity.
Defined.

(** Witness of X23: the classifier answers for Ann's message with a label
    and a score: the message gets its tone. *)
Lemma X23_tone_witness :
  let b := ToneIndicator.session
             [ToneIndicator.MESSAGE_CREATE hello;
              ToneIndicator.Settled 0 (ToneIndicator.Response true (Resolved None))]
             (ToneIndicator.opened []) in
  let first := {| ToneIndicator.label := Some "HUMAN_WRITTEN";
                  ToneIndicator.score := Resolved "0.94" |} in
  ToneIndicator.Map_get (Some "m1")
    (ToneIndicator.messageTones
       (ToneIndicator.plugin
          (ToneIndicator.turn
             (ToneIndicator.Settled 0 (ToneIndicator.Response true (Resolved (Some first))))
             b)))
  = Some {| ToneIndicator.tone_type := Some "HUMAN_WRITTEN";
            ToneIndicator.tone_score := "0.94";
            ToneIndicator.tone_display := "HUMAN_WRITTEN (0.94)" |}.
Proof.
  cbv zeta.
  destruct (X23_tone_is_set_exactly_on_a_classification
              (ToneIndicator.session
                 [ToneIndicator.MESSAGE_CREATE hello;
                  ToneIndicator.Settled 0 (ToneIndicator.Response true (Resolved None))]
                 (ToneIndicator.opened []))
              0 (Some "m1") false
              (ToneIndicator.Response true
                 (Resolved (Some {| ToneIndicator.label := Some "HUMAN_WRITTEN";
                                    ToneIndicator.score := Resolved "0.94" |})))
              eq_refl) as (_ & H & _).
  destruct (H _ "0.94" eq_refl eq_refl) as (Hget & _). exact Hget.
Defined.

(** A session, computed: two messages of Ann and one without content
    arrive, the second registration fails on the network, and the replies
    come back out of order: two registrations, one classification request
    with both messages of Ann, one tone. *)
Example session_computed :
  let second := sample_envelope "c1"
                  (Some (sample_message "m2" "again" "2025-01-01T10:00:30.000Z"
                           (Some (sample_author "u1" "ann" (Some "Ann"))) None)) in
  let silent := sample_envelope "c1"
                  (Some (sample_message "m3" "" "2025-01-01T10:00:40.000Z"
                           (Some (sample_author "u1" "ann" (Some "Ann"))) None)) in
  let first := {| ToneIndicator.label := Some "MACHINE_GENERATED";
                  ToneIndicator.score := Resolved "0.71" |} in
  let b := ToneIndicator.session
             [ToneIndicator.MESSAGE_CREATE hello;
              ToneIndicator.MESSAGE_CREATE second;
              ToneIndicator.MESSAGE_CREATE silent;
              ToneIndicator.MESSAGE_CREATE hello;
              ToneIndicator.Settled 1 ToneIndicator.NetworkError;
              ToneIndicator.Settled 0 (ToneIndicator.Response false (Resolved None));
              ToneIndicator.Settled 0 (ToneIndicator.Response true (Resolved (Some first)))]
             (ToneIndicator.opened []) in
  ToneIndicator.fetched b
  = [ToneIndicator.PostMessages hello; ToneIndicator.PostMessages second;
     ToneIndicator.PostClassifier ["hello"; "again"]]
  /\ ToneIndicator.processedMessages (ToneIndicator.plugin b) = [Some "m1"; Some "m2"]
  /\ map fst (ToneIndicator.messageTones (ToneIndicator.plugin b)) = [Some "m1"]
  /\ ToneIndicator.awaiting b = []
  /\ ToneIndicator.errors b = ["[ToneIndicator] Error processing message:"].
Proof. vm_compute. repeat split. Qed.

(** Twelve messages to process make three batches, of five, five and
    two, with a delay after the first two. *)
Example batches_computed :
  map (fun turn => (length (fst turn), snd turn)) (ToneIndicator.batches (seq 1 12))
  = [(5, true); (5, true); (2, false)].
Proof. reflexivity. Qed.

(** Witness of X26: a message of "u1" found on the page in a fresh
    session: one request to the classifier with its text, none to POST
    /messages, and the MESSAGE_CREATE of a message with its id is then
    ignored. *)
Lemma X26_existing_message_witness :
  let found := Some {| ToneIndicator.textContent := Some "hello";
                       ToneIndicator.data_author_id := Some "u1" |} in
  let b1 := ToneIndicator.turn (ToneIndicator.Existing "m1" found) (ToneIndicator.opened []) in
  ToneIndicator.fetched b1 = [ToneIndicator.PostClassifier ["hello"]]
  /\ registrations (ToneIndicator.fetched b1) = []
  /\ ToneIndicator.turn (ToneIndicator.MESSAGE_CREATE hello) b1 = b1.
Proof.
  cbv zeta.
  destruct (X26_existing_message_is_handled_once_and_never_registered [] [] "m1"
              (Some {| ToneIndicator.textContent := Some "hello";
                       ToneIndicator.data_author_id := Some "u1" |}))
    as (_ & _ & Hnew & Hreg & _); [intros []|].
  split; [reflexivity|]. split; [exact Hreg|].
  exact (Hnew hello hello_message eq_refl eq_refl).
Defined.

(** Witness of X27: Ann's message and Bob's answer arrive, Ann's message
    a second time too; the requests reach the server in the reverse
    order: two rows, Bob's first. *)
Lemma X27_registered_messages_witness :
  let b := ToneIndicator.session
             [ToneIndicator.MESSAGE_CREATE hello;
              ToneIndicator.MESSAGE_CREATE reply;
              ToneIndicator.MESSAGE_CREATE hello;
              ToneIndicator.Settled 0 (ToneIndicator.Response true (Resolved None))]
             (ToneIndicator.opened []) in
  let d := deliver stringify_example ten_o_clock (rev (ToneIndicator.fetched b)) empty_db in
  map messages_id (messages d) = [Some "m2"; Some "m1"]
  /\ NoDup (map messages_id (messages d)).
Proof.
  cbv zeta.
  destruct (X27_the_server_stores_one_row_per_registered_message stringify_example []
              [ToneIndicator.MESSAGE_CREATE hello;
               ToneIndicator.MESSAGE_CREATE reply;
               ToneIndicator.MESSAGE_CREATE hello;
               ToneIndicator.Settled 0 (ToneIndicator.Response true (Resolved None))]
              ten_o_clock
              (rev (ToneIndicator.fetched
                      (ToneIndicator.session
                         [ToneIndicator.MESSAGE_CREATE hello;
                          ToneIndicator.MESSAGE_CREATE reply;
                          ToneIndicator.MESSAGE_CREATE hello;
                          ToneIndicator.Settled 0
                            (ToneIndicator.Response true (Resolved None))]
                         (ToneIndicator.opened [])))))
    as (Hrows & Hnd & _).
  - reflexivity.
  - vm_compute. repeat constructor.
  - apply Permutation_sym, Permutation_rev.
  - split; [rewrite Hrows; vm_compute; reflexivity | exact Hnd].
Defined.

(** Witness of X28: the three messages sent at noon were ingested at
    ten o'clock; the transcript of the one at 12:01 shows 10:00 on both of
    its lines, and ingesting Ann's message five minutes later leaves every
    row with its time. *)
Lemma X28_time_of_ingestion_witness :
  let d := three_messages stringify_example in
  let chatLog := fst (run (getChatLog parse_example iso_example "m1") ten_o_clock d) in
  stamped d
  /\ stamped (st_db (snd (run (handle stringify_example parse_example iso_example
                                 (POST_messages hello))
                            five_past_ten d)))
  /\ map (substring 0 7) chatLog = ["[10:00]"; "[10:00]"]
  /\ exists sorted, Forall2 line_at_created_at sorted chatLog.
Proof.
  cbv zeta.
  assert (Hs : stamped (three_messages stringify_example)).
  { intros row Hin. vm_compute in Hin.
    destruct Hin as [<-|[<-|[<-|[]]]]; eexists; (split; [reflexivity | discriminate]). }
  destruct (X28_transcript_shows_the_time_of_ingestion stringify_example parse_example
              iso_example (three_messages stringify_example) Hs) as [Hkeeps Hlog].
  split; [exact Hs|]. split; [apply Hkeeps; discriminate|].
  split; [vm_compute; reflexivity|].
  destruct (Hlog "m1" ten_o_clock _ eq_refl) as (_ & sorted & _ & _ & Hf).
  exists sorted. exact Hf.
Defined.
